(* ===== verification/_CoqProject ===== *)
-Q . S2P
Prelude.v
RustStr.v
Clock.v
Exceptions.v
RouteResolver.v
Http.v
Forwarded.v
Config.v
HttpUtils.v
CrankerProtocol.v
Frames.v
ConnectInfo.v
FlowControl.v
FlowBounds.v
Farm.v
Cancellation.v
FarmTraces.v
FarmSpec.v
FarmService.v
FarmSelect.v
SocketBase.v
SocketV1.v
SocketV1Props.v
SocketV3.v
SocketV3Props.v
Upload.v
Exchange.v
Listeners.v
ExchangeV1.v
Pipes.v
Timers.v
SocketV1Traces.v
SocketV3Traces.v
Router.v
Waiting.v
EndToEnd.v
EndToEndV1.v
RouterInfo.v
System.v
Lifecycle.v
InfoJson.v
ProxyInfo.v
Routing.v
Servers.v
Mains.v
RepoTests.v
