(* ===== verification/Prelude.v ===== *)
(** * Verification of scr-axum-cranker-router

    The router is a reverse proxy without outgoing connections: _connectors_
    open websockets to it and register a route and a domain; the router passes
    the HTTP requests of its clients over these websockets to the services
    behind the connectors.  This library models the logic of the crate (the
    files of src/src/) and what its example servers (src/examples/) add to it as
    Rocq functions and proves what makes it correct.

    ** The parts of the program and the files that model them

    A client request enters in lib.rs, asks the pool of sockets
    (websocket_farm.rs) for a socket of its route (route_resolver.rs,
    router_socket_filter.rs), and is sent over that socket: its headers are
    rewritten (http_utils.rs), printed as protocol text
    (cranker_protocol_request_builder.rs) and sent as one message on a websocket
    of version 1 (router_socket_v1.rs) or cut into binary frames on one of
    version 3 (router_socket_v3.rs); what comes back carries the response text
    (cranker_protocol_response.rs) and body.  Two tasks per websocket
    (router_socket.rs) read it and write it.  Errors are values of exceptions.rs
    until they become an HTTP response.

    - [Prelude]: byte strings, [result], [outcome] (a value or a panic), their
      notations, machine integers, generic lemmas on lists and maps.
    - [RustStr]: the string functions of the Rust standard library the code
      calls.
    - [Clock]: time_utils.rs, the reading of the system clock.
    - [Exceptions]: exceptions.rs, [CrankerRouterException] with its
      composition and [IntoResponse].
    - [RouteResolver]: route_resolver.rs; module [LongestFirst] holds the
      longest-first resolver, and the file its specification.
    - [Http]: the interface of the http crate's [HeaderMap] as a class of
      operations and a class of laws, and one implementation of them.
    - [Forwarded]: http_utils.rs, the parser and printer of the [Forwarded]
      header.
    - [Config]: the constants and header sets of lib.rs, the configuration and
      its builder, and the default of ip_validator.rs.
    - [HttpUtils]: http_utils.rs, [set_target_request_headers] and all it calls.
    - [CrankerProtocol]: cranker_protocol_request_builder.rs,
      cranker_protocol_response.rs and [create_request_line] of router_socket.rs.
    - [Frames]: the binary frames of router_socket_v3.rs.
    - [ConnectInfo]: connect_info.rs, axum_server_tls.rs and http3_quinn.rs, the
      metadata of a connection on its way from the three kinds of server to the
      portal.
    - [FlowControl]: the flow control of [RequestContext] in
      router_socket_v3.rs, once as functions and once, in module
      [Interleaved], as two tasks with one atomic operation per step.
    - [FlowBounds]: how many bytes can be on their way, over the same steps.
    - [Farm]: websocket_farm.rs with dark_host.rs and router_socket_filter.rs.
      The class [RouterSocket] is the trait of the sockets as the farm uses it;
      [RouterSocketLaws] is what it relies on.
    - [Cancellation]: the filter loop of the farm one await at a time, with the
      [SocketGuard] that keeps the socket of a request that is dropped.
    - [FarmTraces]: histories of the farm, all its operations in any order, dropped
      requests included.
    - [FarmSpec]: the pool of sockets as its users see it, an abstract transition
      system that the farm refines.
    - [FarmService]: what the farm provides (round robin, dark mode, cleaning,
      de-registration) and concrete farms.
    - [FarmSelect]: a reference selection without a loop and its equivalence with
      the loop of the farm.
    - [SocketBase]: channels, websocket messages and the hooks of
      proxy_listener.rs, for both versions.
    - [SocketV1]: the state and handlers of [RouterSocketV1]
      (router_socket_v1.rs), with its instance of [RouterSocket].
    - [SocketV1Props]: the properties of these handlers.
    - [SocketV3]: the state and handlers of [RouterSocketV3]
      (router_socket_v3.rs).
    - [SocketV3Props]: the instance of [RouterSocket] for version 3 sockets and
      the properties of the handlers.
    - [Upload]: a request with a body that is sent under flow control to a connector
      that acknowledges it.
    - [Exchange], [ExchangeV1]: a whole request and response over a socket of
      version 3 and of version 1.
    - [Listeners]: the default listener of proxy_listener.rs and the listener of the
      examples, and why listeners that only observe change nothing on version 3.
    - [Pipes]: the reading and the writing task of router_socket.rs, over the
      class [WsSocket] (the trait of websocket_listener.rs and the part of
      [RouterSocket] the tasks use), with the instances of both versions.
    - [Timers]: both tasks with their timers on a common clock.
    - [SocketV1Traces], [SocketV3Traces]: histories of a socket, every event that
      the two tasks, the clients and the farm can cause in any order.
    - [Router]: the handlers of lib.rs (portal, registration, de-registration,
      version negotiation) and [harvest_router_socket]; [AnySocket] is a socket
      of either version.
    - [Waiting]: requests that wait for a socket, who serves them, and how a request
      whose route is cleaned away meanwhile is left without one.
    - [EndToEnd], [EndToEndV1]: from the registration of a connector of version 3
      and of version 1 to the answer of a client, through farm, portal and socket.
    - [RouterInfo]: router_info.rs, the summary for the health endpoint.
    - [System]: histories of the whole router: registrations, requests, events of
      the sockets, background tasks, cleaning, dark mode, dropped requests and
      stop, in any order.
    - [Lifecycle]: building a router, the cleaning task, [stop], the health
      endpoints and the registration route of lib.rs; module [DarkMode] is
      dark_mode_manager.rs.
    - [InfoJson]: the JSON values of the health and dark mode endpoints.
    - [ProxyInfo]: proxy_info.rs and route_identify.rs with their implementations,
      the report of a request without a socket, the guarded body of a response and
      [Drop] of the sockets.
    - [Routing]: the routing tables of lib.rs and of the examples.
    - [Servers]: the example servers; modules [Unified]
      (unified_router_server.rs), [Redirect] (tls_single_domain_server.rs), [Http3]
      (h3_server.rs) and [TestEnv].
    - [Mains]: what the [main] functions of the examples build, serve on their ports
      and do when they are stopped.
    - [RepoTests]: the tests of the repository, run on the model.

    ** What the theorems show

    - The router as a whole: every state it can reach is well formed (each
      registered socket exists under its own route and id, channels hold sockets
      of their route, the channels that the map has exist, the request tables of the
      sockets are consistent), and no
      request is given a socket of a route other than its own or the catch-all
      one.  A service that is registered answers, with either version of the
      protocol: a client request, with its body, goes out over the new websocket
      and the client gets exactly the answer of the connector, also when the
      request came first and had to wait (unless its route was cleaned away).
    - The farm: whatever happens to it in whatever order is a behaviour of an
      abstract pool of sockets; a socket handed to a request is alive, not removed and not dark,
      whatever happens while the request waits; a version 1 socket serves at
      most one request; a turn of the selection neither loses nor duplicates
      sockets and computes the reference selection; an eligible socket is found at
      once, and on the catch-all route any usable one if none is eligible; a request
      that waits is served by the next registration it can use, as long as the map
      has the channel it waits on, and by none at all once its route was cleaned
      away; a request fails with 503 only when no usable socket is left in the
      channel it holds or in the catch-all one; a request that is
      dropped in its search loses no socket, but stays counted as waiting; version
      3 sockets are used in turn; the idle count is the number of registered
      sockets up to an exactly stated error; cleaning, dark mode and
      de-registration do what they are meant to, except for active sockets, where
      the deviation is proved.
    - The multiplexed socket: frames of a response arrive at the client's
      channels byte for byte, and those that are not empty are acknowledged; the
      frames of a request leave in order, ended by one end-of-stream frame; a frame
      touches only its own request except in one case; a closed websocket ends every
      request, with an error behind what was sent in both its channels unless the
      close is a normal one; request ids are 32-bit numbers and do not repeat within
      2^32 requests; the durations that listeners see are measured with the clock;
      listeners that only observe change nothing; a body of any size is sent completely when the
      connector acknowledges it in time; a whole exchange gives the client exactly
      the response; the one way a frame can panic the receiver.
    - The version 1 socket: the response arrives byte for byte; whatever the
      connector sends, the client gets one header text at most and no body before
      it; without a listener its socket never stops counting as active; the messages of a request leave in order; a whole exchange gives the
      client exactly the response; a close frame or an error ends
      the request.
    - The tasks: messages are written in the order in which they were queued, and an
      error ends the writing with exactly one close frame; a lost websocket is
      reported, and an error closes the websocket and tells all its clients, for
      both versions, unless its reason is cut inside a character; a connector that
      answers in time is never given up, and the read timer expires exactly when
      nothing was read for the idle timeout, also when nothing was ever read or the
      reading task has panicked.
    - The handlers: a request without a socket is answered with an error status; an
      accepted registration adds a usable socket with the
      first version both sides support; the health summary is exact, and a client
      can read it back from its JSON.
    - The life of the router: when building it panics; an idle route is kept for the
      configured time and forgotten at most as long after it; dark mode is a map
      from addresses; [stop] ends the requests in flight, with an error in both
      channels of each, and what it leaves behind; listeners hear of a
      request without a socket exactly on a timeout; the body of a response
      reports its end exactly once.
    - Connections: the portal sees the address and the encryption of the
      connection whichever server accepted it; the snapshot of the transport
      parameters can be read back; the accept loop of the TLS listener survives
      failed handshakes, that of the HTTP/3 example does not.
    - The examples: the command line of the unified server sets every setting,
      its TLS ports are in range and when they clash; where the redirection goes;
      which paths a server on one port takes away from the services; which ports the
      TLS example needs; stopping twice is stopping once.
    - Flow control: the functions refine a hysteresis counter; no interleaving
      of the sender and the acknowledging task loses a wake-up once all bytes
      are acknowledged, unless a chunk was empty; the bytes on their way
      are bounded by the high water mark, three chunks and the headers, and the
      bound is reached.
    - Headers: hop-by-hop and protocol headers, and those that the first [Connection]
      header names in lower case, are not forwarded, all others are with their values
      (of several [host] headers the last); [Via] and [Forwarded] are composed as configured
      and a client cannot spoof them when its own ones are discarded.
    - Text and frames: printing and parsing are inverse for a [Forwarded] header
      without backslashes, the request text, the response text and every kind of frame; a
      header text cut into frames is reassembled.
    - Resolving: the longest-first resolver returns the longest registered
      prefix of the path by segments.

    ** Conventions

    - Strings and byte buffers are lists of bytes; characters are groups of
      bytes ([RustStr]).  Integers are [Z]; where the code can overflow they are
      wrapped at their width ([wrap32], [wrap64]) as in a release build.
    - [Result] is [result]; a function that can panic returns an [outcome].
    - [DashMap] and [HashMap] are [gmap]s; where the code iterates over one, the
      order is that of [map_to_list], which no theorem relies on.  An
      async_channel is the list of its items with a closed flag.  Shared objects
      ([Arc], [Weak]) are pointers into a heap; so are the channels of the farm: its
      map holds their names, and a request keeps the name that it read once.
    - A task that the code spawns is recorded and run as an operation of its
      own.  Where a task waits, what other tasks do meanwhile is an argument of
      the definition.  Atomics are sequentially consistent.
    - Third-party code (the header map, listeners, printers of library errors,
      the random error id, clocks) is an argument, with laws where needed.

    ** Fuel

    [filter_loop] runs with one more unit than the channel has sockets, which
    is enough ([filter_loop_terminates]: a socket leaves the channel or is
    marked as visited at every turn); [write_it_maybe] with one more than its
    queue ([write_it_maybe_spec] gives the result of the unbounded loop);
    [from_string_loop] with the length of the text ([from_string_terminates]);
    [resolve_loop] with the length of the path ([longest_first_refines_spec]);
    the chunking of a header text with its length ([header_messages_reassemble]);
    [read_snapshot] with the three entries a snapshot can have.  The number of polls
    of [poll_n] is when a request is dropped: every number is allowed, and the
    polls come to the end of the filter loop ([dropped_request_loses_no_socket]).

    ** What is not modelled

    - The text of JSON values, which is serde_json's; the map of waiting tasks,
      which the code never fills, is only read.
    - In the tests of whole routers, the connector, a program of its own: its
      registrations and answers are inputs.
    - The TLS and QUIC handshakes, which are inputs of [ConnectInfo]; in the
      examples, the sockets of the operating system, certificates and logging.
    - Logging; and the real time that computing takes: a handler that reads the
      clock takes the time as an argument, and events of [Timers] take no time of
      their own.  In the other files what a timer does is an operation that can
      happen at any time. *)

From Stdlib Require Export Strings.Byte ZArith Lia.
From stdpp Require Export base gmap strings list numbers.

(** ** Bytes and strings

    A Rust [String]/[&str] and a [Bytes] buffer are both the list of their
    bytes; a [String] is the UTF-8 encoding of its characters. *)

Abbreviation str := (list byte).

Definition lit (s : string) : str := String.list_byte_of_string s.
Arguments lit _%_string_scope.

#[export] Instance byte_eq_decision : EqDecision byte := Byte.byte_eq_dec.

#[export] Instance byte_countable : Countable byte :=
  inj_countable Byte.to_N Byte.of_N Byte.of_to_N.

#[export] Instance byte_inhabited : Inhabited byte := populate "000"%byte.

Definition bN (b : byte) : N := Byte.to_N b.
Definition bZ (b : byte) : Z := Z.of_N (Byte.to_N b).

(** Equality of byte strings, as the [==] of the source. *)
Definition str_eqb (a b : str) : bool := bool_decide (a = b).

(** ** Fallible and panicking computations

    [result] is Rust's [Result]; [outcome] adds a panic on top of a value:
    [Panic] is a Rust [panic!], an out-of-range index or slice, or a failed
    [unwrap]. *)

Inductive result (A E : Type) : Type :=
| Ok (a : A)
| Err (e : E).
Arguments Ok {A E} a.
Arguments Err {A E} e.

Inductive outcome (A : Type) : Type :=
| Ret (a : A)
| Panic.
Arguments Ret {A} a.
Arguments Panic {A}.

Definition result_bind {A B E} (r : result A E) (k : A → result B E) : result B E :=
  match r with Ok a => k a | Err e => Err e end.

Definition outcome_bind {A B} (r : outcome A) (k : A → outcome B) : outcome B :=
  match r with Ret a => k a | Panic => Panic end.

Definition result_ok {A E} (r : result A E) : option A :=
  match r with Ok a => Some a | Err _ => None end.

Definition is_ok {A E} (r : result A E) : bool :=
  match r with Ok _ => true | Err _ => false end.

Declare Scope cranker_scope.
Delimit Scope cranker_scope with cranker.
Notation "'let?' x := r 'in' k" := (result_bind r (λ x, k))
  (at level 10, x binder, r at level 100, k at level 200) : cranker_scope.
Notation "'let!' x := r 'in' k" := (outcome_bind r (λ x, k))
  (at level 10, x binder, r at level 100, k at level 200) : cranker_scope.
Open Scope cranker_scope.

(** Rust's [Option::unwrap]. *)
Definition unwrap {A} (o : option A) : outcome A :=
  match o with Some a => Ret a | None => Panic end.

(** Rust's [a.or(b)] on options. *)
Definition opt_or {A} (a b : option A) : option A :=
  match a with Some _ => a | None => b end.

(** ** Machine integers *)

Definition i32_min : Z := -2147483648.
Definition i32_max : Z := 2147483647.
Definition u32_mod : Z := 4294967296.

(** Two's complement wrap-around of a 32-bit signed integer: what an
    [AtomicI32::fetch_add] and an [as i32] conversion compute. *)
Definition wrap32 (z : Z) : Z := (z + 2147483648) mod u32_mod - 2147483648.

Definition in_i32 (z : Z) : Prop := (i32_min ≤ z ≤ i32_max)%Z.

#[export] Instance in_i32_dec z : Decision (in_i32 z).
Proof. unfold in_i32. apply _. Defined.

Definition i64_min : Z := -9223372036854775808.
Definition i64_max : Z := 9223372036854775807.

(** Two's complement wrap-around of a 64-bit signed integer. *)
Definition wrap64 (z : Z) : Z :=
  ((z + 9223372036854775808) mod 18446744073709551616 - 9223372036854775808)%Z.

(** ** Tactics of the development *)

Create HintDb cranker.
Create Rewrite HintDb cranker.

(** Case analysis on the next [match] or [if] of the goal. *)
Ltac step_match :=
  match goal with
  | |- context [match ?x with _ => _ end] =>
      lazymatch x with context [match _ with _ => _ end] => fail | _ => destruct x eqn:? end
  end.

(** The same in a hypothesis. *)
Ltac step_match_in H :=
  match type of H with
  | context [match ?x with _ => _ end] =>
      lazymatch x with context [match _ with _ => _ end] => fail | _ => destruct x eqn:? end
  end.

Ltac bool_to_prop :=
  repeat match goal with
  | H : andb _ _ = true |- _ => apply andb_true_iff in H as [? ?]
  | H : orb _ _ = false |- _ => apply orb_false_iff in H as [? ?]
  | H : negb _ = true |- _ => apply negb_true_iff in H
  | H : negb _ = false |- _ => apply negb_false_iff in H
  | H : bool_decide _ = true |- _ => apply bool_decide_eq_true in H
  | H : bool_decide _ = false |- _ => apply bool_decide_eq_false in H
  | H : (_ <? _)%Z = true |- _ => apply Z.ltb_lt in H
  | H : (_ <? _)%Z = false |- _ => apply Z.ltb_ge in H
  | H : (_ <=? _)%Z = true |- _ => apply Z.leb_le in H
  | H : (_ <=? _)%Z = false |- _ => apply Z.leb_gt in H
  | H : (_ =? _)%Z = true |- _ => apply Z.eqb_eq in H
  | H : (_ =? _)%Z = false |- _ => apply Z.eqb_neq in H
  end.

(** ** Shared lemmas *)

Lemma bN_bound (b : byte) : (bN b < 256)%N.
Proof. unfold bN. pose proof (Byte.to_N_bounded b). lia. Qed.

Lemma bZ_bound (b : byte) : (0 ≤ bZ b < 256)%Z.
Proof. unfold bZ. pose proof (bN_bound b). unfold bN in *. lia. Qed.

Lemma bZ_inj (a b : byte) : bZ a = bZ b → a = b.
Proof.
  unfold bZ. intros H%N2Z.inj.
  apply (f_equal Byte.of_N) in H. rewrite !Byte.of_to_N in H. congruence.
Qed.

Lemma str_eqb_true (a b : str) : str_eqb a b = true ↔ a = b.
Proof. apply bool_decide_eq_true. Qed.

Lemma str_eqb_false (a b : str) : str_eqb a b = false ↔ a ≠ b.
Proof. apply bool_decide_eq_false. Qed.

Lemma str_eqb_refl (a : str) : str_eqb a a = true.
Proof. by apply str_eqb_true. Qed.

Lemma wrap32_id (z : Z) : in_i32 z → wrap32 z = z.
Proof.
  unfold in_i32, wrap32, i32_min, i32_max, u32_mod. intros H.
  rewrite Z.mod_small; lia.
Qed.

Lemma wrap32_range (z : Z) : in_i32 (wrap32 z).
Proof.
  unfold in_i32, wrap32, i32_min, i32_max, u32_mod.
  pose proof (Z.mod_pos_bound (z + 2147483648) 4294967296). lia.
Qed.

Lemma wrap32_add_l (a b : Z) : wrap32 (wrap32 a + b) = wrap32 (a + b).
Proof.
  unfold wrap32, u32_mod.
  replace ((a + 2147483648) mod 4294967296 - 2147483648 + b + 2147483648)%Z
    with ((a + 2147483648) mod 4294967296 + b)%Z by lia.
  rewrite Zplus_mod_idemp_l. do 2 f_equal. lia.
Qed.

Lemma wrap32_add_r (a b : Z) : wrap32 (a + wrap32 b) = wrap32 (a + b).
Proof. rewrite Z.add_comm, wrap32_add_l. f_equal. lia. Qed.

Lemma wrap64_add_l (a b : Z) : wrap64 (wrap64 a + b) = wrap64 (a + b).
Proof.
  unfold wrap64.
  replace ((a + 9223372036854775808) mod 18446744073709551616 - 9223372036854775808 + b +
    9223372036854775808)%Z with ((a + 9223372036854775808) mod 18446744073709551616 + b)%Z by lia.
  rewrite Zplus_mod_idemp_l. do 2 f_equal. lia.
Qed.

Lemma wrap64_id (z : Z) : (i64_min ≤ z ≤ i64_max)%Z → wrap64 z = z.
Proof. unfold wrap64, i64_min, i64_max. intros Hz. rewrite Z.mod_small; lia. Qed.

Lemma elem_of_rev {A} (x : A) (l : list A) : x ∈ rev l ↔ x ∈ l.
Proof. rewrite !list_elem_of_In. symmetry. apply in_rev. Qed.

Lemma filter_ext_in {A} (P Q : A → Prop) `{∀ x, Decision (P x), ∀ x, Decision (Q x)} (l : list A) :
  (∀ x, x ∈ l → P x ↔ Q x) → filter P l = filter Q l.
Proof.
  induction l as [|x l IH]; intros Hl; [done|]. rewrite !filter_cons, IH by set_solver.
  specialize (Hl x ltac:(set_solver)). repeat case_decide; naive_solver.
Qed.

Lemma filter_all {A} (P : A → Prop) `{∀ x, Decision (P x)} (l : list A) :
  Forall P l → filter P l = l.
Proof.
  induction 1 as [|x l Hx _ IH]; [done|]. by rewrite filter_cons_True, IH.
Qed.

Lemma map_to_list_filter `{Countable K} {A} (P : K * A → Prop) `{∀ x, Decision (P x)} (m : gmap K A) :
  map_to_list (filter P m) ≡ₚ filter P (map_to_list m).
Proof.
  apply NoDup_Permutation; [apply NoDup_map_to_list|apply list.NoDup_filter, NoDup_map_to_list|].
  intros [k x]. rewrite list_elem_of_filter, !elem_of_map_to_list, map_lookup_filter_Some. tauto.
Qed.

Lemma concat_submseteq {A} (l1 l2 : list (list A)) : l1 ⊆+ l2 → concat l1 ⊆+ concat l2.
Proof.
  intros [k Hk]%submseteq_Permutation. rewrite Hk, concat_app.
  by apply submseteq_inserts_r.
Qed.

Lemma elem_of_concat {A} (x : A) (ls : list (list A)) : x ∈ concat ls ↔ ∃ l, l ∈ ls ∧ x ∈ l.
Proof. rewrite list_elem_of_In, in_concat. by setoid_rewrite list_elem_of_In. Qed.

Lemma NoDup_sub {A} (l1 l2 : list A) : l1 ⊆+ l2 → NoDup l2 → NoDup l1.
Proof.
  intros [k Hk]%submseteq_Permutation. rewrite Hk. by intros [? _]%list.NoDup_app.
Qed.

Lemma filter_submseteq {A} (P : A → Prop) `{∀ x, Decision (P x)} (l : list A) : filter P l ⊆+ l.
Proof.
  induction l as [|x l IH]; [done|]. rewrite filter_cons. case_decide.
  - by apply submseteq_skip.
  - by apply submseteq_cons.
Qed.

#[export] Hint Resolve wrap32_range wrap32_id bZ_bound : cranker.
#[export] Hint Rewrite str_eqb_true str_eqb_false str_eqb_refl : cranker.
