(* ===== verification/RustStr.v ===== *)
(** * The operations of Rust's string type the router uses

    A string is the list of its UTF-8 bytes.  [chars] groups the bytes into
    characters, so the operations that work on characters ([trim], splitting a
    text into chunks) are defined on the groups and the ones that look for an
    ASCII character ([split], [find], [replace]) on the bytes.  Nothing here
    comes from the repository: these are the standard-library functions
    ([str::split], [str::trim], [str::to_ascii_lowercase], [FromStr] of the
    integer types, [String::from_utf8], ...) that its code calls. *)

From S2P Require Import Prelude.
From Stdlib Require Import Numbers.DecimalString Numbers.DecimalZ.

(** ** Characters of a UTF-8 string *)

Definition is_cont (b : byte) : bool := (128 <=? bN b)%N && (bN b <? 192)%N.

Definition starts_with_cont (c : str) : bool :=
  match c with b :: _ => is_cont b | [] => false end.

(** [s.chars()], every character given by its UTF-8 bytes. *)
Fixpoint chars (s : str) : list str :=
  match s with
  | [] => []
  | b :: r =>
      match chars r with
      | c :: cs => if starts_with_cont c then (b :: c) :: cs else [b] :: c :: cs
      | [] => [[b]]
      end
  end.

(** [str::is_char_boundary]: a slice [s[0..n]] panics when it is false. *)
Definition is_char_boundary (s : str) (n : nat) : bool :=
  match s !! n with
  | Some b => negb (is_cont b)
  | None => n =? length s
  end.

(** UTF-8 validity, as [String::from_utf8] checks it. *)
Definition in_range (lo hi : N) (b : byte) : bool := (lo <=? bN b)%N && (bN b <=? hi)%N.

Fixpoint utf8_valid (s : str) : bool :=
  match s with
  | [] => true
  | a :: r =>
      if in_range 0 127 a then utf8_valid r
      else match r with
      | b :: r1 =>
        if in_range 194 223 a then is_cont b && utf8_valid r1
        else match r1 with
        | c :: r2 =>
          if in_range 224 224 a then in_range 160 191 b && is_cont c && utf8_valid r2
          else if in_range 225 236 a then is_cont b && is_cont c && utf8_valid r2
          else if in_range 237 237 a then in_range 128 159 b && is_cont c && utf8_valid r2
          else if in_range 238 239 a then is_cont b && is_cont c && utf8_valid r2
          else match r2 with
          | d :: r3 =>
            if in_range 240 240 a then
              in_range 144 191 b && is_cont c && is_cont d && utf8_valid r3
            else if in_range 241 243 a then
              is_cont b && is_cont c && is_cont d && utf8_valid r3
            else if in_range 244 244 a then
              in_range 128 143 b && is_cont c && is_cont d && utf8_valid r3
            else false
          | [] => false
          end
        | [] => false
        end
      | [] => false
      end
  end.

(** ** Splitting and joining *)

(** [s.split(d)] for an ASCII character [d]; the empty string has one piece. *)
Fixpoint split_on (d : byte) (s : str) : list str :=
  match s with
  | [] => [[]]
  | c :: r =>
      if decide (c = d) then [] :: split_on d r
      else match split_on d r with
           | p :: ps => (c :: p) :: ps
           | [] => [[c]]
           end
  end.

(** [pieces.join(sep)]. *)
Fixpoint join (sep : str) (ps : list str) : str :=
  match ps with
  | [] => []
  | [p] => p
  | p :: ps' => p ++ sep ++ join sep ps'
  end.

(** [s.find(c)], as a byte index. *)
Fixpoint find_byte (c : byte) (s : str) : option nat :=
  match s with
  | [] => None
  | b :: r => if decide (b = c) then Some 0 else S <$> find_byte c r
  end.

Fixpoint is_prefix (p s : str) : bool :=
  match p, s with
  | [], _ => true
  | a :: p', b :: s' => bool_decide (a = b) && is_prefix p' s'
  | _ :: _, [] => false
  end.

(** [s.replace(pat, rep)] for a non-empty pattern: non-overlapping occurrences
    from the left; [skip] is the rest of the occurrence being replaced. *)
Fixpoint replace_go (pat rep s : str) (skip : nat) : str :=
  match s with
  | [] => []
  | c :: r =>
      match skip with
      | S k => replace_go pat rep r k
      | O => if is_prefix pat s then rep ++ replace_go pat rep r (length pat - 1)
             else c :: replace_go pat rep r 0
      end
  end.
Definition replace_all (pat rep s : str) : str := replace_go pat rep s 0.

(** ** White space and case *)

Definition byte_of_N (n : N) : byte := default "000"%byte (Byte.of_N n).

(** The UTF-8 encodings of the characters with the Unicode property
    [White_Space]: what [char::is_whitespace], and so [trim], looks for. *)
Definition ws_chars : list str :=
  map (λ n, [byte_of_N n]) [9; 10; 11; 12; 13; 32]%N ++
  map (map byte_of_N)
    ([[194; 133]; [194; 160]; [225; 154; 128]; [226; 128; 128]; [226; 128; 129];
      [226; 128; 130]; [226; 128; 131]; [226; 128; 132]; [226; 128; 133];
      [226; 128; 134]; [226; 128; 135]; [226; 128; 136]; [226; 128; 137];
      [226; 128; 138]; [226; 128; 168]; [226; 128; 169]; [226; 128; 175];
      [226; 129; 159]; [227; 128; 128]]%N).

Definition is_ws (c : str) : bool := bool_decide (c ∈ ws_chars).

Fixpoint drop_ws (cs : list str) : list str :=
  match cs with
  | [] => []
  | c :: r => if is_ws c then drop_ws r else cs
  end.

(** [s.trim()]. *)
Definition trim (s : str) : str :=
  concat (rev (drop_ws (rev (drop_ws (chars s))))).

Definition lower_byte (b : byte) : byte :=
  if in_range 65 90 b then byte_of_N (bN b + 32) else b.

(** [s.to_ascii_lowercase()]; on the header names and parameter names of the
    router, which are ASCII, also [s.to_lowercase()]. *)
Definition to_lower (s : str) : str := map lower_byte s.

Definition eq_ignore_ascii_case (a b : str) : bool := str_eqb (to_lower a) (to_lower b).

Definition is_ascii_digit (b : byte) : bool := in_range 48 57 b.
Definition is_ascii (b : byte) : bool := (bN b <? 128)%N.

(** ** Numbers *)

(** The decimal text of an integer, [format!("{}", z)]. *)
Definition display_Z (z : Z) : str := lit (NilZero.string_of_int (Z.to_int z)).

Inductive IntErrorKind :=
| Empty
| InvalidDigit
| PosOverflow
| NegOverflow.

Definition digit_value (b : byte) : option Z :=
  if is_ascii_digit b then Some (bZ b - 48)%Z else None.

(** The digit loop of [from_str_radix]: the digit is read first, then the
    checked multiplication and the checked addition (or subtraction). *)
Fixpoint parse_digits (lo hi : Z) (neg : bool) (acc : Z) (s : str)
  : result Z IntErrorKind :=
  match s with
  | [] => Ok acc
  | b :: r =>
      match digit_value b with
      | None => Err InvalidDigit
      | Some x =>
          let m := (acc * 10)%Z in
          let a := if neg then (m - x)%Z else (m + x)%Z in
          if (lo <=? m)%Z && (m <=? hi)%Z && (lo <=? a)%Z && (a <=? hi)%Z
          then parse_digits lo hi neg a r
          else Err (if neg then NegOverflow else PosOverflow)
      end
  end.

(** [from_str] of an integer type with the range [lo..hi]; a sign alone is an
    invalid digit, and [-] is a sign only of the signed types. *)
Definition parse_int (lo hi : Z) (s : str) : result Z IntErrorKind :=
  match s with
  | [] => Err Empty
  | b :: r =>
      if bool_decide (b = "+"%byte) then
        match r with [] => Err InvalidDigit | _ => parse_digits lo hi false 0 r end
      else if bool_decide (b = "-"%byte) then
        match r with
        | [] => Err InvalidDigit
        | _ => if (lo <? 0)%Z then parse_digits lo hi true 0 r else Err InvalidDigit
        end
      else parse_digits lo hi false 0 s
  end.

Definition parse_u16 : str → result Z IntErrorKind := parse_int 0 65535.
Definition parse_i64 : str → result Z IntErrorKind := parse_int i64_min i64_max.

(** ** Lemmas *)

Lemma parse_digits_range lo hi neg acc s n :
  (lo ≤ acc ≤ hi)%Z → parse_digits lo hi neg acc s = Ok n → (lo ≤ n ≤ hi)%Z.
Proof.
  revert acc. induction s as [|b r IH]; intros acc Ha; cbn [parse_digits]; [by intros [= <-]|].
  destruct (digit_value b); [|done]. cbv zeta. destruct (_ && _) eqn:E; [|done]. intros Hn.
  eapply IH; [|exact Hn]. lia.
Qed.

(** A parsed integer fits its type. *)
Lemma parse_int_range lo hi s n : (lo ≤ 0 ≤ hi)%Z → parse_int lo hi s = Ok n → (lo ≤ n ≤ hi)%Z.
Proof.
  intros H0. unfold parse_int. destruct s as [|b r]; [done|].
  destruct (bool_decide (b = "+"%byte)); [destruct r; [done|by apply parse_digits_range]|].
  destruct (bool_decide (b = "-"%byte)); [|by apply parse_digits_range].
  destruct r; [done|]. destruct (lo <? 0)%Z; [by apply parse_digits_range|done].
Qed.

Lemma concat_chars (s : str) : concat (chars s) = s.
Proof.
  induction s as [|b r IH]; [done|]. simpl.
  destruct (chars r) as [|c cs]; simpl in *; [by rewrite <- IH|].
  destruct (starts_with_cont c); simpl in *; by rewrite IH.
Qed.

Lemma chars_nil (s : str) : chars s = [] → s = [].
Proof. intros H. by rewrite <- (concat_chars s), H. Qed.

Lemma chars_ascii (s : str) : Forall (λ b, is_ascii b = true) s → chars s = (λ b, [b]) <$> s.
Proof.
  induction 1 as [|b r Hb Hr IH]; [done|]. simpl. rewrite IH.
  destruct Hr as [|c r' Hc Hr']; [done|]. simpl.
  unfold is_cont, is_ascii in *. apply N.ltb_lt in Hc.
  by rewrite (proj2 (N.leb_gt _ _) Hc).
Qed.

Lemma split_on_nonempty d s : split_on d s ≠ [].
Proof.
  destruct s as [|c r]; simpl; [done|]. case_decide; [done|].
  by destruct (split_on d r).
Qed.

Lemma join_split_on d s : join [d] (split_on d s) = s.
Proof.
  induction s as [|c r IH]; [done|]. simpl.
  pose proof (split_on_nonempty d r) as Hne.
  case_decide as Hd; destruct (split_on d r) as [|p ps]; try done; subst.
  all: destruct ps; simpl in *; congruence.
Qed.

Lemma split_on_no_delim d s : Forall (λ p, d ∉ p) (split_on d s).
Proof.
  induction s as [|c r IH]; simpl; [constructor; [set_solver|done]|].
  case_decide; [constructor; [set_solver|done]|].
  destruct (split_on d r); inversion_clear IH; constructor; set_solver.
Qed.

Lemma split_on_plain d s : d ∉ s → split_on d s = [s].
Proof.
  induction s as [|c r IH]; intros H; [done|]. simpl.
  rewrite decide_False by set_solver. by rewrite IH by set_solver.
Qed.

Lemma split_on_app d p s : d ∉ p → split_on d (p ++ d :: s) = p :: split_on d s.
Proof.
  induction p as [|c p IH]; intros H; simpl.
  - by rewrite decide_True.
  - rewrite decide_False by set_solver. by rewrite IH by set_solver.
Qed.

Lemma split_on_join d ps :
  ps ≠ [] → Forall (λ p, d ∉ p) ps → split_on d (join [d] ps) = ps.
Proof.
  induction ps as [|p ps IH]; [done|]. intros _ H. inversion H as [|?? Hp Hps]; subst.
  destruct ps as [|q ps']; [by apply split_on_plain|].
  change (join [d] (p :: q :: ps')) with (p ++ d :: join [d] (q :: ps')).
  rewrite split_on_app by done. by rewrite IH.
Qed.

Lemma find_byte_Some c s i :
  find_byte c s = Some i → s = take i s ++ c :: drop (S i) s ∧ c ∉ take i s.
Proof.
  revert i. induction s as [|b r IH]; intros i H; [done|]. simpl in H.
  case_decide as Hb; simplify_eq/=; [split; [done|set_solver]|].
  destruct (find_byte c r) as [j|] eqn:E; simplify_eq/=.
  destruct (IH j eq_refl) as [H1 H2]. split; [by f_equal|set_solver].
Qed.

Lemma find_byte_None c s : find_byte c s = None ↔ c ∉ s.
Proof.
  induction s as [|b r IH]; simpl; [set_solver|].
  case_decide; subst; [set_solver|].
  destruct (find_byte c r); simpl; set_solver.
Qed.

Lemma find_byte_app c p s : c ∉ p → find_byte c (p ++ c :: s) = Some (length p).
Proof.
  induction p as [|b p IH]; intros H; simpl.
  - by rewrite decide_True.
  - rewrite decide_False by set_solver. by rewrite IH by set_solver.
Qed.

Lemma lower_byte_idem b : lower_byte (lower_byte b) = lower_byte b.
Proof. by destruct b. Qed.

Lemma to_lower_idem s : to_lower (to_lower s) = to_lower s.
Proof.
  unfold to_lower. rewrite map_map. apply map_ext. intros b. apply lower_byte_idem.
Qed.

Lemma to_lower_app a b : to_lower (a ++ b) = to_lower a ++ to_lower b.
Proof. apply map_app. Qed.

(** A join whose last piece is split off. *)
Lemma join_snoc sep ps p : ps ≠ [] → join sep (ps ++ [p]) = join sep ps ++ sep ++ p.
Proof.
  induction ps as [|q ps IH]; [done|]. intros _. destruct ps as [|r ps]; [done|].
  change ((q :: r :: ps) ++ [p]) with (q :: (r :: ps) ++ [p]).
  change (join sep (q :: (r :: ps) ++ [p])) with (q ++ sep ++ join sep ((r :: ps) ++ [p])).
  rewrite IH by done. simpl. by rewrite <- !app_assoc.
Qed.

#[export] Hint Rewrite join_split_on concat_chars to_lower_idem : cranker.

(** ** Reading back a printed number *)

Section digits.
Import Decimal.

(** The value of the digits [u] behind the number [acc]. *)
Fixpoint uint_value (acc : Z) (u : uint) : Z :=
  match u with
  | Nil => acc
  | D0 u => uint_value (10 * acc) u | D1 u => uint_value (10 * acc + 1) u
  | D2 u => uint_value (10 * acc + 2) u | D3 u => uint_value (10 * acc + 3) u
  | D4 u => uint_value (10 * acc + 4) u | D5 u => uint_value (10 * acc + 5) u
  | D6 u => uint_value (10 * acc + 6) u | D7 u => uint_value (10 * acc + 7) u
  | D8 u => uint_value (10 * acc + 8) u | D9 u => uint_value (10 * acc + 9) u
  end.

Lemma uint_value_acc u p : Z.pos (Pos.of_uint_acc u p) = uint_value (Z.pos p) u.
Proof. revert p. induction u; intros p; cbn [Pos.of_uint_acc uint_value]; [done|..]; rewrite IHu; f_equal; lia. Qed.

Lemma uint_value_of_uint u : Z.of_N (Pos.of_uint u) = uint_value 0 u.
Proof. induction u; cbn [Pos.of_uint uint_value]; [done|exact IHu|..]; apply uint_value_acc. Qed.

Lemma uint_value_le u acc : (0 ≤ acc → acc ≤ uint_value acc u)%Z.
Proof.
  revert acc. induction u; intros acc Ha; cbn [uint_value]; [done|..];
    (etransitivity; [|apply IHu]); lia.
Qed.

Lemma parse_digits_step lo hi (neg : bool) acc b x r :
  digit_value b = Some x → (0 ≤ x)%Z → (lo ≤ 0 ≤ hi)%Z → (0 ≤ acc)%Z →
  (if neg then lo ≤ - (10 * acc + x) else 10 * acc + x ≤ hi)%Z →
  parse_digits lo hi neg (if neg then - acc else acc)%Z (b :: r) =
  parse_digits lo hi neg (if neg then - (10 * acc + x) else 10 * acc + x)%Z r.
Proof.
  intros Hb Hx Hl Ha Hr. cbn [parse_digits]. rewrite Hb.
  assert (Hm : ∀ m a, (lo ≤ m ≤ hi)%Z → (lo ≤ a ≤ hi)%Z →
    (lo <=? m)%Z && (m <=? hi)%Z && (lo <=? a)%Z && (a <=? hi)%Z = true).
  { intros m a ??. rewrite !andb_true_iff, !Z.leb_le. lia. }
  destruct neg; rewrite Hm by lia; f_equal; lia.
Qed.

Lemma parse_digits_uint lo hi (neg : bool) u acc :
  (lo ≤ 0 ≤ hi)%Z → (0 ≤ acc)%Z →
  (if neg then lo ≤ - uint_value acc u else uint_value acc u ≤ hi)%Z →
  parse_digits lo hi neg (if neg then - acc else acc)%Z (lit (NilEmpty.string_of_uint u)) =
  Ok (if neg then - uint_value acc u else uint_value acc u)%Z.
Proof.
  intros Hl. revert acc.
  assert (Hgo : ∀ b x u acc, digit_value b = Some x → (0 ≤ x)%Z → (0 ≤ acc)%Z →
    (∀ acc, (0 ≤ acc)%Z → (if neg then lo ≤ - uint_value acc u else uint_value acc u ≤ hi)%Z →
      parse_digits lo hi neg (if neg then - acc else acc)%Z (lit (NilEmpty.string_of_uint u)) =
      Ok (if neg then - uint_value acc u else uint_value acc u)%Z) →
    (if neg then lo ≤ - uint_value (10 * acc + x) u else uint_value (10 * acc + x) u ≤ hi)%Z →
    parse_digits lo hi neg (if neg then - acc else acc)%Z (b :: lit (NilEmpty.string_of_uint u)) =
    Ok (if neg then - uint_value (10 * acc + x) u else uint_value (10 * acc + x) u)%Z).
  { intros b x u' acc Hb Hx Ha IH Hu. pose proof (uint_value_le u' (10 * acc + x) ltac:(lia)).
    rewrite (parse_digits_step _ _ _ _ _ x) by (try done; destruct neg; lia). apply IH; [lia|done]. }
  induction u; intros acc Ha Hu; cbn [uint_value NilEmpty.string_of_uint] in *; [done|..].
  - rewrite <- (Z.add_0_r (10 * acc)) in Hu |- *. by apply (Hgo "0"%byte 0%Z).
  - by apply (Hgo "1"%byte 1%Z).
  - by apply (Hgo "2"%byte 2%Z).
  - by apply (Hgo "3"%byte 3%Z).
  - by apply (Hgo "4"%byte 4%Z).
  - by apply (Hgo "5"%byte 5%Z).
  - by apply (Hgo "6"%byte 6%Z).
  - by apply (Hgo "7"%byte 7%Z).
  - by apply (Hgo "8"%byte 8%Z).
  - by apply (Hgo "9"%byte 9%Z).
Qed.

Lemma string_of_uint_digits u :
  ∃ b x r, lit (NilZero.string_of_uint u) = b :: r ∧ digit_value b = Some x ∧
    b ≠ "+"%byte ∧ b ≠ "-"%byte.
Proof. destruct u; cbn; eexists _, _, _; split_and!; reflexivity || discriminate. Qed.

Lemma parse_digits_zero lo hi (neg : bool) u :
  (lo ≤ 0 ≤ hi)%Z → (if neg then lo ≤ - uint_value 0 u else uint_value 0 u ≤ hi)%Z →
  parse_digits lo hi neg 0 (lit (NilZero.string_of_uint u)) =
  Ok (if neg then - uint_value 0 u else uint_value 0 u)%Z.
Proof.
  intros Hl Hu. replace 0%Z with (if neg then - 0 else 0)%Z at 1 by by destruct neg.
  destruct u; [|by apply (parse_digits_uint lo hi neg)..].
  by apply (parse_digits_uint lo hi neg (D0 Nil)).
Qed.

(** The text of a number in range is read back as the number. *)
Lemma parse_display lo hi z : (lo ≤ 0 ≤ hi)%Z → (lo ≤ z ≤ hi)%Z → parse_int lo hi (display_Z z) = Ok z.
Proof.
  intros Hl Hz. unfold display_Z, parse_int. pose proof (DecimalZ.of_to z) as Ho.
  destruct (Z.to_int z) as [u|u] eqn:Ez; cbn [Z.of_int] in Ho; unfold Z.of_uint in Ho;
    rewrite uint_value_of_uint in Ho; cbn [NilZero.string_of_int].
  - destruct (string_of_uint_digits u) as (b & x & r & Hs & Hb & Hp & Hm).
    pose proof (parse_digits_zero lo hi false u Hl ltac:(cbv beta iota; lia)) as Hd. rewrite Hs in Hd |- *.
    rewrite !bool_decide_eq_false_2 by done. by rewrite Hd, Ho.
  - destruct (string_of_uint_digits u) as (b & x & r & Hs & Hb & Hp & Hm).
    pose proof (parse_digits_zero lo hi true u Hl ltac:(cbv beta iota; lia)) as Hd.
    set (rest := lit (NilZero.string_of_uint u)) in *.
    change (lit _) with ("-"%byte :: rest). cbv beta iota.
    rewrite bool_decide_eq_false_2, bool_decide_eq_true_2 by done. rewrite Hs in Hd |- *.
    destruct (lo <? 0)%Z eqn:E; [by rewrite Hd, Ho|]. apply Z.ltb_ge in E.
    pose proof (uint_value_le u 0). assert (z = 0%Z) as -> by lia. done.
Qed.

End digits.

(** ** Replacing one occurrence *)

Lemma is_prefix_app (p s : str) : is_prefix p (p ++ s) = true.
Proof. induction p as [|b p IH]; [done|]. cbn. by rewrite bool_decide_eq_true_2, IH. Qed.

Lemma replace_go_skip pat rep (a s : str) : replace_go pat rep (a ++ s) (length a) = replace_go pat rep s 0.
Proof. induction a as [|b a IH]; [done|]. exact IH. Qed.

(** When the pattern occurs for the first time behind [h] and ends the text, only
    that occurrence is replaced. *)
Lemma replace_all_suffix pat rep h :
  pat ≠ [] → (∀ i, (i < length h)%nat → is_prefix pat (drop i (h ++ pat)) = false) →
  replace_all pat rep (h ++ pat) = h ++ rep.
Proof.
  intros Hp. unfold replace_all. induction h as [|b h IH]; intros Hi.
  - destruct pat as [|c pat]; [done|]. cbn [app replace_go].
    pose proof (is_prefix_app (c :: pat) []) as Hx. rewrite app_nil_r in Hx. rewrite Hx.
    cbn [length]. rewrite Nat.sub_succ, Nat.sub_0_r. pose proof (replace_go_skip (c :: pat) rep pat []) as Hs.
    rewrite app_nil_r in Hs. rewrite Hs. cbn. by rewrite app_nil_r.
  - cbn [app replace_go]. pose proof (Hi 0 ltac:(cbn; lia)) as H0. cbn [drop app] in H0. rewrite H0.
    f_equal. apply IH. intros i Hl. exact (Hi (S i) ltac:(cbn; lia)).
Qed.
