(* ===== verification/Clock.v ===== *)
(** * The clock (time_utils.rs)

    [SystemTime::now()] is an argument, in nanoseconds since the Unix epoch; it is
    negative when the machine's clock stands before it.  The readings that the
    other files take as [now] are results of [current_time_millis]. *)

From S2P Require Import Prelude.

(** [duration_since(UNIX_EPOCH)]: [None] is the [SystemTimeError] of an earlier
    time. *)
Definition duration_since_epoch (system_time : Z) : option Z :=
  if (0 <=? system_time)%Z then Some system_time else None.

(** [Duration::as_millis], a [u128]. *)
Definition as_millis (nanos : Z) : Z := nanos / 1000000.

(** [unwrap] panics before the epoch; [as i64] keeps the low 64 bits. *)
Definition current_time_millis (system_time : Z) : outcome Z :=
  match duration_since_epoch system_time with
  | Some nanos => Ret (wrap64 (as_millis nanos))
  | None => Panic
  end.

(** The first time, in nanoseconds, whose milliseconds do not fit. *)
Definition clock_end : Z := (i64_max + 1) * 1000000.

Lemma as_millis_range t : (0 ≤ t < clock_end)%Z → (0 ≤ as_millis t ≤ i64_max)%Z.
Proof.
  unfold as_millis, clock_end, i64_max. intros Ht. split; [apply Z.div_pos; lia|].
  apply Z.lt_succ_r, Z.div_lt_upper_bound; lia.
Qed.

(** From the epoch to the end of the 64-bit range, 292 million years later, the
    clock gives the whole milliseconds since the epoch: a 64-bit number that is
    not negative and never decreases as time passes.  Before the epoch it
    panics. *)
Theorem clock_reads_milliseconds t u :
  ((t < 0)%Z → current_time_millis t = Panic) ∧
  ((0 ≤ t ≤ u)%Z → (u < clock_end)%Z →
   ∃ m n, current_time_millis t = Ret m ∧ current_time_millis u = Ret n ∧
     (0 ≤ m ≤ n)%Z ∧ (n ≤ i64_max)%Z ∧ (m * 1000000 ≤ t < (m + 1) * 1000000)%Z).
Proof.
  unfold current_time_millis, duration_since_epoch. split.
  - intros Ht. by destruct (Z.leb_spec 0 t); [lia|].
  - intros [Ht Htu] Hu. pose proof (as_millis_range t ltac:(lia)). pose proof (as_millis_range u ltac:(lia)).
    exists (as_millis t), (as_millis u).
    destruct (Z.leb_spec 0 t); [|lia]. destruct (Z.leb_spec 0 u); [|lia].
    rewrite !wrap64_id by (unfold i64_min in *; lia). split_and!; try done; try lia.
    + apply Z.div_le_mono; lia.
    + unfold as_millis. pose proof (Z.mul_div_le t 1000000). lia.
    + unfold as_millis. pose proof (Z.mul_succ_div_gt t 1000000). lia.
Qed.

(** At the end of the range the conversion to [i64] makes the clock negative. *)
Example clock_wraps : current_time_millis clock_end = Ret i64_min.
Proof. reflexivity. Qed.
