(* ===== verification/Exceptions.v ===== *)
(** * exceptions.rs: the error type of the router and its HTTP response *)

From S2P Require Import Prelude RustStr.

Inductive CrexKind :=
| Timeout_0001
| NoRouterSocketAvailable_0002
| CrankerProtocolVersionNotFound_0003
| CrankerProtocolVersionNotSupported_0004
| CrankerProtocolEndMarkerMissing_0005
| CrankerProtocolZeroLengthHeaderLine_0006
| CrankerProtocolHttpStatusCodeMissing_0007
| ForwardedHeaderParserError_0008
| ProxyListenerError_0009
| ClientRequestBodyReadError_0010
| BrokenConnection_0011.

#[export] Instance CrexKind_eq_dec : EqDecision CrexKind.
Proof. solve_decision. Defined.

Record CrankerRouterException := Crex {
  reason : str;
  opt_status_code : option Z;
  opt_err_kind : option CrexKind
}.

#[export] Instance Crex_eq_dec : EqDecision CrankerRouterException.
Proof. solve_decision. Defined.

Definition crex_new (r : str) : CrankerRouterException := Crex r None None.

Definition with_status_code (e : CrankerRouterException) (c : Z) : CrankerRouterException :=
  Crex (reason e) (Some c) (opt_err_kind e).

Definition with_err_kind (e : CrankerRouterException) (k : CrexKind) : CrankerRouterException :=
  Crex (reason e) (opt_status_code e) (Some k).

Definition plus (e another : CrankerRouterException) : CrankerRouterException :=
  Crex (reason e ++ reason another)
       (opt_or (opt_status_code e) (opt_status_code another))
       (opt_or (opt_err_kind e) (opt_err_kind another)).

Definition append_str (e : CrankerRouterException) (further : str) : CrankerRouterException :=
  Crex (reason e ++ further) (opt_status_code e) (opt_err_kind e).

Definition prepend_str (e : CrankerRouterException) (prior : str) : CrankerRouterException :=
  Crex (prior ++ lit " " ++ reason e) (opt_status_code e) (opt_err_kind e).

(** [Display]. *)
Definition crex_display (e : CrankerRouterException) : str :=
  lit "Cranker router exception: " ++ reason e.

(** The derived [Debug] text of an error kind. *)
Definition kind_debug (k : CrexKind) : str :=
  match k with
  | Timeout_0001 => lit "Timeout_0001"
  | NoRouterSocketAvailable_0002 => lit "NoRouterSocketAvailable_0002"
  | CrankerProtocolVersionNotFound_0003 => lit "CrankerProtocolVersionNotFound_0003"
  | CrankerProtocolVersionNotSupported_0004 => lit "CrankerProtocolVersionNotSupported_0004"
  | CrankerProtocolEndMarkerMissing_0005 => lit "CrankerProtocolEndMarkerMissing_0005"
  | CrankerProtocolZeroLengthHeaderLine_0006 => lit "CrankerProtocolZeroLengthHeaderLine_0006"
  | CrankerProtocolHttpStatusCodeMissing_0007 => lit "CrankerProtocolHttpStatusCodeMissing_0007"
  | ForwardedHeaderParserError_0008 => lit "ForwardedHeaderParserError_0008"
  | ProxyListenerError_0009 => lit "ProxyListenerError_0009"
  | ClientRequestBodyReadError_0010 => lit "ClientRequestBodyReadError_0010"
  | BrokenConnection_0011 => lit "BrokenConnection_0011"
  end.

(** A response of the router whose body is already known. *)
Record HttpResponse := Resp {
  resp_status : Z;
  resp_headers : list (str * str);
  resp_body : str
}.

(** [StatusCode::from_u16] accepts the codes 100 to 999; building a response
    with another one is an error, which [into_response] unwraps. *)
Definition valid_status (c : Z) : bool := (100 <=? c)%Z && (c <=? 999)%Z.

Definition default_status (k : option CrexKind) : Z :=
  match k with Some Timeout_0001 => 504 | _ => 500 end.

(** [IntoResponse]; [err_id] is the random id of the response. *)
Definition into_response (err_id : str) (e : CrankerRouterException) : outcome HttpResponse :=
  let kind_text := match opt_err_kind e with
                   | Some k => lit " (error kind = " ++ kind_debug k ++ lit ")"
                   | None => []
                   end in
  let body := reason e ++ kind_text ++ lit " (error id = " ++ err_id ++ lit ")" in
  let status_code := default (default_status (opt_err_kind e)) (opt_status_code e) in
  if valid_status status_code
  then Ret (Resp status_code [(lit "connection", lit "close")] body)
  else Panic.

Definition compose_ex {A} (opt_total_err : option CrankerRouterException)
  (this_may_err : result A CrankerRouterException) : option CrankerRouterException :=
  match this_may_err with
  | Err ex => Some match opt_total_err with None => ex | Some e => plus e ex end
  | Ok _ => opt_total_err
  end.

(** The errors of a sequence of attempts, composed from the left. *)
Definition compose_all {A} (rs : list (result A CrankerRouterException))
  : option CrankerRouterException := foldl compose_ex None rs.

Definition errors {A} (rs : list (result A CrankerRouterException)) :=
  omap (λ r, match r with Err e => Some e | Ok _ => None end) rs.

(** ** Lemmas *)

Lemma plus_assoc' a b c : plus (plus a b) c = plus a (plus b c).
Proof.
  destruct a as [ra sa ka], b as [rb sb kb], c as [rc sc kc]. unfold plus. simpl.
  by destruct sa, sb, ka, kb; rewrite <- app_assoc.
Qed.

Lemma foldl_compose_ex {A} (rs : list (result A CrankerRouterException)) o :
  foldl compose_ex o rs =
  match errors rs with
  | [] => o
  | e :: es => Some (foldl plus (match o with None => e | Some t => plus t e end) es)
  end.
Proof.
  revert o. induction rs as [|[a|e] rs IH]; intros o; simpl; [done|by rewrite IH|].
  rewrite IH. by destruct (errors rs).
Qed.

Lemma foldl_plus_reason es t :
  reason (foldl plus t es) = reason t ++ concat (map reason es).
Proof.
  revert t. induction es as [|e es IH]; intros t; simpl; [by rewrite app_nil_r|].
  rewrite IH. simpl. by rewrite <- app_assoc.
Qed.

Lemma foldl_plus_status es t :
  opt_status_code (foldl plus t es) =
  foldl opt_or (opt_status_code t) (map opt_status_code es).
Proof. revert t. induction es as [|e es IH]; intros t; simpl; [done|by rewrite IH]. Qed.
