(* ===== verification/RouteResolver.v ===== *)
(** * route_resolver.rs: from the request path to a route

    [routes] is the set of the registered routes.  The default resolver looks
    up the first path segment; [LongestFirstRouteResolver] looks up the path
    and then the path with its last segments cut off.  A path is handled as
    the list of its bytes: it is only cut at ['/'], which in UTF-8 is never
    part of another character, so the cuts are the ones of the source, which
    works on a [Vec<char>]. *)

From S2P Require Import Prelude RustStr.

Definition STAR : str := lit "*".
Definition SLASH : byte := "/"%byte.

(** [RouteResolver::resolve], the default implementation. *)
Definition resolve_default (routes : gset str) (target : str) : str :=
  let split := split_on SLASH target in
  match split !! 1 with
  | Some seg => if decide (seg ∈ routes) then seg else STAR
  | None => STAR
  end.

Module LongestFirst.

(** The loop of [last_index_of] over the reversed characters. *)
Fixpoint last_index_go (rv : str) (pos len : nat) (pat : byte) : Z :=
  match rv with
  | [] => -1
  | ele :: r =>
      if decide (ele = pat) then wrap32 (Z.of_nat (len - pos - 1))
      else last_index_go r (S pos) len pat
  end.

Definition last_index_of (v : str) (pat : byte) : Z :=
  last_index_go (rev v) 0 (length v) pat.

(** The [while] loop and what follows it; [None] when the fuel runs out. *)
Fixpoint resolve_loop (fuel : nat) (routes : gset str) (v : str) : option str :=
  match fuel with
  | O => None
  | S fuel' =>
      let last_index := last_index_of v SLASH in
      if (0 <=? last_index)%Z then
        if decide (v ∈ routes) then Some v
        else resolve_loop fuel' routes (take (Z.to_nat last_index) v)
      else if decide (v ∈ routes) then Some v else Some STAR
  end.

(** [LongestFirstRouteResolver::resolve]; [vec_char[0]] panics on an empty
    target.  The inner [None] is the loop out of fuel. *)
Definition resolve (routes : gset str) (target : str) : outcome (option str) :=
  if decide (target ∈ routes) then Ret (Some target)
  else match target with
       | [] => Panic
       | c :: r =>
           let v := if decide (c = SLASH) then r else target in
           Ret (resolve_loop (S (length v)) routes v)
       end.

(** ** What the resolver promises

    The candidates for a path of [n] segments are its prefixes of [n], [n-1],
    ..., [1] segments. *)
Definition strip_slash (target : str) : str :=
  match target with c :: r => if decide (c = SLASH) then r else target | [] => [] end.

Fixpoint candidates (n : nat) (segs : list str) : list str :=
  match n with
  | O => []
  | S n' => join [SLASH] (take (S n') segs) :: candidates n' segs
  end.

Fixpoint first_in (routes : gset str) (cs : list str) : option str :=
  match cs with
  | [] => None
  | c :: r => if decide (c ∈ routes) then Some c else first_in routes r
  end.

Definition resolve_spec (routes : gset str) (target : str) : str :=
  if decide (target ∈ routes) then target
  else let segs := split_on SLASH (strip_slash target) in
       default STAR (first_in routes (candidates (length segs) segs)).

(** ** Lemmas *)

Lemma last_index_go_none rv pos len pat : pat ∉ rv → last_index_go rv pos len pat = (-1)%Z.
Proof.
  revert pos. induction rv as [|e r IH]; intros pos H; [done|]. simpl.
  rewrite decide_False by set_solver. apply IH. set_solver.
Qed.

Lemma last_index_go_app x r pos len pat :
  pat ∉ x →
  last_index_go (x ++ pat :: r) pos len pat = wrap32 (Z.of_nat (len - (pos + length x) - 1)).
Proof.
  revert pos. induction x as [|e x IH]; intros pos H; simpl.
  - rewrite decide_True by done. do 2 f_equal. lia.
  - rewrite decide_False by set_solver. rewrite IH by set_solver. do 2 f_equal. lia.
Qed.

Lemma last_index_of_none v pat : pat ∉ v → last_index_of v pat = (-1)%Z.
Proof.
  intros H. apply last_index_go_none. by rewrite elem_of_rev.
Qed.

Lemma last_index_of_cut p x pat :
  pat ∉ x → (Z.of_nat (length (p ++ pat :: x)) ≤ i32_max)%Z →
  last_index_of (p ++ pat :: x) pat = Z.of_nat (length p).
Proof.
  intros Hx Hlen. unfold last_index_of. rewrite rev_app_distr. simpl.
  rewrite <- app_assoc. simpl. rewrite last_index_go_app.
  - rewrite length_app in *. simpl in *. rewrite length_rev.
    rewrite wrap32_id; [lia|]. unfold in_i32, i32_min. lia.
  - by rewrite elem_of_rev.
Qed.

Lemma candidates_take n segs ys : n ≤ length segs → candidates n (segs ++ ys) = candidates n segs.
Proof.
  induction n as [|n IH]; intros H; [done|].
  change (candidates (S n) (segs ++ ys))
    with (join [SLASH] (take (S n) (segs ++ ys)) :: candidates n (segs ++ ys)).
  rewrite take_app_le by lia. by rewrite IH by lia.
Qed.

(** The loop on a path with the segments [segs] tries the candidates. *)
Lemma resolve_loop_spec routes segs fuel :
  segs ≠ [] → Forall (λ p, SLASH ∉ p) segs → length segs ≤ fuel →
  (Z.of_nat (length (join [SLASH] segs)) ≤ i32_max)%Z →
  resolve_loop fuel routes (join [SLASH] segs)
  = Some (default STAR (first_in routes (candidates (length segs) segs))).
Proof.
  revert fuel. induction segs as [|x segs IH] using rev_ind; [done|].
  intros fuel _ Hns Hfuel Hlen. apply Forall_app in Hns as [Hns Hx]. rewrite Forall_singleton in Hx.
  rewrite length_app in *. simpl in *. rewrite Nat.add_1_r in *.
  destruct fuel as [|fuel]; [lia|].
  change (candidates (S (length segs)) (segs ++ [x]))
    with (join [SLASH] (take (S (length segs)) (segs ++ [x])) :: candidates (length segs) (segs ++ [x])).
  rewrite take_ge by (rewrite length_app; simpl; lia). rewrite candidates_take by lia.
  destruct segs as [|y segs].
  - simpl. rewrite last_index_of_none by exact Hx. simpl. by case_decide.
  - rewrite join_snoc in * by done. change ([SLASH] ++ x) with (SLASH :: x) in *. cbn [resolve_loop first_in].
    rewrite last_index_of_cut by (exact Hx || exact Hlen).
    rewrite (proj2 (Z.leb_le _ _)) by lia. rewrite Nat2Z.id.
    rewrite take_app_length. case_decide as Hin; [done|].
    apply IH; [done..|lia|]. rewrite length_app in Hlen. lia.
Qed.

Lemma first_in_Some routes cs s : first_in routes cs = Some s → s ∈ routes ∧ s ∈ cs.
Proof.
  induction cs as [|c r IH]; simpl; [done|].
  case_decide; intros; simplify_eq; set_solver.
Qed.

Lemma length_split_on d s : length (split_on d s) ≤ S (length s).
Proof.
  induction s as [|c r IH]; simpl; [lia|]. case_decide; simpl; [lia|].
  destruct (split_on d r); simpl in *; lia.
Qed.

(** The first candidate found is the one with the most segments. *)
Lemma first_in_longest routes segs n k :
  0 < k ≤ n → join [SLASH] (take k segs) ∈ routes →
  ∃ j, k ≤ j ≤ n ∧ first_in routes (candidates n segs) = Some (join [SLASH] (take j segs))
       ∧ join [SLASH] (take j segs) ∈ routes.
Proof.
  intros Hk Hin. induction n as [|n IH]; [lia|].
  cbn [candidates first_in]. case_decide as Hd.
  - exists (S n). split; [lia|]. done.
  - destruct (decide (k = S n)) as [->|]; [done|].
    destruct IH as (j & Hj & He & Hr); [lia|]. exists j. split; [lia|]. done.
Qed.

End LongestFirst.

Import LongestFirst.

(** ** Theorems *)

Lemma resolve_refines_aux routes target :
  target ≠ [] → (Z.of_nat (length target) ≤ i32_max)%Z →
  resolve routes target = Ret (Some (resolve_spec routes target)).
Proof.
  intros Hne Hlen. unfold resolve, resolve_spec. case_decide; [done|].
  destruct target as [|c r]; [done|]. cbn zeta. f_equal.
  change (if decide (c = SLASH) then r else c :: r) with (strip_slash (c :: r)).
  set (v := strip_slash (c :: r)).
  assert (Hv : length v ≤ length (c :: r)).
  { unfold v, strip_slash. case_decide; simpl; lia. }
  rewrite <- (join_split_on SLASH v) at 2.
  apply resolve_loop_spec; [apply split_on_nonempty|apply split_on_no_delim|..].
  - apply length_split_on.
  - rewrite join_split_on. lia.
Qed.

(** C39: [LongestFirstRouteResolver::resolve] terminates and computes its
    documented meaning: the target itself when it is a route, and otherwise
    the first of the prefixes of n, n-1, ..., 1 segments of the path (a
    leading slash removed) that is a registered route, and "*" when none is. *)
Theorem longest_first_refines_spec routes target :
  target ≠ [] → (Z.of_nat (length target) ≤ i32_max)%Z →
  resolve routes target = Ret (Some (resolve_spec routes target)).
Proof. apply resolve_refines_aux. Qed.

Lemma longest_first_refines_spec_witness :
  resolve {[lit "my-service"; lit "my-service/instance"]} (lit "/my-service/instance/test")
  = Ret (Some (lit "my-service/instance")).
Proof.
  rewrite (longest_first_refines_spec {[lit "my-service"; lit "my-service/instance"]}
             (lit "/my-service/instance/test")).
  - by vm_compute.
  - done.
  - by vm_compute.
Defined.

(** The route chosen is the longest match: whenever some prefix of [k]
    segments of the path is registered, [resolve] returns a registered prefix
    of at least [k] segments (and never falls back to "*"). *)
Theorem longest_first_is_longest routes target k :
  let segs := split_on SLASH (strip_slash target) in
  target ≠ [] → target ∉ routes → (Z.of_nat (length target) ≤ i32_max)%Z →
  0 < k ≤ length segs → join [SLASH] (take k segs) ∈ routes →
  ∃ j, k ≤ j ≤ length segs ∧ join [SLASH] (take j segs) ∈ routes ∧
       resolve routes target = Ret (Some (join [SLASH] (take j segs))).
Proof.
  intros segs Hne Hnin Hlen Hk Hin.
  rewrite resolve_refines_aux by done. unfold resolve_spec. rewrite decide_False by done.
  destruct (first_in_longest routes segs (length segs) k) as (j & Hj & He & Hr); [done..|].
  exists j. split; [done|]. split; [done|]. cbn zeta. fold segs. by rewrite He.
Qed.

Lemma longest_first_is_longest_witness :
  ∃ j, 1 ≤ j ≤ 2 ∧
    resolve {[lit "a"; lit "b"]} (lit "/a/x")
    = Ret (Some (join [SLASH] (take j [lit "a"; lit "x"]))).
Proof.
  destruct (longest_first_is_longest {[lit "a"; lit "b"]} (lit "/a/x") 1) as (j & Hj & _ & He).
  - done.
  - by apply (bool_decide_unpack _); vm_compute.
  - by vm_compute.
  - vm_compute. lia.
  - by apply (bool_decide_unpack _); vm_compute.
  - exists j. split; [exact Hj|exact He].
Defined.

(** The default resolver returns a registered route equal to the first
    segment of the path, or "*". *)
Theorem default_resolver_sound routes target :
  let r := resolve_default routes target in
  (r = STAR ∧ ∀ seg, split_on SLASH target !! 1 = Some seg → seg ∉ routes ∨ seg = STAR)
  ∨ (r ∈ routes ∧ split_on SLASH target !! 1 = Some r).
Proof.
  unfold resolve_default. destruct (split_on SLASH target !! 1) as [seg|] eqn:E; cbn zeta.
  - case_decide; [by right|]. left. split; [done|]. intros ? [= <-]. by left.
  - left. by split.
Qed.
