(* ===== verification/Http.v ===== *)
(** * The HTTP types the router takes from the [http] crate

    [HeaderMap] and [HeaderValue] are third-party code: the class [HttpLib] is
    the interface the router uses and [HttpLaws] the documented behaviour it
    relies on.  Header names are stored in lower case and looked up without
    regard to case, the values of one name keep their insertion order, and the
    order between different names is left open.  [Alist] is a concrete
    instance, on which the theorems are evaluated.  A request URI is the record
    of the parts the router reads of it. *)

From S2P Require Import Prelude RustStr.

(** A visible ASCII byte or a tab: what [HeaderValue::to_str] accepts. *)
Definition visible_ascii (b : byte) : bool := in_range 32 126 b || bool_decide (b = "009"%byte).

(** ** Interface *)

Class HttpLib (HM : Type) := {
  (** [HeaderMap::new] *)
  hm_new : HM;
  (** [get_all(name)] for a lower-case name *)
  hm_get_all : str → HM → list str;
  (** [keys()] *)
  hm_keys : HM → list str;
  (** [iter()] *)
  hm_iter : HM → list (str * str);
  (** [append], [insert] and [remove] for a lower-case name *)
  hm_append : str → str → HM → HM;
  hm_insert : str → str → HM → HM;
  hm_remove : str → HM → HM;
  (** [str::parse::<HeaderValue>] *)
  hv_parse : str → option str;
  (** [HeaderValue::to_str().ok()] *)
  hv_to_str : str → option str;
  (** [HeaderName] from text, [None] when it is not a legal name *)
  hn_parse : str → option str
}.

Class HttpLaws (HM : Type) `{HttpLib HM} := {
  get_all_new k : hm_get_all k hm_new = [];
  get_all_append k v k' m :
    hm_get_all k' (hm_append k v m) =
    if decide (k' = k) then hm_get_all k' m ++ [v] else hm_get_all k' m;
  get_all_insert k v k' m :
    hm_get_all k' (hm_insert k v m) = if decide (k' = k) then [v] else hm_get_all k' m;
  get_all_remove k k' m :
    hm_get_all k' (hm_remove k m) = if decide (k' = k) then [] else hm_get_all k' m;
  keys_spec k m : k ∈ hm_keys m ↔ hm_get_all k m ≠ [];
  keys_nodup m : NoDup (hm_keys m);
  iter_spec k m : (λ kv, kv.2) <$> filter (λ kv, kv.1 = k) (hm_iter m) = hm_get_all k m;
  hv_parse_visible s : Forall (λ b, visible_ascii b = true) s → hv_parse s = Some s;
  hv_parse_id s v : hv_parse s = Some v → v = s;
  hv_to_str_visible s : Forall (λ b, visible_ascii b = true) s → hv_to_str s = Some s;
  hv_to_str_Some s v : hv_to_str s = Some v → v = s ∧ Forall (λ b, visible_ascii b = true) s;
  hn_parse_lower s n : hn_parse s = Some n → n = to_lower s
}.

(** [headers.get(name)]: the first value. *)
Definition hm_get `{HttpLib HM} (name : str) (m : HM) : option str :=
  head (hm_get_all (to_lower name) m).

(** [headers.get(name).and_then(|v| v.to_str().ok())]. *)
Definition hm_get_str `{HttpLib HM} (name : str) (m : HM) : option str :=
  hm_get name m ≫= hv_to_str.

Definition hm_contains `{HttpLib HM} (name : str) (m : HM) : bool :=
  bool_decide (hm_get_all (to_lower name) m ≠ []).

(** The parts of an [OriginalUri]. *)
Record Uri := MkUri {
  uri_path : str;
  uri_path_and_query : option str;
  uri_host : option str;
  uri_authority : option str;
  uri_scheme : option str
}.

(** ** Addresses *)

Inductive IpAddr :=
| V4 (octets : Z)
| V6 (segments : Z).

#[export] Instance IpAddr_eq_dec : EqDecision IpAddr.
Proof. solve_decision. Defined.

Record SocketAddr := MkAddr { addr_ip : IpAddr; addr_port : Z }.

#[export] Instance SocketAddr_eq_dec : EqDecision SocketAddr.
Proof. solve_decision. Defined.

(** ** A concrete header map: the list of its entries *)

Module Alist.

Abbreviation headers := (list (str * str)).

Definition get_all (k : str) (m : headers) : list str :=
  (λ kv, kv.2) <$> filter (λ kv, kv.1 = k) m.

Definition keys (m : headers) : list str := remove_dups ((λ kv, kv.1) <$> m).

Definition remove (k : str) (m : headers) : headers := filter (λ kv, kv.1 ≠ k) m.

#[export] Instance lib : HttpLib headers := {
  hm_new := [];
  hm_get_all := get_all;
  hm_keys := keys;
  hm_iter m := m;
  hm_append k v m := m ++ [(k, v)];
  hm_insert k v m := remove k m ++ [(k, v)];
  hm_remove := remove;
  hv_parse s := if forallb visible_ascii s then Some s else None;
  hv_to_str s := if forallb visible_ascii s then Some s else None;
  hn_parse s := Some (to_lower s)
}.

Lemma get_all_app k m1 m2 : get_all k (m1 ++ m2) = get_all k m1 ++ get_all k m2.
Proof. unfold get_all. by rewrite list.filter_app, fmap_app. Qed.

Lemma get_all_one k k' v : get_all k' [(k, v)] = if decide (k' = k) then [v] else [].
Proof. unfold get_all. cbn. repeat case_decide; naive_solver. Qed.

Lemma get_all_remove' k k' m :
  get_all k' (remove k m) = if decide (k' = k) then [] else get_all k' m.
Proof.
  unfold get_all, remove. induction m as [|[n v] m IH]; [by case_decide|].
  destruct (decide (n = k)) as [->|Hnk].
  - rewrite (filter_cons_False (λ kv : str * str, kv.1 ≠ k)) by (simpl; tauto).
    rewrite IH. case_decide; [done|]. by rewrite filter_cons_False by (simpl; congruence).
  - rewrite (filter_cons_True (λ kv : str * str, kv.1 ≠ k)) by done.
    destruct (decide (n = k')) as [->|].
    + rewrite !(filter_cons_True (λ kv : str * str, kv.1 = k')) by done.
      rewrite !fmap_cons, IH. by case_decide.
    + rewrite !(filter_cons_False (λ kv : str * str, kv.1 = k')) by done. exact IH.
Qed.

Lemma forallb_Forall (s : str) (f : byte → bool) :
  forallb f s = true ↔ Forall (λ b, f b = true) s.
Proof.
  rewrite forallb_forall, list.Forall_forall.
  split; intros H b Hb; apply H; by apply list_elem_of_In.
Qed.

#[export] Instance laws : HttpLaws headers.
Proof.
  split; simpl.
  - done.
  - intros. rewrite get_all_app, get_all_one. case_decide; [done|by rewrite app_nil_r].
  - intros. rewrite get_all_app, get_all_one, get_all_remove'.
    case_decide; [done|by rewrite app_nil_r].
  - intros. apply get_all_remove'.
  - intros k m. unfold keys, get_all. rewrite elem_of_remove_dups, list_elem_of_fmap.
    split.
    + intros ([n v] & -> & Hin) Hnil%fmap_nil_inv. simpl in Hnil.
      assert (Hf : (n, v) ∈ filter (λ kv : str * str, kv.1 = n) m)
        by (apply list_elem_of_filter; done).
      rewrite Hnil in Hf. set_solver.
    + intros Hne. destruct (filter (λ kv : str * str, kv.1 = k) m) as [|kv l] eqn:E; [done|].
      assert (Hf : kv ∈ filter (λ kv : str * str, kv.1 = k) m) by (rewrite E; set_solver).
      apply list_elem_of_filter in Hf as [<- Hin]. eauto.
  - intros m. apply NoDup_remove_dups.
  - done.
  - intros s H. by rewrite (proj2 (forallb_Forall _ _) H).
  - intros s v. by case_match; intros [= ->].
  - intros s H. by rewrite (proj2 (forallb_Forall _ _) H).
  - intros s v. case_match eqn:E; intros [= ->]. split; [done|]. by apply forallb_Forall.
  - congruence.
Qed.

End Alist.

(** ** Lemmas on any header map *)

Section laws.
Context `{HttpLaws HM}.

Lemma hm_get_append_same k v (m : HM) :
  to_lower k = k → hm_get_all k m = [] → hm_get k (hm_append k v m) = Some v.
Proof.
  intros Hk Hm. unfold hm_get. rewrite Hk, get_all_append, decide_True, Hm by done. done.
Qed.

Lemma hm_contains_spec name (m : HM) :
  hm_contains name m = true ↔ hm_get_all (to_lower name) m ≠ [].
Proof. apply bool_decide_eq_true. Qed.

Lemma hm_get_str_visible name (m : HM) s :
  hm_get_str name m = Some s → Forall (λ b, visible_ascii b = true) s.
Proof.
  unfold hm_get_str. destruct (hm_get name m) as [v|]; [|done].
  simpl. by intros [-> Hv]%hv_to_str_Some.
Qed.

End laws.
