(* ===== verification/Forwarded.v ===== *)
(** * http_utils.rs, part 1: the [Forwarded] header

    The parser [ForwardedHeader::from_string] and the printer of
    [impl Display for ForwardedHeader], and the round trip between them.  The
    parser reads the value of a header that is visible ASCII text, so its
    characters are bytes. *)

From S2P Require Import Prelude RustStr Exceptions.

(** ** Data *)

(** [extensions] is a [LinkedHashMap]: its entries in insertion order. *)
Record ForwardedHeader := FH {
  fh_by : option str;
  fh_for : option str;
  fh_host : option str;
  fh_proto : option str;
  fh_extensions : option (list (str * str))
}.

Inductive FHParseState := ParamName | ParamValue.

(** A re-inserted key of a [LinkedHashMap] moves to the back. *)
Definition lhm_insert (k v : str) (m : list (str * str)) : list (str * str) :=
  filter (λ kv, kv.1 ≠ k) m ++ [(k, v)].

(** ** Character classes *)

Definition is_t_char (c : byte) : bool :=
  in_range 97 122 c || in_range 65 90 c || in_range 48 57 c ||
  bool_decide (c ∈ ["!"; "#"; "$"; "%"; "&"; "'"; "*"; "+"; "-"; "."; "^"; "_"; "`"; "|"; "~"]%byte).

Definition is_ows (c : byte) : bool := bool_decide (c = " "%byte) || bool_decide (c = "009"%byte).

Definition is_v_char (c : byte) : bool := in_range 33 126 c.

Definition DQUOTE : byte := x22.
Definition BACKSLASH : byte := "\"%byte.

(** ** Parser *)

(** The variables of one turn of the outer loop, with the buffer. *)
Record pstate := PS {
  ps_extensions : list (str * str);
  ps_state : FHParseState;
  ps_param_name : option str;
  ps_by : option str;
  ps_for : option str;
  ps_host : option str;
  ps_proto : option str;
  ps_quoted : bool;
  ps_buffer : str
}.

Definition ps_init (buffer : str) : pstate :=
  PS [] ParamName None None None None None false buffer.

Definition set_buffer (p : pstate) (b : str) : pstate :=
  PS (ps_extensions p) (ps_state p) (ps_param_name p) (ps_by p) (ps_for p) (ps_host p)
     (ps_proto p) (ps_quoted p) b.

Definition set_quoted (p : pstate) (q : bool) : pstate :=
  PS (ps_extensions p) (ps_state p) (ps_param_name p) (ps_by p) (ps_for p) (ps_host p)
     (ps_proto p) q (ps_buffer p).

Definition set_name (p : pstate) (n : option str) (s : FHParseState) (b : str) : pstate :=
  PS (ps_extensions p) s n (ps_by p) (ps_for p) (ps_host p) (ps_proto p) (ps_quoted p) b.

(** The dispatch on the lower-cased parameter name. *)
Definition assign (p : pstate) (pn val : str) : pstate :=
  let pn := to_lower pn in
  let '(PS ext st nm b f h pr q buf) := p in
  if str_eqb pn (lit "by") then PS ext st nm (Some val) f h pr q buf
  else if str_eqb pn (lit "for") then PS ext st nm b (Some val) h pr q buf
  else if str_eqb pn (lit "host") then PS ext st nm b f (Some val) pr q buf
  else if str_eqb pn (lit "proto") then PS ext st nm b f h (Some val) q buf
  else PS (lhm_insert pn val ext) st nm b f h pr q buf.

Definition fh_err (r : str) : CrankerRouterException :=
  with_err_kind (crex_new r) ForwardedHeaderParserError_0008.

Definition err_no_param_name : CrankerRouterException :=
  fh_err (lit "Illegal state: should already parsing forwarded header value but param name still None").

Inductive flow := Continue | Break.

(** One turn of ['header_value_loop] on the character [c]; [last_char] is the
    character before it. *)
Definition fh_step (p : pstate) (last_char c : byte)
  : result (flow * pstate) CrankerRouterException :=
  match ps_state p with
  | ParamName =>
      if bool_decide (c = ","%byte) && bool_decide (ps_buffer p = []) then Ok (Break, p)
      else if bool_decide (c = "="%byte) then
        Ok (Continue, set_name p (Some (ps_buffer p)) ParamValue [])
      else if is_t_char c then Ok (Continue, set_buffer p (ps_buffer p ++ [c]))
      else if is_ows c then
        if bool_decide (ps_buffer p = []) then Ok (Continue, p)
        else Err (fh_err (lit "Got whitespace in parameter name while in ParamName - header was "
                            ++ ps_buffer p))
      else Err (fh_err (lit "Got ascii " ++ display_Z (bZ c) ++ lit " while in ParamName"))
  | ParamValue =>
      let is_first := negb (ps_quoted p) && bool_decide (ps_buffer p = []) in
      if is_first && is_ows c then Ok (Continue, p)
      else if is_first && bool_decide (c = DQUOTE) then Ok (Continue, set_quoted p true)
      else if ps_quoted p then
        if bool_decide (c = BACKSLASH) then Ok (Continue, p)
        else if bool_decide (last_char = BACKSLASH) then
          Ok (Continue, set_buffer p (ps_buffer p ++ [c]))
        else if bool_decide (c = DQUOTE) then Ok (Continue, set_quoted p false)
        else Ok (Continue, set_buffer p (ps_buffer p ++ [c]))
      else if bool_decide (c = ";"%byte) then
        match ps_param_name p with
        | None => Err err_no_param_name
        | Some pn => Ok (Continue, set_name (assign p pn (ps_buffer p)) None ParamName [])
        end
      else if bool_decide (c = ","%byte) then Ok (Break, p)
      else if is_v_char c then Ok (Continue, set_buffer p (ps_buffer p ++ [c]))
      else if is_ows c then Ok (Continue, p)
      else Err (fh_err (lit "Got character code " ++ display_Z (bZ c) ++ lit " (" ++ [c] ++
                          lit ") while parsing param value"))
  end.

(** ['header_value_loop]: the state it ends in, the last character read and
    the input left. *)
Fixpoint header_value_loop (p : pstate) (last_char : byte) (input : str)
  : result (pstate * byte * str) CrankerRouterException :=
  match input with
  | [] => Ok (p, last_char, [])
  | c :: r =>
      match fh_step p last_char c with
      | Err e => Err e
      | Ok (Continue, p') => header_value_loop p' c r
      | Ok (Break, p') => Ok (p', c, r)
      end
  end.

(** What follows the inner loop: the header it contributes and the buffer. *)
Definition fh_finish (full : str) (p : pstate)
  : result (ForwardedHeader * str) CrankerRouterException :=
  let? q := match ps_state p with
            | ParamValue =>
                match ps_param_name p with
                | None => Err err_no_param_name
                | Some pn => Ok (set_buffer (assign p pn (ps_buffer p)) [])
                end
            | ParamName =>
                if bool_decide (ps_buffer p = []) then Ok p
                else Err (fh_err (lit "Unexpected ending point at state ParamName for " ++ full))
            end in
  let opt_extensions := match ps_extensions q with [] => None | ext => Some ext end in
  Ok (FH (ps_by q) (ps_for q) (ps_host q) (ps_proto q) opt_extensions, ps_buffer q).

(** The outer loop; [None] when the fuel runs out. *)
Fixpoint from_string_loop (fuel : nat) (full : str) (buffer : str) (last_char : byte)
  (input : str) (results : list ForwardedHeader)
  : option (result (list ForwardedHeader) CrankerRouterException) :=
  match input with
  | [] => Some (Ok results)
  | _ :: _ =>
      match fuel with
      | O => None
      | S fuel' =>
          match header_value_loop (ps_init buffer) last_char input with
          | Err e => Some (Err e)
          | Ok (p, l, rest) =>
              match fh_finish full p with
              | Err e => Some (Err e)
              | Ok (h, buffer') =>
                  from_string_loop fuel' full buffer' l rest (results ++ [h])
              end
          end
      end
  end.

Definition from_string (input : str)
  : option (result (list ForwardedHeader) CrankerRouterException) :=
  if bool_decide (trim input = []) then Some (Ok [])
  else from_string_loop (length input) input [] "000"%byte input [].

(** ** Printer *)

Definition quote_if_needed (s : str) : str :=
  if negb (forallb is_t_char s)
  then [DQUOTE] ++ replace_all [DQUOTE] [BACKSLASH; DQUOTE] s ++ [DQUOTE]
  else s.

Definition append_string_for_forwarded_header (sb k : str) (v : option str) : str :=
  match v with
  | None => sb
  | Some unwrapped =>
      (if bool_decide (sb = []) then sb else sb ++ lit ";") ++ k ++ lit "=" ++ quote_if_needed unwrapped
  end.

(** [Display::fmt]. *)
Definition fh_to_string (h : ForwardedHeader) : str :=
  let sb := append_string_for_forwarded_header [] (lit "by") (fh_by h) in
  let sb := append_string_for_forwarded_header sb (lit "for") (fh_for h) in
  let sb := append_string_for_forwarded_header sb (lit "host") (fh_host h) in
  let sb := append_string_for_forwarded_header sb (lit "proto") (fh_proto h) in
  match fh_extensions h with
  | None => sb
  | Some m => foldl (λ sb kv, append_string_for_forwarded_header sb kv.1 (Some kv.2)) sb m
  end.

(** ** Well-formed headers *)

Definition ext_key_ok (k : str) : bool :=
  forallb is_t_char k && str_eqb (to_lower k) k &&
  negb (bool_decide (k ∈ [lit "by"; lit "for"; lit "host"; lit "proto"])).

(** The parameters of a header, in the order they are printed. *)
Definition opt_field (k : string) (v : option str) : list (str * str) :=
  match v with Some x => [(lit k, x)] | None => [] end.

Definition fh_fields (h : ForwardedHeader) : list (str * str) :=
  opt_field "by" (fh_by h) ++ opt_field "for" (fh_for h) ++ opt_field "host" (fh_host h) ++
  opt_field "proto" (fh_proto h) ++ default [] (fh_extensions h).

(** A header the printer can express: no value holds a backslash, the extension
    names are distinct lower-case tokens other than the four known ones, and
    there is at least one parameter. *)
Definition fh_wf (h : ForwardedHeader) : bool :=
  forallb (λ kv, negb (bool_decide (BACKSLASH ∈ kv.2))) (fh_fields h) &&
  negb (bool_decide (fh_fields h = [])) &&
  match fh_extensions h with
  | None => true
  | Some m => negb (bool_decide (m = [])) && bool_decide (NoDup ((λ kv, kv.1) <$> m)) &&
              forallb (λ kv, ext_key_ok kv.1) m
  end.

(** ** Lemmas *)

Lemma is_t_char_facts c :
  is_t_char c = true →
  c ≠ ","%byte ∧ c ≠ "="%byte ∧ c ≠ ";"%byte ∧ c ≠ DQUOTE ∧ c ≠ BACKSLASH ∧
  is_ows c = false ∧ is_v_char c = true.
Proof. destruct c; vm_compute; intros; try discriminate; repeat split; discriminate. Qed.

Lemma fh_step_name p l c :
  ps_state p = ParamName → is_t_char c = true →
  fh_step p l c = Ok (Continue, set_buffer p (ps_buffer p ++ [c])).
Proof.
  intros Hs Hc. destruct (is_t_char_facts c Hc) as (H1 & H2 & H3 & H4 & H5 & H6 & H7).
  unfold fh_step. rewrite Hs, (bool_decide_eq_false_2 (c = ","%byte)) by done. simpl.
  rewrite (bool_decide_eq_false_2 (c = "="%byte)) by done. by rewrite Hc.
Qed.

(** Reading a parameter name up to the equals sign. *)
Lemma loop_name k p l r :
  ps_state p = ParamName → forallb is_t_char k = true →
  header_value_loop p l (k ++ "="%byte :: r)
  = header_value_loop (set_name p (Some (ps_buffer p ++ k)) ParamValue []) "="%byte r.
Proof.
  revert p l. induction k as [|c k IH]; intros p l Hs Hk; simpl in *.
  - unfold fh_step. rewrite Hs. simpl. by rewrite app_nil_r.
  - apply andb_true_iff in Hk as [Hc Hk].
    rewrite fh_step_name by done. rewrite IH by done. simpl. by rewrite <- app_assoc.
Qed.

(** Reading an unquoted value. *)
Lemma loop_token v p l r :
  ps_state p = ParamValue → ps_quoted p = false → forallb is_t_char v = true →
  ∃ l', header_value_loop p l (v ++ r) = header_value_loop (set_buffer p (ps_buffer p ++ v)) l' r.
Proof.
  revert p l. induction v as [|c v IH]; intros p l Hs Hq Hv; simpl in *.
  - exists l. rewrite app_nil_r. by destruct p.
  - apply andb_true_iff in Hv as [Hc Hv].
    destruct (is_t_char_facts c Hc) as (H1 & H2 & H3 & H4 & H5 & H6 & H7).
    unfold fh_step. rewrite Hs, Hq, H6, H7. rewrite !andb_false_r.
    rewrite (bool_decide_eq_false_2 (c = DQUOTE)), andb_false_r by done.
    rewrite (bool_decide_eq_false_2 (c = ";"%byte)), (bool_decide_eq_false_2 (c = ","%byte)) by done.
    destruct (IH (set_buffer p (ps_buffer p ++ [c])) c) as [l' ->]; [done..|].
    exists l'. simpl. by rewrite <- app_assoc.
Qed.

(** The text of a quoted value without its quotes. *)
Definition esc (v : str) : str := replace_all [DQUOTE] [BACKSLASH; DQUOTE] v.

Lemma esc_cons c v :
  esc (c :: v) = (if decide (c = DQUOTE) then [BACKSLASH; DQUOTE] else [c]) ++ esc v.
Proof.
  unfold esc, replace_all. simpl. destruct (decide (c = DQUOTE)) as [->|Hc].
  - by rewrite bool_decide_eq_true_2.
  - by rewrite bool_decide_eq_false_2 by congruence.
Qed.

Lemma loop_quoted v p l r :
  ps_state p = ParamValue → ps_quoted p = true → l ≠ BACKSLASH → BACKSLASH ∉ v →
  ∃ l', header_value_loop p l (esc v ++ DQUOTE :: r)
        = header_value_loop (set_quoted (set_buffer p (ps_buffer p ++ v)) false) l' r.
Proof.
  revert p l. induction v as [|c v IH]; intros p l Hs Hq Hl Hv.
  - exists DQUOTE. simpl. unfold fh_step. rewrite Hs, Hq. simpl.
    rewrite (bool_decide_eq_false_2 (l = BACKSLASH)) by done.
    rewrite app_nil_r. by destruct p.
  - rewrite esc_cons. destruct (decide (c = DQUOTE)) as [->|Hc]; simpl.
    + unfold fh_step. rewrite Hs, Hq. simpl.
      destruct (IH (set_buffer p (ps_buffer p ++ [DQUOTE])) DQUOTE) as [l' Hl'];
        [done..|set_solver|].
      exists l'. rewrite Hs, Hq. simpl in *. rewrite Hl'. by rewrite <- app_assoc.
    + unfold fh_step. rewrite Hs, Hq. simpl.
      rewrite (bool_decide_eq_false_2 (c = BACKSLASH)) by set_solver.
      rewrite (bool_decide_eq_false_2 (l = BACKSLASH)) by done.
      rewrite (bool_decide_eq_false_2 (c = DQUOTE)) by done.
      destruct (IH (set_buffer p (ps_buffer p ++ [c])) c) as [l' Hl']; [done..|set_solver|set_solver|].
      exists l'. rewrite Hl'. simpl. by rewrite <- app_assoc.
Qed.

(** Reading any printed value. *)
Lemma loop_value v p l r :
  ps_state p = ParamValue → ps_quoted p = false → ps_buffer p = [] → BACKSLASH ∉ v →
  ∃ l', header_value_loop p l (quote_if_needed v ++ r) = header_value_loop (set_buffer p v) l' r.
Proof.
  intros Hs Hq Hb Hv. unfold quote_if_needed.
  destruct (forallb is_t_char v) eqn:Ht; simpl.
  - destruct (loop_token v p l r) as [l' Hl]; [done..|]. exists l'. by rewrite Hl, Hb.
  - unfold fh_step. rewrite Hs, Hq, Hb. simpl. rewrite <- app_assoc. simpl.
    destruct (loop_quoted v (set_quoted p true) DQUOTE r) as [l' Hl]; [done..|].
    exists l'. unfold esc in Hl. simpl in Hl. rewrite Hl, Hb. simpl. by destruct p; simpl in *; subst.
Qed.

(** ** The printer as a join of its fields *)

#[local] Arguments append_string_for_forwarded_header : simpl never.
#[local] Arguments join : simpl never.

Definition field_text (kv : str * str) : str := kv.1 ++ lit "=" ++ quote_if_needed kv.2.

Lemma append_nonempty sb k v :
  sb ≠ [] →
  append_string_for_forwarded_header sb k (Some v) = sb ++ lit ";" ++ field_text (k, v).
Proof.
  intros H. unfold append_string_for_forwarded_header, field_text. simpl.
  rewrite bool_decide_eq_false_2 by done. by rewrite <- app_assoc.
Qed.

Lemma field_text_nonempty kv : field_text kv ≠ [].
Proof. destruct kv as [[|] ?]; done. Qed.

Lemma join_fields_nonempty kvs : kvs ≠ [] → join (lit ";") (map field_text kvs) ≠ [].
Proof.
  destruct kvs as [|kv [|]]; [done|intros _; apply field_text_nonempty|].
  intros _. simpl. pose proof (field_text_nonempty kv). by destruct (field_text kv).
Qed.

(** Appending fields to a text that is the join of earlier fields. *)
Lemma append_fields kvs kvs0 :
  foldl (λ sb kv, append_string_for_forwarded_header sb kv.1 (Some kv.2))
        (join (lit ";") (map field_text kvs0)) kvs
  = join (lit ";") (map field_text (kvs0 ++ kvs)).
Proof.
  revert kvs0. induction kvs as [|[k v] kvs IH]; intros kvs0; simpl; [by rewrite app_nil_r|].
  transitivity (foldl (λ sb kv, append_string_for_forwarded_header sb kv.1 (Some kv.2))
                  (join (lit ";") (map field_text (kvs0 ++ [(k, v)]))) kvs).
  - f_equal. destruct (decide (kvs0 = [])) as [->|Hne]; [done|].
    rewrite append_nonempty by (by apply join_fields_nonempty).
    rewrite map_app. simpl. rewrite join_snoc; [done|]. by destruct kvs0.
  - rewrite IH. by rewrite <- app_assoc.
Qed.

Lemma append_opt kvs0 k v :
  append_string_for_forwarded_header (join (lit ";") (map field_text kvs0)) (lit k) v
  = join (lit ";") (map field_text (kvs0 ++ opt_field k v)).
Proof.
  destruct v as [v|]; [|by rewrite app_nil_r].
  exact (append_fields [(lit k, v)] kvs0).
Qed.

Lemma fh_to_string_join h : fh_to_string h = join (lit ";") (map field_text (fh_fields h)).
Proof.
  unfold fh_to_string, fh_fields. cbv zeta.
  replace (append_string_for_forwarded_header [] (lit "by") (fh_by h))
    with (join (lit ";") (map field_text (opt_field "by" (fh_by h))))
    by (symmetry; exact (append_opt [] "by" (fh_by h))).
  rewrite !append_opt. destruct (fh_extensions h) as [m|]; cbn [default].
  - rewrite append_fields. by rewrite <- !app_assoc.
  - by rewrite app_nil_r, <- !app_assoc.
Qed.

(** ** Parsing printed fields *)

(** The part of the parser state that ends up in the header. *)
Definition acc_of (p : pstate) :=
  (ps_extensions p, ps_by p, ps_for p, ps_host p, ps_proto p).

Lemma assign_acc p q k v : acc_of p = acc_of q → acc_of (assign p k v) = acc_of (assign q k v).
Proof.
  destruct p, q. unfold acc_of, assign. simpl. intros [= -> -> -> -> ->].
  by repeat case_match.
Qed.

Lemma assign_other p k v :
  ps_state (assign p k v) = ps_state p ∧ ps_param_name (assign p k v) = ps_param_name p ∧
  ps_quoted (assign p k v) = ps_quoted p ∧ ps_buffer (assign p k v) = ps_buffer p.
Proof. destruct p. unfold assign. by repeat case_match. Qed.

Definition assign_all (p : pstate) (kvs : list (str * str)) : pstate :=
  foldl (λ p kv, assign p kv.1 kv.2) p kvs.

Lemma assign_all_acc kvs p q :
  acc_of p = acc_of q → acc_of (assign_all p kvs) = acc_of (assign_all q kvs).
Proof.
  revert p q. induction kvs as [|kv kvs IH]; intros p q H; [done|].
  apply IH. by apply assign_acc.
Qed.

Definition field_ok (kv : str * str) : Prop := forallb is_t_char kv.1 = true ∧ BACKSLASH ∉ kv.2.

Lemma loop_field kv p l r :
  ps_state p = ParamName → ps_quoted p = false → ps_buffer p = [] → field_ok kv →
  ∃ l', header_value_loop p l (field_text kv ++ r)
        = header_value_loop (set_name p (Some kv.1) ParamValue kv.2) l' r.
Proof.
  intros Hs Hq Hb [Hk Hv]. unfold field_text.
  rewrite <- !app_assoc. change (lit "=" ++ ?x) with ("="%byte :: x).
  rewrite loop_name by done. rewrite Hb.
  destruct (loop_value kv.2 (set_name p (Some kv.1) ParamValue []) "="%byte r) as [l' Hl]; [done..|].
  exists l'. exact Hl.
Qed.

Lemma step_semicolon p l pn :
  ps_state p = ParamValue → ps_quoted p = false → ps_param_name p = Some pn →
  fh_step p l ";"%byte
  = Ok (Continue, set_name (assign p pn (ps_buffer p)) None ParamName []).
Proof.
  intros Hs Hq Hn. unfold fh_step. rewrite Hs, Hq, Hn.
  by destruct (bool_decide (ps_buffer p = [])).
Qed.

Lemma loop_fields kvs p l :
  kvs ≠ [] → Forall field_ok kvs →
  ps_state p = ParamName → ps_quoted p = false → ps_buffer p = [] →
  ∃ q l' pn, header_value_loop p l (join (lit ";") (map field_text kvs)) = Ok (q, l', [])
    ∧ ps_state q = ParamValue ∧ ps_param_name q = Some pn
    ∧ acc_of (assign q pn (ps_buffer q)) = acc_of (assign_all p kvs).
Proof.
  revert p l. induction kvs as [|kv kvs IH]; [done|].
  intros p l _ Hok Hs Hq Hb. inversion_clear Hok as [|?? Hkv Hkvs].
  destruct kvs as [|kv' kvs].
  - destruct (loop_field kv p l []) as [l' Hl]; [done..|].
    rewrite app_nil_r in Hl.
    change (join (lit ";") (map field_text [kv])) with (field_text kv). rewrite Hl. simpl.
    eexists _, l', kv.1. split; [done|]. split; [done|]. split; [done|]. by apply assign_acc.
  - change (join (lit ";") (map field_text (kv :: kv' :: kvs)))
      with (field_text kv ++ ";"%byte :: join (lit ";") (map field_text (kv' :: kvs))).
    destruct (loop_field kv p l (";"%byte :: join (lit ";") (map field_text (kv' :: kvs))))
      as [l' ->]; [done..|].
    cbn [header_value_loop]. rewrite (step_semicolon _ _ kv.1) by done.
    set (p1 := set_name (assign _ _ _) _ _ _).
    destruct (IH p1 ";"%byte) as (q & l2 & pn & Hq1 & Hq2 & Hq3 & Hq4); [done|done|done| |done|].
    + unfold p1. cbn [set_name ps_quoted].
      by rewrite (proj1 (proj2 (proj2 (assign_other _ _ _)))).
    + exists q, l2, pn. split; [exact Hq1|]. split; [done|]. split; [done|].
      rewrite Hq4. change (assign_all p (kv :: kv' :: kvs))
        with (assign_all (assign p kv.1 kv.2) (kv' :: kvs)).
      apply assign_all_acc.
      change (acc_of p1) with (acc_of (assign (set_name p (Some kv.1) ParamValue kv.2) kv.1 kv.2)).
      by apply assign_acc.
Qed.

Lemma lhm_insert_fresh k v m : k ∉ (λ kv, kv.1) <$> m → lhm_insert k v m = m ++ [(k, v)].
Proof.
  intros H. unfold lhm_insert. f_equal. induction m as [|[k' v'] m IH]; [done|].
  rewrite fmap_cons in H. rewrite filter_cons_True by (simpl in *; set_solver).
  f_equal. apply IH. set_solver.
Qed.

Lemma assign_ext p k v :
  ext_key_ok k = true →
  acc_of (assign p k v) = (lhm_insert k v (ps_extensions p), ps_by p, ps_for p, ps_host p, ps_proto p).
Proof.
  unfold ext_key_ok. intros H. bool_to_prop.
  match goal with H : str_eqb (to_lower k) k = true |- _ => apply str_eqb_true in H; rename H into Hk end.
  match goal with H : k ∉ _ |- _ => rename H into Hn end.
  destruct p. unfold assign. rewrite Hk. unfold str_eqb.
  rewrite !bool_decide_eq_false_2 by set_solver. done.
Qed.

(** Assigning the extensions appends them in their order. *)
Lemma assign_all_ext m p :
  forallb (λ kv, ext_key_ok kv.1) m = true →
  NoDup ((λ kv, kv.1) <$> (ps_extensions p ++ m)) →
  acc_of (assign_all p m) = (ps_extensions p ++ m, ps_by p, ps_for p, ps_host p, ps_proto p).
Proof.
  revert p. induction m as [|[k v] m IH]; intros p Hok Hnd; simpl in *.
  - by rewrite app_nil_r.
  - apply andb_true_iff in Hok as [Hk Hok].
    pose proof (assign_ext p k v Hk) as Ha.
    rewrite lhm_insert_fresh in Ha.
    2:{ rewrite fmap_app in Hnd. apply list.NoDup_app in Hnd as (_ & Hnd & _).
        intros Hin. apply (Hnd _ Hin). simpl. set_solver. }
    unfold acc_of in Ha. injection Ha as He Hb Hf Hh Hp.
    unfold assign_all in *. simpl. rewrite IH; [|done|].
    + rewrite He, Hb, Hf, Hh, Hp. by rewrite <- app_assoc.
    + rewrite He. by rewrite <- app_assoc.
Qed.

Lemma assign_all_app p a b : assign_all p (a ++ b) = assign_all (assign_all p a) b.
Proof. apply foldl_app. Qed.

Lemma assign_all_fields h :
  match fh_extensions h with
  | None => True
  | Some m => NoDup ((λ kv, kv.1) <$> m) ∧ forallb (λ kv, ext_key_ok kv.1) m = true
  end →
  acc_of (assign_all (ps_init []) (fh_fields h))
  = (default [] (fh_extensions h), fh_by h, fh_for h, fh_host h, fh_proto h).
Proof.
  destruct h as [b f ho pr ext]. unfold fh_fields. simpl. intros Hext.
  rewrite !app_assoc, assign_all_app.
  set (p := assign_all (ps_init []) _).
  assert (Hp : acc_of p = ([], b, f, ho, pr)) by (unfold p; by destruct b, f, ho, pr).
  unfold acc_of in Hp. injection Hp as He Hb Hf Hh Hpr.
  destruct ext as [m|]; simpl in *.
  - destruct Hext as [Hnd Hok]. rewrite assign_all_ext; rewrite ?He; [|done..].
    by rewrite Hb, Hf, Hh, Hpr.
  - unfold acc_of. by rewrite He, Hb, Hf, Hh, Hpr.
Qed.

(** A text that starts with a visible ASCII character is not blank. *)
Lemma trim_visible b r : is_v_char b = true → trim (b :: r) ≠ [].
Proof.
  intros Hb. unfold trim.
  assert (∃ l cs, chars (b :: r) = (b :: l) :: cs) as (l & cs & ->).
  { simpl. destruct (chars r) as [|c cs]; [by exists [], []|].
    destruct (starts_with_cont c); eauto. }
  assert (Hws : is_ws (b :: l) = false).
  { unfold is_ws. apply bool_decide_eq_false. intros Hin. unfold ws_chars in Hin.
    rewrite list_elem_of_In in Hin. vm_compute in Hin. repeat destruct Hin as [Hin|Hin];
    try (injection Hin as <-; discriminate Hb); done. }
  simpl. rewrite Hws. intros Hnil.
  assert (Hin : (b :: l) ∈ rev (drop_ws (rev cs ++ [b :: l]))).
  { rewrite elem_of_rev. clear Hnil. induction (rev cs) as [|c cs' IH]; simpl.
    - rewrite Hws. set_solver.
    - destruct (is_ws c); [done|]. set_solver. }
  apply list_elem_of_split in Hin as (l1 & l2 & Hl). simpl in Hnil. rewrite Hl in Hnil.
  rewrite concat_app in Hnil. simpl in Hnil. by destruct (concat l1).
Qed.

Lemma fields_visible kvs :
  kvs ≠ [] → Forall field_ok kvs →
  ∃ b r, join (lit ";") (map field_text kvs) = b :: r ∧ is_v_char b = true.
Proof.
  intros Hne Hok. destruct kvs as [|[k v] kvs]; [done|]. inversion_clear Hok as [|?? [Hk _] _].
  assert (∃ b r, field_text (k, v) = b :: r ∧ is_v_char b = true) as (b & r & Hb & Hv).
  { destruct k as [|c k]; [by eexists _, _|]. simpl in Hk. apply andb_true_iff in Hk as [Hc _].
    exists c, (k ++ lit "=" ++ quote_if_needed v). split; [done|]. by apply is_t_char_facts. }
  destruct kvs as [|kv kvs]; [by exists b, r|].
  change (join (lit ";") (map field_text ((k, v) :: kv :: kvs)))
    with (field_text (k, v) ++ lit ";" ++ join (lit ";") (map field_text (kv :: kvs))).
  rewrite Hb. eauto.
Qed.

Lemma fh_wf_fields h :
  fh_wf h = true →
  fh_fields h ≠ [] ∧ Forall field_ok (fh_fields h) ∧
  match fh_extensions h with
  | None => True
  | Some m => m ≠ [] ∧ NoDup ((λ kv, kv.1) <$> m) ∧ forallb (λ kv, ext_key_ok kv.1) m = true
  end.
Proof.
  unfold fh_wf. intros H. bool_to_prop.
  match goal with H : forallb _ (fh_fields h) = true |- _ => rename H into Hv end.
  assert (Hext : match fh_extensions h with
    | None => True
    | Some m => m ≠ [] ∧ NoDup ((λ kv, kv.1) <$> m) ∧ forallb (λ kv, ext_key_ok kv.1) m = true
    end) by (destruct (fh_extensions h); bool_to_prop; done).
  split; [done|]. split; [|done].
  assert (Hk : Forall (λ kv : str * str, forallb is_t_char kv.1 = true) (fh_fields h)).
  { unfold fh_fields. repeat apply Forall_app_2;
      try (destruct (fh_by h), (fh_for h), (fh_host h), (fh_proto h);
           repeat constructor; fail).
    destruct (fh_extensions h) as [m|]; simpl; [|done]. destruct Hext as (_ & _ & Hm).
    rewrite forallb_forall in Hm. apply list.Forall_forall. intros kv Hin%list_elem_of_In.
    specialize (Hm _ Hin). unfold ext_key_ok in Hm. by bool_to_prop. }
  rewrite forallb_forall in Hv. rewrite list.Forall_forall in Hk |- *.
  intros kv Hin. split; [by apply Hk|].
  specialize (Hv kv (proj1 (list_elem_of_In _ _) Hin)). by bool_to_prop.
Qed.

(** The inner loop consumes a character of a non-empty input. *)
Lemma header_value_loop_rest p l input q l' rest :
  header_value_loop p l input = Ok (q, l', rest) →
  length rest ≤ length input - 1.
Proof.
  revert p l. induction input as [|c r IH]; intros p l; simpl; [intros; simplify_eq; simpl; lia|].
  destruct (fh_step p l c) as [[[|] p']|e]; [|intros; simplify_eq; lia|done].
  intros H%IH. lia.
Qed.

Lemma from_string_loop_total fuel full buf l input res :
  length input ≤ fuel → is_Some (from_string_loop fuel full buf l input res).
Proof.
  revert buf l input res. induction fuel as [|fuel IH]; intros buf l [|c r] res Hf;
    simpl in *; try (by eexists); try lia.
  destruct (fh_step _ l c) as [[[|] p]|e]; try (by eexists).
  - destruct (header_value_loop p c r) as [[[q l'] rest]|e] eqn:E; [|by eexists].
    apply header_value_loop_rest in E.
    destruct (fh_finish full q) as [[h b']|e]; [|by eexists]. apply IH. lia.
  - destruct (fh_finish full p) as [[h b']|e]; [|by eexists]. apply IH. lia.
Qed.

(** ** Theorems *)

(** C12: printing and parsing a [Forwarded] header is a round trip: for every
    header with at least one parameter, whose values hold no backslash (quotes,
    spaces, commas, semicolons and any other character are allowed) and whose
    extensions are distinct lower-case tokens, the text [Display] prints is parsed by [from_string]
    into exactly that header. *)
Theorem forwarded_round_trip h :
  fh_wf h = true → from_string (fh_to_string h) = Some (Ok [h]).
Proof.
  intros (Hne & Hok & Hext)%fh_wf_fields.
  destruct (fields_visible _ Hne Hok) as (b & r & Hbr & Hb).
  unfold from_string. rewrite fh_to_string_join, Hbr.
  rewrite bool_decide_eq_false_2 by (by apply trim_visible).
  cbn [length from_string_loop]. rewrite <- Hbr.
  destruct (loop_fields (fh_fields h) (ps_init []) "000"%byte)
    as (q & l & pn & Hq1 & Hq2 & Hq3 & Hq4); [done..|].
  rewrite Hq1. unfold fh_finish. rewrite Hq2, Hq3. cbn [result_bind].
  rewrite assign_all_fields in Hq4 by (destruct (fh_extensions h); naive_solver).
  unfold acc_of in Hq4. injection Hq4 as He Hby Hf Hh Hp.
  cbn [set_buffer ps_extensions ps_by ps_for ps_host ps_proto ps_buffer].
  rewrite He, Hby, Hf, Hh, Hp. destruct h as [hb hf hh hp [m|]]; simpl in *.
  - destruct Hext as (Hm & _ & _). destruct m; [done|]. by destruct r.
  - by destruct r.
Qed.

Lemma forwarded_round_trip_witness :
  from_string (fh_to_string
    (FH None (Some (lit "[::1]:80")) (Some (lit "a b, c;d")) (Some (lit "https"))
        (Some [(lit "secret", [DQUOTE; "x"%byte])])))
  = Some (Ok [FH None (Some (lit "[::1]:80")) (Some (lit "a b, c;d")) (Some (lit "https"))
        (Some [(lit "secret", [DQUOTE; "x"%byte])])]).
Proof. apply forwarded_round_trip. by vm_compute. Defined.

(** [ForwardedHeader::from_string] terminates on every input: its two
    nested loops return a list of headers or an error. *)
Theorem from_string_terminates input : is_Some (from_string input).
Proof.
  unfold from_string. case_bool_decide; [by eexists|]. by apply from_string_loop_total.
Qed.

(** The round trip needs its hypothesis: the printer does not escape a
    backslash and the parser drops every backslash of a quoted value, so a host
    holding backslashes is printed and parsed back without them. *)
Theorem forwarded_backslash_lost :
  from_string (fh_to_string (FH None None (Some (lit "a\b")) None None))
  = Some (Ok [FH None None (Some (lit "ab")) None None]).
Proof. by vm_compute. Qed.
