(* ===== verification/Config.v ===== *)
(** * lib.rs, part 1: the header sets and the router's configuration

    [CrankerRouterConfig] and its builder methods.  A builder method that
    checks its argument panics when the check fails.  The trait objects of the
    configuration (proxy listeners, socket filter, route resolver) are values
    of type parameters. *)

From S2P Require Import Prelude RustStr Http.

(** ** Constants *)

Definition CRANKER_PROTOCOL_HEADER_KEY : str := lit "CrankerProtocol".
Definition VER_1_0 : str := lit "1.0".
Definition VER_3_0 : str := lit "3.0".
Definition CRANKER_V_1_0 : str := lit "cranker_1.0".
Definition CRANKER_V_3_0 : str := lit "cranker_3.0".

Definition SUPPORTED_CRANKER_VERSION : gmap str str :=
  <[VER_3_0 := CRANKER_V_3_0]> (<[VER_1_0 := CRANKER_V_1_0]> ∅).

Definition RESPONSE_HEADERS_TO_NOT_SEND_BACK : gset str := {[ lit "server" ]}.

Definition HOP_BY_HOP_HEADERS : gset str :=
  list_to_set [lit "keep-alive"; lit "transfer-encoding"; lit "te"; lit "connection";
    lit "trailer"; lit "upgrade"; lit "proxy-authorization"; lit "proxy-authenticate"].

Definition REPRESSED_HEADERS : gset str :=
  HOP_BY_HOP_HEADERS ∪
  list_to_set [lit "expect"; lit "forwarded"; lit "x-forwarded-by"; lit "x-forwarded-for";
    lit "x-forwarded-host"; lit "x-forwarded-proto"; lit "x-forwarded-port";
    lit "x-forwarded-server"; lit "via"].

Definition DEF_IDLE_READ_TIMEOUT_MS : Z := 60000.
Definition DEF_ROUTES_KEEP_TIME_MILLIS : Z := 2 * 60 * 60 * 1000.
Definition DEF_PING_SENT_AFTER_NO_WRITE_FOR_MS : Z := 10000.
Definition DEF_CONNECTOR_MAX_WAIT_TIME_MILLIS : Z := 5000.

(** ** Configuration *)

Section config.
Context {Listener Filter Resolver : Type}.

Record CrankerRouterConfig := MkConfig {
  proxy_listeners : list Listener;
  router_socket_filter : Filter;
  discard_client_forwarded_headers : bool;
  send_legacy_forwarded_headers : bool;
  via_name : str;
  routes_keep_time_millis : Z;
  connector_max_wait_time_millis : Z;
  ping_sent_after_no_write_for_ms : Z;
  idle_read_timeout_ms : Z;
  allow_catch_all : bool;
  do_not_proxy_headers : gset str;
  registration_ip_validator : IpAddr → bool;
  route_resolver : Resolver;
  supported_cranker_protocols : gmap str str
}.

(** [AllowAll::allow] of ip_validator.rs. *)
Definition AllowAll (ip : IpAddr) : bool := true.

(** [CrankerRouterBuilder::new]; the default filter and resolver are arguments. *)
Definition config_new (f : Filter) (r : Resolver) : CrankerRouterConfig := {|
  proxy_listeners := [];
  router_socket_filter := f;
  discard_client_forwarded_headers := false;
  send_legacy_forwarded_headers := false;
  via_name := lit "scr-axum";
  routes_keep_time_millis := DEF_ROUTES_KEEP_TIME_MILLIS;
  connector_max_wait_time_millis := DEF_CONNECTOR_MAX_WAIT_TIME_MILLIS;
  ping_sent_after_no_write_for_ms := DEF_PING_SENT_AFTER_NO_WRITE_FOR_MS;
  idle_read_timeout_ms := DEF_IDLE_READ_TIMEOUT_MS;
  allow_catch_all := true;
  do_not_proxy_headers := REPRESSED_HEADERS;
  registration_ip_validator := AllowAll;
  route_resolver := r;
  supported_cranker_protocols := SUPPORTED_CRANKER_VERSION
|}.

(** ** Checks *)

(** The inner loop of [check_supported_cranker_version] over the entries of
    [SUPPORTED_CRANKER_VERSION] for one requested version. *)
Fixpoint check_version_entries (ver : str) (entries : list (str * str)) (res : gmap str str)
  : outcome (gmap str str) :=
  match entries with
  | [] => Ret res
  | (k, v) :: r =>
      if eq_ignore_ascii_case k ver then check_version_entries ver r (<[k := v]> res)
      else if eq_ignore_ascii_case v ver then check_version_entries ver r (<[k := v]> res)
      else Panic
  end.

Fixpoint check_versions (versions : list str) (res : gmap str str) : outcome (gmap str str) :=
  match versions with
  | [] => Ret res
  | ver :: r =>
      let! res' := check_version_entries ver (map_to_list SUPPORTED_CRANKER_VERSION) res in
      check_versions r res'
  end.

(** [versions] lists the set in the order of its iteration. *)
Definition check_supported_cranker_version (versions : list str) : outcome (gmap str str) :=
  match versions with
  | [] => Panic
  | _ => let! res := check_versions versions ∅ in
         if decide (res = ∅) then Panic else Ret res
  end.

Definition via_allowed : str :=
  lit "0123456789abcdefghijklmnopqrstuvwxyzABCDEFGHIJKLMNOPQRSTUVWXYZ!#$%&'*+,-.^_`|~:".

Definition check_via_name (name : str) : outcome unit :=
  if 1023 <? length name then Panic
  else if negb (forallb is_ascii name) then Panic
  else if negb (forallb (λ c, bool_decide (c ∈ via_allowed)) name) then Panic
  else Ret tt.

Definition panic_if_less_than_zero (val : Z) : outcome unit :=
  if (0 <=? val)%Z then Ret tt else Panic.

(** ** Builder methods *)

Definition with_discard_client_forwarded_headers (c : CrankerRouterConfig) (b : bool) :=
  let '(MkConfig pl f _ lg vn rk cw pg ir ca dn ip rr sp) := c in
  MkConfig pl f b lg vn rk cw pg ir ca dn ip rr sp.

Definition with_send_legacy_forwarded_headers (c : CrankerRouterConfig) (b : bool) :=
  let '(MkConfig pl f dc _ vn rk cw pg ir ca dn ip rr sp) := c in
  MkConfig pl f dc b vn rk cw pg ir ca dn ip rr sp.

Definition with_via_name (c : CrankerRouterConfig) (name : str) : outcome CrankerRouterConfig :=
  let! _ := check_via_name name in
  let '(MkConfig pl f dc lg _ rk cw pg ir ca dn ip rr sp) := c in
  Ret (MkConfig pl f dc lg name rk cw pg ir ca dn ip rr sp).

Definition with_idle_read_timeout_ms (c : CrankerRouterConfig) (v : Z) : outcome CrankerRouterConfig :=
  let! _ := panic_if_less_than_zero v in
  let '(MkConfig pl f dc lg vn rk cw pg _ ca dn ip rr sp) := c in
  Ret (MkConfig pl f dc lg vn rk cw pg v ca dn ip rr sp).

Definition with_routes_keep_time_millis (c : CrankerRouterConfig) (v : Z) : outcome CrankerRouterConfig :=
  let! _ := panic_if_less_than_zero v in
  let '(MkConfig pl f dc lg vn _ cw pg ir ca dn ip rr sp) := c in
  Ret (MkConfig pl f dc lg vn v cw pg ir ca dn ip rr sp).

Definition with_ping_sent_after_no_write_for_ms (c : CrankerRouterConfig) (v : Z)
  : outcome CrankerRouterConfig :=
  let! _ := panic_if_less_than_zero v in
  let '(MkConfig pl f dc lg vn rk cw _ ir ca dn ip rr sp) := c in
  Ret (MkConfig pl f dc lg vn rk cw v ir ca dn ip rr sp).

Definition with_connector_max_wait_time_millis (c : CrankerRouterConfig) (v : Z)
  : outcome CrankerRouterConfig :=
  let! _ := panic_if_less_than_zero v in
  let '(MkConfig pl f dc lg vn rk _ pg ir ca dn ip rr sp) := c in
  Ret (MkConfig pl f dc lg vn rk v pg ir ca dn ip rr sp).

Definition should_allow_catch_all (c : CrankerRouterConfig) (b : bool) :=
  let '(MkConfig pl f dc lg vn rk cw pg ir _ dn ip rr sp) := c in
  MkConfig pl f dc lg vn rk cw pg ir b dn ip rr sp.

Definition should_proxy_host_header (c : CrankerRouterConfig) (b : bool) :=
  let '(MkConfig pl f dc lg vn rk cw pg ir ca dn ip rr sp) := c in
  MkConfig pl f dc lg vn rk cw pg ir ca
    (if b then dn ∖ {[ lit "host" ]} else {[ lit "host" ]} ∪ dn) ip rr sp.

Definition with_registration_ip_validator (c : CrankerRouterConfig) (v : IpAddr → bool) :=
  let '(MkConfig pl f dc lg vn rk cw pg ir ca dn _ rr sp) := c in
  MkConfig pl f dc lg vn rk cw pg ir ca dn v rr sp.

Definition with_proxy_listeners (c : CrankerRouterConfig) (l : list Listener) :=
  let '(MkConfig _ f dc lg vn rk cw pg ir ca dn ip rr sp) := c in
  MkConfig l f dc lg vn rk cw pg ir ca dn ip rr sp.

Definition with_route_resolver (c : CrankerRouterConfig) (r : Resolver) :=
  let '(MkConfig pl f dc lg vn rk cw pg ir ca dn ip _ sp) := c in
  MkConfig pl f dc lg vn rk cw pg ir ca dn ip r sp.

Definition with_router_socket_filter (c : CrankerRouterConfig) (g : Filter) :=
  let '(MkConfig pl _ dc lg vn rk cw pg ir ca dn ip rr sp) := c in
  MkConfig pl g dc lg vn rk cw pg ir ca dn ip rr sp.

Definition with_supported_cranker_version (c : CrankerRouterConfig) (versions : list str)
  : outcome CrankerRouterConfig :=
  let! scv := check_supported_cranker_version versions in
  let '(MkConfig pl f dc lg vn rk cw pg ir ca dn ip rr _) := c in
  Ret (MkConfig pl f dc lg vn rk cw pg ir ca dn ip rr scv).

(** ** A configuration built by the builder *)

(** One builder call. *)
Inductive build_step : CrankerRouterConfig → CrankerRouterConfig → Prop :=
| bs_discard c b : build_step c (with_discard_client_forwarded_headers c b)
| bs_legacy c b : build_step c (with_send_legacy_forwarded_headers c b)
| bs_via c n c' : with_via_name c n = Ret c' → build_step c c'
| bs_idle c v c' : with_idle_read_timeout_ms c v = Ret c' → build_step c c'
| bs_keep c v c' : with_routes_keep_time_millis c v = Ret c' → build_step c c'
| bs_ping c v c' : with_ping_sent_after_no_write_for_ms c v = Ret c' → build_step c c'
| bs_wait c v c' : with_connector_max_wait_time_millis c v = Ret c' → build_step c c'
| bs_catch c b : build_step c (should_allow_catch_all c b)
| bs_host c b : build_step c (should_proxy_host_header c b)
| bs_ip c v : build_step c (with_registration_ip_validator c v)
| bs_listeners c l : build_step c (with_proxy_listeners c l)
| bs_resolver c r : build_step c (with_route_resolver c r)
| bs_filter c f : build_step c (with_router_socket_filter c f)
| bs_versions c vs c' : with_supported_cranker_version c vs = Ret c' → build_step c c'.

(** What the rest of the router relies on. *)
Record config_wf (c : CrankerRouterConfig) : Prop := {
  wf_via : forallb visible_ascii (via_name c) = true ∧ length (via_name c) ≤ 1023;
  wf_times : (0 ≤ routes_keep_time_millis c ∧ 0 ≤ connector_max_wait_time_millis c ∧
              0 ≤ ping_sent_after_no_write_for_ms c ∧ 0 ≤ idle_read_timeout_ms c)%Z;
  wf_repressed : REPRESSED_HEADERS ⊆ do_not_proxy_headers c;
  wf_versions : supported_cranker_protocols c = SUPPORTED_CRANKER_VERSION
}.

(** ** Lemmas *)

Lemma check_version_entries_panics ver entries res :
  (∃ k v, (k, v) ∈ entries ∧ eq_ignore_ascii_case k ver = false ∧ eq_ignore_ascii_case v ver = false) →
  check_version_entries ver entries res = Panic.
Proof.
  intros (k & v & Hin & Hk & Hv). revert res.
  induction entries as [|[k' v'] r IH]; intros res; [set_solver|]. simpl.
  apply elem_of_cons in Hin as [[= <- <-]|Hin]; [by rewrite Hk, Hv|].
  repeat case_match; try done; by apply IH.
Qed.

(** No version name equals both supported versions. *)
Lemma check_version_no_match ver res :
  check_version_entries ver (map_to_list SUPPORTED_CRANKER_VERSION) res = Panic.
Proof.
  apply check_version_entries_panics. unfold eq_ignore_ascii_case, str_eqb.
  destruct (decide (to_lower VER_1_0 = to_lower ver)) as [H1|H1].
  - exists VER_3_0, CRANKER_V_3_0. rewrite <- H1. by vm_compute; split; [repeat constructor|].
  - destruct (decide (to_lower CRANKER_V_1_0 = to_lower ver)) as [H2|H2].
    + exists VER_3_0, CRANKER_V_3_0. rewrite <- H2. by vm_compute; split; [repeat constructor|].
    + exists VER_1_0, CRANKER_V_1_0. split; [apply elem_of_map_to_list; by vm_compute|].
      by rewrite !bool_decide_eq_false_2.
Qed.

Lemma check_versions_panic versions : check_supported_cranker_version versions = Panic.
Proof.
  destruct versions as [|v r]; [done|]. simpl. by rewrite check_version_no_match.
Qed.

Lemma via_allowed_visible c : bool_decide (c ∈ via_allowed) = true → visible_ascii c = true.
Proof.
  intros H%bool_decide_eq_true%list_elem_of_In.
  assert (Ha : forallb visible_ascii via_allowed = true) by by vm_compute.
  rewrite forallb_forall in Ha. by apply Ha.
Qed.

Lemma check_via_name_ok name u :
  check_via_name name = Ret u → forallb visible_ascii name = true ∧ length name ≤ 1023.
Proof.
  unfold check_via_name. destruct (1023 <? length name) eqn:E1; [done|].
  destruct (forallb is_ascii name); [|done]. simpl.
  destruct (forallb _ name) eqn:E2; [|done]. intros _.
  split; [|by apply Nat.ltb_ge in E1].
  rewrite forallb_forall in E2 |- *. intros c Hc. by apply via_allowed_visible, E2.
Qed.

Lemma panic_if_less_than_zero_ok v u : panic_if_less_than_zero v = Ret u → (0 ≤ v)%Z.
Proof. unfold panic_if_less_than_zero. destruct (0 <=? v)%Z eqn:E; [|done]. intros _. lia. Qed.

Lemma config_new_wf f r : config_wf (config_new f r).
Proof. split; [by vm_compute; auto with lia|by vm_compute|done|done]. Qed.

Lemma build_step_wf c c' : build_step c c' → config_wf c → config_wf c'.
Proof.
  intros Hs [Hv Ht Hr Hsv].
  assert (Hhost : ∀ b, REPRESSED_HEADERS ⊆
    (if b : bool then do_not_proxy_headers c ∖ {[ lit "host" ]}
     else {[ lit "host" ]} ∪ do_not_proxy_headers c)).
  { intros [|]; [|set_solver].
    assert (lit "host" ∉ REPRESSED_HEADERS) by by (apply (bool_decide_unpack _); vm_compute).
    set_solver. }
  destruct Hs;
    try match goal with H : with_supported_cranker_version _ _ = _ |- _ =>
      unfold with_supported_cranker_version in H; by rewrite check_versions_panic in H end;
    try match goal with H : with_via_name _ ?n = _ |- _ =>
      unfold with_via_name in H; destruct (check_via_name n) eqn:E; [|done];
      apply check_via_name_ok in E end;
    try match goal with H : _ ?c ?v = Ret _ |- _ =>
      unfold with_idle_read_timeout_ms, with_routes_keep_time_millis,
        with_ping_sent_after_no_write_for_ms, with_connector_max_wait_time_millis in H;
      destruct (panic_if_less_than_zero v) eqn:E; [|done];
      apply panic_if_less_than_zero_ok in E end;
    destruct c; simplify_eq/=; split; simpl; auto; lia.
Qed.

(** ** Theorems *)

(** Every configuration the builder can produce from the default one by any
    sequence of its methods is well formed: the times are not negative, the via
    name is at most 1023 visible ASCII characters (so it is a legal header
    value), the repressed headers are never proxied, and the supported versions
    are the default ones. *)
Theorem builder_config_wf f r c : rtc build_step (config_new f r) c → config_wf c.
Proof.
  intros H. pose proof (config_new_wf f r) as Hwf. revert Hwf.
  induction H as [|x y z Hs _ IH]; intros Hwf; [done|]. apply IH. by eapply build_step_wf.
Qed.

(** [with_supported_cranker_version] never returns: whatever set of
    versions is asked for, even ["cranker_1.0"] or ["1.0"; "3.0"], the check
    compares each of them with both supported versions and panics on the one it
    does not match. *)
Theorem with_supported_cranker_version_always_panics c versions :
  with_supported_cranker_version c versions = Panic.
Proof. unfold with_supported_cranker_version. by rewrite check_versions_panic. Qed.

End config.

Arguments CrankerRouterConfig : clear implicits.

Lemma builder_config_wf_witness :
  config_wf (should_proxy_host_header (config_new (Listener := unit) tt tt) false).
Proof.
  apply (builder_config_wf tt tt). eapply rtc_l; [apply bs_host|apply rtc_refl].
Defined.
