(* ===== verification/HttpUtils.v ===== *)
(** * http_utils.rs, part 2: the headers sent to the target

    [set_target_request_headers] copies the client's headers without the
    hop-by-hop ones and adds [Via], [Forwarded] and, when configured, the
    [X-Forwarded-*] headers.  The header map is any implementation of
    [HttpLib].  [local_ip] is the text of the server's own address and
    [ip_to_string] prints an address. *)

From S2P Require Import Prelude RustStr Exceptions Http Forwarded Config.

Inductive Version := HTTP_09 | HTTP_10 | HTTP_11 | HTTP_2 | HTTP_3.

Section http_utils.
Context {HM : Type} `{HttpLib HM}.
Context (local_ip : str) (ip_to_string : IpAddr → str) (version_debug : Version → str).

(** ** Reading headers *)

Definition header_map_get_all_ok_to_string (hdr : HM) (key : str) : list str :=
  omap hv_to_str (hm_get_all (to_lower key) hdr).

Definition get_x_forwarded_value (hdr : HM) (xf_key : str) : list str :=
  concat (map (λ i, map trim (split_on ","%byte i)) (header_map_get_all_ok_to_string hdr xf_key)).

Definition get_new_via_value (this_server_via : str) (prev_via_list : list str) : str :=
  join (lit ", ") prev_via_list ++
  (match prev_via_list with [] => [] | _ => lit ", " end) ++ this_server_via.

Definition get_custom_hop_by_hop_headers (opt_conn_hdr : option str) : gset str :=
  match opt_conn_hdr with
  | None => ∅
  | Some conn_hdr =>
      match hv_to_str conn_hdr with
      | None => ∅
      | Some [] => ∅
      | Some s => list_to_set (map trim (split_on ","%byte s))
      end
  end.

Definition get_opt_host_from_uri_and_headers (uri : Uri) (headers : HM) : option str :=
  match uri_host uri with
  | Some h => Some h
  | None => (λ h, default h (head (split_on ":"%byte h))) <$> hm_get_str (lit "host") headers
  end.

(** ** Existing forwarded headers *)

(** The [while] loop that looks for the port of a host from its end, on the
    reversed characters.  On a host without a character other than digits the
    index ends at -1 and the slice [0..usize::MAX] panics; on an empty host the
    index underflows. *)
Fixpoint strip_port_rev (rv : str) : outcome (result str CrankerRouterException) :=
  match rv with
  | [] => Panic
  | c :: r =>
      if is_ascii_digit c then strip_port_rev r
      else if bool_decide (c = ":"%byte) then Ret (Ok (rev r))
      else Ret (Err (fh_err (lit "Failed to parse port")))
  end.
Definition strip_port (host : str) : outcome (result str CrankerRouterException) :=
  strip_port_rev (rev host).

(** The body of the [for] loop for the index [i]. *)
Definition x_forwarded_at (hosts ports protos fors : list str) (mx : nat) (cur_host : option str)
  (i : nat) : outcome (result ForwardedHeader CrankerRouterException) :=
  let include_host := length hosts =? mx in
  let include_port := length ports =? mx in
  let include_proto := length protos =? mx in
  let include_for := length fors =? mx in
  let host := if include_host then hosts !! i else None in
  let port := if include_port then ports !! i else None in
  let proto := if include_proto then protos !! i else None in
  let for_value := if include_for then fors !! i else None in
  let use_default_port :=
    match port with
    | None => true
    | Some po =>
        match proto with
        | Some pr => (eq_ignore_ascii_case pr (lit "http") && str_eqb po (lit "80")) ||
                     (eq_ignore_ascii_case pr (lit "https") && str_eqb po (lit "443"))
        | None => false
        end
    end in
  let host_to_use := if include_host then host else if include_port then cur_host else None in
  match host_to_use with
  | Some h =>
      if use_default_port then Ret (Ok (FH None for_value (Some h) proto None))
      else let! r := strip_port h in
           Ret (let? h' := r in Ok (FH None for_value (Some h') proto None))
  | None => Ret (Ok (FH None for_value None proto None))
  end.

Fixpoint x_forwarded_loop (f : nat → outcome (result ForwardedHeader CrankerRouterException))
  (idxs : list nat) (res : list ForwardedHeader)
  : outcome (result (list ForwardedHeader) CrankerRouterException) :=
  match idxs with
  | [] => Ret (Ok res)
  | i :: r =>
      let! o := f i in
      match o with
      | Err e => Ret (Err e)
      | Ok h => x_forwarded_loop f r (res ++ [h])
      end
  end.

(** The loop over the [Forwarded] headers; [from_string] is total
    ([from_string_terminates]), so the default is never used. *)
Fixpoint parse_forwarded_all (all : list str) (res : list ForwardedHeader)
  : result (list ForwardedHeader) CrankerRouterException :=
  match all with
  | [] => Ok res
  | s :: r =>
      let? parsed := default (Err (fh_err [])) (from_string s) in
      parse_forwarded_all r (res ++ parsed)
  end.

Definition get_existing_forwarded_headers (hdr : HM)
  : outcome (result (list ForwardedHeader) CrankerRouterException) :=
  match header_map_get_all_ok_to_string hdr (lit "forwarded") with
  | [] =>
      let hosts := get_x_forwarded_value hdr (lit "x-forwarded-host") in
      let ports := get_x_forwarded_value hdr (lit "x-forwarded-port") in
      let protos := get_x_forwarded_value hdr (lit "x-forwarded-proto") in
      let fors := get_x_forwarded_value hdr (lit "x-forwarded-for") in
      let mx := max (max (max (length hosts) (length protos)) (length fors)) (length ports) in
      match mx with
      | O => Ret (Ok [])
      | _ =>
          let cur_host := if (length ports =? mx) && negb (length hosts =? mx)
                          then hm_get_str (lit "host") hdr else None in
          x_forwarded_loop (x_forwarded_at hosts ports protos fors mx cur_host) (seq 0 mx) []
      end
  | all => Ret (parse_forwarded_all all [])
  end.

(** ** Writing the forwarded headers *)

Definition create_forwarded_header_to_tgt (cli_hdr : HM) (cli_remote_addr : SocketAddr)
  (uri : Uri) (is_tls : bool) : ForwardedHeader :=
  FH (Some local_ip) (Some (ip_to_string (addr_ip cli_remote_addr)))
     (match hm_get_str (lit "host") cli_hdr with Some h => Some h | None => uri_authority uri end)
     (Some (if is_tls then lit "https" else default (lit "http") (uri_scheme uri)))
     None.

(** [if let Ok(p) = value.parse() { append / insert }]. *)
Definition append_parsed (k v : str) (m : HM) : HM :=
  match hv_parse v with Some p => hm_append k p m | None => m end.

Definition insert_parsed (k : str) (v : option str) (m : HM) : HM :=
  match v with
  | Some s => match hv_parse s with Some p => hm_insert k p m | None => m end
  | None => m
  end.

Definition set_x_forwarded_headers (m : HM) (fh : ForwardedHeader) : HM :=
  let m := insert_parsed (lit "x-forwarded-proto") (fh_proto fh) m in
  let m := insert_parsed (lit "x-forwarded-host") (fh_host fh) m in
  insert_parsed (lit "x-forwarded-for") (fh_for fh) m.

(** The header map is unchanged when it returns an error: the only [?] comes
    before the first header is appended. *)
Definition set_forwarded_headers (cli_hdr hdr_to_tgt : HM) (discard send_legacy : bool)
  (cli_remote_addr : SocketAddr) (uri : Uri) (is_tls : bool)
  : outcome (result HM CrankerRouterException) :=
  let! existing := if discard then Ret (Ok []) else get_existing_forwarded_headers cli_hdr in
  Ret (let? forwarded_headers := existing in
       let m := foldl (λ m j, append_parsed (lit "forwarded") (fh_to_string j) m)
                      hdr_to_tgt forwarded_headers in
       let new_hdr := create_forwarded_header_to_tgt cli_hdr cli_remote_addr uri is_tls in
       let m := append_parsed (lit "forwarded") (fh_to_string new_hdr) m in
       Ok (if send_legacy
           then set_x_forwarded_headers m (default new_hdr (head forwarded_headers))
           else m)).

(** ** The request headers *)

Section with_config.
Context {L F R : Type} (config : CrankerRouterConfig L F R).

(** The closure of [cli_hdr.iter().for_each]. *)
Definition copy_header (custom_hop_by_hop : gset str) (acc : bool * HM) (kv : str * str)
  : bool * HM :=
  let '(k, v) := kv in
  let lowercase_key := to_lower k in
  if bool_decide (lowercase_key ∈ do_not_proxy_headers config) ||
     bool_decide (lowercase_key ∈ custom_hop_by_hop)
  then acc
  else (acc.1 || str_eqb lowercase_key (lit "content-length")
              || str_eqb lowercase_key (lit "transfer-encoding"),
        if str_eqb lowercase_key (lit "host") then hm_insert k v acc.2 else hm_append k v acc.2).

Definition via_text (http_version : Version) : str :=
  version_debug http_version ++ lit " " ++ via_name config.

Definition set_target_request_headers (cli_hdr hdr_to_tgt : HM) (http_version : Version)
  (cli_remote_addr : SocketAddr) (orig_uri : Uri) (is_tls : bool) : outcome (bool * HM) :=
  let custom_hop_by_hop := get_custom_hop_by_hop_headers (hm_get (lit "connection") cli_hdr) in
  let '(has_cl_or_te, m) :=
    foldl (copy_header custom_hop_by_hop) (false, hdr_to_tgt) (hm_iter cli_hdr) in
  let cli_all_via := header_map_get_all_ok_to_string cli_hdr (lit "via") in
  let m := append_parsed (lit "via") (get_new_via_value (via_text http_version) cli_all_via) m in
  let! r := set_forwarded_headers cli_hdr m (discard_client_forwarded_headers config)
              (send_legacy_forwarded_headers config) cli_remote_addr orig_uri is_tls in
  Ret (has_cl_or_te, match r with Ok m' => m' | Err _ => m end).

(** The headers the router writes itself. *)
Definition router_headers : list str :=
  [lit "via"; lit "forwarded"; lit "x-forwarded-proto"; lit "x-forwarded-host"; lit "x-forwarded-for"].

(** A header map stores its names in lower case. *)
Definition names_lower (m : HM) : Prop := Forall (λ kv, to_lower kv.1 = kv.1) (hm_iter m).

Context `{!HttpLaws HM}.

(** ** Lemmas *)

Lemma append_parsed_other k v k' (m : HM) :
  k' ≠ k → hm_get_all k' (append_parsed k v m) = hm_get_all k' m.
Proof.
  intros Hk. unfold append_parsed. destruct (hv_parse v); [|done].
  by rewrite get_all_append, decide_False.
Qed.

Lemma append_parsed_visible k v (m : HM) :
  Forall (λ b, visible_ascii b = true) v →
  hm_get_all k (append_parsed k v m) = hm_get_all k m ++ [v].
Proof.
  intros Hv. unfold append_parsed. rewrite hv_parse_visible by done.
  by rewrite get_all_append, decide_True.
Qed.

Lemma insert_parsed_other k v k' (m : HM) :
  k' ≠ k → hm_get_all k' (insert_parsed k v m) = hm_get_all k' m.
Proof.
  intros Hk. unfold insert_parsed. destruct v as [v|]; [|done]. destruct (hv_parse v); [|done].
  by rewrite get_all_insert, decide_False.
Qed.

Lemma append_forwarded_other hs k (m : HM) :
  k ≠ lit "forwarded" →
  hm_get_all k (foldl (λ m j, append_parsed (lit "forwarded") (fh_to_string j) m) m hs)
  = hm_get_all k m.
Proof.
  intros Hk. revert m. induction hs as [|h hs IH]; intros m; simpl; [done|].
  rewrite IH. by apply append_parsed_other.
Qed.

Lemma set_x_forwarded_other k fh (m : HM) :
  k ∉ router_headers → hm_get_all k (set_x_forwarded_headers m fh) = hm_get_all k m.
Proof.
  unfold router_headers. intros Hk. unfold set_x_forwarded_headers.
  rewrite !insert_parsed_other by set_solver. done.
Qed.

(** [set_forwarded_headers] only writes the router's own headers. *)
Lemma set_forwarded_headers_other cli m d l a u t m' k :
  set_forwarded_headers cli m d l a u t = Ret (Ok m') → k ∉ router_headers →
  hm_get_all k m' = hm_get_all k m.
Proof.
  intros Hs Hk. unfold set_forwarded_headers in Hs.
  destruct (if d then _ else _) as [[hs|e]|]; simplify_eq/=.
  assert (Hf : k ≠ lit "forwarded") by (unfold router_headers in Hk; set_solver).
  destruct l; rewrite ?set_x_forwarded_other by done;
    rewrite append_parsed_other by done; by apply append_forwarded_other.
Qed.

(** The copy loop on one header name. *)
Lemma copy_headers_get_all custom kvs acc k :
  Forall (λ kv, to_lower kv.1 = kv.1) kvs →
  hm_get_all k (foldl (copy_header custom) acc kvs).2 =
  if decide (k ∈ do_not_proxy_headers config ∨ k ∈ custom) then hm_get_all k acc.2
  else if decide (k = lit "host")
  then match list.last ((λ kv, kv.2) <$> filter (λ kv, kv.1 = k) kvs) with
       | Some v => [v]
       | None => hm_get_all k acc.2
       end
  else hm_get_all k acc.2 ++ ((λ kv, kv.2) <$> filter (λ kv, kv.1 = k) kvs).
Proof.
  intros Hlow. revert acc. induction kvs as [|[n v] kvs IH] using rev_ind; intros acc.
  { simpl. repeat case_decide; by rewrite ?app_nil_r. }
  apply Forall_app in Hlow as [Hlow Hn]. rewrite Forall_singleton in Hn. simpl in Hn.
  rewrite foldl_app. simpl. unfold copy_header at 1. rewrite Hn.
  rewrite list.filter_app, fmap_app.
  destruct (decide (n ∈ do_not_proxy_headers config ∨ n ∈ custom)) as [Hd|Hd].
  - replace (bool_decide (n ∈ do_not_proxy_headers config) || bool_decide (n ∈ custom)) with true
      by (symmetry; apply orb_true_iff; destruct Hd; [left|right]; by apply bool_decide_eq_true).
    rewrite IH by done. destruct (decide (k ∈ _ ∨ k ∈ custom)) as [|Hk]; [done|].
    rewrite (filter_cons_False _ (n, v)) by (simpl; intros ->; tauto).
    simpl. by rewrite app_nil_r.
  - replace (bool_decide (n ∈ do_not_proxy_headers config) || bool_decide (n ∈ custom)) with false
      by (symmetry; apply orb_false_iff; split; apply bool_decide_eq_false; tauto).
    cbn [snd]. unfold str_eqb. case_bool_decide as Hh.
    + subst n. rewrite get_all_insert, IH by done. destruct (decide (k = lit "host")) as [->|Hkh].
      * rewrite filter_cons_True by done. simpl. rewrite last_snoc. by rewrite decide_False.
      * rewrite (filter_cons_False _ (lit "host", v)) by (simpl; congruence).
        simpl. by rewrite app_nil_r.
    + rewrite get_all_append, IH by done. destruct (decide (k = n)) as [->|Hkn].
      * rewrite filter_cons_True by done. simpl.
        rewrite !(decide_False (P := n ∈ _ ∨ _)), !(decide_False (P := n = _)) by done.
        by rewrite app_assoc.
      * rewrite (filter_cons_False _ (n, v)) by (simpl; congruence). simpl. by rewrite app_nil_r.
Qed.

Lemma set_target_split cli m v a u t b out :
  set_target_request_headers cli m v a u t = Ret (b, out) →
  ∃ m1, m1 = append_parsed (lit "via")
               (get_new_via_value (via_text v) (header_map_get_all_ok_to_string cli (lit "via")))
               (foldl (copy_header (get_custom_hop_by_hop_headers (hm_get (lit "connection") cli)))
                      (false, m) (hm_iter cli)).2
        ∧ ∃ r, set_forwarded_headers cli m1 (discard_client_forwarded_headers config)
                 (send_legacy_forwarded_headers config) a u t = Ret r
        ∧ out = match r with Ok m' => m' | Err _ => m1 end.
Proof.
  unfold set_target_request_headers. destruct (foldl _ _ _) as [h m1]. intros Hs.
  eexists. split; [done|]. simpl. destruct (set_forwarded_headers _ _ _ _ _ _ _) as [r|]; [|done].
  simplify_eq/=. eauto.
Qed.

(** Every header the router does not write itself. *)
Lemma set_target_other cli v a u t b out k :
  set_target_request_headers cli hm_new v a u t = Ret (b, out) →
  names_lower cli → k ∉ router_headers →
  hm_get_all k out =
  hm_get_all k (foldl (copy_header (get_custom_hop_by_hop_headers (hm_get (lit "connection") cli)))
                      (false, hm_new) (hm_iter cli)).2.
Proof.
  intros (m1 & -> & r & Hr & ->)%set_target_split Hlow Hk.
  assert (k ≠ lit "via") by (unfold router_headers in Hk; set_solver).
  destruct r as [m'|e].
  - rewrite (set_forwarded_headers_other _ _ _ _ _ _ _ _ _ Hr Hk). by apply append_parsed_other.
  - by apply append_parsed_other.
Qed.

Lemma end_to_end_aux cli v a u t b out k :
  set_target_request_headers cli hm_new v a u t = Ret (b, out) → names_lower cli →
  k ∉ do_not_proxy_headers config →
  k ∉ get_custom_hop_by_hop_headers (hm_get (lit "connection") cli) →
  k ∉ router_headers →
  hm_get_all k out =
  if decide (k = lit "host") then option_list (list.last (hm_get_all k cli)) else hm_get_all k cli.
Proof.
  intros Hs Hlow Hd Hc Hr. rewrite (set_target_other _ _ _ _ _ _ _ _ Hs Hlow Hr).
  rewrite copy_headers_get_all by done. rewrite decide_False by tauto.
  rewrite iter_spec. simpl. rewrite get_all_new. case_decide; [|done].
  by destruct (list.last (hm_get_all k cli)).
Qed.

Lemma repressed_copy custom (kvs : list (str * str)) (m : HM) k :
  Forall (λ kv, to_lower kv.1 = kv.1) kvs → k ∈ do_not_proxy_headers config →
  hm_get_all k (foldl (copy_header custom) (false, m) kvs).2 = hm_get_all k m.
Proof. intros Hl Hk. rewrite copy_headers_get_all by done. by rewrite decide_True by tauto. Qed.

Lemma strip_port_digits h : forallb is_ascii_digit h = true → strip_port h = Panic.
Proof.
  intros Hh. unfold strip_port.
  assert (Hr : forallb is_ascii_digit (rev h) = true).
  { rewrite forallb_forall in Hh |- *. intros c Hc. apply Hh. by apply in_rev. }
  clear Hh. induction (rev h) as [|c r IH]; simpl in *; [done|].
  apply andb_true_iff in Hr as [-> Hr]. by apply IH.
Qed.

(** ** Theorems *)

(** C13: no header that must not be proxied reaches the target: for every name in
    the configured [do_not_proxy_headers] (by default the hop-by-hop headers,
    [expect] and the forwarding headers) and every name that the client's first
    [Connection] header lists in lower case, the request sent to the target has no
    value, unless it is one of the five headers the router writes itself.  An option
    with a capital letter does not count ([capitalised_connection_option_forwarded]). *)
Theorem repressed_headers_not_forwarded cli v a u t b out k :
  set_target_request_headers cli hm_new v a u t = Ret (b, out) → names_lower cli →
  k ∈ do_not_proxy_headers config ∨
  k ∈ get_custom_hop_by_hop_headers (hm_get (lit "connection") cli) →
  k ∉ router_headers → hm_get_all k out = [].
Proof.
  intros Hs Hlow Hk Hr. rewrite (set_target_other _ _ _ _ _ _ _ _ Hs Hlow Hr).
  rewrite copy_headers_get_all by done. rewrite decide_True by done. apply get_all_new.
Qed.

(** C35: every other header is forwarded unchanged: for a name that is neither
    repressed nor listed in the first [Connection] header as it is spelt in lower case
    nor written by the router, the target receives all the values the client sent, in
    their order, except that of several [host] headers only the last one arrives. *)
Theorem end_to_end_headers_forwarded cli v a u t b out k :
  set_target_request_headers cli hm_new v a u t = Ret (b, out) → names_lower cli →
  k ∉ do_not_proxy_headers config →
  k ∉ get_custom_hop_by_hop_headers (hm_get (lit "connection") cli) →
  k ∉ router_headers →
  hm_get_all k out =
  if decide (k = lit "host") then option_list (list.last (hm_get_all k cli)) else hm_get_all k cli.
Proof.
  apply end_to_end_aux.
Qed.

(** The [Via] header of the proxied request is one value: the client's [Via]
    values joined with ", ", followed by the router's own entry (when [via] is
    repressed, as it is by default, and the texts are visible ASCII). *)
Theorem via_header_composed cli v a u t b out :
  set_target_request_headers cli hm_new v a u t = Ret (b, out) → names_lower cli →
  lit "via" ∈ do_not_proxy_headers config →
  Forall (λ c, visible_ascii c = true)
    (get_new_via_value (via_text v) (header_map_get_all_ok_to_string cli (lit "via"))) →
  hm_get_all (lit "via") out =
  [get_new_via_value (via_text v) (header_map_get_all_ok_to_string cli (lit "via"))].
Proof.
  intros (m1 & -> & r & Hr & ->)%set_target_split Hlow Hvia Hvis.
  assert (Hm : hm_get_all (lit "via") (append_parsed (lit "via")
    (get_new_via_value (via_text v) (header_map_get_all_ok_to_string cli (lit "via")))
    (foldl (copy_header (get_custom_hop_by_hop_headers (hm_get (lit "connection") cli)))
       (false, hm_new) (hm_iter cli)).2)
    = [get_new_via_value (via_text v) (header_map_get_all_ok_to_string cli (lit "via"))]).
  { rewrite append_parsed_visible by done. rewrite copy_headers_get_all by done.
    rewrite decide_True by tauto. simpl. by rewrite get_all_new. }
  destruct r as [m'|e]; [|exact Hm]. rewrite <- Hm. clear Hm.
  unfold set_forwarded_headers in Hr. destruct (if discard_client_forwarded_headers config then _ else _) as [[hs|e]|]; simplify_eq/=.
  destruct (send_legacy_forwarded_headers config);
    unfold set_x_forwarded_headers; rewrite ?insert_parsed_other by done;
    rewrite append_parsed_other by done; by apply append_forwarded_other.
Qed.

(** With [discard_client_forwarded_headers] a client cannot spoof its
    address: whatever [Forwarded] and [X-Forwarded-For] headers it sends, the
    target receives exactly one [Forwarded] header, the one the router builds
    from the peer address, and exactly the peer address as [X-Forwarded-For]
    when the legacy headers are enabled, none otherwise. *)
Theorem forwarded_not_spoofable cli v a u t b out :
  set_target_request_headers cli hm_new v a u t = Ret (b, out) → names_lower cli →
  REPRESSED_HEADERS ⊆ do_not_proxy_headers config →
  discard_client_forwarded_headers config = true →
  let fh := create_forwarded_header_to_tgt cli a u t in
  Forall (λ c, visible_ascii c = true) (fh_to_string fh) →
  Forall (λ c, visible_ascii c = true) (ip_to_string (addr_ip a)) →
  hm_get_all (lit "forwarded") out = [fh_to_string fh] ∧
  hm_get_all (lit "x-forwarded-for") out =
    (if send_legacy_forwarded_headers config then [ip_to_string (addr_ip a)] else []).
Proof.
  intros (m1 & -> & r & Hr & ->)%set_target_split Hlow Hrep Hdis fh Hvis Hip.
  unfold set_forwarded_headers in Hr. rewrite Hdis in Hr. simpl in Hr. fold fh in Hr.
  injection Hr as <-.
  assert (Hf : lit "forwarded" ∈ do_not_proxy_headers config) by (apply Hrep; by vm_compute).
  assert (Hx : lit "x-forwarded-for" ∈ do_not_proxy_headers config) by (apply Hrep; by vm_compute).
  split.
  - destruct (send_legacy_forwarded_headers config); unfold set_x_forwarded_headers;
      rewrite ?insert_parsed_other by done; rewrite append_parsed_visible by done;
      rewrite append_parsed_other by done; rewrite repressed_copy by done;
      by rewrite get_all_new.
  - destruct (send_legacy_forwarded_headers config).
    + unfold set_x_forwarded_headers, insert_parsed at 1. simpl. rewrite hv_parse_visible by done.
      by rewrite get_all_insert, decide_True.
    + rewrite !append_parsed_other by done. rewrite repressed_copy by done. by rewrite get_all_new.
Qed.

(** Header names in [Connection] are compared with case: a header that the
    client lists there with an upper-case letter (for example
    [Connection: X-Trace]) is treated as end-to-end and forwarded to the target
    with all its values, although [Connection] names are case-insensitive. *)
Theorem capitalised_connection_option_forwarded cli v a u t b out tok :
  set_target_request_headers cli hm_new v a u t = Ret (b, out) → names_lower cli →
  hm_get_all (lit "connection") cli = [tok] →
  Forall (λ c, visible_ascii c = true) tok → ","%byte ∉ tok → trim tok = tok →
  to_lower tok ≠ tok →
  to_lower tok ∉ do_not_proxy_headers config → to_lower tok ∉ router_headers →
  to_lower tok ≠ lit "host" →
  hm_get_all (to_lower tok) out = hm_get_all (to_lower tok) cli.
Proof.
  intros Hs Hlow Hc Hvis Hcomma Htrim Hup Hd Hr Hh.
  rewrite (end_to_end_aux _ _ _ _ _ _ _ _ Hs Hlow Hd); [by rewrite decide_False| |done].
  unfold get_custom_hop_by_hop_headers, hm_get. change (to_lower (lit "connection")) with (lit "connection").
  rewrite Hc. simpl. rewrite hv_to_str_visible by done.
  destruct tok as [|c tok]; [done|]. rewrite split_on_plain by done. simpl map. rewrite Htrim.
  intros Hin%elem_of_list_to_set%list_elem_of_singleton. done.
Qed.

(** A client can make the handler panic: a request with one
    [X-Forwarded-Host] value made of digits only (or empty) and one
    [X-Forwarded-Port], and no [Forwarded], [X-Forwarded-Proto] or
    [X-Forwarded-For] header, panics in [set_target_request_headers] unless the
    client's forwarded headers are discarded. *)
Theorem x_forwarded_host_panics cli v a u t h p :
  header_map_get_all_ok_to_string cli (lit "forwarded") = [] →
  get_x_forwarded_value cli (lit "x-forwarded-host") = [h] →
  get_x_forwarded_value cli (lit "x-forwarded-port") = [p] →
  get_x_forwarded_value cli (lit "x-forwarded-proto") = [] →
  get_x_forwarded_value cli (lit "x-forwarded-for") = [] →
  forallb is_ascii_digit h = true → discard_client_forwarded_headers config = false →
  set_target_request_headers cli hm_new v a u t = Panic.
Proof.
  intros Hf Hh Hp Hpr Hfo Hd Hdis. unfold set_target_request_headers.
  destruct (foldl _ _ _) as [hcl m1]. unfold set_forwarded_headers. rewrite Hdis.
  unfold get_existing_forwarded_headers. rewrite Hf, Hh, Hp, Hpr, Hfo. simpl.
  unfold x_forwarded_at. simpl. by rewrite strip_port_digits.
Qed.

End with_config.
End http_utils.

(** ** Witnesses *)

#[local] Existing Instance Alist.lib.
#[local] Existing Instance Alist.laws.

Definition demo_config : CrankerRouterConfig unit unit unit := config_new tt tt.

Definition demo_ip (i : IpAddr) : str := match i with V4 n => display_Z n | V6 n => display_Z n end.

Definition demo_version (v : Version) : str :=
  match v with
  | HTTP_09 => lit "HTTP/0.9" | HTTP_10 => lit "HTTP/1.0" | HTTP_11 => lit "HTTP/1.1"
  | HTTP_2 => lit "HTTP/2.0" | HTTP_3 => lit "HTTP/3.0"
  end.

Definition demo_addr : SocketAddr := MkAddr (V4 7) 1234.
Definition demo_uri : Uri := MkUri (lit "/a") (Some (lit "/a")) None None None.

Definition demo_headers : Alist.headers :=
  [(lit "connection", lit "x-trace, X-Up"); (lit "accept", lit "a"); (lit "x-trace", lit "1");
   (lit "te", lit "trailers"); (lit "accept", lit "b"); (lit "via", lit "1.0 fred")].

Definition demo_out (c : CrankerRouterConfig unit unit unit) (h : Alist.headers)
  : bool * Alist.headers :=
  match set_target_request_headers (lit "10.0.0.1") demo_ip demo_version c h hm_new HTTP_11
          demo_addr demo_uri false with
  | Ret r => r
  | Panic => (false, [])
  end.

Lemma repressed_headers_not_forwarded_witness :
  hm_get_all (lit "te") (demo_out demo_config demo_headers).2 = [] ∧
  hm_get_all (lit "x-trace") (demo_out demo_config demo_headers).2 = [].
Proof.
  split; eapply (repressed_headers_not_forwarded (lit "10.0.0.1") demo_ip demo_version demo_config
    demo_headers HTTP_11 demo_addr demo_uri false (demo_out demo_config demo_headers).1);
    try (by vm_compute); try (by repeat constructor);
    try (apply (bool_decide_unpack _); by vm_compute).
Defined.

Lemma end_to_end_headers_forwarded_witness :
  hm_get_all (lit "accept") (demo_out demo_config demo_headers).2 = [lit "a"; lit "b"].
Proof.
  rewrite (end_to_end_headers_forwarded (lit "10.0.0.1") demo_ip demo_version demo_config
    demo_headers HTTP_11 demo_addr demo_uri false (demo_out demo_config demo_headers).1);
    try (by vm_compute); try (by repeat constructor);
    try (apply (bool_decide_unpack _); by vm_compute).
Defined.

Lemma via_header_composed_witness :
  hm_get_all (lit "via") (demo_out demo_config demo_headers).2 = [lit "1.0 fred, HTTP/1.1 scr-axum"].
Proof.
  rewrite (via_header_composed (lit "10.0.0.1") demo_ip demo_version demo_config
    demo_headers HTTP_11 demo_addr demo_uri false (demo_out demo_config demo_headers).1);
    try (by vm_compute); try (by repeat constructor).
Defined.

Definition demo_discard : CrankerRouterConfig unit unit unit :=
  with_discard_client_forwarded_headers demo_config true.

Definition spoofing_headers : Alist.headers :=
  [(lit "forwarded", lit "for=6.6.6.6"); (lit "x-forwarded-for", lit "6.6.6.6")].

Lemma forwarded_not_spoofable_witness :
  hm_get_all (lit "forwarded") (demo_out demo_discard spoofing_headers).2
  = [lit "by=10.0.0.1;for=7;proto=http"].
Proof.
  destruct (forwarded_not_spoofable (lit "10.0.0.1") demo_ip demo_version demo_discard
    spoofing_headers HTTP_11 demo_addr demo_uri false
    (demo_out demo_discard spoofing_headers).1 (demo_out demo_discard spoofing_headers).2) as [Hf _].
  - vm_compute. reflexivity.
  - repeat constructor.
  - intros x Hx. exact Hx.
  - reflexivity.
  - apply Alist.forallb_Forall. vm_compute. reflexivity.
  - apply Alist.forallb_Forall. vm_compute. reflexivity.
  - rewrite Hf. vm_compute. reflexivity.
Defined.

Definition trace_headers : Alist.headers :=
  [(lit "connection", lit "X-Trace"); (lit "x-trace", lit "1")].

Lemma capitalised_connection_option_forwarded_witness :
  hm_get_all (to_lower (lit "X-Trace")) (demo_out demo_config trace_headers).2
  = hm_get_all (to_lower (lit "X-Trace")) trace_headers.
Proof.
  apply (capitalised_connection_option_forwarded (lit "10.0.0.1") demo_ip demo_version demo_config
    trace_headers HTTP_11 demo_addr demo_uri false (demo_out demo_config trace_headers).1
    (demo_out demo_config trace_headers).2 (lit "X-Trace"));
    try (by repeat constructor); try (apply (bool_decide_unpack _); vm_compute; exact I).
Defined.

Lemma x_forwarded_host_panics_witness :
  set_target_request_headers (lit "10.0.0.1") demo_ip demo_version demo_config
    [(lit "x-forwarded-host", lit "8080"); (lit "x-forwarded-port", lit "8080")] hm_new HTTP_11
    demo_addr demo_uri false = Panic.
Proof.
  apply (x_forwarded_host_panics (lit "10.0.0.1") demo_ip demo_version demo_config _ _ _ _ _
    (lit "8080") (lit "8080")); by vm_compute.
Defined.
