(* ===== verification/CrankerProtocol.v ===== *)
(** * The text messages of the cranker protocol

    [cranker_protocol_request_builder.rs] prints the request text a router
    sends to a connector, [cranker_protocol_response.rs] parses the response
    text a connector sends back, and [create_request_line] of
    [router_socket.rs] prints the first line of a request.  The theorems relate
    the printer to a reference decoder of the protocol text and describe the
    parser on every branch. *)

From S2P Require Import Prelude RustStr Exceptions Http Forwarded Config HttpUtils.

Definition LF : byte := "010"%byte.

(** ** The request builder *)

Inductive EndMarker := RequestBodyPending | RequestHasNoBody | RequestBodyEnded.

#[export] Instance EndMarker_eq_dec : EqDecision EndMarker.
Proof. solve_decision. Defined.

Definition end_marker_str (m : EndMarker) : str :=
  match m with
  | RequestBodyPending => lit "_1"
  | RequestHasNoBody => lit "_2"
  | RequestBodyEnded => lit "_3"
  end.

Record CrankerProtocolRequestBuilder := MkBuilder {
  request_line : option str;
  header_map_str : option str;
  end_marker : option EndMarker
}.

Definition builder_new : CrankerProtocolRequestBuilder := MkBuilder None None None.

Definition with_request_line (b : CrankerProtocolRequestBuilder) (l : str) :=
  MkBuilder (Some l) (header_map_str b) (end_marker b).

Definition with_request_body_pending (b : CrankerProtocolRequestBuilder) :=
  MkBuilder (request_line b) (header_map_str b) (Some RequestBodyPending).

Definition with_request_has_no_body (b : CrankerProtocolRequestBuilder) :=
  MkBuilder (request_line b) (header_map_str b) (Some RequestHasNoBody).

Definition with_request_body_ended (b : CrankerProtocolRequestBuilder) :=
  MkBuilder (request_line b) (header_map_str b) (Some RequestBodyEnded).

Definition build_req_and_hdr (b : CrankerProtocolRequestBuilder) : outcome str :=
  let! l := unwrap (request_line b) in
  let! h := unwrap (header_map_str b) in
  let! m := unwrap (end_marker b) in
  Ret (l ++ [LF] ++ h ++ [LF] ++ end_marker_str m).

Definition request_build (b : CrankerProtocolRequestBuilder)
  : outcome (result str CrankerRouterException) :=
  match end_marker b with
  | None =>
      Ret (Err (with_err_kind
        (crex_new (lit "failed to build cranker protocol request. end marker missing"))
        CrankerProtocolEndMarkerMissing_0005))
  | Some m =>
      match request_line b, header_map_str b with
      | Some _, Some _ => let! s := build_req_and_hdr b in Ret (Ok s)
      | _, _ =>
          match m with
          | RequestBodyEnded => Ret (Ok (end_marker_str m))
          | _ => Ret (Err (crex_new (lit
              "failed to build cranker protocol request. end marker should be RequestBodyEnded when no request line and header map str is present.")))
          end
      end
  end.

(** [create_request_line] of router_socket.rs. *)
Definition create_request_line (method : str) (orig_uri : Uri) : str :=
  method ++ lit " " ++ default [] (uri_path_and_query orig_uri) ++ lit " HTTP/1.1".

Section headers.
Context {HM : Type} `{HttpLib HM}.

(** The inner closure of [build_header_str]: [acc] is [headers_str] with the
    [cookie_list]. *)
Definition push_header (k : str) (acc : str * list str) (v : str) : str * list str :=
  match hv_to_str v with
  | Some s =>
      if eq_ignore_ascii_case k (lit "cookie") then (acc.1, acc.2 ++ [s])
      else (acc.1 ++ k ++ lit ":" ++ s ++ [LF], acc.2)
  | None => acc
  end.

Definition build_header_str (header_map : HM) : str :=
  let '(headers_str, cookie_list) :=
    foldl (λ acc k, foldl (push_header k) acc (hm_get_all k header_map)) ([], [])
      (hm_keys header_map) in
  match cookie_list with
  | [] => headers_str
  | _ => headers_str ++ lit "cookie:" ++ join (lit "; ") cookie_list ++ [LF]
  end.

Definition with_request_headers (b : CrankerProtocolRequestBuilder) (m : HM) :=
  MkBuilder (request_line b) (Some (build_header_str m)) (end_marker b).

(** ** The response text *)

Record CrankerProtocolResponse := MkResponse {
  resp_header_lines : list str;
  resp_code : Z
}.

Definition int_error_debug (k : IntErrorKind) : str :=
  lit "ParseIntError { kind: " ++
  match k with
  | Empty => lit "Empty"
  | InvalidDigit => lit "InvalidDigit"
  | PosOverflow => lit "PosOverflow"
  | NegOverflow => lit "NegOverflow"
  end ++ lit " }".

Definition try_from_string (message_to_apply : str)
  : result CrankerProtocolResponse CrankerRouterException :=
  match split_on LF message_to_apply with
  | [] =>
      Err (with_err_kind (crex_new
        (lit "failed to parse header from target response (" ++ message_to_apply ++ lit ")"))
        CrankerProtocolZeroLengthHeaderLine_0006)
  | line0 :: rest =>
      match split_on " "%byte line0 with
      | _ :: bit1 :: _ =>
          match parse_u16 bit1 with
          | Err pie =>
              Err (crex_new (lit "failed to parse status code from target response header ("
                ++ bit1 ++ lit "): " ++ int_error_debug pie))
          | Ok status => Ok (MkResponse (filter (λ s, s ≠ []) rest) status)
          end
      | _ =>
          Err (with_err_kind (crex_new
            (lit "failed to parse status code from target response (" ++ message_to_apply
             ++ lit "): no status code found"))
            CrankerProtocolHttpStatusCodeMissing_0007)
      end
  end.

(** [http::response::Builder]: the response being built, or [None] once a
    status, a name or a value was refused. *)
Definition rb_status (status : Z) : option (Z * HM) :=
  if valid_status status then Some (status, hm_new) else None.

Definition rb_header (res : option (Z * HM)) (key value : str) : option (Z * HM) :=
  match res with
  | Some (st, m) =>
      match hn_parse key, hv_parse value with
      | Some k, Some v => Some (st, hm_append k v m)
      | _, _ => None
      end
  | None => None
  end.

(** The loop over the header lines.  [debug_strs] is the [{:?}] text of a list
    of strings. *)
Fixpoint response_lines (debug_strs : list str → str) (all ls : list str) (res : option (Z * HM))
  : result (option (Z * HM)) CrankerRouterException :=
  match ls with
  | [] => Ok res
  | header_line :: r =>
      match find_byte ":"%byte header_line with
      | None =>
          Err (crex_new (lit "failed to parse protocol response, header seems corrupted: "
                         ++ debug_strs all))
      | Some colon_idx =>
          let key := trim (take colon_idx header_line) in
          let lowercase_key := to_lower key in
          response_lines debug_strs all r
            (if bool_decide (lowercase_key ∈ HOP_BY_HOP_HEADERS) ||
                bool_decide (lowercase_key ∈ RESPONSE_HEADERS_TO_NOT_SEND_BACK)
             then res
             else rb_header res key (trim (drop (colon_idx + 1) header_line)))
      end
  end.

Definition response_build (debug_strs : list str → str) (self : CrankerProtocolResponse)
  : result (option (Z * HM)) CrankerRouterException :=
  let? res := response_lines debug_strs (resp_header_lines self) (resp_header_lines self)
                (rb_status (resp_code self)) in
  Ok match res with
     | Some (st, m) =>
         Some (st, foldl (λ m h, hm_remove (to_lower h) m) m
                     (elements (get_custom_hop_by_hop_headers (hm_get (lit "connection") m))))
     | None => None
     end.

End headers.

(** ** Reference definitions *)

(** What a connector reads from a request text: the lines up to the empty one
    are the request line and the headers, the last line is the end marker. *)
Definition decode_pair (line : str) : option (str * str) :=
  i ← find_byte ":"%byte line; Some (take i line, drop (S i) line).

Definition decode_marker (s : str) : option EndMarker :=
  if str_eqb s (lit "_1") then Some RequestBodyPending
  else if str_eqb s (lit "_2") then Some RequestHasNoBody
  else if str_eqb s (lit "_3") then Some RequestBodyEnded
  else None.

Fixpoint decode_headers (ls : list str) : option (list (str * str) * EndMarker) :=
  match ls with
  | [[]; m] => k ← decode_marker m; Some ([], k)
  | l :: r => kv ← decode_pair l; rest ← decode_headers r; Some (kv :: rest.1, rest.2)
  | [] => None
  end.

Definition decode_request (msg : str) : option (str * list (str * str) * EndMarker) :=
  match split_on LF msg with
  | l :: r => d ← decode_headers r; Some (l, d.1, d.2)
  | [] => None
  end.

Definition values_of (k : str) (kvs : list (str * str)) : list str :=
  (λ kv, kv.2) <$> filter (λ kv, kv.1 = k) kvs.

(** The values a response line list gives to the header [k]. *)
Definition line_key (l : str) : option str :=
  (λ i, to_lower (trim (take i l))) <$> find_byte ":"%byte l.

Definition line_value (l : str) : option str :=
  (λ i, trim (drop (i + 1) l)) <$> find_byte ":"%byte l.

Definition response_values (k : str) (ls : list str) : list str :=
  omap line_value (filter (λ l, line_key l = Some k) ls).

(** The pairs a header map contributes to the request text. *)
Definition is_cookie (k : str) : bool := eq_ignore_ascii_case k (lit "cookie").

(** ** Lemmas *)

Section request.
Context {HM : Type} `{HttpLaws HM}.

Definition line_of (kv : str * str) : str := kv.1 ++ lit ":" ++ kv.2 ++ [LF].

(** The printable values of the names of [ks], in order. *)
Definition pairs_of (m : HM) (ks : list str) : list (str * str) :=
  ks ≫= λ k, (k,.) <$> omap hv_to_str (hm_get_all k m).

Lemma pairs_of_cons m k ks :
  pairs_of m (k :: ks) = ((k,.) <$> omap hv_to_str (hm_get_all k m)) ++ pairs_of m ks.
Proof. done. Qed.

Lemma push_header_foldl k vs acc :
  foldl (push_header k) acc vs =
  if is_cookie k then (acc.1, acc.2 ++ omap hv_to_str vs)
  else (acc.1 ++ concat (map line_of ((k,.) <$> omap hv_to_str vs)), acc.2).
Proof.
  unfold is_cookie. revert acc. induction vs as [|v vs IH]; intros [hs cl]; simpl.
  - by destruct (eq_ignore_ascii_case k _); rewrite app_nil_r.
  - rewrite IH. unfold push_header. destruct (hv_to_str v) as [s|]; [|done].
    destruct (eq_ignore_ascii_case k _); simpl; [by rewrite <- app_assoc|].
    unfold line_of at 2. simpl. by rewrite <- !app_assoc.
Qed.

Lemma push_headers_foldl m ks acc :
  foldl (λ acc k, foldl (push_header k) acc (hm_get_all k m)) acc ks =
  (acc.1 ++ concat (map line_of (pairs_of m (filter (λ k, is_cookie k = false) ks))),
   acc.2 ++ ((λ kv, kv.2) <$> pairs_of m (filter (λ k, is_cookie k = true) ks))).
Proof.
  revert acc. induction ks as [|k ks IH]; intros [hs cl]; simpl; [by rewrite !app_nil_r|].
  rewrite IH, push_header_foldl. rewrite !filter_cons.
  destruct (is_cookie k) eqn:E; repeat case_decide; try done; cbn [fst snd].
  - rewrite pairs_of_cons, fmap_app, <- list_fmap_compose, app_assoc.
    by rewrite (list_fmap_id (omap hv_to_str _)).
  - by rewrite pairs_of_cons, map_app, concat_app, app_assoc.
Qed.

(** The pairs of the whole header map: the others first, then one cookie. *)
Definition header_pairs (m : HM) : list (str * str) :=
  pairs_of m (filter (λ k, is_cookie k = false) (hm_keys m)) ++
  match (λ kv, kv.2) <$> pairs_of m (filter (λ k, is_cookie k = true) (hm_keys m)) with
  | [] => []
  | l => [(lit "cookie", join (lit "; ") l)]
  end.

Lemma build_header_str_lines m :
  build_header_str m = concat (map line_of (header_pairs m)).
Proof.
  unfold build_header_str, header_pairs. rewrite push_headers_foldl. simpl.
  destruct (_ <$> _) as [|c l]; [by rewrite app_nil_r|].
  rewrite map_app, concat_app. cbn [map concat]. by rewrite app_nil_r.
Qed.

Lemma elem_of_pairs_of m ks k s :
  (k, s) ∈ pairs_of m ks → k ∈ ks ∧ Forall (λ b, visible_ascii b = true) s.
Proof.
  unfold pairs_of. intros (k' & Hin & Hk)%list_elem_of_bind.
  apply list_elem_of_fmap in Hin as (s' & [= -> ->] & Hs).
  apply list_elem_of_omap in Hs as (v & _ & [-> Hv]%hv_to_str_Some). done.
Qed.

Lemma values_of_app k l1 l2 : values_of k (l1 ++ l2) = values_of k l1 ++ values_of k l2.
Proof. unfold values_of. by rewrite list.filter_app, fmap_app. Qed.

Lemma values_of_same k (l : list str) : values_of k ((k,.) <$> l) = l.
Proof.
  unfold values_of. induction l as [|x l IH]; [done|]. rewrite fmap_cons, filter_cons_True by done.
  by rewrite fmap_cons, IH.
Qed.

Lemma values_of_other k k' (l : list str) : k ≠ k' → values_of k ((k',.) <$> l) = [].
Proof.
  intros Hk. unfold values_of. induction l as [|x l IH]; [done|].
  rewrite fmap_cons, filter_cons_False by (simpl; congruence). exact IH.
Qed.

Lemma values_of_pairs_of m ks k :
  NoDup ks → values_of k (pairs_of m ks) =
             if decide (k ∈ ks) then omap hv_to_str (hm_get_all k m) else [].
Proof.
  induction 1 as [|k' ks Hk Hnd IH]; [done|].
  rewrite pairs_of_cons, values_of_app, IH.
  destruct (decide (k = k')) as [->|Hne].
  - rewrite values_of_same, decide_False, decide_True by (done || set_solver).
    by rewrite app_nil_r.
  - rewrite values_of_other by done. simpl. repeat case_decide; set_solver.
Qed.

Lemma decode_pair_line k s : ":"%byte ∉ k → decode_pair (k ++ ":"%byte :: s) = Some (k, s).
Proof.
  intros Hk. unfold decode_pair. rewrite find_byte_app by done. simpl.
  rewrite take_app_length. change (S (length k)) with (1 + length k).
  by rewrite Nat.add_comm, <- drop_drop, drop_app_length.
Qed.

Lemma decode_marker_str mk : decode_marker (end_marker_str mk) = Some mk.
Proof. by destruct mk. Qed.

Lemma end_marker_str_plain mk : LF ∉ end_marker_str mk.
Proof. apply (bool_decide_unpack _). by destruct mk. Qed.

Lemma decode_headers_lines kvs mk :
  Forall (λ kv, (":"%byte ∉ kv.1) ∧ (LF ∉ kv.1) ∧ (LF ∉ kv.2)) kvs →
  decode_headers (split_on LF (concat (map line_of kvs) ++ [LF] ++ end_marker_str mk))
  = Some (kvs, mk).
Proof.
  induction 1 as [|[k s] kvs (Hc & Hk & Hs) _ IH]; simpl.
  - by destruct mk.
  - simpl in *. unfold line_of at 1. simpl.
    replace (((k ++ ":"%byte :: s ++ [LF]) ++ concat (map line_of kvs)) ++ LF :: end_marker_str mk)
      with ((k ++ ":"%byte :: s) ++ LF :: (concat (map line_of kvs) ++ LF :: end_marker_str mk))
      by (by rewrite <- !app_assoc; simpl; rewrite <- !app_assoc).
    rewrite split_on_app by (rewrite elem_of_app, elem_of_cons; intros [|[|]]; done).
    pose proof (split_on_nonempty LF (concat (map line_of kvs) ++ LF :: end_marker_str mk)) as Hne.
    simpl in IH. destruct (split_on LF (concat _ ++ _)) as [|x xs] eqn:E; [done|].
    rewrite <- E in *. clear Hne. destruct (k ++ ":"%byte :: s) as [|c r] eqn:Ekv; [by destruct k|].
    rewrite <- Ekv.
    assert (Hd : decode_headers ((k ++ ":"%byte :: s) ::
      split_on LF (concat (map line_of kvs) ++ LF :: end_marker_str mk)) =
      (kv ← decode_pair (k ++ ":"%byte :: s);
       rest ← decode_headers (split_on LF (concat (map line_of kvs) ++ LF :: end_marker_str mk));
       Some (kv :: rest.1, rest.2))) by (rewrite Ekv; done).
    rewrite Hd, decode_pair_line, IH by done. done.
Qed.

Lemma visible_no_LF s : Forall (λ b, visible_ascii b = true) s → LF ∉ s.
Proof. rewrite list.Forall_forall. by intros Hs Hin%Hs. Qed.

Lemma join_no_LF l : Forall (λ s, LF ∉ s) l → LF ∉ join (lit "; ") l.
Proof.
  induction 1 as [|s l Hs Hl IH]; [simpl; set_solver|].
  destruct l as [|t l]; [done|]. change (join (lit "; ") (s :: t :: l))
    with (s ++ lit "; " ++ join (lit "; ") (t :: l)).
  rewrite !elem_of_app. intros [?|[Hin|?]]; try done. revert Hin.
  by apply (bool_decide_unpack _).
Qed.

(** The names of a header map are lower-case tokens. *)
Definition names_plain (m : HM) : Prop :=
  Forall (λ k, (":"%byte ∉ k) ∧ (LF ∉ k) ∧ to_lower k = k) (hm_keys m).

Lemma pairs_of_plain m (P : str → Prop) `{∀ k, Decision (P k)} :
  names_plain m →
  Forall (λ kv, (":"%byte ∉ kv.1) ∧ (LF ∉ kv.1) ∧ (LF ∉ kv.2)) (pairs_of m (filter P (hm_keys m))).
Proof.
  unfold names_plain. rewrite !list.Forall_forall.
  intros Hn [k s] [[_ Hk]%list_elem_of_filter Hs]%elem_of_pairs_of.
  apply Hn in Hk as (? & ? & ?). repeat split; try done. by apply visible_no_LF.
Qed.

Lemma header_pairs_plain m :
  names_plain m →
  Forall (λ kv, (":"%byte ∉ kv.1) ∧ (LF ∉ kv.1) ∧ (LF ∉ kv.2)) (header_pairs m).
Proof.
  intros Hn. unfold header_pairs. apply Forall_app. split; [by apply pairs_of_plain|].
  pose proof (pairs_of_plain m (λ k, is_cookie k = true) Hn) as Hp.
  assert (Hf : Forall (λ s, LF ∉ s)
    ((λ kv : str * str, kv.2) <$> pairs_of m (filter (λ k, is_cookie k = true) (hm_keys m)))).
  { apply Forall_fmap. eapply list.Forall_impl; [exact Hp|]. simpl. tauto. }
  destruct (_ <$> _) as [|c l]; [constructor|]. constructor; [|constructor].
  repeat split; [by apply (bool_decide_unpack _)..|]. by apply join_no_LF.
Qed.

Lemma is_cookie_lower k : to_lower k = k → is_cookie k = true ↔ k = lit "cookie".
Proof.
  intros Hk. unfold is_cookie, eq_ignore_ascii_case. rewrite Hk, str_eqb_true. done.
Qed.

Lemma header_pairs_other m k :
  names_plain m → k ≠ lit "cookie" →
  values_of k (header_pairs m) = omap hv_to_str (hm_get_all k m).
Proof.
  intros Hn Hk. unfold header_pairs. rewrite values_of_app.
  rewrite values_of_pairs_of by (apply list.NoDup_filter, keys_nodup).
  replace (values_of k (match _ with [] => _ | _ => _ end)) with (@nil str).
  2:{ destruct (_ <$> _); [done|]. unfold values_of. by rewrite filter_cons_False by (simpl; congruence). }
  rewrite app_nil_r. case_decide as Hin; [done|].
  destruct (hm_get_all k m) eqn:E; [done|]. exfalso. apply Hin.
  assert (Hkeys : k ∈ hm_keys m) by (apply keys_spec; congruence).
  apply list_elem_of_filter. split; [|done]. apply not_true_iff_false.
  rewrite is_cookie_lower; [done|]. unfold names_plain in Hn. rewrite list.Forall_forall in Hn.
  by apply Hn.
Qed.

Lemma cookie_values m :
  names_plain m →
  (λ kv, kv.2) <$> pairs_of m (filter (λ k, is_cookie k = true) (hm_keys m))
  = omap hv_to_str (hm_get_all (lit "cookie") m).
Proof.
  intros Hn.
  assert (Hf : filter (λ k, is_cookie k = true) (hm_keys m) = filter (λ k, k = lit "cookie") (hm_keys m)).
  { unfold names_plain in Hn. rewrite list.Forall_forall in Hn. apply filter_ext_in.
    intros k Hk. apply is_cookie_lower. by apply Hn. }
  rewrite Hf. clear Hf.
  assert (Hall : Forall (λ kv, kv.1 = lit "cookie")
    (pairs_of m (filter (λ k, k = lit "cookie") (hm_keys m)))).
  { apply list.Forall_forall. by intros [k s] [[? _]%list_elem_of_filter _]%elem_of_pairs_of. }
  pose proof (values_of_pairs_of m (filter (λ k, k = lit "cookie") (hm_keys m)) (lit "cookie")
    (list.NoDup_filter _ _ (keys_nodup m))) as Hv.
  unfold values_of in Hv. rewrite filter_all in Hv by done.
  rewrite Hv. case_decide as Hin; [done|].
  destruct (hm_get_all (lit "cookie") m) eqn:E; [done|]. exfalso. apply Hin.
  apply list_elem_of_filter. split; [done|]. apply keys_spec. congruence.
Qed.

End request.

(** ** The request text *)

Section request_theorems.
Context {HM : Type} `{HttpLaws HM}.

(** The builder calls of [on_client_req]: the request line, the headers and one
    of the end markers. *)
Definition full_builder (l : str) (m : HM) (mk : EndMarker) : CrankerProtocolRequestBuilder :=
  let b := with_request_headers (with_request_line builder_new l) m in
  match mk with
  | RequestBodyPending => with_request_body_pending b
  | RequestHasNoBody => with_request_has_no_body b
  | RequestBodyEnded => with_request_body_ended b
  end.

(** C37: the text built for a request line, a header map and an end marker is
    decoded by a reader of the protocol to the same line and marker and to
    headers that give every name but [cookie] exactly its printable values in
    order, and [cookie] one value, the cookies joined by a semicolon and a
    blank (no cookie header when there was none). *)
Theorem request_text_round_trip (l : str) (m : HM) (mk : EndMarker) :
  LF ∉ l → names_plain m →
  ∃ msg kvs, request_build (full_builder l m mk) = Ret (Ok msg) ∧
    decode_request msg = Some (l, kvs, mk) ∧
    (∀ k, k ≠ lit "cookie" → values_of k kvs = omap hv_to_str (hm_get_all k m)) ∧
    values_of (lit "cookie") kvs =
      match omap hv_to_str (hm_get_all (lit "cookie") m) with
      | [] => []
      | cs => [join (lit "; ") cs]
      end.
Proof.
  intros Hl Hn. exists (l ++ LF :: build_header_str m ++ LF :: end_marker_str mk), (header_pairs m).
  split_and!.
  - by destruct mk.
  - unfold decode_request. rewrite split_on_app by done. rewrite build_header_str_lines.
    pose proof (decode_headers_lines _ mk (header_pairs_plain m Hn)) as Hd. simpl in Hd.
    by rewrite Hd.
  - intros k Hk. by apply header_pairs_other.
  - unfold header_pairs. rewrite values_of_app, cookie_values by done.
    rewrite values_of_pairs_of by (apply list.NoDup_filter, keys_nodup).
    rewrite decide_False by (intros [Hc _]%list_elem_of_filter; by vm_compute in Hc).
    simpl. destruct (omap _ _) as [|c cs]; done.
Qed.

End request_theorems.

(** Building a request text never panics, and it fails exactly when the end
    marker is missing (error kind 0005) or when the line or the headers are
    missing and the marker is not the one that ends a body; without line or
    headers the text is the marker alone. *)
Theorem request_build_cases (b : CrankerProtocolRequestBuilder) :
  match end_marker b with
  | None => ∃ e, request_build b = Ret (Err e) ∧
                 opt_err_kind e = Some CrankerProtocolEndMarkerMissing_0005
  | Some mk =>
      match request_line b, header_map_str b with
      | Some l, Some h => request_build b = Ret (Ok (l ++ [LF] ++ h ++ [LF] ++ end_marker_str mk))
      | _, _ =>
          if decide (mk = RequestBodyEnded) then request_build b = Ret (Ok (lit "_3"))
          else ∃ e, request_build b = Ret (Err e) ∧ opt_err_kind e = None
      end
  end.
Proof.
  destruct b as [[l|] [h|] [[]|]]; cbn; try done; eexists; split; try reflexivity.
Qed.

(** ** The response text *)

(** Printing a status code and reading it back. *)
Lemma parse_display_status n :
  valid_status n = true →
  parse_u16 (display_Z n) = Ok n ∧ (" "%byte ∉ display_Z n) ∧ (LF ∉ display_Z n).
Proof.
  unfold valid_status. intros Hn. bool_to_prop.
  assert (Hall : Forall (λ n, parse_u16 (display_Z n) = Ok n ∧ (" "%byte ∉ display_Z n) ∧
    (LF ∉ display_Z n)) (seqZ 100 900)).
  { apply list.Forall_forall.
    assert (Hb : forallb (λ n, bool_decide (result_ok (parse_u16 (display_Z n)) = Some n) &&
       bool_decide (" "%byte ∉ display_Z n) && bool_decide (LF ∉ display_Z n)) (seqZ 100 900) = true)
      by (vm_compute; reflexivity).
    rewrite forallb_forall in Hb. intros x Hx%list_elem_of_In%Hb. clear Hb. bool_to_prop.
    destruct (parse_u16 (display_Z x)); simplify_eq/=. tauto. }
  rewrite list.Forall_forall in Hall. apply Hall, elem_of_seqZ. lia.
Qed.

(** A well-formed response text (a protocol word, a status code from 100 to
    999, a reason, then header lines) parses to its status code and its
    non-empty header lines in order. *)
Theorem response_text_round_trip (proto reason_phrase : str) (status : Z) (hdrs : list str) :
  valid_status status = true → " "%byte ∉ proto → LF ∉ proto → LF ∉ reason_phrase →
  Forall (λ h, LF ∉ h) hdrs →
  try_from_string (join [LF] ((proto ++ " "%byte :: display_Z status ++ " "%byte :: reason_phrase)
                              :: hdrs))
  = Ok (MkResponse (filter (λ h, h ≠ []) hdrs) status).
Proof.
  intros Hst Hp HpL Hr Hh. destruct (parse_display_status _ Hst) as (Hparse & Hsp & HL).
  unfold try_from_string. rewrite split_on_join; [|done|].
  - rewrite !split_on_app by done. pose proof (split_on_nonempty " "%byte reason_phrase) as Hne.
    by rewrite Hparse.
  - constructor; [|done]. rewrite !elem_of_app, !elem_of_cons, elem_of_app, elem_of_cons.
    intros [?|[?|[?|[?|?]]]]; done.
Qed.

(** Parsing a response text fails exactly when its first line has no second
    word (error kind 0007) or that word is not a 16-bit decimal number; the
    check for a text without lines never applies. *)
Theorem response_parse_errors (msg : str) :
  match split_on " "%byte (default [] (head (split_on LF msg))) with
  | _ :: word :: _ =>
      match parse_u16 word with
      | Ok st => ∃ hs, try_from_string msg = Ok (MkResponse hs st) ∧ [] ∉ hs
      | Err _ => ∃ e, try_from_string msg = Err e ∧ opt_err_kind e = None
      end
  | _ => ∃ e, try_from_string msg = Err e ∧
              opt_err_kind e = Some CrankerProtocolHttpStatusCodeMissing_0007
  end.
Proof.
  unfold try_from_string. pose proof (split_on_nonempty LF msg) as Hne.
  destruct (split_on LF msg) as [|l0 ls]; [done|]. simpl.
  destruct (split_on _ l0) as [|w0 [|w1 ws]]; [by eexists..|].
  destruct (parse_u16 w1); [|by eexists].
  eexists. split; [done|]. by intros [Hc _]%list_elem_of_filter.
Qed.

Section response_theorems.
Context {HM : Type} `{HttpLaws HM}.
Context (debug_strs : list str → str).

Definition repressed (k : str) : Prop :=
  k ∈ HOP_BY_HOP_HEADERS ∨ k ∈ RESPONSE_HEADERS_TO_NOT_SEND_BACK.

#[local] Instance repressed_dec k : Decision (repressed k).
Proof. unfold repressed. apply _. Defined.

Lemma response_values_cons k l ls :
  response_values k (l :: ls) =
  (if decide (line_key l = Some k) then option_list (line_value l) else []) ++ response_values k ls.
Proof.
  unfold response_values. rewrite filter_cons. case_decide; [|done]. cbn.
  by destruct (line_value l).
Qed.

(** The loop from any state of the builder. *)
Lemma response_lines_values all ls (st0 st : Z) (m0 m : HM) :
  response_lines debug_strs all ls (Some (st0, m0)) = Ok (Some (st, m)) →
  st = st0 ∧ ∀ k, hm_get_all k m =
    hm_get_all k m0 ++ (if decide (repressed k) then [] else response_values k ls).
Proof.
  revert m0. induction ls as [|l ls IH]; intros m0 Hr; simpl in Hr.
  - injection Hr as -> ->. split; [done|]. intros k. by case_decide; rewrite app_nil_r.
  - destruct (find_byte _ l) as [i|] eqn:Ei; [|done].
    set (key := trim (take i l)) in *. set (v := trim (drop (i + 1) l)) in *.
    assert (Hkey : line_key l = Some (to_lower key)) by (unfold line_key; by rewrite Ei).
    assert (Hval : line_value l = Some v) by (unfold line_value; by rewrite Ei).
    destruct (bool_decide _ || bool_decide _) eqn:Eb.
    + destruct (IH _ Hr) as [-> Hm]. split; [done|]. intros k. rewrite Hm, response_values_cons.
      apply orb_true_iff in Eb. rewrite !bool_decide_eq_true in Eb.
      case_decide as Hk; [done|]. rewrite decide_False; [done|].
      rewrite Hkey. intros [= <-]. exact (Hk Eb).
    + apply orb_false_iff in Eb as [Eb1 Eb2]. bool_to_prop. unfold rb_header in Hr.
      assert (Hnone : ∀ xs, response_lines debug_strs all xs None ≠ Ok (Some (st, m))).
      { induction xs as [|x xs IHx]; simpl; [done|]. destruct (find_byte _ x); [|done].
        by destruct (_ || _). }
      destruct (hn_parse key) as [kn|] eqn:Ek; [|by apply Hnone in Hr].
      destruct (hv_parse v) as [vv|] eqn:Ev; [|by apply Hnone in Hr].
      apply hn_parse_lower in Ek as ->. apply hv_parse_id in Ev as ->.
      destruct (IH _ Hr) as [-> Hm]. split; [done|]. intros k.
      rewrite Hm, get_all_append, response_values_cons, Hkey, Hval.
      destruct (decide (k = to_lower key)) as [->|Hne].
      * rewrite !(decide_False (P := repressed _)) by (intros [|]; done).
        rewrite (decide_True (P := Some _ = Some _)) by done. by rewrite <- app_assoc.
      * rewrite (decide_False (P := Some _ = Some _)) by congruence. done.
Qed.

(** The custom hop-by-hop removal finds no [connection] header to read. *)
Lemma response_build_lines self (st : Z) (m : HM) :
  response_build debug_strs self = Ok (Some (st, m)) →
  response_lines debug_strs (resp_header_lines self) (resp_header_lines self)
    (rb_status (resp_code self)) = Ok (Some (st, m)).
Proof.
  unfold response_build, rb_status.
  destruct (valid_status _) eqn:Ev.
  - destruct (response_lines _ _ _ _) as [[[st' m']|]|] eqn:E; simpl; try done.
    intros [= -> <-]. destruct (response_lines_values _ _ _ _ _ _ E) as [_ Hm].
    specialize (Hm (lit "connection")). rewrite get_all_new, decide_True in Hm
      by (left; by apply (bool_decide_unpack _)).
    assert (Hc : hm_get (lit "connection") m' = None).
    { unfold hm_get. change (to_lower (lit "connection")) with (lit "connection"). by rewrite Hm. }
    by rewrite Hc.
  - assert (Hnone : ∀ all xs, match response_lines debug_strs all xs (@None (Z * HM)) with
                              | Ok (Some _) => False | _ => True end).
    { intros all. induction xs as [|x xs IHx]; simpl; [done|]. destruct (find_byte _ x); [|done].
      by destruct (_ || _). }
    specialize (Hnone (resp_header_lines self) (resp_header_lines self)).
    by destruct (response_lines _ _ _ _) as [[|]|].
Qed.

(** C38: the response sent to the client carries the connector's status code,
    which is a legal one, and exactly the headers of the connector's lines: every
    name gets the trimmed values of its lines in order, except that the
    hop-by-hop names and [server] get none. *)
Theorem response_headers_forwarded self (st : Z) (m : HM) :
  response_build debug_strs self = Ok (Some (st, m)) →
  st = resp_code self ∧ valid_status st = true ∧
  ∀ k, hm_get_all k m =
       if decide (repressed k) then [] else response_values k (resp_header_lines self).
Proof.
  intros Hb%response_build_lines. unfold rb_status in Hb.
  destruct (valid_status _) eqn:Ev.
  - destruct (response_lines_values _ _ _ _ _ _ Hb) as [-> Hm]. split_and!; [done..|].
    intros k. by rewrite Hm, get_all_new.
  - exfalso. revert Hb. generalize (resp_header_lines self) at 1. intros all.
    induction (resp_header_lines self) as [|x xs IHx]; simpl; [done|].
    destruct (find_byte _ x); [|done]. by destruct (_ || _).
Qed.

End response_theorems.

(** ** Witnesses *)

#[local] Existing Instance Alist.lib.
#[local] Existing Instance Alist.laws.

Definition demo_req_headers : Alist.headers :=
  [(lit "accept", lit "a"); (lit "cookie", lit "x=1"); (lit "accept", lit "b");
   (lit "cookie", lit "y=2")].

Lemma request_text_round_trip_witness :
  ∃ msg kvs, request_build (full_builder (lit "GET / HTTP/1.1") demo_req_headers RequestHasNoBody)
             = Ret (Ok msg) ∧
    decode_request msg = Some (lit "GET / HTTP/1.1", kvs, RequestHasNoBody) ∧
    values_of (lit "cookie") kvs = [lit "x=1; y=2"].
Proof.
  destruct (request_text_round_trip (lit "GET / HTTP/1.1") demo_req_headers RequestHasNoBody)
    as (msg & kvs & Hb & Hd & _ & Hc).
  - apply (bool_decide_unpack _). vm_compute. exact I.
  - apply (bool_decide_unpack _). vm_compute. exact I.
  - exists msg, kvs. split_and!; [exact Hb|exact Hd|]. rewrite Hc. vm_compute. reflexivity.
Defined.

Definition demo_response_text : str :=
  join [LF] [lit "HTTP/1.1" ++ " "%byte :: display_Z 200 ++ " "%byte :: lit "OK";
             lit "Content-Type: text/plain"; []].

Lemma response_text_round_trip_witness :
  try_from_string demo_response_text = Ok (MkResponse [lit "Content-Type: text/plain"] 200).
Proof.
  apply (response_text_round_trip (lit "HTTP/1.1") (lit "OK") 200
    [lit "Content-Type: text/plain"; []]);
    try reflexivity; apply (bool_decide_unpack _); vm_compute; exact I.
Defined.

Definition demo_response : CrankerProtocolResponse :=
  MkResponse [lit "Content-Type: text/plain"; lit "Server: x"; lit "Connection: a";
              lit "A: 1"; lit "Content-type:b"] 200.

Lemma response_headers_forwarded_witness :
  ∃ m : Alist.headers,
    response_build (λ _, []) demo_response = Ok (Some (200%Z, m)) ∧
    hm_get_all (lit "content-type") m = [lit "text/plain"; lit "b"] ∧
    hm_get_all (lit "server") m = [].
Proof.
  eexists. split; [vm_compute; reflexivity|].
  match goal with |- hm_get_all _ ?m = _ ∧ _ =>
    destruct (response_headers_forwarded (λ _, []) demo_response 200 m) as (_ & _ & Hk) end.
  - vm_compute. reflexivity.
  - rewrite !Hk. split; vm_compute; reflexivity.
Defined.
