(* ===== verification/Frames.v ===== *)
(** * The binary frames of the cranker protocol, version 3

    [router_socket_v3.rs]: a frame is a type byte, a flags byte, a big-endian
    request id and a payload.  The printers [window_update_message],
    [rst_message], [data_messages] and [header_messages] are modelled with the
    readers of [on_binary] and of the handlers; the theorems are the round trip
    of every kind of frame and the reassembly of a header text sent in
    chunks. *)

From S2P Require Import Prelude RustStr.

(** ** Constants *)

Definition MSG_TYPE_LEN_IN_BYTES : nat := 1.
Definition FLAGS_LEN_IN_BYTES : nat := 1.
Definition REQ_ID_LEN_IN_BYTES : nat := 4.
Definition HEADER_LEN_IN_BYTES : nat :=
  MSG_TYPE_LEN_IN_BYTES + FLAGS_LEN_IN_BYTES + REQ_ID_LEN_IN_BYTES.
Definition END_STREAM_FLAG_MASK : Z := 1.
Definition END_HEADER_FLAG_MASK : Z := 4.
Definition MESSAGE_TYPE_DATA : Z := 0.
Definition MESSAGE_TYPE_HEADER : Z := 1.
Definition MESSAGE_TYPE_RST_STREAM : Z := 3.
Definition MESSAGE_TYPE_WINDOW_UPDATE : Z := 8.
Definition ERROR_INTERNAL : Z := 1.

(** ** Machine integers in a buffer *)

Definition put_u8 (z : Z) : str := [byte_of_N (Z.to_N (z mod 256))].

Definition put_i32 (z : Z) : str :=
  put_u8 (Z.shiftr z 24) ++ put_u8 (Z.shiftr z 16) ++ put_u8 (Z.shiftr z 8) ++ put_u8 z.

(** [get_i32] panics on a buffer of fewer than four bytes. *)
Definition get_i32 (bin : str) : outcome (Z * str) :=
  match bin with
  | a :: b :: c :: d :: r =>
      Ret (wrap32 (((bZ a * 256 + bZ b) * 256 + bZ c) * 256 + bZ d), r)
  | _ => Panic
  end.

(** ** Flags *)

Definition judge_is_stream_end_from_flags (flags : Z) : bool :=
  (Z.land flags END_STREAM_FLAG_MASK =? END_STREAM_FLAG_MASK)%Z.

Definition judge_is_header_end_from_flags (flags : Z) : bool :=
  (Z.land flags END_HEADER_FLAG_MASK =? END_HEADER_FLAG_MASK)%Z.

(** ** Printers *)

Definition window_update_message (req_id window_update : Z) : str :=
  put_u8 MESSAGE_TYPE_WINDOW_UPDATE ++ put_u8 0 ++ put_i32 req_id ++ put_i32 window_update.

Definition rst_message (req_id err_code : Z) (msg : str) : str :=
  put_u8 MESSAGE_TYPE_RST_STREAM ++ put_u8 0 ++ put_i32 req_id ++ put_i32 err_code ++ msg.

Definition data_messages (req_id : Z) (is_end : bool) (opt_bin : option str) : str :=
  put_u8 MESSAGE_TYPE_DATA ++ put_u8 (if is_end then 1 else 0) ++ put_i32 req_id ++
  match opt_bin with Some bin => bin | None => [] end.

Definition header_message (req_id : Z) (is_header_end is_stream_end : bool)
  (may_partial_header_line : str) : str :=
  let flags := 0%Z in
  let flags := if is_stream_end then Z.lor flags END_STREAM_FLAG_MASK else flags in
  let flags := if is_header_end then Z.lor flags END_HEADER_FLAG_MASK else flags in
  put_u8 MESSAGE_TYPE_HEADER ++ put_u8 flags ++ put_i32 req_id ++ may_partial_header_line.

(** [slice.chunks(n)] for [n > 0]; the fuel is the length of the slice. *)
Fixpoint chunks_go {A} (fuel n : nat) (l : list A) : list (list A) :=
  match fuel, l with
  | S fuel, _ :: _ => take n l :: chunks_go fuel n (drop n l)
  | _, _ => []
  end.
Definition chunks {A} (n : nat) (l : list A) : list (list A) := chunks_go (length l) n l.

Definition chunk_size : nat := Z.to_nat 16000.

(** In the chunked case the argument [is_header_end] is not used: the last
    chunk always ends the header. *)
Definition header_messages (req_id : Z) (is_header_end is_stream_end : bool)
  (full_header_line : str) : list str :=
  if length full_header_line <? chunk_size
  then [header_message req_id is_header_end is_stream_end full_header_line]
  else
    let cs := chunks chunk_size (chars full_header_line) in
    let chunk_count := length cs in
    imap (λ i slice, header_message req_id (i =? chunk_count - 1) is_stream_end (concat slice)) cs.

(** ** Readers *)

(** The first part of [on_binary]: type, flags, request id and payload, or
    nothing when the message is too short. *)
Definition read_frame (bin : str) : option (Z * Z * Z * str) :=
  match bin with
  | t :: f :: r =>
      if length r <? REQ_ID_LEN_IN_BYTES then None
      else match get_i32 r with
           | Ret (id, payload) => Some (bZ t, bZ f, id, payload)
           | Panic => None
           end
  | _ => None
  end.

(** [get_error_code] and [get_error_message] with the rest of the buffer. *)
Definition get_error_code (bin : str) : Z * str :=
  if 4 <=? length bin then
    match get_i32 bin with Ret (c, r) => (c, r) | Panic => ((-1)%Z, bin) end
  else ((-1)%Z, bin).

Definition get_error_message (bin : str) : str :=
  if (0 <? length bin) && utf8_valid bin then bin else [].

(** ** The frames a peer sees *)

Inductive Frame :=
| DataFrame (id : Z) (end_stream : bool) (payload : str)
| HeaderFrame (id : Z) (end_header end_stream : bool) (text : str)
| RstFrame (id code : Z) (msg : str)
| WindowUpdateFrame (id window : Z).

Definition encode (f : Frame) : str :=
  match f with
  | DataFrame id e p => data_messages id e (Some p)
  | HeaderFrame id h e t => header_message id h e t
  | RstFrame id c m => rst_message id c m
  | WindowUpdateFrame id w => window_update_message id w
  end.

(** The reading of [on_binary] and its handlers, [None] where the frame is
    dropped or the handler fails. *)
Definition decode (bin : str) : option Frame :=
  match read_frame bin with
  | None => None
  | Some (t, f, id, p) =>
      if (t =? MESSAGE_TYPE_DATA)%Z then
        Some (DataFrame id (judge_is_stream_end_from_flags f) p)
      else if (t =? MESSAGE_TYPE_HEADER)%Z then
        if utf8_valid p then
          Some (HeaderFrame id (judge_is_header_end_from_flags f)
                  (judge_is_stream_end_from_flags f) p)
        else None
      else if (t =? MESSAGE_TYPE_RST_STREAM)%Z then
        let '(code, r) := get_error_code p in Some (RstFrame id code (get_error_message r))
      else if (t =? MESSAGE_TYPE_WINDOW_UPDATE)%Z then
        match get_i32 p with Ret (w, _) => Some (WindowUpdateFrame id w) | Panic => None end
      else None
  end.

(** The frames the printers are used for: 32-bit integers and UTF-8 texts. *)
Definition frame_ok (f : Frame) : Prop :=
  match f with
  | DataFrame id _ _ => in_i32 id
  | HeaderFrame id _ _ t => in_i32 id ∧ utf8_valid t = true
  | RstFrame id c m => in_i32 id ∧ in_i32 c ∧ utf8_valid m = true
  | WindowUpdateFrame id w => in_i32 id ∧ in_i32 w
  end.

(** ** Lemmas on buffers *)

Lemma bZ_put (z : Z) : bZ (byte_of_N (Z.to_N (z mod 256))) = (z mod 256)%Z.
Proof.
  pose proof (Z.mod_pos_bound z 256 ltac:(lia)) as Hz.
  unfold byte_of_N. destruct (Byte.of_N (Z.to_N (z mod 256))) as [b|] eqn:E; simpl.
  - apply Byte.to_of_N in E. unfold bZ. rewrite E. lia.
  - apply Byte.of_N_None_iff in E. lia.
Qed.

Lemma be_digits (z : Z) :
  ((((z / 2 ^ 24) mod 256 * 256 + (z / 2 ^ 16) mod 256) * 256 + (z / 2 ^ 8) mod 256) * 256
   + z mod 256 = z mod 4294967296)%Z.
Proof.
  change 4294967296%Z with (256 * (256 * (256 * 256)))%Z.
  rewrite !Z.rem_mul_r, !Z.div_div by lia. change (2 ^ 24)%Z with (256 * 256 * 256)%Z.
  change (2 ^ 16)%Z with (256 * 256)%Z. change (2 ^ 8)%Z with 256%Z. ring.
Qed.

Lemma get_put_i32 (z : Z) (r : str) : in_i32 z → get_i32 (put_i32 z ++ r) = Ret (z, r).
Proof.
  intros Hz. unfold put_i32, put_u8, get_i32. cbn [app]. rewrite !bZ_put.
  rewrite !Z.shiftr_div_pow2 by lia. rewrite be_digits.
  assert (Hw : wrap32 (z mod 4294967296) = z).
  { rewrite <- (wrap32_id z Hz) at 2. unfold wrap32, u32_mod. by rewrite Zplus_mod_idemp_l. }
  by rewrite Hw.
Qed.

Lemma read_put_frame (t f id : Z) (p : str) :
  (0 ≤ t < 256)%Z → (0 ≤ f < 256)%Z → in_i32 id →
  read_frame (put_u8 t ++ put_u8 f ++ put_i32 id ++ p) = Some (t, f, id, p).
Proof.
  intros Ht Hf Hid. unfold read_frame. cbn [put_u8 app]. rewrite get_put_i32 by done.
  rewrite !bZ_put, !Z.mod_small by lia. done.
Qed.

Lemma get_put_error_code (c : Z) (r : str) : in_i32 c → get_error_code (put_i32 c ++ r) = (c, r).
Proof. intros Hc. unfold get_error_code. by rewrite get_put_i32. Qed.

Lemma get_error_message_valid (m : str) : utf8_valid m = true → get_error_message m = m.
Proof. intros Hm. unfold get_error_message. rewrite Hm. by destruct m. Qed.

(** ** Lemmas on chunks *)

Lemma chunks_go_concat {A} fuel n (l : list A) :
  0 < n → length l ≤ fuel → concat (chunks_go fuel n l) = l.
Proof.
  revert l. induction fuel as [|fuel IH]; intros [|x l] Hn Hl; try done; [simpl in Hl; lia|].
  cbn [chunks_go concat]. rewrite IH; [|done|rewrite length_drop; simpl in *; lia].
  apply take_drop.
Qed.

Lemma chunks_go_bounds {A} fuel n (l : list A) :
  0 < n → Forall (λ c, 0 < length c ≤ n) (chunks_go fuel n l).
Proof.
  revert l. induction fuel as [|fuel IH]; intros [|x l] Hn; try by constructor.
  cbn [chunks_go]. constructor; [|by apply IH]. rewrite length_take. simpl. lia.
Qed.

Lemma chunks_concat {A} n (l : list A) : 0 < n → concat (chunks n l) = l.
Proof. intros Hn. by apply chunks_go_concat. Qed.

Lemma chunks_nil {A} n (l : list A) : chunks n l = [] → l = [].
Proof. by destruct l. Qed.

(** ** Lemmas on UTF-8 *)

(** One encoded character at the front of a valid text. *)
Definition utf8_char (c : str) : Prop :=
  c ≠ [] ∧ starts_with_cont c = false ∧ Forall (λ b, is_cont b = true) (tail c) ∧
  ∀ r, utf8_valid (c ++ r) = utf8_valid r.

Lemma in_range_cont lo hi b :
  in_range lo hi b = true → (128 ≤ lo)%N → (hi ≤ 191)%N → is_cont b = true.
Proof.
  unfold in_range, is_cont. intros [Hl%N.leb_le Hh%N.leb_le]%andb_true_iff H1 H2.
  apply andb_true_iff. split; [apply N.leb_le|apply N.ltb_lt]; lia.
Qed.

Lemma in_range_not_cont lo hi b :
  in_range lo hi b = true → (hi ≤ 127)%N ∨ (192 ≤ lo)%N → is_cont b = false.
Proof.
  unfold in_range, is_cont. intros [Hl%N.leb_le Hh%N.leb_le]%andb_true_iff H1.
  apply andb_false_iff. destruct H1; [left; apply N.leb_gt|right; apply N.ltb_ge]; lia.
Qed.

(** Solves [utf8_char c] from the range checks of the branch. *)
Ltac utf8_char_tac :=
  bool_to_prop; split_and!;
  [ done
  | simpl; eapply in_range_not_cont; [eassumption|lia]
  | simpl; repeat constructor; first [assumption | eapply in_range_cont; [eassumption|lia|lia]]
  | intros ?; cbn [app utf8_valid];
    repeat match goal with H : ?x = ?v |- context [?x] => rewrite H end; reflexivity ].

Lemma utf8_split s :
  utf8_valid s = true → s ≠ [] → ∃ c r, s = c ++ r ∧ utf8_char c ∧ utf8_valid r = true.
Proof.
  destruct s as [|a r]; [done|]. intros Hv _. cbn [utf8_valid] in Hv.
  destruct (in_range 0 127 a) eqn:E0; [exists [a], r; split_and!; [done|utf8_char_tac|done]|].
  destruct r as [|b r1]; [done|].
  destruct (in_range 194 223 a) eqn:E1.
  { bool_to_prop. exists [a; b], r1. split; [done|]. split; [utf8_char_tac|done]. }
  destruct r1 as [|c r2]; [done|].
  destruct (in_range 224 224 a) eqn:E2;
    [|destruct (in_range 225 236 a) eqn:E3;
      [|destruct (in_range 237 237 a) eqn:E4; [|destruct (in_range 238 239 a) eqn:E5]]];
    try (bool_to_prop; exists [a; b; c], r2; split; [done|]; split; [utf8_char_tac|done]).
  destruct r2 as [|d r3]; [done|].
  destruct (in_range 240 240 a) eqn:E6;
    [|destruct (in_range 241 243 a) eqn:E7; [|destruct (in_range 244 244 a) eqn:E8; [|done]]];
    bool_to_prop; exists [a; b; c; d], r3; split_and!; [done| |done| done| |done| done| |done];
    utf8_char_tac.
Qed.

Lemma utf8_valid_not_cont s : utf8_valid s = true → starts_with_cont s = false.
Proof.
  intros Hv. destruct s as [|a r]; [done|].
  destruct (utf8_split (a :: r) Hv) as (c & r' & -> & (Hne & Hc & _) & _); [done|].
  by destruct c.
Qed.

Lemma chars_cont_char b c r :
  Forall (λ x, is_cont x = true) c → starts_with_cont r = false →
  chars (b :: c ++ r) = (b :: c) :: chars r.
Proof.
  intros Hc Hr. revert b. induction Hc as [|x c Hx Hc IH]; intros b.
  - simpl app. cbn [chars]. pose proof (concat_chars r) as Hcr.
    destruct (chars r) as [|c cs] eqn:E; [done|].
    assert (Hs : starts_with_cont c = false).
    { destruct c as [|y c]; [done|]. rewrite <- Hcr in Hr. exact Hr. }
    by rewrite Hs.
  - change (b :: (x :: c) ++ r) with (b :: x :: c ++ r). cbn [chars] in *.
    specialize (IH x). cbn [chars] in IH. rewrite IH. simpl. by rewrite Hx.
Qed.

Lemma utf8_valid_concat cs :
  Forall (λ c, ∀ r, utf8_valid (c ++ r) = utf8_valid r) cs → utf8_valid (concat cs) = true.
Proof. induction 1 as [|c cs Hc _ IH]; [done|]. simpl. by rewrite Hc. Qed.

(** The characters of a valid text are encoded characters. *)
Lemma utf8_chars s : utf8_valid s = true → Forall utf8_char (chars s).
Proof.
  remember (length s) as n eqn:Hn. assert (Hle : length s ≤ n) by lia. clear Hn.
  revert s Hle. induction n as [|n IH]; intros s Hle Hv.
  - destruct s; [constructor|simpl in Hle; lia].
  - destruct s as [|a t]; [constructor|].
    destruct (utf8_split (a :: t) Hv) as (c & r & Heq & Hc & Hr); [done|].
    pose proof Hc as (Hne & Hs & Ht & _). destruct c as [|b c]; [done|].
    rewrite Heq. simpl app. rewrite chars_cont_char by (done || by apply utf8_valid_not_cont).
    constructor; [done|]. apply IH; [|done].
    apply (f_equal length) in Heq. rewrite length_app in Heq. simpl in *. lia.
Qed.

Lemma Forall_concat_inv {A} (P : A → Prop) (ls : list (list A)) :
  Forall P (concat ls) → Forall (Forall P) ls.
Proof. induction ls as [|l ls IH]; simpl; [constructor|]. intros [? ?]%Forall_app. constructor; auto. Qed.

Lemma starts_with_cont_concat cs : Forall utf8_char cs → starts_with_cont (concat cs) = false.
Proof. destruct 1 as [|c cs (Hne & Hc & _) _]; [done|]. by destruct c. Qed.

Lemma chars_concat cs : Forall utf8_char cs → chars (concat cs) = cs.
Proof.
  induction 1 as [|c cs Hc Hcs IH]; [done|]. destruct Hc as (Hne & _ & Ht & _).
  destruct c as [|b c]; [done|]. change (concat ((b :: c) :: cs)) with (b :: c ++ concat cs).
  rewrite chars_cont_char, IH; [done|done|].
  by apply starts_with_cont_concat.
Qed.

Lemma judge_flags (h e : bool) :
  let f := (if h then Z.lor (if e then Z.lor 0 END_STREAM_FLAG_MASK else 0) END_HEADER_FLAG_MASK
            else if e then Z.lor 0 END_STREAM_FLAG_MASK else 0)%Z in
  judge_is_header_end_from_flags f = h ∧ judge_is_stream_end_from_flags f = e ∧ (0 ≤ f < 256)%Z.
Proof. by destruct h, e. Qed.

Lemma decode_encode_aux (f : Frame) : frame_ok f → decode (encode f) = Some f.
Proof.
  destruct f as [id e p|id h e t|id c m|id w]; cbn [frame_ok encode]; intros Hok; unfold decode.
  - unfold data_messages. rewrite read_put_frame by (done || by destruct e). by destruct e.
  - destruct Hok as [Hid Ht]. unfold header_message. destruct (judge_flags h e) as (Hh & He & Hr).
    rewrite read_put_frame by done. cbv zeta. rewrite Ht, Hh, He. done.
  - destruct Hok as (Hid & Hc & Hm). unfold rst_message. rewrite read_put_frame by done.
    cbn -[get_error_code get_error_message put_i32].
    by rewrite get_put_error_code, get_error_message_valid.
  - destruct Hok as [Hid Hw]. unfold window_update_message. rewrite read_put_frame by done.
    cbn -[get_i32 put_i32]. rewrite <- (app_nil_r (put_i32 w)). by rewrite get_put_i32.
Qed.

(** C34: every frame the router prints (data, header, reset and window update)
    is read back by the frame reader as the frame it was printed from, for all
    32-bit request ids, error codes and window sizes and all UTF-8 texts. *)
Theorem frame_round_trip (f : Frame) : frame_ok f → decode (encode f) = Some f.
Proof. exact (decode_encode_aux f). Qed.

(** The header texts of a list of parts: only the last one ends the header. *)
Definition header_frames (id : Z) (se : bool) (parts : list str) : list Frame :=
  imap (λ i p, HeaderFrame id (i =? length parts - 1) se p) parts.

Lemma mapM_imap_decode (g : nat → str → Frame) (h : nat → str → str) parts :
  (∀ i p, p ∈ parts → decode (h i p) = Some (g i p)) →
  mapM decode (imap h parts) = Some (imap g parts).
Proof.
  revert g h. induction parts as [|p parts IH]; intros g h Hd; [done|]. cbn [imap mapM].
  rewrite Hd by set_solver. simpl. rewrite (IH (g ∘ S) (h ∘ S)); [done|].
  intros i q Hq. apply Hd. set_solver.
Qed.

Lemma imap_map {A B C} (f : nat → B → C) (g : A → B) l :
  imap (λ i x, f i (g x)) l = imap f (map g l).
Proof. revert f. induction l as [|x l IH]; intros f; [done|]. simpl. f_equal. apply (IH (f ∘ S)). Qed.

Lemma header_frames_decode id se parts :
  in_i32 id → Forall (λ p, utf8_valid p = true) parts →
  mapM decode (imap (λ i p, header_message id (i =? length parts - 1) se p) parts)
  = Some (header_frames id se parts).
Proof.
  intros Hid Hp. apply mapM_imap_decode. intros i p Hin. rewrite list.Forall_forall in Hp.
  apply (decode_encode_aux (HeaderFrame id _ se p)). split; auto.
Qed.

Lemma concat_map_concat {A} (ls : list (list (list A))) : concat (map (@concat A) ls) = concat (concat ls).
Proof. induction ls as [|l ls IH]; [done|]. simpl. by rewrite concat_app, IH. Qed.

Lemma length_chars_le s : length (chars s) ≤ length s.
Proof.
  induction s as [|b s IH]; [done|]. simpl.
  destruct (chars s) as [|c cs]; [simpl; lia|]. destruct (starts_with_cont c); simpl in *; lia.
Qed.

Lemma chunk_size_pos : 0 < chunk_size.
Proof. unfold chunk_size. lia. Qed.

(** The parts a header text is sent in. *)
Lemma header_messages_parts (id : Z) (se : bool) (s : str) :
  utf8_valid s = true →
  ∃ parts, header_messages id true se s =
             imap (λ i p, header_message id (i =? length parts - 1) se p) parts ∧
    concat parts = s ∧ parts ≠ [] ∧
    Forall (λ p, utf8_valid p = true ∧ (length (chars p) ≤ chunk_size)%nat) parts.
Proof.
  intros Hs. unfold header_messages. destruct (length s <? chunk_size) eqn:E.
  - apply Nat.ltb_lt in E. exists [s]. split_and!; [done|simpl; apply app_nil_r|done|].
    constructor; [|constructor]. split; [exact Hs|]. pose proof (length_chars_le s). lia.
  - apply Nat.ltb_ge in E. set (cs := chunks chunk_size (chars s)).
    assert (Hcat : concat cs = chars s) by (apply chunks_concat, chunk_size_pos).
    assert (Hall : Forall (Forall utf8_char) cs).
    { apply Forall_concat_inv. rewrite Hcat. by apply utf8_chars. }
    exists (map (@concat byte) cs). split_and!.
    + rewrite (imap_map (λ i p, header_message id (i =? length cs - 1) se p) (@concat byte)).
      by rewrite <- (length_map (@concat byte) cs).
    + rewrite concat_map_concat, Hcat. apply concat_chars.
    + intros Hn%map_eq_nil. unfold cs in Hn. apply chunks_nil, chars_nil in Hn. subst s.
      pose proof chunk_size_pos. simpl in E. lia.
    + apply Forall_fmap.
      pose proof (chunks_go_bounds (length (chars s)) chunk_size (chars s) chunk_size_pos) as Hb.
      fold (chunks chunk_size (chars s)) in Hb. fold cs in Hb.
      rewrite list.Forall_forall in Hall, Hb |- *. intros c Hc. simpl. split.
      * apply utf8_valid_concat. eapply list.Forall_impl; [exact (Hall c Hc)|].
        intros x (_ & _ & _ & Hx). exact Hx.
      * rewrite chars_concat by auto. by apply Hb.
Qed.

(** A UTF-8 header text, however long, is sent as a non-empty sequence of
    header frames of the request whose texts are valid UTF-8 of at most 16000
    characters, concatenate to the header text, carry the end-of-stream flag
    asked for, and of which exactly the last carries the end-of-header flag. *)
Theorem header_messages_reassemble (id : Z) (se : bool) (s : str) :
  in_i32 id → utf8_valid s = true →
  ∃ parts, mapM decode (header_messages id true se s) = Some (header_frames id se parts) ∧
    concat parts = s ∧ parts ≠ [] ∧
    Forall (λ p, utf8_valid p = true ∧ (length (chars p) ≤ chunk_size)%nat) parts.
Proof.
  intros Hid Hs. destruct (header_messages_parts id se s Hs) as (parts & -> & Hc & Hne & Hall).
  exists parts. split_and!; [|done..]. apply header_frames_decode; [done|].
  eapply list.Forall_impl; [exact Hall|]. by intros p [? _].
Qed.

Lemma read_frame_None bin : read_frame bin = None ↔ length bin < HEADER_LEN_IN_BYTES.
Proof.
  unfold HEADER_LEN_IN_BYTES, MSG_TYPE_LEN_IN_BYTES, FLAGS_LEN_IN_BYTES, REQ_ID_LEN_IN_BYTES.
  destruct bin as [|t [|f [|a [|b [|c [|d r]]]]]]; cbn -[get_i32]; try (split; [lia|done]).
  split; [done|lia].
Qed.

Lemma get_i32_Panic bin : get_i32 bin = Panic ↔ length bin < 4.
Proof.
  destruct bin as [|a [|b [|c [|d r]]]]; cbn -[wrap32]; try (split; [lia|done]). split; [done|lia].
Qed.

Lemma length_put_i32 z : length (put_i32 z) = 4.
Proof. done. Qed.

Lemma get_i32_range bin z r : get_i32 bin = Ret (z, r) → in_i32 z.
Proof.
  destruct bin as [|a [|b [|c [|d r']]]]; cbn -[wrap32]; try done.
  intros Hg. injection Hg as <- _. apply wrap32_range.
Qed.

(** ** Witnesses *)

Lemma frame_round_trip_witness :
  decode (encode (RstFrame (-7) 1001 (lit "Going away"))) = Some (RstFrame (-7) 1001 (lit "Going away")).
Proof.
  apply (frame_round_trip (RstFrame (-7) 1001 (lit "Going away"))).
  split_and!; try reflexivity; apply (bool_decide_unpack _); vm_compute; exact I.
Defined.

Lemma utf8_replicate n : utf8_valid (replicate n "a"%byte) = true.
Proof. by induction n. Qed.

Lemma header_messages_reassemble_witness :
  ∃ parts, mapM decode (header_messages 7 true false (replicate (Z.to_nat 40000) "a"%byte)) =
             Some (header_frames 7 false parts) ∧
    concat parts = replicate (Z.to_nat 40000) "a"%byte.
Proof.
  destruct (header_messages_reassemble 7 false (replicate (Z.to_nat 40000) "a"%byte))
    as (parts & Hd & Hc & _).
  - apply (bool_decide_unpack _). vm_compute. exact I.
  - apply utf8_replicate.
  - exists parts. split; [exact Hd|exact Hc].
Defined.
