(* ===== verification/ConnectInfo.v ===== *)
(** * Connection metadata (connect_info.rs, axum_server_tls.rs, http3_quinn.rs)

    What the router knows of a client connection: its address and, over TLS or
    QUIC, the session.  The four ways in which a connection reaches the
    handlers are modelled: the plain listener and [RustlsListener] of
    connect_info.rs, [CrankerTlsAcceptor] with [TlsInfoService] of
    axum_server_tls.rs, and [QuinnListener] of http3_quinn.rs.  The TCP, TLS and
    QUIC libraries are arguments: a session is the record of what the code reads
    of it, and a listener is the sequence of what it will yield. *)

From S2P Require Import Prelude RustStr Http Forwarded HttpUtils Frames.

(** [SocketAddr::from(([0, 0, 0, 0], 0))]. *)
Definition unspecified_addr : SocketAddr := MkAddr (V4 0) 0.

(** ** The records *)

Section types.
Context {ProtocolVersion CipherSuite : Type}.

Record TlsSessionInfo := MkTls {
  sni : option str;
  alpn : option str;
  protocol_version : option ProtocolVersion;
  cipher_suite : option CipherSuite;
  peer_certs : option (list str);
  quic_transport_parameters : option str
}.

Record CrankerConnectInfo := MkConnectInfo {
  remote_addr : SocketAddr;
  tls_info : option TlsSessionInfo
}.

(** What the code reads of a rustls [ServerConnection]. *)
Record ServerConnection := MkServerConnection {
  server_name : option str;
  alpn_protocol : option str;
  session_version : option ProtocolVersion;
  negotiated_cipher_suite : option CipherSuite;
  peer_certificates : option (list str)
}.

(** The typed extensions of a request the handlers look at. *)
Record Extensions := MkExt {
  ext_connect_info_cranker : option CrankerConnectInfo;
  ext_cranker : option CrankerConnectInfo;
  ext_connect_info_addr : option SocketAddr
}.

Definition no_ext : Extensions := MkExt None None None.
End types.
Arguments TlsSessionInfo : clear implicits.
Arguments CrankerConnectInfo : clear implicits.
Arguments ServerConnection : clear implicits.
Arguments Extensions : clear implicits.

(** [iter().map(f).collect::<Result<Vec<_>, _>>()]: the first error ends it. *)
Fixpoint collect_results {A B E} (f : A → result B E) (l : list A) : result (list B) E :=
  match l with
  | [] => Ok []
  | x :: r => let? y := f x in let? ys := collect_results f r in Ok (y :: ys)
  end.

(** [u64::to_le_bytes], and its inverse. *)
Fixpoint le_bytes (n : nat) (z : Z) : str :=
  match n with
  | O => []
  | S n => put_u8 z ++ le_bytes n (z / 256)
  end.

Fixpoint le_value (s : str) : Z :=
  match s with
  | [] => 0
  | b :: r => bZ b + 256 * le_value r
  end.

Definition u64_mod : Z := 18446744073709551616.

Definition to_le_bytes (z : Z) : str := le_bytes 8 z.

Section connections.
Context {PV CS : Type}.
#[local] Abbreviation Tls := (TlsSessionInfo PV CS).
#[local] Abbreviation Info := (CrankerConnectInfo PV CS).
#[local] Abbreviation Session := (ServerConnection PV CS).
#[local] Abbreviation Ext := (Extensions PV CS).

(** [TlsSessionInfo::parse_peer_certs] over the certificate parser of webpki. *)
Definition parse_peer_certs {Cert Error} (try_from : str → result Cert Error) (t : Tls)
  : result (list Cert) Error :=
  match peer_certs t with
  | Some certs => collect_results try_from certs
  | None => Ok []
  end.

(** ** TCP and TLS over TCP *)

(** [Connected] for the plain listener. *)
Definition connect_info_tcp (addr : SocketAddr) : Info := MkConnectInfo addr None.

(** The session as both TLS servers read it. *)
Definition tls_info_of (session : Session) : Tls :=
  MkTls (server_name session) (alpn_protocol session) (session_version session)
    (negotiated_cipher_suite session) (peer_certificates session) None.

(** [Connected] for [RustlsListener]. *)
Definition connect_info_rustls (addr : SocketAddr) (session : Session) : Info :=
  MkConnectInfo addr (Some (tls_info_of session)).

(** [RustlsListener::accept] over what the TCP listener will yield; [None] while
    it still waits.  [tls_accept] is the handshake. *)
Fixpoint rustls_accept {Tcp TlsStream IoError} (tls_accept : Tcp → result TlsStream IoError)
  (incoming : list (result (Tcp * SocketAddr) IoError))
  : option ((TlsStream * SocketAddr) * list (result (Tcp * SocketAddr) IoError)) :=
  match incoming with
  | [] => None
  | Ok (tcp_stream, remote_addr) :: rest =>
      match tls_accept tcp_stream with
      | Ok tls_stream => Some ((tls_stream, remote_addr), rest)
      | Err _ => rustls_accept tls_accept rest
      end
  | Err _ :: rest => rustls_accept tls_accept rest
  end.

(** The trait [MaybePeerAddr] and its implementation for TCP streams. *)
Class MaybePeerAddr (Stream : Type) := peer_addr : Stream → option SocketAddr.

Definition tcp_peer_addr {Tcp IoError} (sys_peer_addr : Tcp → result SocketAddr IoError)
  : MaybePeerAddr Tcp := λ s, result_ok (sys_peer_addr s).

(** [TlsInfoService]: a service that adds the metadata to every request. *)
Record TlsInfoService (S : Type) := MkTlsInfoService { inner : S; conn_info : Info }.
Arguments inner {S} _.
Arguments conn_info {S} _.

(** [CrankerTlsAcceptor::accept]: a TLS stream is the pair of the raw stream and
    the session, which is what [get_ref] returns. *)
Definition cranker_tls_accept {I S Raw IoError} `{MaybePeerAddr Raw}
  (inner_accept : I → S → result ((Raw * Session) * S) IoError) (stream : I) (service : S)
  : result ((Raw * Session) * TlsInfoService S) IoError :=
  let? r := inner_accept stream service in
  let '(tls_stream, inner_service) := r in
  let '(raw_stream, session) := tls_stream in
  let remote_addr := default unspecified_addr (peer_addr raw_stream) in
  Ok (tls_stream,
      MkTlsInfoService S inner_service (MkConnectInfo remote_addr (Some (tls_info_of session)))).

Definition insert_cranker (i : Info) (e : Ext) : Ext :=
  MkExt (ext_connect_info_cranker e) (Some i) (ext_connect_info_addr e).

(** [TlsInfoService::call]. *)
Definition tls_info_call {Req Res} (svc : TlsInfoService (Ext → Req → Res)) (e : Ext) (req : Req) : Res :=
  inner svc (insert_cranker (conn_info svc) e) req.

(** ** QUIC *)

(** What the code reads of a [quinn::Connection]; [Any] is the boxed value its
    accessors return. *)
Record QuinnConnection (Any : Type) := MkQuinn {
  remote_address : SocketAddr;
  handshake_data : option Any;
  peer_identity : option Any;
  max_datagram_size : option Z;
  datagram_send_buffer_space : Z;
  rtt_micros : Z
}.
Arguments remote_address {_} _.
Arguments handshake_data {_} _.
Arguments peer_identity {_} _.
Arguments max_datagram_size {_} _.
Arguments datagram_send_buffer_space {_} _.
Arguments rtt_micros {_} _.

Record HandshakeData := MkHandshake { hd_server_name : option str; hd_protocol : option str }.

(** [build_transport_params_snapshot]. *)
Definition build_transport_params_snapshot {Any} (conn : QuinnConnection Any) : option str :=
  let buf := match max_datagram_size conn with
             | Some max_dg => put_u8 32 ++ to_le_bytes max_dg
             | None => []
             end in
  let buf := buf ++ put_u8 33 ++ to_le_bytes (datagram_send_buffer_space conn) in
  let buf := buf ++ put_u8 34 ++ to_le_bytes (rtt_micros conn) in
  match buf with [] => None | _ => Some buf end.

Section quinn.
Context {Any : Type} (downcast_handshake : Any → option HandshakeData)
  (downcast_certs : Any → option (list str)).

Definition from_quinn_connection (conn : QuinnConnection Any) : Info :=
  let handshake := handshake_data conn ≫= downcast_handshake in
  MkConnectInfo (remote_address conn)
    (Some (MkTls (handshake ≫= hd_server_name) (handshake ≫= hd_protocol) None None
       (peer_identity conn ≫= downcast_certs) (build_transport_params_snapshot conn))).

(** [QuinnListener::accept]: what [endpoint.accept()] yields, [None] when the
    endpoint is closed, with the result of the handshake. *)
Definition quinn_accept {ConnectionError} (incoming : option (result (QuinnConnection Any) ConnectionError))
  : option (QuinnConnection Any * Info) :=
  match incoming with
  | None => None
  | Some (Ok conn) => Some (conn, from_quinn_connection conn)
  | Some (Err _) => None
  end.

(** The server loop of the HTTP/3 example: [while let Some(..) = accept().await];
    the connections it hands to tasks. *)
Fixpoint h3_server_loop {ConnectionError}
  (incoming : list (option (result (QuinnConnection Any) ConnectionError)))
  : list (QuinnConnection Any * Info) :=
  match incoming with
  | [] => []
  | i :: rest => match quinn_accept i with
                 | Some c => c :: h3_server_loop rest
                 | None => []
                 end
  end.

End quinn.

(** [QuinnListener::bind] over the two library calls; an unusable TLS
    configuration becomes [ErrorKind::InvalidInput]. *)
Inductive BindError (E IoError : Type) :=
| InvalidInput (e : E)
| BindFailed (e : IoError).
Arguments InvalidInput {E IoError} e.
Arguments BindFailed {E IoError} e.

Definition quinn_bind {TlsConfig Crypto Endpoint E IoError} (try_from : TlsConfig → result Crypto E)
  (server : Crypto → SocketAddr → result Endpoint IoError) (addr : SocketAddr) (tls_config : TlsConfig)
  : result Endpoint (BindError E IoError) :=
  match try_from tls_config with
  | Err e => Err (InvalidInput e)
  | Ok server_cfg =>
      match server server_cfg addr with
      | Err e => Err (BindFailed e)
      | Ok endpoint => Ok endpoint
      end
  end.

(** ** What the portal takes from the extensions *)

Definition portal_conn_info (e : Ext) : option Info := opt_or (ext_connect_info_cranker e) (ext_cranker e).

Definition portal_addr (e : Ext) : SocketAddr :=
  default unspecified_addr (opt_or (remote_addr <$> portal_conn_info e) (ext_connect_info_addr e)).

Definition portal_is_tls (e : Ext) : bool :=
  match portal_conn_info e with
  | Some info => bool_decide (is_Some (tls_info info))
  | None => false
  end.

End connections.
Arguments TlsInfoService : clear implicits.
Arguments inner {PV CS S} _.
Arguments conn_info {PV CS S} _.
Arguments remote_address {_} _.
Arguments handshake_data {_} _.
Arguments peer_identity {_} _.
Arguments max_datagram_size {_} _.
Arguments datagram_send_buffer_space {_} _.
Arguments rtt_micros {_} _.

(** ** Lemmas *)

Lemma le_value_le_bytes n z : le_value (le_bytes n z) = (z mod 256 ^ Z.of_nat n)%Z.
Proof.
  revert z. induction n as [|n IH]; intros z; [by rewrite Z.mod_1_r|].
  cbn [le_bytes put_u8 app le_value]. rewrite IH, bZ_put, Nat2Z.inj_succ, Z.pow_succ_r by lia.
  rewrite Z.rem_mul_r by lia. lia.
Qed.

Lemma length_le_bytes n z : length (le_bytes n z) = n.
Proof. revert z. induction n as [|n IH]; intros z; [done|]. cbn. by rewrite IH. Qed.

Lemma collect_results_ok {A B E} (f : A → result B E) l ys :
  collect_results f l = Ok ys ↔ Forall2 (λ x y, f x = Ok y) l ys.
Proof.
  revert ys. induction l as [|x l IH]; intros ys; cbn.
  - split; [by intros [= <-]|by inversion 1].
  - split.
    + destruct (f x) as [y|e] eqn:Ex; [|done]. cbn. destruct (collect_results f l) as [zs|e]; [|done].
      intros [= <-]. constructor; [done|]. by apply IH.
    + inversion 1 as [|? y ? zs Hy Hzs]; subst. rewrite Hy. cbn. apply IH in Hzs. by rewrite Hzs.
Qed.

Lemma collect_results_err {A B E} (f : A → result B E) l e :
  collect_results f l = Err e ↔
  ∃ l1 x l2 ys, l = l1 ++ x :: l2 ∧ Forall2 (λ x y, f x = Ok y) l1 ys ∧ f x = Err e.
Proof.
  induction l as [|x l IH]; cbn.
  - split; [done|]. by intros ([|] & x & l2 & ys & [=] & _).
  - destruct (f x) as [y|e'] eqn:Ex; cbn.
    + transitivity (collect_results f l = Err e).
      { destruct (collect_results f l); naive_solver. }
      rewrite IH. split.
      * intros (l1 & z & l2 & ys & -> & Hys & Hz). exists (x :: l1), z, l2, (y :: ys). naive_solver.
      * intros (l1 & z & l2 & ys & Hl & Hys & Hz). destruct l1 as [|x' l1]; simplify_eq/=; [congruence|].
        inversion Hys as [|? ? ? ys']; subst. by exists l1, z, l2, ys'.
    + split.
      * intros [= ->]. by exists [], x, l, [].
      * intros (l1 & z & l2 & ys & Hl & Hys & Hz). destruct l1 as [|x' l1]; simplify_eq/=; [congruence|].
        inversion Hys; subst. congruence.
Qed.

(** ** The snapshot of the transport parameters *)

(** A reader of the entries as they are written: a key byte, then eight bytes. *)
Fixpoint read_snapshot (fuel : nat) (s : str) : option (list (Z * Z)) :=
  match s, fuel with
  | [], _ => Some []
  | _, O => None
  | k :: r, S fuel =>
      if (length r <? 8)%nat then None
      else (λ es, (bZ k, le_value (take 8 r)) :: es) <$> read_snapshot fuel (drop 8 r)
  end.

Lemma read_snapshot_entry fuel k z s :
  (0 ≤ k < 256)%Z →
  read_snapshot (S fuel) (put_u8 k ++ to_le_bytes z ++ s) =
  (λ es, (k, z mod u64_mod)%Z :: es) <$> read_snapshot fuel s.
Proof.
  intros Hk. unfold put_u8, to_le_bytes. cbn [app read_snapshot].
  pose proof (length_le_bytes 8 z) as Hl. rewrite bZ_put, Z.mod_small by done.
  rewrite length_app, Hl. cbn [Nat.ltb Nat.leb Nat.add].
  rewrite take_app_length', drop_app_length' by done. by rewrite le_value_le_bytes.
Qed.

Definition snapshot_entries {Any} (conn : QuinnConnection Any) : list (Z * Z) :=
  match max_datagram_size conn with Some z => [(32, z mod u64_mod)%Z] | None => [] end ++
  [(33, datagram_send_buffer_space conn mod u64_mod); (34, rtt_micros conn mod u64_mod)]%Z.

(** The snapshot of the QUIC transport parameters is always present, has 18
    bytes, or 27 with a datagram size, and reads back as exactly the values it
    was made of, taken modulo 2^64 as the casts of the code do. *)
Theorem transport_snapshot_round_trip {Any} (conn : QuinnConnection Any) :
  ∃ buf, build_transport_params_snapshot conn = Some buf ∧
    length buf = match max_datagram_size conn with Some _ => 27 | None => 18 end ∧
    read_snapshot 3 buf = Some (snapshot_entries conn).
Proof.
  unfold build_transport_params_snapshot, snapshot_entries.
  assert (Hlen : ∀ z, length (to_le_bytes z) = 8%nat) by (intros; apply length_le_bytes).
  destruct (max_datagram_size conn) as [m|].
  - eexists. split; [reflexivity|]. split.
    { change (put_u8 32) with ["032"%byte]. cbn [app length]. rewrite !length_app, !Hlen. done. }
    change (?a :: (?b ++ ?c) ++ ?d) with ([a] ++ (b ++ c) ++ d).
    rewrite <- !app_assoc. rewrite (read_snapshot_entry 2 32) by done.
    rewrite (read_snapshot_entry 1 33) by done.
    rewrite <- (app_nil_r (to_le_bytes (rtt_micros conn))).
    by rewrite (read_snapshot_entry 0 34).
  - eexists. split; [reflexivity|]. split.
    { cbn [app length put_u8]. rewrite !length_app, !Hlen. done. }
    rewrite <- (app_nil_r (to_le_bytes (rtt_micros conn))).
    etransitivity; [apply (read_snapshot_entry 2 33); done|].
    by rewrite (read_snapshot_entry 1 34).
Qed.

(** ** The accept loops *)

Section accept.
Context {Tcp TlsStream IoError : Type} (tls_accept : Tcp → result TlsStream IoError).
Implicit Types i : result (Tcp * SocketAddr) IoError.

(** A connection that fails at the TCP level or in its handshake. *)
Definition fails i : Prop :=
  match i with Ok (t, _) => ∃ e, tls_accept t = Err e | Err _ => True end.

Lemma rustls_accept_skips pre rest :
  Forall fails pre → rustls_accept tls_accept (pre ++ rest) = rustls_accept tls_accept rest.
Proof.
  induction 1 as [|i pre Hi _ IH]; [done|]. destruct i as [[t a]|e]; cbn; [|done].
  destruct Hi as [e He]. by rewrite He.
Qed.

(** The accept loop of the TLS listener returns the first connection whose
    handshake succeeds, with the address of that connection; the failed ones
    before it neither end the loop nor cost it a later connection, and it only
    waits on while all connections failed. *)
Theorem rustls_accept_first_success (incoming : list (result (Tcp * SocketAddr) IoError)) :
  match rustls_accept tls_accept incoming with
  | Some ((s, addr), rest) => ∃ pre t, incoming = pre ++ Ok (t, addr) :: rest ∧
      Forall fails pre ∧ tls_accept t = Ok s
  | None => Forall fails incoming
  end.
Proof.
  induction incoming as [|[[t a]|e] rest IH]; cbn; [constructor| |].
  - destruct (tls_accept t) as [s|e] eqn:Et; [by exists [], t|].
    assert (Hf : fails (Ok (t, a))) by (cbn; eauto).
    destruct (rustls_accept tls_accept rest) as [[[s addr] rest']|]; [|by constructor].
    destruct IH as (pre & t' & -> & Hpre & Ht'). exists (Ok (t, a) :: pre), t'. by repeat constructor.
  - destruct (rustls_accept tls_accept rest) as [[[s addr] rest']|]; [|by constructor].
    destruct IH as (pre & t' & -> & Hpre & Ht'). exists (Err e :: pre), t'. by repeat constructor.
Qed.

End accept.

Section h3_loop.
Context {PV CS Any ConnectionError : Type} (dh : Any → option HandshakeData) (dc : Any → option (list str)).
Implicit Types incoming : list (option (result (QuinnConnection Any) ConnectionError)).
#[local] Abbreviation serve := (h3_server_loop (PV := PV) (CS := CS) dh dc).

Lemma h3_loop_app (conns : list (QuinnConnection Any)) incoming :
  serve (map (λ c, Some (Ok c)) conns ++ incoming) =
  map (λ c, (c, from_quinn_connection dh dc c)) conns ++ serve incoming.
Proof. induction conns as [|c conns IH]; [done|]. cbn. by rewrite IH. Qed.

(** One failed QUIC handshake ends the server loop of the example for good:
    [accept] answers [None] to it just as to a closed endpoint, so that none of
    the later connections is served. *)
Theorem h3_failed_handshake_ends_server (conns : list (QuinnConnection Any)) e incoming :
  serve (map (λ c, Some (Ok c)) conns ++ Some (Err e) :: incoming) =
  map (λ c, (c, from_quinn_connection dh dc c)) conns.
Proof. rewrite h3_loop_app. cbn. by rewrite app_nil_r. Qed.

End h3_loop.

(** [parse_peer_certs] returns one certificate per certificate of the chain, in
    order, none without a chain, and fails exactly when one of them is not
    readable, with the error of the first such one. *)
Theorem parse_peer_certs_spec {PV CS Cert Error} (try_from : str → result Cert Error)
  (t : TlsSessionInfo PV CS) :
  let chain := default [] (peer_certs t) in
  match parse_peer_certs try_from t with
  | Ok cs => Forall2 (λ x y, try_from x = Ok y) chain cs
  | Err e => ∃ l1 x l2 ys, chain = l1 ++ x :: l2 ∧ Forall2 (λ x y, try_from x = Ok y) l1 ys ∧ try_from x = Err e
  end.
Proof.
  unfold parse_peer_certs. destruct (peer_certs t) as [certs|]; cbn; [|constructor].
  destruct (collect_results try_from certs) as [cs|e] eqn:E;
    [by apply collect_results_ok|by apply collect_results_err].
Qed.

(** ** From the listeners to the portal *)

Section arrivals.
Context {PV CS Any : Type} (dh : Any → option HandshakeData) (dc : Any → option (list str)).

(** How a request reaches the handlers: plainly, with either type of connection
    information; through [RustlsListener]; through [CrankerTlsAcceptor], whose
    stream may not know its peer any more; or over QUIC. *)
Inductive Arrival :=
| OverTcp (addr : SocketAddr)
| OverTcpCranker (addr : SocketAddr)
| OverRustls (addr : SocketAddr) (session : ServerConnection PV CS)
| OverAcceptor (addr : SocketAddr) (peer : option SocketAddr) (session : ServerConnection PV CS)
| OverQuic (conn : QuinnConnection Any).

#[local] Instance peer_of_option : MaybePeerAddr (option SocketAddr) := λ p, p.

(** The extensions axum and the code of the crate give the request. *)
Definition extensions_of (a : Arrival) : Extensions PV CS :=
  match a with
  | OverTcp addr => MkExt None None (Some addr)
  | OverTcpCranker addr => MkExt (Some (connect_info_tcp addr)) None None
  | OverRustls addr session => MkExt (Some (connect_info_rustls addr session)) None None
  | OverAcceptor addr peer session =>
      let accepted : result ((option SocketAddr * ServerConnection PV CS) *
                             TlsInfoService PV CS (Extensions PV CS → () → Extensions PV CS)) () :=
        cranker_tls_accept (λ stream svc, Ok ((stream, session), svc)) peer (λ e _, e) in
      match accepted with
      | Ok (_, svc) => tls_info_call svc (MkExt None None (Some addr)) ()
      | Err _ => no_ext
      end
  | OverQuic conn => insert_cranker (from_quinn_connection dh dc conn) no_ext
  end.

Definition encrypted (a : Arrival) : bool :=
  match a with OverTcp _ | OverTcpCranker _ => false | _ => true end.

Definition peer_of (a : Arrival) : SocketAddr :=
  match a with
  | OverTcp addr | OverTcpCranker addr | OverRustls addr _ => addr
  | OverAcceptor _ peer _ => default unspecified_addr peer
  | OverQuic conn => remote_address conn
  end.

Context {HM : Type} `{HttpLib HM} (local_ip : str) (ip_to_string : IpAddr → str).

(** However a connection reached the router, the portal takes it as encrypted
    exactly when it came in over TLS or QUIC and sees the address of its peer, so
    that the [Forwarded] header for the target says [proto=https] for every
    encrypted connection, the scheme of the request for the others, and names
    that peer; only a TLS stream that lost its peer counts as 0.0.0.0. *)
Theorem portal_sees_connection (a : Arrival) (cli_hdr : HM) (uri : Uri) :
  let e := extensions_of a in
  portal_is_tls e = encrypted a ∧ portal_addr e = peer_of a ∧
  let fh := create_forwarded_header_to_tgt local_ip ip_to_string cli_hdr (portal_addr e) uri (portal_is_tls e) in
  fh_proto fh = Some (if encrypted a then lit "https" else default (lit "http") (uri_scheme uri)) ∧
  fh_for fh = Some (ip_to_string (addr_ip (peer_of a))).
Proof. by destruct a. Qed.

End arrivals.
