(* ===== verification/FlowControl.v ===== *)
(** * Flow control of a request (router_socket_v3.rs, [RequestContext])

    The router counts the bytes it sent to the connector that are not yet
    acknowledged.  Above the high water mark the sender task stops reading from
    the client: it queues a callback and waits for it; an acknowledgement that
    brings the count under the low water mark makes the stream writable again
    and releases the queued callbacks.

    The first part models the operations as the functions they are when they
    run alone.  The second part, [Interleaved], runs the sender task and the
    task that receives window updates concurrently, one atomic operation of the
    source per step, and shows that the sender is never left waiting once the
    connector has acknowledged what it was sent. *)

From S2P Require Import Prelude RustStr Exceptions.

Definition WATER_MARK_HIGH : Z := 64 * 1024.
Definition WATER_MARK_LOW : Z := 16 * 1024.

(** The flow control fields of a [RequestContext].  [cbs] is the content of the
    channel [should_keep_read_from_cli], a callback is named by a number, and
    [released] holds the callbacks whose flag is set and whose [Notify] was
    notified. *)
Record Flow := MkFlow {
  wss_tgt_connector_ack_bytes : Z;
  wss_rtr_to_tgt_pending_ack_bytes : Z;
  is_wss_writable : bool;
  is_wss_writing : bool;
  cbs : list (result nat CrankerRouterException);
  cbs_closed : bool;
  released : gset nat
}.

Definition flow_new : Flow := MkFlow 0 0 true false [] false ∅.

Definition set_pending (s : Flow) (z : Z) : Flow :=
  MkFlow (wss_tgt_connector_ack_bytes s) z (is_wss_writable s) (is_wss_writing s) (cbs s)
    (cbs_closed s) (released s).
Definition set_acked (s : Flow) (z : Z) : Flow :=
  MkFlow z (wss_rtr_to_tgt_pending_ack_bytes s) (is_wss_writable s) (is_wss_writing s) (cbs s)
    (cbs_closed s) (released s).
Definition set_writable (s : Flow) (b : bool) : Flow :=
  MkFlow (wss_tgt_connector_ack_bytes s) (wss_rtr_to_tgt_pending_ack_bytes s) b
    (is_wss_writing s) (cbs s) (cbs_closed s) (released s).
Definition set_writing (s : Flow) (b : bool) : Flow :=
  MkFlow (wss_tgt_connector_ack_bytes s) (wss_rtr_to_tgt_pending_ack_bytes s) (is_wss_writable s)
    b (cbs s) (cbs_closed s) (released s).
Definition set_cbs (s : Flow) (q : list (result nat CrankerRouterException)) : Flow :=
  MkFlow (wss_tgt_connector_ack_bytes s) (wss_rtr_to_tgt_pending_ack_bytes s) (is_wss_writable s)
    (is_wss_writing s) q (cbs_closed s) (released s).
Definition release (s : Flow) (k : nat) : Flow :=
  MkFlow (wss_tgt_connector_ack_bytes s) (wss_rtr_to_tgt_pending_ack_bytes s) (is_wss_writable s)
    (is_wss_writing s) (cbs s) (cbs_closed s) ({[k]} ∪ released s).

(** ** The operations, run alone *)

Definition inc_rtr_to_tgt_pending_ack_bytes (s : Flow) (pending : Z) : Flow :=
  let s := set_pending s (wrap32 (wss_rtr_to_tgt_pending_ack_bytes s + pending)) in
  if (WATER_MARK_HIGH <? wss_rtr_to_tgt_pending_ack_bytes s)%Z
  then if is_wss_writable s then set_writable s false else s
  else s.

(** The condition of [write_it_maybe]: [is_terminated] of a receiver is closed
    and empty. *)
Definition may_write (s : Flow) : bool :=
  is_wss_writable s &&
  (negb (bool_decide (cbs s = [])) && negb (cbs_closed s) &&
   negb (cbs_closed s && bool_decide (cbs s = []))).

(** The [while] loop; every turn takes one element of the channel. *)
Fixpoint drain (q : list (result nat CrankerRouterException)) (s : Flow) : Flow :=
  match q with
  | [] => set_cbs s []
  | r :: q' =>
      if may_write (set_cbs s q) then
        match r with
        | Ok cb => drain q' (release (set_cbs s q') cb)
        | Err _ => set_cbs s q'
        end
      else set_cbs s q
  end.

(** Every call of the recursion took an element, so the length of the channel
    plus one is enough fuel. *)
Fixpoint write_it_maybe_go (fuel : nat) (s : Flow) : Flow :=
  match fuel with
  | O => s
  | S fuel =>
      if may_write s then
        if is_wss_writing s then s
        else write_it_maybe_go fuel
               (set_writing (drain (cbs s) (set_writing s true)) false)
      else s
  end.

Definition write_it_maybe (s : Flow) : Flow := write_it_maybe_go (S (length (cbs s))) s.

Definition target_connector_ack_bytes (s : Flow) (ack : Z) : Flow :=
  let s := set_acked s (wrap32 (wss_tgt_connector_ack_bytes s + ack)) in
  let s := set_pending s (wrap32 (wss_rtr_to_tgt_pending_ack_bytes s + - ack)) in
  if (wss_rtr_to_tgt_pending_ack_bytes s <? WATER_MARK_LOW)%Z
  then if is_wss_writable s then s else write_it_maybe (set_writable s true)
  else s.

(** ** The interleaved model *)

Module Interleaved.

(** Where a task is inside [write_it_maybe]: before the first load of
    [is_wss_writable], before the first test of the channel, before the
    exchange of [is_wss_writing], the same two tests in the loop, before
    [try_recv], before the release of a callback, before the final store. *)
Inductive WPc := W0 | W1 | W2 | W3 | W4 | W5 | W6 (k : nat) | W7.

Definition wstep (pc : WPc) (s : Flow) : Flow * option WPc :=
  match pc with
  | W0 => (s, if is_wss_writable s then Some W1 else None)
  | W1 => (s, if may_write (set_writable s true) then Some W2 else None)
  | W2 => if is_wss_writing s then (s, None) else (set_writing s true, Some W3)
  | W3 => (s, Some (if is_wss_writable s then W4 else W7))
  | W4 => (s, Some (if may_write (set_writable s true) then W5 else W7))
  | W5 => match cbs s with
          | [] => (s, Some W3)
          | Ok k :: q => (set_cbs s q, Some (W6 k))
          | Err _ :: q => (set_cbs s q, Some W7)
          end
  | W6 k => (release s k, Some W3)
  | W7 => (set_writing s false, Some W0)
  end.

(** The sender task of [split_part_one_send_or_err]: for a header frame
    ([hdr = true]) or a body chunk of [n] bytes, the addition, the load and the
    exchange of [inc_rtr_to_tgt_pending_ack_bytes], then the send; after a body
    chunk the load of [is_wss_writable], the push of a callback,
    [write_it_maybe] and the wait. *)
Inductive APc :=
| AIdle
| AAdd (hdr : bool) (n : Z)
| ALoad (hdr : bool) (n : Z)
| ACas (hdr : bool) (n : Z)
| ASend (hdr : bool) (n : Z)
| ACheck
| APush
| AW (k : nat) (w : WPc)
| AWait (k : nat).

(** The receiving task: [handle_window_update] with an acknowledgement of [m]
    bytes, the two additions, the load, the exchange, [write_it_maybe]. *)
Inductive BPc :=
| BIdle
| BAck (m : Z)
| BAdd (m : Z)
| BLoad
| BCas
| BW (w : WPc).

(** [unacked] is the number of bytes sent that the connector has not
    acknowledged; [next_cb] the name of the next callback. *)
Record State := MkState {
  flow : Flow;
  apc : APc;
  bpc : BPc;
  unacked : Z;
  next_cb : nat
}.

Definition init : State := MkState flow_new AIdle BIdle 0 0.

Inductive Label :=
| LChunk (hdr : bool) (n : Z)
| LA
| LAck (m : Z)
| LB.

Definition astep (st : State) : option State :=
  let 'MkState s a b u k := st in
  match a with
  | AIdle => None
  | AAdd h n =>
      Some (MkState (set_pending s (wrap32 (wss_rtr_to_tgt_pending_ack_bytes s + wrap32 n)))
                    (ALoad h n) b u k)
  | ALoad h n =>
      Some (MkState s (if (WATER_MARK_HIGH <? wss_rtr_to_tgt_pending_ack_bytes s)%Z
                       then ACas h n else ASend h n) b u k)
  | ACas h n => Some (MkState (set_writable s false) (ASend h n) b u k)
  | ASend h n => Some (MkState s (if h then AIdle else ACheck) b (u + n) k)
  | ACheck => Some (MkState s (if is_wss_writable s then AIdle else APush) b u k)
  | APush => Some (MkState (set_cbs s (cbs s ++ [Ok k])) (AW k W0) b u (S k))
  | AW c w =>
      let '(s', w') := wstep w s in
      Some (MkState s' (match w' with Some w' => AW c w' | None => AWait c end) b u k)
  | AWait c => if bool_decide (c ∈ released s) then Some (MkState s AIdle b u k) else None
  end.

Definition bstep (st : State) : option State :=
  let 'MkState s a b u k := st in
  match b with
  | BIdle => None
  | BAck m =>
      Some (MkState (set_acked s (wrap32 (wss_tgt_connector_ack_bytes s + m))) a (BAdd m) u k)
  | BAdd m =>
      Some (MkState (set_pending s (wrap32 (wss_rtr_to_tgt_pending_ack_bytes s + - m))) a BLoad u k)
  | BLoad =>
      Some (MkState s a (if (wss_rtr_to_tgt_pending_ack_bytes s <? WATER_MARK_LOW)%Z
                         then BCas else BIdle) u k)
  | BCas =>
      Some (if is_wss_writable s then MkState s a BIdle u k
            else MkState (set_writable s true) a (BW W0) u k)
  | BW w =>
      let '(s', w') := wstep w s in
      Some (MkState s' a (match w' with Some w' => BW w' | None => BIdle end) u k)
  end.

(** One step of the system; chunks have at least [min_chunk] bytes, and the
    connector acknowledges only bytes it was sent. *)
Definition step (min_chunk : Z) (st : State) (l : Label) : option State :=
  match l with
  | LChunk h n =>
      match apc st with
      | AIdle => if (min_chunk <=? n)%Z
                 then Some (MkState (flow st) (AAdd h n) (bpc st) (unacked st) (next_cb st))
                 else None
      | _ => None
      end
  | LA => astep st
  | LAck m =>
      match bpc st with
      | BIdle => if (0 <? m)%Z && (m <=? unacked st)%Z
                 then Some (MkState (flow st) (apc st) (BAck m) (unacked st - m) (next_cb st))
                 else None
      | _ => None
      end
  | LB => bstep st
  end.

Inductive reachable (min_chunk : Z) : State → Prop :=
| reach_init : reachable min_chunk init
| reach_step st l st' : reachable min_chunk st → step min_chunk st l = Some st' →
    reachable min_chunk st'.

Fixpoint run (min_chunk : Z) (st : State) (ls : list Label) : option State :=
  match ls with
  | [] => Some st
  | l :: r => st' ← step min_chunk st l; run min_chunk st' r
  end.

(** Both tasks are at rest, the sender waiting for a callback nobody released,
    and nothing is left to be acknowledged. *)
Definition stuck (st : State) : Prop :=
  (∃ k, apc st = AWait k ∧ k ∉ released (flow st)) ∧ bpc st = BIdle ∧ unacked st = 0%Z.

End Interleaved.

(** ** Lemmas on the operations run alone *)

Definition ok_cbs (q : list (result nat CrankerRouterException)) : list nat := omap result_ok q.

(** What the loop does to a writable context: it stops at the first error or at
    the end of the channel. *)
Lemma drain_spec q s :
  is_wss_writable s = true → cbs_closed s = false →
  ∃ done_ rest, ok_cbs q = done_ ++ ok_cbs rest ∧ length rest ≤ length q ∧
    (q ≠ [] → length rest < length q) ∧
    drain q s = MkFlow (wss_tgt_connector_ack_bytes s) (wss_rtr_to_tgt_pending_ack_bytes s) true
      (is_wss_writing s) rest false (list_to_set done_ ∪ released s).
Proof.
  revert s. induction q as [|r q IH]; intros s Hw Hc.
  - exists [], []. split_and!; try done. destruct s; simpl in *; subst. unfold set_cbs. simpl.
    f_equal. set_solver.
  - cbn [drain]. assert (Hm : may_write (set_cbs s (r :: q)) = true).
    { unfold may_write. simpl. by rewrite Hw, Hc. }
    rewrite Hm. destruct r as [k|e].
    + destruct (IH (release (set_cbs s q) k)) as (d & rest & Hok & Hle & _ & ->); [done..|].
      exists (k :: d), rest. split_and!; [by simpl; rewrite Hok|simpl; lia|simpl; lia|].
      simpl. f_equal. set_solver.
    + exists [], q. split_and!; [done|simpl; lia|simpl; lia|].
      destruct s; simpl in *; subst. unfold set_cbs. simpl. f_equal. set_solver.
Qed.

Lemma may_write_true s :
  may_write s = true ↔ is_wss_writable s = true ∧ cbs s ≠ [] ∧ cbs_closed s = false.
Proof.
  unfold may_write. destruct (is_wss_writable s), (cbs_closed s), (cbs s); simpl; naive_solver.
Qed.

Lemma write_it_maybe_go_spec fuel s :
  length (cbs s) < fuel → is_wss_writable s = true → cbs_closed s = false →
  is_wss_writing s = false →
  write_it_maybe_go fuel s =
  MkFlow (wss_tgt_connector_ack_bytes s) (wss_rtr_to_tgt_pending_ack_bytes s) true false [] false
    (list_to_set (ok_cbs (cbs s)) ∪ released s).
Proof.
  revert s. induction fuel as [|fuel IH]; intros s Hf Hw Hc Hwr; [lia|]. cbn [write_it_maybe_go].
  destruct (may_write s) eqn:Em.
  - apply may_write_true in Em as (_ & Hne & _). rewrite Hwr.
    destruct (drain_spec (cbs s) (set_writing s true)) as (d & rest & Hok & _ & Hlt & ->); [done..|].
    rewrite IH; try done; [|simpl; specialize (Hlt Hne); lia]. simpl. f_equal.
    rewrite Hok, list_to_set_app_L. set_solver.
  - destruct (cbs s) eqn:Eq.
    + destruct s; simpl in *; subst. f_equal. set_solver.
    + exfalso. apply not_true_iff_false in Em. apply Em, may_write_true. rewrite Eq. done.
Qed.

(** Run alone, [write_it_maybe] terminates with every queued callback
    released and the channel empty when the stream is writable, nobody else is
    writing and the channel is open; in every other case it changes nothing. *)
Theorem write_it_maybe_spec (s : Flow) :
  write_it_maybe s =
  if may_write s && negb (is_wss_writing s)
  then MkFlow (wss_tgt_connector_ack_bytes s) (wss_rtr_to_tgt_pending_ack_bytes s) true false []
         false (list_to_set (omap result_ok (cbs s)) ∪ released s)
  else s.
Proof.
  unfold write_it_maybe. destruct (may_write s) eqn:Em.
  - pose proof Em as (Hw & Hne & Hc)%may_write_true. destruct (is_wss_writing s) eqn:Ew.
    + cbn [write_it_maybe_go]. by rewrite Em, Ew.
    + simpl andb. cbv iota. rewrite write_it_maybe_go_spec by (done || lia). done.
  - cbn [write_it_maybe_go]. by rewrite Em.
Qed.

(** ** Water marks as an abstract hysteresis *)

Inductive FlowOp := Sent (n : Z) | Acked (n : Z).

Definition flow_op (s : Flow) (o : FlowOp) : Flow :=
  match o with
  | Sent n => inc_rtr_to_tgt_pending_ack_bytes s n
  | Acked n => target_connector_ack_bytes s n
  end.

(** The abstract counter and whether reading from the client is allowed. *)
Definition hysteresis (p : Z * bool) (o : FlowOp) : Z * bool :=
  match o with
  | Sent n => let c := wrap32 (p.1 + n) in (c, if (WATER_MARK_HIGH <? c)%Z then false else p.2)
  | Acked n => let c := wrap32 (p.1 - n) in (c, if (c <? WATER_MARK_LOW)%Z then true else p.2)
  end.

Definition flow_abs (s : Flow) : Z * bool :=
  (wss_rtr_to_tgt_pending_ack_bytes s, is_wss_writable s).

Lemma write_it_maybe_abs s : flow_abs (write_it_maybe s) = flow_abs s.
Proof.
  unfold write_it_maybe. generalize (S (length (cbs s))) as fuel. intros fuel. revert s.
  induction fuel as [|fuel IH]; intros s; [done|]. cbn [write_it_maybe_go].
  destruct (may_write s) eqn:Em; [|done]. destruct (is_wss_writing s); [done|].
  apply may_write_true in Em as (Hw & _ & Hc). rewrite IH.
  destruct (drain_spec (cbs s) (set_writing s true)) as (d & rest & _ & _ & _ & ->); [done..|].
  unfold flow_abs. simpl. by rewrite Hw.
Qed.

Lemma flow_op_abs s o : flow_abs (flow_op s o) = hysteresis (flow_abs s) o.
Proof.
  destruct o as [n|n]; unfold flow_abs; simpl.
  - unfold inc_rtr_to_tgt_pending_ack_bytes. simpl. destruct (WATER_MARK_HIGH <? _)%Z; [|done].
    by destruct (is_wss_writable s) eqn:E; simpl; rewrite ?E.
  - unfold target_connector_ack_bytes. simpl. rewrite Z.add_opp_r.
    destruct (_ <? WATER_MARK_LOW)%Z; [|done].
    destruct (is_wss_writable s) eqn:E; [by simpl; rewrite E|].
    pose proof (write_it_maybe_abs (set_writable (set_pending (set_acked s
      (wrap32 (wss_tgt_connector_ack_bytes s + n)))
      (wrap32 (wss_rtr_to_tgt_pending_ack_bytes s - n))) true)) as Hw.
    exact Hw.
Qed.

(** Over any sequence of sends and acknowledgements the pending counter is
    the wrapped 32-bit difference, and reading from the client is switched off
    when a send leaves more than 64 KiB pending and on again only when an
    acknowledgement leaves less than 16 KiB: the two water marks implement the
    hysteresis specification. *)
Theorem flow_refines_hysteresis (s : Flow) (ops : list FlowOp) :
  flow_abs (foldl flow_op s ops) = foldl hysteresis (flow_abs s) ops.
Proof.
  revert s. induction ops as [|o ops IH]; intros s; [done|]. simpl. by rewrite IH, flow_op_abs.
Qed.

(** ** The invariant of the interleaved model *)

Section interleaved.
Import Interleaved.

Definition pend_a (a : APc) : Z :=
  match a with ALoad _ n | ACas _ n | ASend _ n => n | _ => 0 end.
Definition pend_b (b : BPc) : Z := match b with BAck m | BAdd m => m | _ => 0 end.

Definition sending (a : APc) : bool :=
  match a with ALoad _ _ | ACas _ _ | ASend _ _ => true | _ => false end.
Definition acking (b : BPc) : bool :=
  match b with BAck _ | BAdd _ | BLoad | BCas => true | _ => false end.

Definition chunk_pos (a : APc) : Prop :=
  match a with AAdd _ n | ALoad _ n | ACas _ n | ASend _ n => (0 < n)%Z | _ => True end.
Definition ack_pos (b : BPc) : Prop := match b with BAck m | BAdd m => (0 < m)%Z | _ => True end.

(** Where the two tasks are inside [write_it_maybe]. *)
Definition a_w (a : APc) : option WPc := match a with AW _ w => Some w | _ => None end.
Definition b_w (b : BPc) : option WPc := match b with BW w => Some w | _ => None end.

(** The task owns [is_wss_writing]. *)
Definition holder (w : option WPc) : bool :=
  match w with Some (W3 | W4 | W5 | W6 _ | W7) => true | _ => false end.

Definition waits_for (a : APc) : option nat :=
  match a with AW c _ | AWait c => Some c | _ => None end.

Record inv (st : State) : Prop := {
  inv_pending : wss_rtr_to_tgt_pending_ack_bytes (flow st) =
                wrap32 (unacked st + pend_a (apc st) + pend_b (bpc st));
  inv_unacked : (0 ≤ unacked st)%Z;
  inv_chunk : chunk_pos (apc st);
  inv_ack : ack_pos (bpc st);
  inv_open : cbs_closed (flow st) = false;
  inv_blocked : is_wss_writable (flow st) = false →
                (0 < unacked st)%Z ∨ sending (apc st) = true ∨ acking (bpc st) = true;
  inv_queue : is_wss_writable (flow st) = true → cbs (flow st) ≠ [] →
              a_w (apc st) ≠ None ∨ b_w (bpc st) ≠ None;
  inv_writing : is_wss_writing (flow st) = true →
                holder (a_w (apc st)) = true ∨ holder (b_w (bpc st)) = true;
  inv_cb c : waits_for (apc st) = Some c →
             c ∈ released (flow st) ∨ Ok c ∈ cbs (flow st) ∨
             a_w (apc st) = Some (W6 c) ∨ b_w (bpc st) = Some (W6 c)
}.

Lemma init_inv : inv init.
Proof. by split. Qed.

(** What one step of [write_it_maybe] guarantees. *)
Record wstep_ok (w : WPc) (s s' : Flow) (w' : option WPc) : Prop := {
  wok_pending : wss_rtr_to_tgt_pending_ack_bytes s' = wss_rtr_to_tgt_pending_ack_bytes s;
  wok_writable : is_wss_writable s' = is_wss_writable s;
  wok_open : cbs_closed s' = cbs_closed s;
  wok_released : released s ⊆ released s';
  wok_take : is_wss_writing s' = true → is_wss_writing s = true ∨ holder w' = true;
  wok_keep : holder (Some w) = true → is_wss_writing s' = false ∨ holder w' = true;
  wok_leave : w' = None → is_wss_writable s = true → cbs s' ≠ [] →
              is_wss_writing s' = true ∧ holder (Some w) = false;
  wok_nonempty : cbs s' ≠ [] → cbs s ≠ [];
  wok_cb c : Ok c ∈ cbs s → Ok c ∈ cbs s' ∨ w' = Some (W6 c);
  wok_release c : w = W6 c → c ∈ released s'
}.

Ltac wok := split; cbn; intros; try reflexivity; try discriminate; try congruence; try tauto.

Lemma wstep_sound w s s' w' :
  cbs_closed s = false → wstep w s = (s', w') → wstep_ok w s s' w'.
Proof.
  intros Hc Hs. destruct w; cbn [wstep] in Hs.
  - destruct (is_wss_writable s) eqn:E; simplify_eq; wok.
  - destruct (may_write (set_writable s true)) eqn:E; simplify_eq; wok.
    apply not_true_iff_false in E. exfalso. apply E, may_write_true. done.
  - destruct (is_wss_writing s) eqn:E; simplify_eq; wok.
  - destruct (is_wss_writable s) eqn:E; simplify_eq; wok.
  - destruct (may_write (set_writable s true)) eqn:E; simplify_eq; wok.
  - destruct (cbs s) as [|[j|e] q] eqn:E; simplify_eq; wok.
    + rewrite E in *. match goal with H : Ok _ ∈ _ |- _ => apply elem_of_cons in H as [[= ->]|?] end; auto.
    + rewrite E in *. match goal with H : Ok _ ∈ _ |- _ => apply elem_of_cons in H as [?|?] end; [done|auto].
  - simplify_eq. wok; set_solver.
  - simplify_eq. wok.
Qed.

Lemma wstep_a st c w s' w' :
  inv st → apc st = AW c w → wstep w (flow st) = (s', w') →
  inv (MkState s' (match w' with Some w' => AW c w' | None => AWait c end) (bpc st) (unacked st)
         (next_cb st)).
Proof.
  intros [Hp Hu Hch Hak Hop Hb Hq Hwr Hcb] Ha Hs. destruct st as [s a b u k]; simpl in *; subst a.
  destruct (wstep_sound _ _ _ _ Hop Hs) as [E1 E2 E3 E4 E5 E6 E7 E8 E9 E10].
  set (a' := match w' with Some w'' => AW c w'' | None => AWait c end).
  assert (Hpa : pend_a a' = 0%Z) by (by destruct w'). assert (Hsa : sending a' = false) by (by destruct w').
  assert (Haw : a_w a' = w') by (by destruct w'). assert (Hwf : waits_for a' = Some c) by (by destruct w').
  split; simpl.
  - by rewrite E1, Hp, Hpa.
  - done.
  - by destruct w'.
  - done.
  - by rewrite E3.
  - rewrite E2, Hsa. exact Hb.
  - rewrite E2, Haw. intros Hw Hne. destruct w' as [w'|]; [by left|]. right.
    destruct (E7 eq_refl Hw Hne) as [Hwr' Hnh]. destruct (E5 Hwr') as [Hwrs|]; [|done].
    destruct (Hwr Hwrs) as [Hh|Hh]; [|by destruct b].
    exfalso. change (holder (Some w) = true) in Hh. congruence.
  - rewrite Haw. intros Hwr'. destruct (E5 Hwr') as [Hwrs|]; [|by left].
    destruct (Hwr Hwrs) as [Hh|Hh]; [|by right]. destruct (E6 Hh); [congruence|by left].
  - rewrite Hwf, Haw. intros ? [= <-]. destruct (Hcb c eq_refl) as [Hr|[Hin|[Hw6|Hb6]]].
    + left. by apply E4.
    + destruct (E9 _ Hin); auto.
    + left. apply E10. by injection Hw6.
    + auto.
Qed.

Lemma wstep_b st w s' w' :
  inv st → bpc st = BW w → wstep w (flow st) = (s', w') →
  inv (MkState s' (apc st) (match w' with Some w' => BW w' | None => BIdle end) (unacked st)
         (next_cb st)).
Proof.
  intros [Hp Hu Hch Hak Hop Hb Hq Hwr Hcb] Ha Hs. destruct st as [s a b u k]; simpl in *; subst b.
  destruct (wstep_sound _ _ _ _ Hop Hs) as [E1 E2 E3 E4 E5 E6 E7 E8 E9 E10].
  set (b' := match w' with Some w'' => BW w'' | None => BIdle end).
  assert (Hpb : pend_b b' = 0%Z) by (by destruct w'). assert (Hkb : acking b' = false) by (by destruct w').
  assert (Hbw : b_w b' = w') by (by destruct w').
  split; simpl.
  - by rewrite E1, Hp, Hpb.
  - done.
  - done.
  - by destruct w'.
  - by rewrite E3.
  - rewrite E2, Hkb. exact Hb.
  - rewrite E2, Hbw. intros Hw Hne. destruct w' as [w'|]; [by right|]. left.
    destruct (E7 eq_refl Hw Hne) as [Hwr' Hnh]. destruct (E5 Hwr') as [Hwrs|]; [|done].
    destruct (Hwr Hwrs) as [Hh|Hh]; [by destruct a|].
    exfalso. change (holder (Some w) = true) in Hh. congruence.
  - rewrite Hbw. intros Hwr'. destruct (E5 Hwr') as [Hwrs|]; [|by right].
    destruct (Hwr Hwrs) as [Hh|Hh]; [by left|]. destruct (E6 Hh); [congruence|by right].
  - rewrite Hbw. intros c Hwf. destruct (Hcb c Hwf) as [Hr|[Hin|[Hw6|Hb6]]].
    + left. by apply E4.
    + destruct (E9 _ Hin); auto.
    + auto.
    + left. apply E10. by injection Hb6.
Qed.

Lemma astep_inv st st' : inv st → astep st = Some st' → inv st'.
Proof.
  intros Hi Hs. pose proof Hi as [Hp Hu Hch Hak Hop Hb Hq Hwr Hcb].
  destruct st as [s a b u k]. destruct a as [|h n|h n|h n|h n| | |c w|c]; cbn [astep] in Hs; simpl in *.
  - done.
  - simplify_eq. split; simpl; auto.
    rewrite Hp, wrap32_add_l, wrap32_add_r. f_equal. lia.
  - destruct (_ <? _)%Z; simplify_eq; split; simpl in *; auto.
  - simplify_eq. split; simpl in *; auto; done.
  - simplify_eq. destruct h; split; simpl in *; auto; try lia; rewrite ?Hp; try (f_equal; lia); done.
  - destruct (is_wss_writable s) eqn:E; simplify_eq; split; simpl in *; auto; rewrite ?E; auto; done.
  - simplify_eq. split; simpl in *; auto.
    intros c Hc. injection Hc as Hc. rewrite <- Hc. right. left. apply elem_of_app. right. by apply list_elem_of_singleton.
  - destruct (wstep w s) as [s' w'] eqn:E. simplify_eq. exact (wstep_a _ _ _ _ _ Hi eq_refl E).
  - case_bool_decide; simplify_eq. split; simpl in *; auto; done.
Qed.

Lemma bstep_inv st st' : inv st → bstep st = Some st' → inv st'.
Proof.
  intros Hi Hs. pose proof Hi as [Hp Hu Hch Hak Hop Hb Hq Hwr Hcb].
  destruct st as [s a b u k]. destruct b as [|m|m| | |w]; cbn [bstep] in Hs; simpl in *.
  - done.
  - simplify_eq. split; simpl in *; auto.
  - simplify_eq. split; simpl in *; auto. rewrite Hp, wrap32_add_l. f_equal. lia.
  - destruct (_ <? _)%Z eqn:E; simplify_eq; split; simpl in *; auto.
    intros _. apply Z.ltb_ge in E. destruct (sending a) eqn:Esa; [auto|]. left.
    assert (Hpa : pend_a a = 0%Z) by (by destruct a). rewrite Hp, Hpa in E.
    destruct (decide (u = 0)%Z) as [->|]; [|lia]. by vm_compute in E.
  - destruct (is_wss_writable s) eqn:E; simplify_eq; split; simpl in *; rewrite ?E; auto; try done.
    intros c Hc. destruct (Hcb c Hc) as [?|[?|[?|?]]]; auto; done.
  - destruct (wstep w s) as [s' w'] eqn:E. simplify_eq. exact (wstep_b _ _ _ _ Hi eq_refl E).
Qed.

Lemma step_inv st l st' : inv st → step 1 st l = Some st' → inv st'.
Proof.
  intros Hi Hs. destruct l as [h n| |m|]; cbn [step] in Hs.
  - destruct (apc st) eqn:Ea; try done. destruct (1 <=? n)%Z eqn:En; simplify_eq. apply Z.leb_le in En.
    destruct Hi as [Hp Hu Hch Hak Hop Hb Hq Hwr Hcb]. rewrite Ea in *. split; simpl in *; auto; lia.
  - by eapply astep_inv.
  - destruct (bpc st) eqn:Ea; try done.
    destruct ((0 <? m)%Z && (m <=? unacked st)%Z) eqn:En; simplify_eq. bool_to_prop.
    destruct Hi as [Hp Hu Hch Hak Hop Hb Hq Hwr Hcb]. rewrite Ea in *. split; simpl in *; auto; try lia.
    rewrite Hp. f_equal. lia.
  - by eapply bstep_inv.
Qed.

Lemma reachable_inv st : reachable 1 st → inv st.
Proof. induction 1; [apply init_inv|by eapply step_inv]. Qed.

(** C3: whatever the interleaving of the sender task with the task that
    receives acknowledgements, as long as every chunk has a positive size and the
    connector acknowledges no more than it was sent, the system never reaches a state
    in which the sender waits for a callback nobody will release although the
    connector has acknowledged every byte: the wake-up is never lost.  An empty chunk
    can lose it ([empty_chunk_loses_wakeup]). *)
Theorem no_lost_wakeup (st : State) : reachable 1 st → ~ stuck st.
Proof.
  intros [Hp Hu Hch Hak Hop Hb Hq Hwr Hcb]%reachable_inv ((k & Ha & Hk) & Hbi & H0).
  rewrite Ha, Hbi, H0 in *. simpl in *.
  destruct (is_wss_writable (flow st)) eqn:Ew.
  - destruct (Hcb k eq_refl) as [?|[Hin|[?|?]]]; try done.
    destruct (Hq eq_refl) as [?|?]; try done. intros Hnil. rewrite Hnil in Hin. set_solver.
  - destruct (Hb eq_refl) as [?|[?|?]]; [lia|done..].
Qed.

(** ** The interleaved model against the functions *)

Definition b_alone : relation State := rtc (λ x y, bstep x = Some y).

Definition at_w (a : APc) (u : Z) (k : nat) (s : Flow) (w : option WPc) : State :=
  MkState s a (match w with Some w => BW w | None => BIdle end) u k.

Lemma b_alone_w a u k s s' w w' rest :
  wstep w s = (s', w') → b_alone (at_w a u k s' w') rest → b_alone (at_w a u k s (Some w)) rest.
Proof.
  intros Hw Hr. eapply rtc_l; [|exact Hr]. simpl. rewrite Hw. by destruct w'.
Qed.

Lemma drain_alone a u k q s :
  cbs s = q → b_alone (at_w a u k s (Some W3)) (at_w a u k (drain q s) (Some W7)).
Proof.
  revert s. induction q as [|r q IH]; intros s Hq; cbn [drain].
  - assert (Hs : set_cbs s [] = s) by (destruct s; simpl in *; by subst). rewrite Hs.
    destruct (is_wss_writable s) eqn:E; (eapply b_alone_w; [by cbn; rewrite E|]); [|apply rtc_refl].
    eapply b_alone_w; [by cbn; unfold may_write; cbn; rewrite Hq|]. apply rtc_refl.
  - assert (Hs : set_cbs s (r :: q) = s) by (destruct s; simpl in *; by subst). rewrite Hs.
    destruct (is_wss_writable s) eqn:E.
    + assert (Hm : may_write (set_writable s true) = may_write s).
      { unfold may_write. cbn. by rewrite E. }
      eapply b_alone_w; [by cbn; rewrite E|]. eapply b_alone_w; [by cbn [wstep]; rewrite Hm|].
      destruct (may_write s); [|apply rtc_refl].
      destruct r as [c|e]; (eapply b_alone_w; [by cbn; rewrite Hq|]); [|apply rtc_refl].
      eapply b_alone_w; [done|]. by apply IH.
    + assert (Hm : may_write s = false) by (unfold may_write; by rewrite E). rewrite Hm.
      eapply b_alone_w; [by cbn; rewrite E|]. apply rtc_refl.
Qed.

Lemma drain_length q s : length (cbs (drain q s)) ≤ length q ∧
  (may_write (set_cbs s q) = true → length (cbs (drain q s)) < length q).
Proof.
  revert s. induction q as [|r q IH]; intros s; cbn [drain].
  - split; [done|]. intros (_ & ? & _)%may_write_true. done.
  - destruct (may_write _) eqn:Em; [|by split; [cbn; lia|]]. destruct r as [c|e].
    + destruct (IH (release (set_cbs s q) c)) as [Hl _]. split; simpl; lia.
    + split; simpl; lia.
Qed.

Lemma write_alone a u k fuel s :
  length (cbs s) < fuel →
  b_alone (at_w a u k s (Some W0)) (at_w a u k (write_it_maybe_go fuel s) None).
Proof.
  revert s. induction fuel as [|fuel IH]; intros s Hf; [lia|]. cbn [write_it_maybe_go].
  destruct (is_wss_writable s) eqn:E.
  2:{ assert (Hm : may_write s = false) by (unfold may_write; by rewrite E). rewrite Hm.
      eapply b_alone_w; [by cbn; rewrite E|]. apply rtc_refl. }
  assert (Hm : may_write (set_writable s true) = may_write s) by (unfold may_write; cbn; by rewrite E).
  eapply b_alone_w; [by cbn; rewrite E|]. eapply b_alone_w; [by cbn [wstep]; rewrite Hm|].
  destruct (may_write s) eqn:Em; [|apply rtc_refl].
  destruct (is_wss_writing s) eqn:Ew; (eapply b_alone_w; [by cbn; rewrite Ew|]); [apply rtc_refl|].
  etransitivity; [by apply drain_alone|]. eapply b_alone_w; [done|]. apply IH.
  destruct (drain_length (cbs s) (set_writing s true)) as [_ Hl]. simpl.
  assert (length (cbs (drain (cbs s) (set_writing s true))) < length (cbs s)); [|lia].
  apply Hl. rewrite <- Em. unfold may_write. done.
Qed.

(** The receiving task, run alone from an acknowledgement of [m] bytes,
    always returns to rest, and the flow state it leaves is the one
    [target_connector_ack_bytes] computes: the step-by-step model refines to
    the function, in particular every call terminates. *)
Theorem ack_alone_refines (s : Flow) (a : APc) (u m : Z) (k : nat) :
  b_alone (MkState s a (BAck m) u k) (MkState (target_connector_ack_bytes s m) a BIdle u k).
Proof.
  eapply rtc_l; [done|]. eapply rtc_l; [done|]. eapply rtc_l; [done|]. cbn [flow].
  unfold target_connector_ack_bytes. cbv zeta.
  set (s' := set_pending _ _). clearbody s'. destruct (_ <? _)%Z; [|apply rtc_refl].
  destruct (is_wss_writable s') eqn:E; (eapply rtc_l; [by cbn [bstep]; rewrite E|]); [apply rtc_refl|].
  apply (write_alone a u k). simpl. lia.
Qed.

Lemma reachable_run m ls st st' :
  reachable m st → run m st ls = Some st' → reachable m st'.
Proof.
  revert st. induction ls as [|l ls IH]; intros st Hr H; cbn in H; [by simplify_eq|].
  destruct (step m st l) as [st1|] eqn:E; [|done]. simpl in H.
  eapply IH; [|exact H]. by eapply reach_step.
Qed.

(** With an empty body chunk the wake-up can be lost: the sender reads the
    counter above the high water mark, the connector acknowledges everything and
    makes the stream writable, and only then the sender marks it unwritable and
    waits; an empty chunk is never acknowledged, so nothing releases it. *)
Theorem empty_chunk_loses_wakeup : ∃ st, reachable 0 st ∧ stuck st.
Proof.
  destruct (run 0 init ([LChunk true 70000; LA; LA; LA; LA; LChunk false 0; LA; LA; LAck 70000;
    LB; LB; LB; LB; LB; LB; LA; LA; LA; LA; LA])) as [st|] eqn:E; [|by vm_compute in E].
  exists st. split; [by eapply reachable_run; [apply reach_init|]|].
  vm_compute in E. injection E as <-. split; [|done]. exists 0. split; [done|].
  apply (bool_decide_unpack _). vm_compute. exact I.
Qed.

End interleaved.

(** ** Witnesses *)

Definition demo_blocked : list Interleaved.Label :=
  [Interleaved.LChunk false 70000; Interleaved.LA; Interleaved.LA; Interleaved.LA; Interleaved.LA;
   Interleaved.LA; Interleaved.LA; Interleaved.LA].

(** A run in which the sender does wait, with the bytes still to be
    acknowledged. *)
Definition demo_blocked_state : Interleaved.State :=
  Interleaved.MkState (MkFlow 0 70000 false false [Ok 0] false ∅) (Interleaved.AWait 0)
    Interleaved.BIdle 70000 1.

Lemma no_lost_wakeup_witness : ~ Interleaved.stuck demo_blocked_state.
Proof.
  apply (no_lost_wakeup demo_blocked_state).
  apply (reachable_run 1 demo_blocked Interleaved.init); [apply Interleaved.reach_init|].
  vm_compute. reflexivity.
Defined.
