(* ===== verification/FlowBounds.v ===== *)
(** * How much the flow control lets a request have outstanding

    [no_lost_wakeup] says that the sender goes on when it may; here it is shown
    that it stops when it must.  In every interleaving of the sender with the
    receiver of acknowledgements the bytes sent and not acknowledged stay under
    the high water mark plus three body chunks (plus the request headers, which
    are sent without a check), so that the 32-bit counter does not overflow.  The
    three chunks are real: one crosses the mark; one passes because a receiver
    that had read the counter before makes the stream writable; one passes
    because that receiver, in its loop, releases a callback that was queued after
    its last look at the flag. *)

From S2P Require Import Prelude RustStr Exceptions FlowControl.

Import Interleaved.

(** The bytes of header frames among the steps of a run. *)
Fixpoint header_bytes (ls : list Label) : Z :=
  match ls with
  | [] => 0
  | LChunk true n :: r => n + header_bytes r
  | _ :: r => header_bytes r
  end.

Definition small_chunks (max_chunk : Z) (ls : list Label) : Prop :=
  ∀ n, LChunk false n ∈ ls → (n ≤ max_chunk)%Z.

#[export] Instance WPc_eq_dec : EqDecision WPc.
Proof. solve_decision. Defined.

(** ** The invariant *)

(** What the receiver can still let pass: two chunks before the exchange, one
    while it releases callbacks, unless it will look at a cleared flag first. *)
Definition passes (b : BPc) (writable : bool) : Z :=
  match b with
  | BCas => 2
  | BW w => if writable then 1 else match w with W4 | W5 => 1 | _ => 0 end
  | _ => 0
  end.

(** The sender can start another body chunk without a new acknowledgement. *)
Definition ready (s : Flow) (a : APc) (b : BPc) : Prop :=
  match a with
  | AIdle | AAdd _ _ | ALoad true _ | ACas true _ | ASend true _ => True
  | ALoad false _ | ACas false _ => False
  | ASend false _ | ACheck | APush => is_wss_writable s = true
  | AW c _ | AWait c => is_wss_writable s = true ∨ c ∈ released s ∨ b = BW (W6 c)
  end.

(** A header frame counts from the moment it is taken up. *)
Definition taken_up (a : APc) : Z := match a with AAdd true n => n | _ => 0 end.

Definition sizes_ok (max_chunk : Z) (a : APc) : Prop :=
  match a with
  | AAdd h n | ALoad h n | ACas h n | ASend h n => (0 ≤ n)%Z ∧ (h = false → (n ≤ max_chunk)%Z)
  | _ => True
  end.

Definition outstanding (hdr : Z) (a : APc) (b : BPc) (u : Z) : Z := u + pend_a a + taken_up a + pend_b b - hdr.

(** The callbacks so far were given the numbers below [k]. *)
Definition numbered (s : Flow) (b : BPc) (k : nat) : Prop :=
  (∀ c, c ∈ released s → c < k) ∧ (∀ c, Ok c ∈ cbs s → c < k) ∧ (∀ c, b = BW (W6 c) → c < k).

Record bounded (max_chunk hdr : Z) (st : State) : Prop := {
  b_counter : wss_rtr_to_tgt_pending_ack_bytes (flow st) = (unacked st + pend_a (apc st) + pend_b (bpc st))%Z;
  b_unacked : (0 ≤ unacked st)%Z;
  b_hdr : (taken_up (apc st) ≤ hdr)%Z;
  b_sizes : sizes_ok max_chunk (apc st);
  b_ack : ack_pos (bpc st);
  b_own c w : apc st = AW c w → w ≠ W0 → is_wss_writable (flow st) = true;
  b_numbered : numbered (flow st) (bpc st) (next_cb st);
  b_a_numbered c k : apc st = AW c (W6 k) → k < next_cb st;
  b_total : (outstanding hdr (apc st) (bpc st) (unacked st) ≤
             WATER_MARK_HIGH + (3 - passes (bpc st) (is_wss_writable (flow st))) * max_chunk)%Z;
  b_ready : ready (flow st) (apc st) (bpc st) →
            (outstanding hdr (apc st) (bpc st) (unacked st) ≤
             WATER_MARK_HIGH + (2 - passes (bpc st) (is_wss_writable (flow st))) * max_chunk)%Z
}.

Section bounds.
Context (M : Z) (HM : (0 ≤ M)%Z).

Lemma bounded_init : bounded M 0 init.
Proof.
  split; cbn; try done; try (unfold outstanding, WATER_MARK_HIGH; cbn; lia).
  unfold numbered. cbn. split_and!; set_solver.
Qed.

Lemma passes_range b w : (0 ≤ passes b w ≤ 2)%Z.
Proof. destruct b as [| | | | |[]], w; cbn; lia. Qed.

(** Clearing the flag takes passes away only. *)
Lemma passes_clear b w : (passes b false ≤ passes b w)%Z.
Proof. destruct b as [| | | | |[]], w; cbn; lia. Qed.

Lemma numbered_flow s s' b k :
  numbered s b k → released s' = released s → cbs s' = cbs s → numbered s' b k.
Proof. intros Hn Hr Hc. unfold numbered. by rewrite Hr, Hc. Qed.

(** The sum of the counter and a chunk or an acknowledgement fits. *)
Lemma wrap32_small z : (- i32_max ≤ z ≤ i32_max)%Z → wrap32 z = z.
Proof. intros Hz. apply wrap32_id. unfold in_i32, i32_min, i32_max in *. lia. Qed.

(** ** The steps of the sender *)

Ltac unpack H := destruct H as [Hcnt Hu Hh Hsz Hack Hown [Hn1 [Hn2 Hn3]] Han Htot Hrdy];
  cbn [flow apc bpc unacked next_cb] in *.

Lemma bounded_chunk hdr st h n st' :
  bounded M hdr st → (h = false → (n ≤ M)%Z) → step 0 st (LChunk h n) = Some st' →
  bounded M (hdr + if h then n else 0) st'.
Proof.
  destruct st as [s a b u k]. intros Hb Hn. cbn. destruct a; try done.
  destruct (0 <=? n)%Z eqn:En; [|done]. apply Z.leb_le in En. intros [= <-].
  unpack Hb. specialize (Hrdy I). cbn in Htot, Hrdy. unfold outstanding in *.
  pose proof (passes_range b (is_wss_writable s)).
  destruct h; split; cbn in *; unfold outstanding; cbn; try done; try lia; try (split_and!; done).
Qed.

(** The receiver stays where it is: what is left to show for a step of the
    sender. *)
Lemma bounded_sender hdr s a b u k s' a' u' k' :
  bounded M hdr (MkState s a b u k) →
  wss_rtr_to_tgt_pending_ack_bytes s' = (u' + pend_a a' + pend_b b)%Z → (0 ≤ u')%Z →
  (taken_up a' ≤ hdr)%Z → sizes_ok M a' →
  (∀ c w, a' = AW c w → w ≠ W0 → is_wss_writable s' = true) →
  numbered s' b k' → (∀ c j, a' = AW c (W6 j) → j < k') →
  (outstanding hdr a' b u' ≤ WATER_MARK_HIGH + (3 - passes b (is_wss_writable s')) * M)%Z →
  (ready s' a' b →
   (outstanding hdr a' b u' ≤ WATER_MARK_HIGH + (2 - passes b (is_wss_writable s')) * M)%Z) →
  bounded M hdr (MkState s' a' b u' k').
Proof. intros Hb **. unpack Hb. by split. Qed.

Lemma bounded_add hdr s h n b u k :
  (hdr + WATER_MARK_HIGH + 3 * M ≤ i32_max)%Z → bounded M hdr (MkState s (AAdd h n) b u k) →
  bounded M hdr (MkState (set_pending s (wrap32 (wss_rtr_to_tgt_pending_ack_bytes s + wrap32 n)))
                   (ALoad h n) b u k).
Proof.
  intros Hmax Hb. pose proof (passes_range b (is_wss_writable s)) as Hp.
  apply (bounded_sender _ _ _ _ _ _ _ _ _ _ Hb); unpack Hb; specialize (Hrdy I); destruct Hsz as [Hn0 HnM];
    cbn [wss_rtr_to_tgt_pending_ack_bytes set_pending is_wss_writable]; try done.
  - rewrite wrap32_add_r, Hcnt. cbn [pend_a]. rewrite wrap32_small; [lia|].
    assert (0 ≤ pend_b b)%Z by (destruct b; cbn in *; lia).
    assert (n ≤ M ∨ h = true)%Z as Hn by (destruct h; auto).
    unfold outstanding, i32_max, WATER_MARK_HIGH in *. destruct h; cbn in *; destruct Hn; try done; nia.
  - cbn. destruct h; cbn in *; lia.
  - unfold outstanding in *. destruct h; cbn in *; [lia|]. specialize (HnM eq_refl). lia.
  - unfold outstanding in *. destruct h; cbn in *; [lia|done].
Qed.

Lemma bounded_load hdr s h n b u k :
  bounded M hdr (MkState s (ALoad h n) b u k) →
  bounded M hdr (MkState s (if (WATER_MARK_HIGH <? wss_rtr_to_tgt_pending_ack_bytes s)%Z
                            then ACas h n else ASend h n) b u k).
Proof.
  intros Hb. pose proof (passes_range b (is_wss_writable s)) as Hp.
  destruct (WATER_MARK_HIGH <? _)%Z eqn:E; apply (bounded_sender _ _ _ _ _ _ _ _ _ _ Hb); unpack Hb; try done.
  apply Z.ltb_ge in E. rewrite Hcnt in E. unfold outstanding in *. cbn in *. intros _. nia.
Qed.

Lemma bounded_cas hdr s h n b u k :
  bounded M hdr (MkState s (ACas h n) b u k) → bounded M hdr (MkState (set_writable s false) (ASend h n) b u k).
Proof.
  intros Hb. pose proof (passes_clear b (is_wss_writable s)) as Hp.
  apply (bounded_sender _ _ _ _ _ _ _ _ _ _ Hb); unpack Hb; try done; unfold outstanding in *; cbn in *.
  - nia.
  - destruct h; [|done]. intros _. specialize (Hrdy I). nia.
Qed.

Lemma bounded_send hdr s h n b u k :
  bounded M hdr (MkState s (ASend h n) b u k) →
  bounded M hdr (MkState s (if h then AIdle else ACheck) b (u + n) k).
Proof.
  intros Hb. apply (bounded_sender _ _ _ _ _ _ _ _ _ _ Hb); unpack Hb; destruct Hsz as [Hn0 HnM];
    unfold outstanding in *; destruct h; cbn in *; try done; try lia.
  all: intros Hr; specialize (Hrdy Hr); lia.
Qed.

Lemma bounded_push hdr s b u k :
  bounded M hdr (MkState s APush b u k) →
  bounded M hdr (MkState (set_cbs s (cbs s ++ [Ok k])) (AW k W0) b u (S k)).
Proof.
  intros Hb. apply (bounded_sender _ _ _ _ _ _ _ _ _ _ Hb); unpack Hb; try done.
  - naive_solver.
  - split_and!; cbn; intros c Hc; [specialize (Hn1 _ Hc); lia| |specialize (Hn3 _ Hc); lia].
    apply elem_of_app in Hc as [Hc|Hc%list_elem_of_singleton]; [specialize (Hn2 _ Hc); lia|].
    injection Hc as ->. lia.
  - intros [Hw|[Hr|Hr]]; [by apply Hrdy|specialize (Hn1 _ Hr)|specialize (Hn3 _ Hr)]; lia.
Qed.

(** [write_it_maybe] does not touch the counter or the flag. *)
Lemma wstep_frame w s s' w' :
  wstep w s = (s', w') → wss_rtr_to_tgt_pending_ack_bytes s' = wss_rtr_to_tgt_pending_ack_bytes s ∧
  is_wss_writable s' = is_wss_writable s ∧ released s ⊆ released s'.
Proof. destruct w; cbn; repeat case_match; intros [= <- <-]; cbn; set_solver. Qed.

(** Nor does it make up callbacks. *)
Lemma wstep_numbered w s s' w' k :
  wstep w s = (s', w') → (∀ c, c ∈ released s → c < k) → (∀ c, Ok c ∈ cbs s → c < k) →
  (∀ c, w = W6 c → c < k) →
  (∀ c, c ∈ released s' → c < k) ∧ (∀ c, Ok c ∈ cbs s' → c < k) ∧ (∀ c, w' = Some (W6 c) → c < k).
Proof.
  intros Hw H1 H2 H3.
  destruct w as [| | | | | |j|]; cbn in Hw.
  6:{ destruct (cbs s) as [|[i|e] q] eqn:Eq; simplify_eq/=; rewrite ?Eq in H2.
      - rewrite Eq. split_and!; [done| |done]. intros c Hc. by apply H2.
      - split_and!; [done|set_solver|]. intros c [= <-]. apply H2. set_solver.
      - split_and!; [done|set_solver|done]. }
  6:{ simplify_eq/=. split_and!; [|done|done]. intros c [->%elem_of_singleton|Hc]%elem_of_union; eauto. }
  all: repeat case_match; simplify_eq/=; split_and!; done.
Qed.

Lemma bounded_aw hdr s c w b u k s' w' :
  bounded M hdr (MkState s (AW c w) b u k) → wstep w s = (s', w') →
  bounded M hdr (MkState s' (match w' with Some w' => AW c w' | None => AWait c end) b u k).
Proof.
  intros Hb Hw. destruct (wstep_frame _ _ _ _ Hw) as (Hc & Hf & Hr).
  apply (bounded_sender _ _ _ _ _ _ _ _ _ _ Hb); unpack Hb.
  - rewrite Hc, Hcnt. by destruct w'.
  - done.
  - by destruct w'.
  - by destruct w'.
  - intros c' v Ha Hv. rewrite Hf. destruct w' as [w'|]; simplify_eq.
    destruct (decide (w = W0)) as [->|]; [|by eapply Hown]. cbn in Hw. by repeat case_match; simplify_eq.
  - destruct (wstep_numbered _ _ _ _ k Hw) as (? & ? & ?); [done|done|intros j ->; eauto|].
    by split_and!.
  - intros c' j Ha. destruct w' as [w'|]; simplify_eq.
    destruct (wstep_numbered _ _ _ _ k Hw) as (? & ? & ?); [done|done|intros i ->; eauto|]. eauto.
  - rewrite Hf. by destruct w'.
  - rewrite Hf. intros Hrd. assert (Hx : ready s (AW c w) b).
    { cbn. destruct (decide (w = W0)) as [->|Hw0]; [|left; by eapply Hown].
      cbn in Hw. destruct (is_wss_writable s) eqn:E; [by left|]. simplify_eq. cbn in Hrd. by rewrite E in Hrd. }
    specialize (Hrdy Hx). by destruct w'.
Qed.

Lemma bounded_astep hdr st st' :
  (hdr + WATER_MARK_HIGH + 3 * M ≤ i32_max)%Z → bounded M hdr st → astep st = Some st' → bounded M hdr st'.
Proof.
  intros Hmax Hb. destruct st as [s a b u k].
  destruct a as [|h n|h n|h n|h n| | |c w|c]; cbn -[wrap32].
  - done.
  - intros [= <-]. by apply bounded_add.
  - intros [= <-]. by apply bounded_load.
  - intros [= <-]. by apply bounded_cas.
  - intros [= <-]. by apply bounded_send.
  - intros [= <-]. destruct (is_wss_writable s) eqn:E;
      apply (bounded_sender _ _ _ _ _ _ _ _ _ _ Hb); unpack Hb; try done.
    intros _. by apply Hrdy.
  - intros [= <-]. by apply bounded_push.
  - destruct (wstep w s) as [s' w'] eqn:Ew. intros [= <-]. by eapply bounded_aw.
  - case_bool_decide as Hc; [|done]. intros [= <-].
    apply (bounded_sender _ _ _ _ _ _ _ _ _ _ Hb); unpack Hb; try done.
    intros _. apply Hrdy. cbn. auto.
Qed.

(** ** The steps of the receiver *)

Lemma bounded_receiver hdr s a b u k s' b' u' :
  bounded M hdr (MkState s a b u k) →
  wss_rtr_to_tgt_pending_ack_bytes s' = (u' + pend_a a + pend_b b')%Z → (0 ≤ u')%Z → ack_pos b' →
  (is_wss_writable s = true → is_wss_writable s' = true) → numbered s' b' k →
  (outstanding hdr a b' u' ≤ WATER_MARK_HIGH + (3 - passes b' (is_wss_writable s')) * M)%Z →
  (ready s' a b' →
   (outstanding hdr a b' u' ≤ WATER_MARK_HIGH + (2 - passes b' (is_wss_writable s')) * M)%Z) →
  bounded M hdr (MkState s' a b' u' k).
Proof. intros Hb **. unpack Hb. split; cbn; eauto. Qed.

Lemma ready_same s s' a b b' :
  ready s' a b' → is_wss_writable s' = is_wss_writable s → released s' = released s →
  (∀ c, b' ≠ BW (W6 c)) → ready s a b.
Proof.
  intros Hr Hf Hl Hn. destruct a as [|h|[]|[]|[]| | |c v|c]; cbn in *; try congruence;
    rewrite ?Hf, ?Hl in Hr; destruct Hr as [?|[?|Hb]]; auto; by destruct (Hn c).
Qed.

(** A step of the receiver in [write_it_maybe] can make the sender ready only by
    taking its callback, for which it gives up a pass. *)
Lemma wstep_passes w s s' w' a :
  wstep w s = (s', w') →
  let b' := match w' with Some w' => BW w' | None => BIdle end in
  let f := is_wss_writable s in
  (passes b' f ≤ passes (BW w) f)%Z ∧
  (ready s' a b' → ready s a (BW w) ∨ passes b' f = 0%Z ∧ passes (BW w) f = 1%Z).
Proof.
  intros Hw b' f. pose proof (wstep_frame _ _ _ _ Hw) as (_ & Hf & _). subst b' f.
  assert (Hsame : released s' = released s → (∀ c, w' ≠ Some (W6 c)) →
    ready s' a (match w' with Some w' => BW w' | None => BIdle end) → ready s a (BW w)).
  { intros Hr Hn Hrd. apply (ready_same _ _ _ _ _ Hrd Hf Hr). intros c. destruct w' as [w'|]; [|done].
    intros [= ->]. by destruct (Hn c). }
  destruct w as [| | | | | |j|]; cbn in Hw.
  6:{ destruct (cbs s) as [|[i|e] q]; injection Hw as <- <-; cbn in *;
        [destruct (is_wss_writable s) eqn:E; (split; [done|]); intros; left; by apply Hsame| |
         destruct (is_wss_writable s) eqn:E; (split; [done|]); intros; left; by apply Hsame].
      destruct (is_wss_writable s) eqn:E; (split; [done|]); intros Hrd; [left|by right].
      destruct a as [|h|[]|[]|[]| | |c v|c]; cbn in *; rewrite ?E in *; auto. }
  6:{ injection Hw as <- <-. cbn in *. destruct (is_wss_writable s) eqn:E; (split; [done|]); intros Hrd; left;
      destruct a as [|h|[]|[]|[]| | |c v|c]; cbn in *; rewrite ?E in *; auto;
      destruct Hrd as [?|[[->%elem_of_singleton|?]%elem_of_union|[=]]]; auto. }
  all: destruct (is_wss_writable s) eqn:E; repeat step_match_in Hw; injection Hw as <- <-; cbn in *; rewrite ?E in *;
    (split; [done|]); intros Hrd; left; by apply Hsame.
Qed.

Lemma bounded_bw hdr s a w u k s' w' :
  bounded M hdr (MkState s a (BW w) u k) → wstep w s = (s', w') →
  bounded M hdr (MkState s' a (match w' with Some w' => BW w' | None => BIdle end) u k).
Proof.
  intros Hb Hw. destruct (wstep_frame _ _ _ _ Hw) as (Hc & Hf & Hr).
  set (b' := match w' with Some w' => BW w' | None => BIdle end).
  pose proof (wstep_passes _ _ _ _ a Hw) as Hpass. cbv zeta in Hpass. fold b' in Hpass.
  assert (Ho : outstanding hdr a b' u = outstanding hdr a (BW w) u) by (subst b'; by destruct w').
  apply (bounded_receiver _ _ _ _ _ _ _ _ _ Hb); unpack Hb.
  - rewrite Hc, Hcnt. subst b'. by destruct w'.
  - done.
  - subst b'. by destruct w'.
  - by rewrite Hf.
  - destruct (wstep_numbered _ _ _ _ k Hw) as (? & ? & H3); [done|done|intros j ->; eauto|].
    split_and!; [done..|]. subst b'. destruct w' as [w'|]; [|done]. intros c [= ->]. by apply H3.
  - rewrite Hf, Ho. destruct Hpass as [Hp _]. nia.
  - rewrite Hf, Ho. intros Hrd. destruct Hpass as [Hp Hx]. destruct (Hx Hrd) as [Hy|[H0 H1]].
    + specialize (Hrdy Hy). nia.
    + rewrite H0. rewrite H1 in Htot. lia.
Qed.

Lemma bounded_bstep hdr st st' :
  (hdr + WATER_MARK_HIGH + 3 * M ≤ i32_max)%Z → bounded M hdr st → bstep st = Some st' → bounded M hdr st'.
Proof.
  intros Hmax Hb. destruct st as [s a b u k].
  assert (Hpa : (0 ≤ pend_a a)%Z) by (unpack Hb; destruct a; cbn in *; lia).
  destruct b as [|m|m| | |w]; cbn -[wrap32].
  - done.
  - intros [= <-]. apply (bounded_receiver _ _ _ _ _ _ _ _ _ Hb); unpack Hb; try done.
    intros Hr. by apply Hrdy, (ready_same _ _ _ _ _ Hr).
  - intros [= <-]. apply (bounded_receiver _ _ _ _ _ _ _ _ _ Hb); unpack Hb; try done.
    + cbn -[wrap32]. rewrite Hcnt. cbn in *. unfold outstanding in Htot. rewrite wrap32_small; [lia|].
      unfold WATER_MARK_HIGH, i32_max in *. cbn in Htot. destruct a as [|[]| | | | | | |]; cbn in *; lia.
    + cbn in *. unfold outstanding in *. cbn in *. lia.
    + intros Hr. apply (ready_same s _ _ (BAdd m)) in Hr; [|done..]. specialize (Hrdy Hr).
      unfold outstanding in *. cbn in *. lia.
  - intros [= <-]. destruct (_ <? WATER_MARK_LOW)%Z eqn:E;
      apply (bounded_receiver _ _ _ _ _ _ _ _ _ Hb); unpack Hb; try done;
      try (apply Z.ltb_lt in E; unfold outstanding, WATER_MARK_HIGH, WATER_MARK_LOW in *; cbn in *; lia).
    intros Hr. by apply Hrdy, (ready_same _ _ _ _ _ Hr).
  - intros [= <-]. destruct (is_wss_writable s) eqn:E; apply (bounded_receiver _ _ _ _ _ _ _ _ _ Hb); unpack Hb;
      try done; rewrite ?E in *; unfold outstanding in *; cbn in *; try lia.
  - destruct (wstep w s) as [s' w'] eqn:Ew. intros [= <-]. by eapply bounded_bw.
Qed.

Lemma bounded_ack hdr st m st' : bounded M hdr st → step 0 st (LAck m) = Some st' → bounded M hdr st'.
Proof.
  intros Hb. destruct st as [s a b u k]. cbn. destruct b; try done.
  destruct (_ && _) eqn:E; [|done]. bool_to_prop. intros [= <-].
  apply (bounded_receiver _ _ _ _ _ _ _ _ _ Hb); unpack Hb; unfold outstanding in *; cbn in *; try done; try lia.
  intros Hr. apply (ready_same s _ _ BIdle) in Hr; [|done..]. specialize (Hrdy Hr). lia.
Qed.

Lemma bounded_run ls hdr st st' :
  small_chunks M ls → (∀ l, LChunk true l ∈ ls → (0 ≤ l)%Z) →
  (hdr + header_bytes ls + WATER_MARK_HIGH + 3 * M ≤ i32_max)%Z → bounded M hdr st →
  run 0 st ls = Some st' → bounded M (hdr + header_bytes ls) st'.
Proof.
  revert hdr st. induction ls as [|l ls IH]; intros hdr st Hs Hh Hmax Hb Hr.
  { injection Hr as <-. by rewrite Z.add_0_r. }
  assert (H0 : ∀ ls, (∀ l, LChunk true l ∈ ls → (0 ≤ l)%Z) → (0 ≤ header_bytes ls)%Z).
  { clear. intros ls. induction ls as [|[[] n| | |] ls IH]; intros Hl; cbn; try (apply IH; set_solver); [done|].
    assert (0 ≤ n)%Z by (apply Hl; set_solver). assert (0 ≤ header_bytes ls)%Z by (apply IH; set_solver). lia. }
  assert (Hs' : small_chunks M ls) by (intros n Hn; apply Hs; set_solver).
  assert (Hh' : ∀ l, LChunk true l ∈ ls → (0 ≤ l)%Z) by (intros n Hn; apply Hh; set_solver).
  specialize (H0 ls Hh'). cbn [run] in Hr. destruct (step 0 st l) as [st1|] eqn:E; [|done]. cbn in Hr.
  destruct l as [h n| |m|]; cbn [header_bytes] in *.
  - apply (bounded_chunk hdr) in E; [|done|intros ->; apply Hs; set_solver].
    destruct h; cbn [header_bytes] in *; rewrite ?Z.add_0_r in E; [rewrite Z.add_assoc|]; by (eapply IH; eauto; lia).
  - apply (bounded_astep hdr) in E; [|lia|done]. by (eapply IH; eauto; lia).
  - apply (bounded_ack hdr) in E; [|done]. by (eapply IH; eauto; lia).
  - apply (bounded_bstep hdr) in E; [|lia|done]. by (eapply IH; eauto; lia).
Qed.

End bounds.

(** A run only takes up header frames of a size. *)
Lemma run_header_sizes ls st st' n : run 0 st ls = Some st' → LChunk true n ∈ ls → (0 ≤ n)%Z.
Proof.
  revert st. induction ls as [|l ls IH]; intros st Hr; [set_solver|]. cbn [run] in Hr.
  destruct (step 0 st l) as [st1|] eqn:E; [|done]. cbn in Hr.
  intros [<-|Hin]%elem_of_cons; [|by eapply IH]. cbn in E. destruct (apc st); try done.
  destruct (0 <=? n)%Z eqn:En; [|done]. by apply Z.leb_le.
Qed.

(** C18: with body chunks of at most [M] bytes, in every interleaving of the sender
    with the receiver of acknowledgements the bytes sent and not acknowledged are
    at most the 64 KiB of the high water mark, three chunks and the request
    headers; and as long as this sum fits, the 32-bit counter never overflows but
    always holds exactly the bytes on their way. *)
Theorem outstanding_bytes_bounded (M : Z) ls st :
  (0 ≤ M)%Z → small_chunks M ls → (header_bytes ls + WATER_MARK_HIGH + 3 * M ≤ i32_max)%Z →
  run 0 init ls = Some st →
  (0 ≤ unacked st ≤ header_bytes ls + WATER_MARK_HIGH + 3 * M)%Z ∧
  wss_rtr_to_tgt_pending_ack_bytes (flow st) = (unacked st + pend_a (apc st) + pend_b (bpc st))%Z.
Proof.
  intros HM Hs Hmax Hr.
  assert (Hb : bounded M (0 + header_bytes ls) st).
  { eapply bounded_run; eauto using bounded_init, run_header_sizes. }
  pose proof (passes_range (bpc st) (is_wss_writable (flow st))) as Hp.
  destruct Hb as [Hcnt Hu Hh Hsz Hack _ _ _ Htot _]. split; [|done]. split; [done|].
  unfold outstanding in Htot. rewrite Z.add_0_l in *.
  assert (0 ≤ pend_a (apc st))%Z by (destruct (apc st); cbn in *; lia).
  assert (0 ≤ taken_up (apc st))%Z by (destruct (apc st) as [|[]| | | | | | |]; cbn in *; lia).
  assert (0 ≤ pend_b (bpc st))%Z by (destruct (bpc st); cbn in *; lia). nia.
Qed.

(** ** The bound is reached *)

Module DemoBound.

Definition A (n : nat) : list Label := replicate n LA.
Definition B (n : nat) : list Label := replicate n LB.
Definition chunk : Label := LChunk false 65536.

(** The receiver reads a small counter and pauses; the sender fills the window
    and crosses the mark; the receiver makes the stream writable and releases the
    sender, looks at the flag once more and pauses; the sender crosses again and
    queues a callback, which the receiver releases; the sender crosses again. *)
Definition steps : list Label :=
  [LChunk false 1] ++ A 4 ++ [LAck 1] ++ B 3 ++ [chunk] ++ A 4 ++ [chunk] ++ A 7 ++ B 9 ++
  A 1 ++ [chunk] ++ A 7 ++ B 3 ++ A 1 ++ [chunk] ++ A 7.

Definition fits (l : Label) : bool :=
  match l with LChunk false n => (n <=? 65536)%Z | _ => true end.

Definition last : State := default init (run 0 init steps).

End DemoBound.

Lemma outstanding_bytes_bounded_witness :
  unacked DemoBound.last = (WATER_MARK_HIGH + 3 * 65536)%Z ∧
  (unacked DemoBound.last ≤ header_bytes DemoBound.steps + WATER_MARK_HIGH + 3 * 65536)%Z.
Proof.
  split; [vm_compute; reflexivity|].
  refine (proj2 (proj1 (outstanding_bytes_bounded 65536 DemoBound.steps DemoBound.last _ _ _ _))).
  - discriminate.
  - intros n Hn. apply list_elem_of_In in Hn.
    exact (proj1 (Z.leb_le _ _) (proj1 (forallb_forall DemoBound.fits DemoBound.steps) eq_refl _ Hn)).
  - vm_compute. discriminate.
  - vm_compute. reflexivity.
Defined.
