(* ===== verification/Farm.v ===== *)
(** * The pool of router sockets (websocket_farm.rs)

    [WebSocketFarm] keeps, for every route, a FIFO channel of weak references
    to the sockets that may serve a request and a map from socket ids to the
    sockets.  A request takes a socket from the channel of its route: the
    filter loop inspects every socket at most once, and the fall back takes the
    first usable socket of the route or of the catch-all route.

    Sockets are reached through pointers into a heap, so that two references
    see the same removal flag; a weak reference upgrades while its pointer is
    in the heap.  Channels are shared objects too: the map of the farm holds
    references to them (the pairs of sender and receiver), a request clones the
    reference of its route once and uses it from then on, also when the map has
    lost it or holds another channel for the route.  The functions that the source spawns as tasks are recorded in
    [background] where the request path spawns them and are operations of
    their own.  What the farm needs of a socket is the interface
    [RouterSocket] (trait [RouterSocket] with [RouteIdentify]). *)

From S2P Require Import Prelude RustStr Exceptions Http RouteResolver Config.

(** ** The interface of a router socket *)

Class RouterSocket (S : Type) := {
  rs_route : S → str;
  rs_id : S → str;
  rs_domain : S → str;
  rs_connector_id : S → str;
  rs_addr : S → SocketAddr;
  rs_cranker_version : S → str;
  rs_is_removed : S → bool;
  (** the store of [true] to [get_is_removed_arc_atomic_bool] *)
  rs_mark_removed : S → S;
  rs_is_active : S → bool
}.

Class RouterSocketLaws (S : Type) `{RouterSocket S} := {
  mark_removed_set s : rs_is_removed (rs_mark_removed s) = true;
  mark_removed_route s : rs_route (rs_mark_removed s) = rs_route s;
  mark_removed_id s : rs_id (rs_mark_removed s) = rs_id s;
  mark_removed_domain s : rs_domain (rs_mark_removed s) = rs_domain s;
  mark_removed_connector s : rs_connector_id (rs_mark_removed s) = rs_connector_id s;
  mark_removed_addr s : rs_addr (rs_mark_removed s) = rs_addr s;
  mark_removed_version s : rs_cranker_version (rs_mark_removed s) = rs_cranker_version s;
  mark_removed_active s : rs_is_active (rs_mark_removed s) = rs_is_active s
}.

(** ** Dark hosts (dark_host.rs) *)

Record DarkHost := MkDarkHost {
  dh_address : IpAddr;
  dh_date_enabled : Z;
  dh_reason : str
}.

(** [PartialEq] and [same_host]: only the address counts. *)
Definition dark_host_eqb (a b : DarkHost) : bool := bool_decide (dh_address a = dh_address b).
Definition same_host (d : DarkHost) (another : IpAddr) : bool :=
  bool_decide (dh_address d = another).

(** ** State *)

Section farm.
Context {S : Type} `{RouterSocket S}.

Abbreviation ptr := nat.

Inductive BgTask :=
| BgRemove (route router_socket_id : str) (flag_of : ptr).

(** A reference to a channel, that is a pair of its sender and its receiver.  A
    channel is named by the route it was made for and a number. *)
Abbreviation ChanId := (str * nat)%type.

(** [chans] are the contents of all channels ever made, [route_to_socket_chan] the
    reference that the map holds for a route, as the number of its channel. *)
Record Farm := MkFarm {
  heap : gmap ptr S;
  chans : gmap ChanId (list ptr);
  route_to_socket_chan : gmap str nat;
  sockets : gmap str (gmap str ptr);
  route_last_removal_times : gmap str Z;
  idle_count : Z;
  waiting_task_count : Z;
  dark_hosts : list DarkHost;
  notified : list str;
  close_sent : list ptr;
  background : list BgTask
}.

Definition farm_new : Farm := MkFarm ∅ ∅ ∅ ∅ ∅ 0 0 [] [] [] [].

Definition with_heap (f : Farm) h := MkFarm h (chans f) (route_to_socket_chan f) (sockets f)
  (route_last_removal_times f) (idle_count f) (waiting_task_count f) (dark_hosts f) (notified f)
  (close_sent f) (background f).
Definition with_chans (f : Farm) c := MkFarm (heap f) c (route_to_socket_chan f) (sockets f)
  (route_last_removal_times f) (idle_count f) (waiting_task_count f) (dark_hosts f) (notified f)
  (close_sent f) (background f).
Definition with_routes (f : Farm) r := MkFarm (heap f) (chans f) r (sockets f)
  (route_last_removal_times f) (idle_count f) (waiting_task_count f) (dark_hosts f) (notified f)
  (close_sent f) (background f).
Definition with_sockets (f : Farm) m := MkFarm (heap f) (chans f) (route_to_socket_chan f) m
  (route_last_removal_times f) (idle_count f) (waiting_task_count f) (dark_hosts f) (notified f)
  (close_sent f) (background f).
Definition with_times (f : Farm) t := MkFarm (heap f) (chans f) (route_to_socket_chan f) (sockets f)
  t (idle_count f) (waiting_task_count f) (dark_hosts f) (notified f) (close_sent f) (background f).
Definition with_idle (f : Farm) n := MkFarm (heap f) (chans f) (route_to_socket_chan f) (sockets f)
  (route_last_removal_times f) n (waiting_task_count f) (dark_hosts f) (notified f)
  (close_sent f) (background f).
Definition with_waiting (f : Farm) n := MkFarm (heap f) (chans f) (route_to_socket_chan f) (sockets f)
  (route_last_removal_times f) (idle_count f) n (dark_hosts f) (notified f)
  (close_sent f) (background f).
Definition with_dark (f : Farm) d := MkFarm (heap f) (chans f) (route_to_socket_chan f) (sockets f)
  (route_last_removal_times f) (idle_count f) (waiting_task_count f) d (notified f)
  (close_sent f) (background f).
Definition with_notified (f : Farm) n := MkFarm (heap f) (chans f) (route_to_socket_chan f) (sockets f)
  (route_last_removal_times f) (idle_count f) (waiting_task_count f) (dark_hosts f) n
  (close_sent f) (background f).
Definition with_close (f : Farm) c := MkFarm (heap f) (chans f) (route_to_socket_chan f) (sockets f)
  (route_last_removal_times f) (idle_count f) (waiting_task_count f) (dark_hosts f) (notified f)
  c (background f).
Definition spawn (f : Farm) (ts : list BgTask) := MkFarm (heap f) (chans f) (route_to_socket_chan f)
  (sockets f) (route_last_removal_times f) (idle_count f) (waiting_task_count f) (dark_hosts f)
  (notified f) (close_sent f) (background f ++ ts).

(** The content of a channel. *)
Definition chan (f : Farm) (c : ChanId) : list ptr := default [] (chans f !! c).

(** [is_dark_mode_on], the same for both socket versions. *)
Definition is_dark_mode_on (s : S) (dark : list DarkHost) : bool :=
  existsb (λ i, same_host i (addr_ip (rs_addr s))) dark.

(** ** Registration *)

(** [route_to_socket_chan.entry(route).or_insert_with(unbounded)]: the channel of the
    route, made if the map has none. *)
Definition entry_chan (f : Farm) (route : str) : Farm * ChanId :=
  match route_to_socket_chan f !! route with
  | Some n => (f, (route, n))
  | None =>
      let n := fresh (set_map snd (dom (chans f)) : gset nat) in
      let f := with_chans f (<[(route, n) := []]> (chans f)) in
      (with_routes f (<[route := n]> (route_to_socket_chan f)), (route, n))
  end.

Definition add_router_socket_in_background (f : Farm) (p : ptr) : Farm :=
  match heap f !! p with
  | None => f
  | Some s =>
      let route := rs_route s in
      let m := default ∅ (sockets f !! route) in
      let f := with_sockets f (<[route := <[rs_id s := p]> m]> (sockets f)) in
      let '(f, c) := entry_chan f route in
      let f := with_chans f (<[c := chan f c ++ [p]]> (chans f)) in
      let f := with_idle f (wrap32 (idle_count f + 1)) in
      with_notified f (notified f ++ [route])
  end.

Definition mark_removed (f : Farm) (p : ptr) : Farm :=
  with_heap f (alter rs_mark_removed p (heap f)).

Definition remove_router_socket_in_background (f : Farm) (now : Z) (route router_socket_id : str)
  (is_removed_of : ptr) : Farm :=
  let f := with_times f (<[route := now]> (route_last_removal_times f)) in
  match sockets f !! route with
  | None => f
  | Some m =>
      match m !! router_socket_id with
      | None => f
      | Some _ =>
          let f := with_sockets f (<[route := delete router_socket_id m]> (sockets f)) in
          let f := with_idle f (wrap32 (idle_count f + -1)) in
          mark_removed f is_removed_of
      end
  end.

(** The closing loop of de-registration. *)
Definition close_if_idle (f : Farm) (p : ptr) : Farm :=
  match heap f !! p with
  | None => f
  | Some s =>
      if rs_is_active s then f
      else
        let f := mark_removed f p in
        let f := with_idle f (wrap32 (idle_count f + -1)) in
        with_close f (close_sent f ++ [p])
  end.

Definition has_connector (h : gmap ptr S) (connector_id : str) (p : ptr) : bool :=
  match h !! p with Some s => str_eqb (rs_connector_id s) connector_id | None => false end.

Definition de_register_router_socket_in_background (f : Farm) (now : Z) (route connector_id : str)
  : Farm :=
  match sockets f !! route with
  | None => f
  | Some m =>
      let sockets_to_close :=
        filter (λ p, has_connector (heap f) connector_id p = true) (snd <$> map_to_list m) in
      let f := with_times f (<[route := now]> (route_last_removal_times f)) in
      let f := with_sockets f
        (<[route := filter (λ kv, has_connector (heap f) connector_id kv.2 = false) m]> (sockets f)) in
      foldl close_if_idle f sockets_to_close
  end.

(** A route is stale when its map is empty and its last removal is older than
    the cut-off time. *)
Definition should_remove_route (f : Farm) (cut_off_time : Z) (route : str) (m : gmap str ptr) : bool :=
  bool_decide (m = ∅) &&
  match route_last_removal_times f !! route with
  | Some t => (t <? cut_off_time)%Z
  | None => false
  end.

Definition clean_routes_in_background (f : Farm) (now routes_keep_time_millis : Z) : Farm :=
  let cut_off_time := (now - routes_keep_time_millis)%Z in
  let stale := filter (λ kv, should_remove_route f cut_off_time kv.1 kv.2 = true) (sockets f) in
  let f' := with_routes f
    (filter (λ kv, stale !! kv.1 = None) (route_to_socket_chan f)) in
  with_sockets f' (filter (λ kv, should_remove_route f cut_off_time kv.1 kv.2 = false) (sockets f)).

(** [terminate_all]: the sockets told to terminate, and the farm without
    registrations. *)
Definition terminate_all (f : Farm) (force : bool) : list ptr * Farm :=
  (if force then concat (map (λ m : gmap str ptr, snd <$> map_to_list m) (snd <$> map_to_list (sockets f)))
   else [],
   with_sockets f ∅).

Definition get_sockets (f : Farm) : gmap str (list ptr) :=
  (λ m : gmap str ptr, snd <$> map_to_list m) <$> sockets f.

(** ** Dark mode *)

(** [DashSet::insert] keeps the element that is already there. *)
Definition enable_dark_mode (f : Farm) (d : DarkHost) : Farm :=
  if existsb (dark_host_eqb d) (dark_hosts f) then f else with_dark f (dark_hosts f ++ [d]).

Definition disable_dark_mode (f : Farm) (d : DarkHost) : Farm :=
  if existsb (dark_host_eqb d) (dark_hosts f) then
    let f := with_dark f (filter (λ x, dark_host_eqb d x = false) (dark_hosts f)) in
    with_notified f (notified f ++ [STAR])
  else f.

Definition find_host (f : Farm) (address : IpAddr) : option DarkHost :=
  head (filter (λ d, dh_address d = address) (dark_hosts f)).

(** ** Selecting a socket for a request *)

(** What the request and the configuration contribute: the path, the host
    ([get_opt_host_from_uri_and_headers]), the resolver, the filter's verdict on
    a socket and its fall back options. *)
Record Request := MkRequest {
  target_path : str;
  opt_host : option str;
  resolve_route : gset str → str → str;
  should_use : S → bool;
  should_fallback_to_first_path_matched : bool;
  should_fallback_to_catch_all : bool;
  req_allow_catch_all : bool
}.

(** The filters of router_socket_filter.rs: the default one accepts every
    socket, the domain filter those of the host or of any domain. *)
Definition default_should_use (s : S) : bool := true.

Definition domain_should_use (host : option str) (s : S) : bool :=
  match host with
  | Some h => str_eqb (rs_domain s) STAR || str_eqb (rs_domain s) h
  | None => false
  end.

Definition domain_filter_request (path : str) (host : option str)
  (resolve : gset str → str → str) (allow_catch_all : bool) : Request :=
  MkRequest path host resolve (domain_should_use host) true true allow_catch_all.

(** [should_remove_from_web_socket_farm_if_is_removed]: true for a removed
    socket, whose removal is spawned. *)
Definition should_remove_if_is_removed (f : Farm) (p : ptr) (s : S) : Farm * bool :=
  if rs_is_removed s then (spawn f [BgRemove (rs_route s) (rs_id s) p], true) else (f, false).

(** The loop over a map of sockets that stops at the first live socket of the
    domain [host]. *)
Fixpoint any_on_domain (f : Farm) (host : str) (ps : list ptr) : Farm * bool :=
  match ps with
  | [] => (f, false)
  | p :: r =>
      match heap f !! p with
      | None => any_on_domain f host r
      | Some s =>
          let '(f, removed) := should_remove_if_is_removed f p s in
          if removed then any_on_domain f host r
          else if str_eqb (rs_domain s) host then (f, true)
          else any_on_domain f host r
      end
  end.

Definition route_ptrs (f : Farm) (route : str) : list ptr :=
  match sockets f !! route with Some m => snd <$> map_to_list m | None => [] end.

Definition all_ptrs (f : Farm) : list ptr :=
  concat (map (λ m : gmap str ptr, snd <$> map_to_list m) (snd <$> map_to_list (sockets f))).

(** Keeps the routes with a live socket of the domain. *)
Fixpoint filter_routes (f : Farm) (host : str) (routes : list str) : Farm * list str :=
  match routes with
  | [] => (f, [])
  | r :: rs =>
      let '(f, keep) := any_on_domain f host (route_ptrs f r) in
      let '(f, rest) := filter_routes f host rs in
      (f, if keep then r :: rest else rest)
  end.

Definition collect_routes (f : Farm) (req : Request) : Farm * gset str :=
  let routes := fst <$> map_to_list (route_to_socket_chan f) in
  match opt_host req with
  | None => (f, list_to_set routes)
  | Some host =>
      let '(f, has_precise_domain_sockets) := any_on_domain f host (all_ptrs f) in
      if has_precise_domain_sockets then
        let '(f, rs) := filter_routes f host routes in (f, list_to_set rs)
      else (f, list_to_set routes)
  end.

(** The sockets of a channel: [Weak::upgrade]. *)
Definition upgrade (f : Farm) (p : ptr) : option S := heap f !! p.

Inductive LoopRes :=
| Chosen (p : ptr)
| Exhausted
| BlockedRecv (visited : gset str)
| LoopOutOfFuel.

(** The filter loop.  [q] is the channel of the request; a [send] appends to it;
    [recv] on the empty channel blocks. *)
Fixpoint filter_loop (fuel : nat) (req : Request) (has_precise_match : bool) (visited : gset str)
  (q : list ptr) (f : Farm) : Farm * list ptr * LoopRes :=
  match fuel with
  | O => (f, q, LoopOutOfFuel)
  | Datatypes.S fuel =>
      match q with
      | [] => (f, [], BlockedRecv visited)
      | p :: q' =>
          match upgrade f p with
          | None => filter_loop fuel req has_precise_match visited q' f
          | Some s =>
              let rsid := rs_id s in
              if bool_decide (rsid ∈ visited) then (f, q' ++ [p], Exhausted)
              else
                let '(f, removed) := should_remove_if_is_removed f p s in
                if removed then filter_loop fuel req has_precise_match visited q' f
                else
                  let visited := {[rsid]} ∪ visited in
                  if is_dark_mode_on s (dark_hosts f)
                  then filter_loop fuel req has_precise_match visited (q' ++ [p]) f
                  else if has_precise_match && str_eqb (rs_domain s) STAR
                  then filter_loop fuel req has_precise_match visited (q' ++ [p]) f
                  else if should_use req s
                  then (f, if str_eqb (rs_cranker_version s) CRANKER_V_3_0 then q' ++ [p] else q',
                        Chosen p)
                  else filter_loop fuel req has_precise_match visited (q' ++ [p]) f
          end
      end
  end.

(** One of the two scans of [try_fallback_sockets]: the first socket that is
    neither removed nor dark; dark ones go to the end of the channel. *)
Fixpoint fallback_scan (f : Farm) (dark : list DarkHost) (q skipped : list ptr)
  : Farm * list ptr * option ptr :=
  match q with
  | [] => (f, skipped, None)
  | p :: q' =>
      match upgrade f p with
      | None => fallback_scan f dark q' skipped
      | Some s =>
          let '(f, removed) := should_remove_if_is_removed f p s in
          if removed then fallback_scan f dark q' skipped
          else if is_dark_mode_on s dark then fallback_scan f dark q' (skipped ++ [p])
          else (f, q' ++ skipped ++
                   (if str_eqb (rs_cranker_version s) CRANKER_V_3_0 then [p] else []), Some p)
      end
  end.

(** The new content of a channel. *)
Definition set_chan (f : Farm) (c : ChanId) (q : list ptr) : Farm :=
  with_chans f (alter (λ _, q) c (chans f)).

(** A scan of a channel. *)
Definition scan_chan (f : Farm) (c : ChanId) : Farm * option ptr :=
  let '(f, q, found) := fallback_scan f (dark_hosts f) (chan f c) [] in (set_chan f c q, found).

(** The request falls back to the channel [c] it holds, then to the channel that the
    map holds for the catch-all route. *)
Definition try_fallback_sockets (f : Farm) (req : Request) (c : ChanId) : Farm * option ptr :=
  let '(f, found) :=
    if should_fallback_to_first_path_matched req then scan_chan f c else (f, None) in
  match found with
  | Some p => (f, Some p)
  | None =>
      if req_allow_catch_all req && should_fallback_to_catch_all req
      then match route_to_socket_chan f !! STAR with
           | Some n => scan_chan f (STAR, n)
           | None => (f, None)
           end
      else (f, None)
  end.

(** Where the request waits: in [recv] with the sockets it has visited, or for
    the notification of a new socket. *)
Inductive WaitAt :=
| AtRecv (has_precise_match : bool) (visited : gset str)
| AtNotify.

(** The filter loop on the channel that the request holds and what follows it. *)
Definition run_loop (f : Farm) (req : Request) (c : ChanId) (precise : bool) (visited : gset str)
  : Farm * (ptr + WaitAt) :=
  let q := chan f c in
  let '(f, q, r) := filter_loop (Datatypes.S (length q)) req precise visited q f in
  let f := set_chan f c q in
  match r with
  | Chosen p => (f, inl p)
  | BlockedRecv visited => (f, inr (AtRecv precise visited))
  | Exhausted | LoopOutOfFuel =>
      let '(f, found) := try_fallback_sockets f req c in
      match found with
      | Some p => (f, inl p)
      | None => (f, inr AtNotify)
      end
  end.

(** Whether a live socket of the route has the domain of the request. *)
Definition find_precise_match (f : Farm) (req : Request) (route : str) : Farm * bool :=
  match opt_host req with
  | Some host => any_on_domain f host (route_ptrs f route)
  | None => (f, false)
  end.

(** One turn of the ['main] loop; [c.1] is the resolved route. *)
Definition main_turn (f : Farm) (req : Request) (c : ChanId) : Farm * (ptr + WaitAt) :=
  let '(f, precise) := find_precise_match f req c.1 in
  run_loop f req c precise ∅.

Definition resume (f : Farm) (req : Request) (c : ChanId) (w : WaitAt) : Farm * (ptr + WaitAt) :=
  match w with
  | AtRecv precise visited => run_loop f req c precise visited
  | AtNotify => main_turn f req c
  end.

(** What the other tasks do to the farm between two wake-ups of the request is
    given by [wakes]; after the last one the time is over. *)
Fixpoint await_socket (wakes : list (Farm → Farm)) (f : Farm) (req : Request) (c : ChanId)
  (w : WaitAt) : Farm * option ptr :=
  match wakes with
  | [] => (f, None)
  | e :: es =>
      match resume (e f) req c w with
      | (f, inl p) => (f, Some p)
      | (f, inr w) => await_socket es f req c w
      end
  end.

Definition no_route_error (target : str) : CrankerRouterException :=
  with_err_kind (with_status_code (crex_new
    (lit "no router socket registered for this path yet: " ++ target)) 404)
    NoRouterSocketAvailable_0002.

Definition timeout_error (max_wait : Z) (target : str) : CrankerRouterException :=
  with_err_kind (with_status_code (crex_new
    (lit "No cranker connector available within " ++ display_Z max_wait ++
     lit " ms. target path = " ++ target ++ lit " ")) 503)
    NoRouterSocketAvailable_0002.

(** The request clones the reference to the channel of its route once. *)
Definition get_router_socket (max_wait : Z) (wakes : list (Farm → Farm)) (f : Farm) (req : Request)
  : Farm * result ptr CrankerRouterException :=
  let '(f, current_routes) := collect_routes f req in
  let resolved_route := resolve_route req current_routes (target_path req) in
  match route_to_socket_chan f !! resolved_route with
  | None => (f, Err (no_route_error (target_path req)))
  | Some n =>
      let c := (resolved_route, n) in
      let f := with_waiting f (wrap32 (waiting_task_count f + 1)) in
      let '(f, r) := await_socket (id :: wakes) f req c AtNotify in
      let f := with_waiting f (wrap32 (waiting_task_count f + -1)) in
      match r with
      | Some p => (f, Ok p)
      | None =>
          let '(f, found) := try_fallback_sockets f req c in
          match found with
          | Some p => (f, Ok p)
          | None => (f, Err (timeout_error max_wait (target_path req)))
          end
      end
  end.

End farm.

Arguments Farm : clear implicits.
Arguments Request : clear implicits.
Arguments RouterSocket : clear implicits.

(** ** Lemmas on the selection *)

Section selection.
Context {S : Type} `{RouterSocket S}.
Implicit Types (f : Farm S) (req : Request S) (q : list nat) (p : nat).

(** The socket exists and is not marked as removed. *)
Definition live f p : bool :=
  match heap f !! p with Some s => negb (rs_is_removed s) | None => false end.

(** What the filter loop looks for. *)
Definition eligible f req (precise : bool) p : Prop :=
  ∃ s, heap f !! p = Some s ∧ rs_is_removed s = false ∧
       is_dark_mode_on s (dark_hosts f) = false ∧
       (precise = true → rs_domain s ≠ STAR) ∧ should_use req s = true.

Definition is_v3 f p : bool :=
  match heap f !! p with
  | Some s => str_eqb (rs_cranker_version s) CRANKER_V_3_0
  | None => false
  end.

(** What a socket that is handed out takes out of its channel. *)
Definition taken f (o : option nat) : list nat :=
  match o with Some p => if is_v3 f p then [] else [p] | None => [] end.

Definition chosen_of (r : LoopRes) : option nat :=
  match r with Chosen p => Some p | _ => None end.

(** The loops only add background tasks. *)
Definition only_spawns f f' : Prop := ∃ ts, f' = spawn f ts.

Lemma only_spawns_refl f : only_spawns f f.
Proof. exists []. destruct f. unfold spawn. simpl. by rewrite app_nil_r. Qed.

Lemma only_spawns_trans f1 f2 f3 : only_spawns f1 f2 → only_spawns f2 f3 → only_spawns f1 f3.
Proof.
  intros [t1 ->] [t2 ->]. exists (t1 ++ t2). unfold spawn. simpl. by rewrite app_assoc.
Qed.

Lemma should_remove_spawns f p s f' b :
  should_remove_if_is_removed f p s = (f', b) → only_spawns f f' ∧ b = rs_is_removed s.
Proof.
  unfold should_remove_if_is_removed. destruct (rs_is_removed s); intros [= <- <-]; split; try done.
  - by eexists.
  - apply only_spawns_refl.
Qed.

Lemma only_spawns_live f f' p : only_spawns f f' → live f' p = live f p.
Proof. by intros [ts ->]. Qed.

Lemma filter_live_spawns f f' q :
  only_spawns f f' → filter (λ p, live f' p = true) q = filter (λ p, live f p = true) q.
Proof. by intros [ts ->]. Qed.

(** What the loop guarantees whatever its result: a chosen socket is eligible, and
    the live sockets of the channel are those left in it and the version 1 socket
    that was taken. *)
Definition loop_keeps req (precise : bool) f q f' q' r : Prop :=
  only_spawns f f' ∧
  (∀ p, r = Chosen p → p ∈ q ∧ eligible f req precise p) ∧
  q' ++ taken f (chosen_of r) ⊆+ q ∧
  filter (λ p, live f p = true) q ≡ₚ
    filter (λ p, live f p = true) q' ++ taken f (chosen_of r).

Lemma spawn_nil f : spawn f [] = f.
Proof. destruct f. unfold spawn. cbn. by rewrite app_nil_r. Qed.

Lemma loop_keeps_skip req precise f ts p q f' q' r :
  live f p = false → loop_keeps req precise (spawn f ts) q f' q' r → loop_keeps req precise f (p :: q) f' q' r.
Proof.
  intros Hl (Hs & Hc & Hsub & Hperm). split_and!; [by eapply only_spawns_trans; [eexists|]| | |].
  - intros p' E. destruct (Hc _ E). split; [by right|done].
  - by apply submseteq_cons.
  - by rewrite filter_cons_False by congruence.
Qed.

Lemma loop_keeps_rotate req precise f ts p q f' q' r :
  loop_keeps req precise (spawn f ts) (q ++ [p]) f' q' r → loop_keeps req precise f (p :: q) f' q' r.
Proof.
  intros (Hs & Hc & Hsub & Hperm). split_and!; [by eapply only_spawns_trans; [eexists|]| | |].
  - intros p' E. destruct (Hc _ E). split; [set_solver|done].
  - by rewrite (Permutation_app_comm q [p]) in Hsub.
  - change (live (spawn f ts)) with (live f) in Hperm.
    rewrite (Permutation_app_comm q [p]) in Hperm. exact Hperm.
Qed.

Lemma loop_keeps_choose req precise f ts p q s :
  heap f !! p = Some s → rs_is_removed s = false → eligible f req precise p →
  loop_keeps req precise f (p :: q) (spawn f ts)
    (if str_eqb (rs_cranker_version s) CRANKER_V_3_0 then q ++ [p] else q) (Chosen p).
Proof.
  intros Hp Erm He. assert (Hlive : live f p = true) by (unfold live; by rewrite Hp, Erm).
  split_and!; [by eexists|by intros p' [= <-]; split; [left|]| |].
  - simpl. unfold is_v3. rewrite Hp. destruct (str_eqb _ _); rewrite ?app_nil_r; by rewrite Permutation_app_comm.
  - simpl. unfold is_v3. rewrite Hp. rewrite filter_cons_True by done. destruct (str_eqb _ _).
    + rewrite app_nil_r, list.filter_app. rewrite filter_cons_True by done. by rewrite Permutation_app_comm.
    + by rewrite Permutation_app_comm.
Qed.

Lemma filter_loop_spec fuel req precise visited q f f' q' r :
  filter_loop fuel req precise visited q f = (f', q', r) → loop_keeps req precise f q f' q' r.
Proof.
  revert visited q f. induction fuel as [|fuel IH]; intros visited q f Hl; cbn [filter_loop] in Hl.
  { simplify_eq. split_and!; [apply only_spawns_refl|done|by rewrite app_nil_r|by rewrite app_nil_r]. }
  destruct q as [|p q]; [simplify_eq; split_and!; [apply only_spawns_refl|done..]|].
  unfold upgrade in Hl. destruct (heap f !! p) as [s|] eqn:Hp.
  2:{ apply IH in Hl. apply (loop_keeps_skip _ _ _ []); [unfold live; by rewrite Hp|by rewrite spawn_nil]. }
  case_bool_decide as Hv.
  { simplify_eq. split; [apply only_spawns_refl|]. split; [done|]. simpl. rewrite !app_nil_r.
    split; by rewrite (Permutation_app_comm q [p]). }
  destruct (should_remove_if_is_removed f p s) as [f1 b] eqn:Er.
  apply should_remove_spawns in Er as [[ts ->] ->].
  destruct (rs_is_removed s) eqn:Erm.
  { apply IH in Hl. eapply loop_keeps_skip; [|exact Hl]. unfold live. by rewrite Hp, Erm. }
  cbn [dark_hosts spawn] in Hl.
  destruct (is_dark_mode_on s (dark_hosts f)) eqn:Ed; [by apply IH, loop_keeps_rotate in Hl|].
  destruct (precise && str_eqb (rs_domain s) STAR) eqn:Ep; [by apply IH, loop_keeps_rotate in Hl|].
  destruct (should_use req s) eqn:Eu; [|by apply IH, loop_keeps_rotate in Hl]. simplify_eq.
  apply loop_keeps_choose; [done..|]. exists s. split_and!; try done. intros ->. simpl in Ep. by apply str_eqb_false.
Qed.

(** The loop ends: sockets it has put back are recognised when they come up
    again, so the sockets not yet inspected bound the number of turns. *)
Lemma filter_loop_fuel fuel req precise visited fresh rotated f :
  length fresh < fuel →
  Forall (λ p, ∃ s, heap f !! p = Some s ∧ rs_id s ∈ visited) rotated →
  (filter_loop fuel req precise visited (fresh ++ rotated) f).2 ≠ LoopOutOfFuel.
Proof.
  revert visited fresh rotated f. induction fuel as [|fuel IH]; intros visited fresh rotated f Hf Hr; [lia|].
  cbn [filter_loop]. destruct fresh as [|p fresh].
  { simpl. destruct Hr as [|p rotated (s & Hs & Hv)]; [done|]. unfold upgrade. rewrite Hs.
    by rewrite bool_decide_true. }
  simpl in Hf |- *. unfold upgrade. destruct (heap f !! p) as [s|] eqn:Hp; [|apply IH; [lia|done]].
  case_bool_decide; [done|].
  destruct (should_remove_if_is_removed f p s) as [f1 b] eqn:Er.
  apply should_remove_spawns in Er as [[ts ->] ->].
  destruct (rs_is_removed s); [apply IH; [lia|done]|].
  assert (Hrot : Forall (λ p, ∃ s0, heap (spawn f ts) !! p = Some s0 ∧
    rs_id s0 ∈ ({[rs_id s]} ∪ visited : gset str)) (rotated ++ [p])).
  { apply Forall_app. split.
    - eapply list.Forall_impl; [exact Hr|]. intros x (s0 & Hx & Hx'). exists s0. split; [done|set_solver].
    - constructor; [|constructor]. exists s. split; [done|set_solver]. }
  repeat (case_match; [rewrite <- app_assoc; apply IH; [lia|done]|]). case_match; [done|].
  rewrite <- app_assoc. apply IH; [lia|done].
Qed.

(** The ids of the sockets of a channel. *)
Definition ids f q : list str := omap (λ p, rs_id <$> heap f !! p) q.

Lemma filter_loop_complete fuel req precise visited fresh rotated f :
  length fresh < fuel → NoDup (ids f fresh) → Forall (λ x, x ∉ visited) (ids f fresh) →
  Exists (eligible f req precise) fresh →
  ∃ p, (filter_loop fuel req precise visited (fresh ++ rotated) f).2 = Chosen p.
Proof.
  revert visited fresh rotated f.
  induction fuel as [|fuel IH]; intros visited fresh rotated f Hf Hnd Hv He; [lia|].
  destruct fresh as [|p fresh]; [by apply Exists_nil in He|]. cbn [filter_loop app]. simpl in Hf.
  unfold ids in Hnd, Hv. simpl in Hnd, Hv. unfold upgrade.
  destruct (heap f !! p) as [s|] eqn:Hp; simpl in Hnd, Hv.
  2:{ apply IH; [lia|done..|]. apply Exists_cons in He as [(s & Hs & _)|He]; [congruence|done]. }
  apply list.NoDup_cons in Hnd as [Hni Hnd]. apply list.Forall_cons in Hv as [Hvp Hv].
  rewrite bool_decide_false by done.
  destruct (should_remove_if_is_removed f p s) as [f1 b] eqn:Er.
  apply should_remove_spawns in Er as [[ts ->] ->].
  destruct (rs_is_removed s) eqn:Erm.
  { apply IH; [lia|done..|]. apply Exists_cons in He as [(s0 & Hs & Hr & _)|He]; [congruence|done]. }
  assert (Hv' : Forall (λ x, x ∉ ({[rs_id s]} ∪ visited : gset str)) (ids (spawn f ts) fresh)).
  { rewrite list.Forall_forall in Hv |- *. intros x Hx. specialize (Hv x Hx).
    rewrite not_elem_of_union, not_elem_of_singleton. split; [|done]. by intros ->. }
  destruct (is_dark_mode_on s _) eqn:Ed; cbn [dark_hosts spawn] in Ed.
  { rewrite <- app_assoc. apply IH; [lia|done..|].
    apply Exists_cons in He as [(s0 & Hs & _ & Hd & _)|He]; [congruence|done]. }
  destruct (precise && str_eqb (rs_domain s) STAR) eqn:Ep.
  { rewrite <- app_assoc. apply IH; [lia|done..|].
    apply Exists_cons in He as [(s0 & Hs & _ & _ & Hd & _)|He]; [|done].
    apply andb_true_iff in Ep as [-> Ep%str_eqb_true]. exfalso. rewrite Hp in Hs. simplify_eq. tauto. }
  destruct (should_use req s) eqn:Eu; [by eexists|].
  rewrite <- app_assoc. apply IH; [lia|done..|].
  apply Exists_cons in He as [(s0 & Hs & _ & _ & _ & Hu)|He]; [congruence|done].
Qed.

(** A request only blocks on an empty channel. *)
Lemma filter_loop_blocked fuel req precise visited q f f' q' v :
  filter_loop fuel req precise visited q f = (f', q', BlockedRecv v) → q' = [].
Proof.
  revert visited q f. induction fuel as [|fuel IH]; intros visited q f; cbn [filter_loop]; [done|].
  destruct q as [|p q]; [by intros [= _ <- _]|]. destruct (upgrade f p) as [s|]; [|apply IH].
  destruct (bool_decide _); [done|]. destruct (should_remove_if_is_removed f p s) as [f1 []]; [apply IH|].
  cbv zeta. destruct (is_dark_mode_on _ _); [apply IH|]. destruct (_ && _); [apply IH|].
  destruct (should_use req s); [done|apply IH].
Qed.

(** The fall back scan. *)
Lemma fallback_scan_spec f dark q skipped f' q' o :
  fallback_scan f dark q skipped = (f', q', o) →
  only_spawns f f' ∧
  (∀ p, o = Some p → p ∈ q ∧ ∃ s, heap f !! p = Some s ∧ rs_is_removed s = false ∧
                                  is_dark_mode_on s dark = false) ∧
  (o = None → ∀ p s, p ∈ q → heap f !! p = Some s → rs_is_removed s = false →
                     is_dark_mode_on s dark = true) ∧
  q' ++ taken f o ⊆+ skipped ++ q ∧
  filter (λ p, live f p = true) (skipped ++ q) ≡ₚ filter (λ p, live f p = true) q' ++ taken f o.
Proof.
  revert skipped f. induction q as [|p q IH]; intros skipped f Hs; cbn [fallback_scan] in Hs.
  { simplify_eq. split_and!; [apply only_spawns_refl|done|set_solver|by rewrite !app_nil_r..]. }
  unfold upgrade in Hs. destruct (heap f !! p) as [s|] eqn:Hp.
  2:{ apply IH in Hs as (Hsp & Hc & Hn & Hsub & Hperm). split_and!; [done| | | |].
      - intros p' E. destruct (Hc _ E). split; [by right|done].
      - intros E p' s' [->|Hin]%elem_of_cons; [congruence|eauto].
      - etransitivity; [exact Hsub|]. apply submseteq_app; [done|by apply submseteq_cons].
      - rewrite list.filter_app, filter_cons_False, <- list.filter_app; [done|].
        unfold live. by rewrite Hp. }
  destruct (should_remove_if_is_removed f p s) as [f1 b] eqn:Er.
  apply should_remove_spawns in Er as [Hs1 ->]. destruct (rs_is_removed s) eqn:Erm.
  { apply IH in Hs as (Hsp & Hc & Hn & Hsub & Hperm). destruct Hs1 as [ts ->].
    split_and!; [by eapply only_spawns_trans; [eexists|]| | | |].
    - intros p' E. destruct (Hc _ E). split; [by right|done].
    - intros E p' s' [->|Hin]%elem_of_cons; [congruence|eauto].
    - etransitivity; [exact Hsub|]. apply submseteq_app; [done|by apply submseteq_cons].
    - rewrite list.filter_app, filter_cons_False, <- list.filter_app; [done|].
      unfold live. by rewrite Hp, Erm. }
  destruct (is_dark_mode_on s dark) eqn:Ed.
  { apply IH in Hs as (Hsp & Hc & Hn & Hsub & Hperm). destruct Hs1 as [ts ->].
    split_and!; [by eapply only_spawns_trans; [eexists|]| | | |].
    - intros p' E. destruct (Hc _ E). split; [by right|done].
    - intros E p' s' [->|Hin]%elem_of_cons; [congruence|eauto].
    - by rewrite <- app_assoc in Hsub.
    - by rewrite <- app_assoc in Hperm. }
  destruct Hs1 as [ts ->]. simplify_eq. assert (Hlive : live f p = true) by (unfold live; by rewrite Hp, Erm).
  assert (Hv3 : (q ++ skipped ++ (if str_eqb (rs_cranker_version s) CRANKER_V_3_0 then [p] else []))
    ++ taken f (Some p) ≡ₚ skipped ++ p :: q).
  { simpl. unfold is_v3. rewrite Hp. destruct (str_eqb _ _); rewrite ?app_nil_r;
      rewrite <- ?app_assoc; by rewrite (Permutation_app_comm q), <- app_assoc. }
  split_and!; [by eexists| |done| |].
  - intros p' [= <-]. split; [by left|eauto].
  - by rewrite Hv3.
  - rewrite <- Hv3, list.filter_app. f_equiv. rewrite filter_all; [done|].
    simpl. destruct (is_v3 f p); repeat constructor. done.
Qed.

(** ** Moving sockets between the channels and the requests *)

Definition queued f : list nat := concat (snd <$> map_to_list (chans f)).

(** The channel that the map holds for a route. *)
Definition route_chan f (route : str) : list nat :=
  match route_to_socket_chan f !! route with Some n => chan f (route, n) | None => [] end.

Lemma elem_of_queued f p : p ∈ queued f ↔ ∃ c, p ∈ chan f c.
Proof.
  unfold queued, chan. rewrite elem_of_concat. split.
  - intros (q & Hq & Hp). apply list_elem_of_fmap in Hq as ([c q'] & -> & Hq%elem_of_map_to_list).
    exists c. by rewrite Hq.
  - intros [c Hp]. destruct (chans f !! c) as [q|] eqn:E; [|by apply elem_of_nil in Hp].
    exists q. split; [|done]. apply list_elem_of_fmap. exists (c, q). split; [done|].
    by apply elem_of_map_to_list.
Qed.

(** While no socket is queued twice, it is in one channel only. *)
Lemma chan_unique f p c1 c2 : NoDup (queued f) → p ∈ chan f c1 → p ∈ chan f c2 → c1 = c2.
Proof.
  unfold queued, chan. intros Hnd H1 H2. destruct (decide (c1 = c2)) as [|Hne]; [done|]. exfalso.
  destruct (chans f !! c1) as [q1|] eqn:E1; [|by apply elem_of_nil in H1].
  destruct (chans f !! c2) as [q2|] eqn:E2; [|by apply elem_of_nil in H2].
  rewrite <- (map_to_list_delete _ _ _ E1) in Hnd. cbn in Hnd.
  apply list.NoDup_app in Hnd as (_ & Hd & _). apply (Hd p H1). apply elem_of_concat. exists q2. split; [|done].
  apply list_elem_of_fmap. exists (c2, q2). split; [done|]. apply elem_of_map_to_list. by rewrite lookup_delete_ne.
Qed.

(** A registration puts the socket at the end of the channel of its route, which is
    the one of the map or a new one. *)
Lemma add_router_socket_spec f p s :
  heap f !! p = Some s →
  let f' := add_router_socket_in_background f p in
  ∃ n, route_to_socket_chan f' = <[rs_route s := n]> (route_to_socket_chan f) ∧
    match route_to_socket_chan f !! rs_route s with
    | Some m => n = m
    | None => chans f !! (rs_route s, n) = None
    end ∧
    chans f' = <[(rs_route s, n) := chan f (rs_route s, n) ++ [p]]> (chans f) ∧
    sockets f' = <[rs_route s := <[rs_id s := p]> (default ∅ (sockets f !! rs_route s))]> (sockets f) ∧
    idle_count f' = wrap32 (idle_count f + 1) ∧ heap f' = heap f ∧ dark_hosts f' = dark_hosts f ∧
    route_last_removal_times f' = route_last_removal_times f ∧
    waiting_task_count f' = waiting_task_count f ∧ background f' = background f.
Proof.
  intros Hp. unfold add_router_socket_in_background. rewrite Hp. unfold entry_chan.
  cbn [route_to_socket_chan with_sockets]. destruct (route_to_socket_chan f !! rs_route s) as [m|] eqn:E.
  - exists m. cbn. split_and!; try done. by rewrite insert_id.
  - set (n := fresh _). exists n. cbn. assert (Hn : chans f !! (rs_route s, n) = None).
    { apply not_elem_of_dom. intros Hin. apply (is_fresh (set_map snd (dom (chans f)) : gset nat)).
      apply elem_of_map. by exists (rs_route s, n). }
    split_and!; try done. unfold chan. cbn. by rewrite lookup_insert_eq, Hn, insert_insert_eq.
Qed.

Lemma add_route_chan f p s :
  heap f !! p = Some s →
  let f' := add_router_socket_in_background f p in
  route_chan f' (rs_route s) = route_chan f (rs_route s) ++ [p] ∧ (∀ c, chan f c ⊆ chan f' c) ∧
  is_Some (route_to_socket_chan f' !! rs_route s) ∧
  ∀ r n, route_to_socket_chan f !! r = Some n → route_to_socket_chan f' !! r = Some n.
Proof.
  intros Hp f'. destruct (add_router_socket_spec f p s Hp) as (n & Hm & Hn & Hc & _). fold f' in Hm, Hc. split_and!.
  - unfold route_chan, chan. rewrite Hm, Hc, !lookup_insert_eq. cbn.
    destruct (route_to_socket_chan f !! rs_route s) as [m|]; [by subst m|]. unfold chan. by rewrite Hn.
  - intros c. unfold chan at 2. rewrite Hc. destruct (decide (c = (rs_route s, n))) as [->|Hne].
    + rewrite lookup_insert_eq. cbn. set_solver.
    + by rewrite lookup_insert_ne.
  - rewrite Hm, lookup_insert_eq. by eexists.
  - intros r m Hr. rewrite Hm. destruct (decide (r = rs_route s)) as [->|Hne]; [|by rewrite lookup_insert_ne].
    rewrite Hr in Hn. by rewrite lookup_insert_eq, Hn.
Qed.

(** The part of the state that no selection changes, and the channels keep
    every live socket but the one handed out. *)
Record moves f f' (o : option nat) : Prop := {
  mv_heap : heap f' = heap f;
  mv_dark : dark_hosts f' = dark_hosts f;
  mv_sockets : sockets f' = sockets f;
  mv_idle : idle_count f' = idle_count f;
  mv_waiting : waiting_task_count f' = waiting_task_count f;
  mv_routes : route_to_socket_chan f' = route_to_socket_chan f;
  mv_chans : dom (chans f') = dom (chans f);
  mv_sub : queued f' ++ taken f o ⊆+ queued f;
  mv_live : filter (λ p, live f p = true) (queued f) ≡ₚ
            filter (λ p, live f p = true) (queued f') ++ taken f o;
  mv_chan c : chan f' c ⊆ chan f c
}.

Lemma moves_spawns f f' : only_spawns f f' → moves f f' None.
Proof. intros [ts ->]. split; try done; simpl; by rewrite app_nil_r. Qed.

Lemma taken_heap f f' o : heap f' = heap f → taken f' o = taken f o.
Proof. intros Hh. unfold taken, is_v3. by rewrite Hh. Qed.

Lemma filter_live_heap f f' q :
  heap f' = heap f → filter (λ p, live f' p = true) q = filter (λ p, live f p = true) q.
Proof. intros Hh. apply filter_ext_in. intros p _. unfold live. by rewrite Hh. Qed.

Lemma moves_trans f1 f2 f3 o : moves f1 f2 None → moves f2 f3 o → moves f1 f3 o.
Proof.
  intros [Hh1 Hd1 Hs1 Hi1 Hw1 Hr1 Hn1 Hq1 Hl1 Hc1] [Hh2 Hd2 Hs2 Hi2 Hw2 Hr2 Hn2 Hq2 Hl2 Hc2].
  rewrite (taken_heap f1 f2) in * by done. simpl in Hq1, Hl1. rewrite app_nil_r in Hq1, Hl1.
  rewrite !(filter_live_heap f1 f2) in Hl2 by done.
  split; try congruence.
  - by etransitivity.
  - by rewrite Hl1.
  - intros r. by rewrite Hc2.
Qed.

Lemma set_chan_absent f c q : chans f !! c = None → set_chan f c q = f.
Proof.
  intros Hn. destruct f as [h cs]. unfold set_chan, with_chans. simpl in *. f_equal.
  apply map_eq. intros k. destruct (decide (k = c)) as [->|Hne].
  - by rewrite lookup_alter_eq, Hn.
  - by rewrite lookup_alter_ne.
Qed.

Lemma set_chan_queued f c q q' :
  chans f !! c = Some q →
  ∃ rest, queued f ≡ₚ q ++ rest ∧ queued (set_chan f c q') ≡ₚ q' ++ rest.
Proof.
  intros Hq. exists (concat (snd <$> map_to_list (delete c (chans f)))).
  unfold queued. split.
  - by rewrite <- (map_to_list_delete _ _ _ Hq).
  - cbn [set_chan with_chans chans].
    assert (Ha : alter (λ _, q') c (chans f) = <[c := q']> (delete c (chans f))).
    { apply map_eq. intros k. destruct (decide (k = c)) as [->|Hne].
      - by rewrite lookup_alter_eq, Hq, lookup_insert_eq.
      - by rewrite lookup_alter_ne, lookup_insert_ne, lookup_delete_ne. }
    rewrite Ha. by rewrite (map_to_list_insert _ _ _ (lookup_delete_eq _ _)).
Qed.

Lemma moves_set_chan f f1 c q' o :
  only_spawns f f1 → q' ++ taken f o ⊆+ chan f c →
  filter (λ p, live f p = true) (chan f c) ≡ₚ filter (λ p, live f p = true) q' ++ taken f o →
  moves f (set_chan f1 c q') o.
Proof.
  intros [ts ->]. unfold chan at 1 2. destruct (chans f !! c) as [q|] eqn:Hq; cbn [default]; intros Hsub Hperm.
  2:{ rewrite set_chan_absent by done. apply submseteq_nil_r, app_nil in Hsub as [_ Ht].
      assert (Hs : only_spawns f (spawn f ts)) by by eexists.
      destruct (moves_spawns f _ Hs) as [???????? Hl ?]. split; try done; rewrite Ht; by rewrite ?app_nil_r in *. }
  destruct (set_chan_queued f c q q' Hq) as (rest & H1 & H2).
  change (queued (set_chan (spawn f ts) c q')) with (queued (set_chan f c q')).
  split; try done.
  - cbn. by rewrite dom_alter_L.
  - change (queued (set_chan (spawn f ts) c q')) with (queued (set_chan f c q')).
    rewrite H1, H2, <- app_assoc, (Permutation_app_comm rest), app_assoc. by apply submseteq_app.
  - change (queued (set_chan (spawn f ts) c q')) with (queued (set_chan f c q')).
    rewrite H1, H2, !list.filter_app, Hperm, <- !app_assoc.
    by rewrite (Permutation_app_comm (taken f o)).
  - intros r p. unfold chan. cbn. destruct (decide (r = c)) as [->|Hne].
    + rewrite lookup_alter_eq, Hq. cbn. intros Hp. eapply elem_of_submseteq; [|exact Hsub]. set_solver.
    + by rewrite lookup_alter_ne.
Qed.

(** A socket that may be given to a request. *)
Definition usable f p : Prop :=
  ∃ s, heap f !! p = Some s ∧ rs_is_removed s = false ∧ is_dark_mode_on s (dark_hosts f) = false.

Lemma usable_moves f f' o p : moves f f' o → usable f p → usable f' p.
Proof. intros Hm. unfold usable. by rewrite (mv_heap _ _ _ Hm), (mv_dark _ _ _ Hm). Qed.

Lemma scan_chan_moves f c f' o :
  scan_chan f c = (f', o) → moves f f' o ∧ ∀ p, o = Some p → p ∈ chan f c ∧ usable f p.
Proof.
  unfold scan_chan. destruct (fallback_scan f (dark_hosts f) (chan f c) []) as [[f1 q1] o1] eqn:E. intros [= <- <-].
  apply fallback_scan_spec in E as (Hs & Hc & _ & Hsub & Hperm). split; [|exact Hc].
  by eapply moves_set_chan.
Qed.

(** A socket of the channel that the request holds, or of the one that the map holds
    for the catch-all route. *)
Definition in_reach f (c : str * nat) p : Prop := p ∈ chan f c ∨ p ∈ route_chan f STAR.

Lemma try_fallback_moves f req c f' o :
  try_fallback_sockets f req c = (f', o) →
  moves f f' o ∧ ∀ p, o = Some p → usable f p ∧
    (should_fallback_to_first_path_matched req = true ∨
     req_allow_catch_all req = true ∧ should_fallback_to_catch_all req = true).
Proof.
  unfold try_fallback_sockets. intros Hf.
  destruct (if should_fallback_to_first_path_matched req then _ else _) as [f1 o1] eqn:E1.
  assert (H1 : moves f f1 o1 ∧ ∀ p, o1 = Some p → usable f p ∧
    should_fallback_to_first_path_matched req = true).
  { destruct (should_fallback_to_first_path_matched req).
    - apply scan_chan_moves in E1 as [Hm Hu]. split; [done|]. intros p Hp. by split; [apply Hu|].
    - simplify_eq. split; [apply moves_spawns, only_spawns_refl|done]. }
  destruct H1 as [Hm1 Hu1]. destruct o1 as [p1|].
  { simplify_eq. split; [done|]. intros p Hp. destruct (Hu1 _ Hp). auto. }
  destruct (req_allow_catch_all req && should_fallback_to_catch_all req) eqn:Eb.
  - apply andb_true_iff in Eb. destruct (route_to_socket_chan f1 !! STAR) as [n|]; [|by simplify_eq].
    apply scan_chan_moves in Hf as [Hm Hu]. split; [by eapply moves_trans|]. intros p Hp. split; [|by right].
    destruct (Hu _ Hp) as [_ Hus]. unfold usable in *.
    by rewrite (mv_heap _ _ _ Hm1), (mv_dark _ _ _ Hm1) in Hus.
  - by simplify_eq.
Qed.

Lemma any_on_domain_spawns f host ps f' b : any_on_domain f host ps = (f', b) → only_spawns f f'.
Proof.
  revert f. induction ps as [|p ps IH]; intros f Ha; cbn [any_on_domain] in Ha.
  { simplify_eq. apply only_spawns_refl. }
  destruct (heap f !! p) as [s|]; [|by eapply IH].
  destruct (should_remove_if_is_removed f p s) as [f1 r] eqn:E. apply should_remove_spawns in E as [Hs ->].
  destruct (rs_is_removed s); [by eapply only_spawns_trans; [|eapply IH]|].
  destruct (str_eqb _ _); [by simplify_eq|]. by eapply only_spawns_trans; [|eapply IH].
Qed.

Lemma find_precise_spawns f req route f' b : find_precise_match f req route = (f', b) → only_spawns f f'.
Proof.
  unfold find_precise_match. destruct (opt_host req); [apply any_on_domain_spawns|].
  intros [= <- <-]. apply only_spawns_refl.
Qed.

Definition choice (r : nat + WaitAt) : option nat := match r with inl p => Some p | inr _ => None end.

Lemma run_loop_moves f req c precise visited f' r :
  run_loop f req c precise visited = (f', r) →
  moves f f' (choice r) ∧ ∀ p, r = inl p → usable f p.
Proof.
  unfold run_loop. intros Hr.
  destruct (filter_loop _ _ _ _ _ _) as [[f1 q1] lr] eqn:El.
  apply filter_loop_spec in El as (Hs & Hc & Hsub & Hperm).
  assert (Hm : moves f (set_chan f1 c q1) (chosen_of lr)).
  { by eapply moves_set_chan. }
  destruct lr as [p| | |].
  - simplify_eq. split; [done|]. intros p' [= <-]. destruct (Hc p eq_refl) as [_ (s & ? & ? & ? & _)].
    by exists s.
  - destruct (try_fallback_sockets _ _ _) as [f2 o2] eqn:Ef.
    apply try_fallback_moves in Ef as [Hm2 Hu2].
    assert (Hm' : moves f f2 o2) by (by eapply moves_trans).
    destruct o2 as [p2|]; simplify_eq; split; try done. intros p [= <-].
    destruct (Hu2 _ eq_refl) as [Hu _]. unfold usable in *.
    by rewrite (mv_heap _ _ _ Hm), (mv_dark _ _ _ Hm) in Hu.
  - by simplify_eq.
  - destruct (try_fallback_sockets _ _ _) as [f2 o2] eqn:Ef.
    apply try_fallback_moves in Ef as [Hm2 Hu2].
    assert (Hm' : moves f f2 o2) by (by eapply moves_trans).
    destruct o2 as [p2|]; simplify_eq; split; try done. intros p [= <-].
    destruct (Hu2 _ eq_refl) as [Hu _]. unfold usable in *.
    by rewrite (mv_heap _ _ _ Hm), (mv_dark _ _ _ Hm) in Hu.
Qed.

Lemma main_turn_moves f req c f' r :
  main_turn f req c = (f', r) → moves f f' (choice r) ∧ ∀ p, r = inl p → usable f p.
Proof.
  unfold main_turn. destruct (find_precise_match f req c.1) as [f1 b] eqn:Ef.
  apply find_precise_spawns in Ef as Hs. intros [Hm Hu]%run_loop_moves.
  pose proof (moves_spawns _ _ Hs) as Hm1. split; [by eapply moves_trans|].
  intros p Hp. specialize (Hu p Hp). by destruct Hs as [ts ->].
Qed.

Lemma resume_moves f req c w f' r :
  resume f req c w = (f', r) → moves f f' (choice r) ∧ ∀ p, r = inl p → usable f p.
Proof. destruct w; [apply run_loop_moves|apply main_turn_moves]. Qed.

(** A socket that is handed out was in reach. *)

Lemma scan_chan_chan f c f' p : scan_chan f c = (f', Some p) → p ∈ chan f c.
Proof. intros [_ Hp]%scan_chan_moves. by apply Hp. Qed.

Lemma in_reach_moves f f' c p o : moves f f' o → in_reach f' c p → in_reach f c p.
Proof.
  intros Hm [Hp|Hp]; [left; by apply (mv_chan _ _ _ Hm)|right]. unfold route_chan in *.
  rewrite (mv_routes _ _ _ Hm) in Hp. destruct (route_to_socket_chan f !! STAR); [|done]. by apply (mv_chan _ _ _ Hm).
Qed.

Lemma try_fallback_chan f req c f' p : try_fallback_sockets f req c = (f', Some p) → in_reach f c p.
Proof.
  unfold try_fallback_sockets. intros Hf.
  destruct (if should_fallback_to_first_path_matched req then _ else _) as [f1 o1] eqn:E1.
  assert (H1 : moves f f1 o1 ∧ ∀ p, o1 = Some p → p ∈ chan f c).
  { destruct (should_fallback_to_first_path_matched req).
    - apply scan_chan_moves in E1 as [Hm Hu]. split; [done|]. intros q Hq. by apply Hu.
    - simplify_eq. split; [apply moves_spawns, only_spawns_refl|done]. }
  destruct H1 as [Hm H1]. destruct o1 as [p1|]; [simplify_eq; by left; apply H1|].
  destruct (_ && _); [|done]. apply (in_reach_moves _ _ _ _ _ Hm). right. unfold route_chan.
  destruct (route_to_socket_chan f1 !! STAR); [|done]. by apply scan_chan_chan in Hf.
Qed.

Lemma run_loop_chan f req c precise visited f' p :
  run_loop f req c precise visited = (f', inl p) → in_reach f c p.
Proof.
  unfold run_loop. destruct (filter_loop _ _ _ _ _ _) as [[f1 q1] lr] eqn:El.
  apply filter_loop_spec in El as (Hs & Hc & Hsub & Hperm).
  assert (Hm : moves f (set_chan f1 c q1) (chosen_of lr)) by by eapply moves_set_chan.
  destruct lr as [x| | |]; try done; [intros [= <- <-]; left; by apply (Hc x)|..].
  all: destruct (try_fallback_sockets _ _ _) as [f2 [p2|]] eqn:Ef; [|done]; intros [= <- <-];
    apply try_fallback_chan in Ef; by eapply in_reach_moves.
Qed.

Lemma resume_chan f req c w f' p : resume f req c w = (f', inl p) → in_reach f c p.
Proof.
  destruct w; cbn [resume]; [apply run_loop_chan|]. unfold main_turn.
  destruct (find_precise_match f req c.1) as [f1 b] eqn:Ef. apply find_precise_spawns in Ef as [ts ->].
  intros Hr%run_loop_chan. exact Hr.
Qed.

Lemma filter_routes_spawns f host rs f' l : filter_routes f host rs = (f', l) → only_spawns f f'.
Proof.
  revert f f' l. induction rs as [|r rs IH]; intros f f' l Hf; cbn [filter_routes] in Hf.
  { simplify_eq. apply only_spawns_refl. }
  destruct (any_on_domain f host _) as [f1 b] eqn:Ea. apply any_on_domain_spawns in Ea.
  destruct (filter_routes f1 host rs) as [f2 l2] eqn:Er. simplify_eq.
  eapply only_spawns_trans; [exact Ea|]. by eapply IH.
Qed.

Lemma collect_routes_spawns f req f' rs : collect_routes f req = (f', rs) → only_spawns f f'.
Proof.
  unfold collect_routes. destruct (opt_host req) as [host|].
  - destruct (any_on_domain f host _) as [f1 b] eqn:Ea. apply any_on_domain_spawns in Ea. destruct b.
    + destruct (filter_routes f1 host _) as [f2 l] eqn:Er. apply filter_routes_spawns in Er.
      intros [= <- <-]. by eapply only_spawns_trans.
    + by intros [= <- <-].
  - intros [= <- <-]. apply only_spawns_refl.
Qed.

Lemma await_usable wakes f req c w f' p :
  await_socket wakes f req c w = (f', Some p) → usable f' p.
Proof.
  revert f w. induction wakes as [|e es IH]; intros f w Ha; cbn [await_socket] in Ha; [done|].
  destruct (resume (e f) req c w) as [f1 [p1|w1]] eqn:Er; [|by eapply IH].
  simplify_eq. apply resume_moves in Er as [Hm Hu]. by eapply usable_moves; [|apply Hu].
Qed.

Lemma get_router_socket_usable max_wait wakes f req f' p :
  get_router_socket max_wait wakes f req = (f', Ok p) → usable f' p.
Proof.
  unfold get_router_socket. destruct (collect_routes f req) as [f0 routes].
  destruct (route_to_socket_chan f0 !! _); [|done].
  destruct (await_socket _ _ _ _ _) as [f1 o] eqn:Ea. destruct o as [p1|].
  - intros [= <- <-]. apply await_usable in Ea. exact Ea.
  - destruct (try_fallback_sockets _ _ _) as [f2 [p2|]] eqn:Et; [|done].
    intros [= <- <-]. apply try_fallback_moves in Et as [Hm Hu]. destruct (Hu _ eq_refl) as [Hus _].
    by eapply usable_moves.
Qed.

(** C2: whatever other tasks do to the farm while a request waits, a socket
    that is handed to the request exists, is not marked as removed and does not
    belong to a host in dark mode, in the state in which it is handed out. *)
Theorem handed_socket_usable max_wait wakes f req f' p :
  get_router_socket max_wait wakes f req = (f', Ok p) → usable f' p.
Proof. apply get_router_socket_usable. Qed.

(** C8: one turn of the selection neither loses nor duplicates a socket: up to
    order, the live sockets in the channels before the turn are those after it
    plus the one handed out if that one is not a version 3 socket; everything
    the turn drops from a channel is gone or marked as removed, and the sockets
    map, the idle count and the dark hosts stay as they are. *)
Theorem selection_conserves_sockets f req c f' r :
  main_turn f req c = (f', r) →
  filter (λ p, live f p = true) (queued f) ≡ₚ
    filter (λ p, live f p = true) (queued f') ++ taken f (choice r) ∧
  queued f' ++ taken f (choice r) ⊆+ queued f ∧
  sockets f' = sockets f ∧ idle_count f' = idle_count f ∧ heap f' = heap f ∧
  dark_hosts f' = dark_hosts f.
Proof. intros [[] _]%main_turn_moves. done. Qed.

(** C40: the filter loop always ends within one more turn than the channel has
    sockets, whatever was visited before: it chooses a socket, finds none
    suitable, or blocks on the empty channel. *)
Theorem filter_loop_terminates req precise visited q f :
  (filter_loop (Datatypes.S (length q)) req precise visited q f).2 ≠ LoopOutOfFuel.
Proof.
  rewrite <- (app_nil_r q) at 2. apply filter_loop_fuel; [lia|constructor].
Qed.

(** The filter loop is complete: when the channel of the request holds a
    socket that is alive, not removed, not dark, not shadowed by a precise
    domain match and accepted by the filter, and the ids in the channel are
    distinct, the first turn hands out a socket of that kind without waiting. *)
Theorem eligible_socket_is_found f req c :
  NoDup (ids f (chan f c)) →
  Exists (eligible f req (find_precise_match f req c.1).2) (chan f c) →
  ∃ f' p, main_turn f req c = (f', inl p) ∧ p ∈ chan f c ∧
          eligible f req (find_precise_match f req c.1).2 p.
Proof.
  intros Hnd He. unfold main_turn.
  destruct (find_precise_match f req c.1) as [f1 b] eqn:Ef. apply find_precise_spawns in Ef as [ts ->].
  simpl in He. unfold run_loop. change (chan (spawn f ts) c) with (chan f c).
  destruct (filter_loop_complete (Datatypes.S (length (chan f c))) req b ∅ (chan f c) [] (spawn f ts)) as [p Hp];
    [lia|done|apply list.Forall_forall; set_solver|done|].
  rewrite app_nil_r in Hp.
  destruct (filter_loop _ _ _ _ _ _) as [[f2 q2] lr] eqn:El. simpl in Hp. subst lr.
  apply filter_loop_spec in El as (_ & Hc & _). destruct (Hc p eq_refl) as [Hin Hel].
  eexists _, p. split_and!; [done..|]. exact Hel.
Qed.

Lemma chan_set_chan_eq f c q : is_Some (chans f !! c) → chan (set_chan f c q) c = q.
Proof. intros [x Hx]. unfold chan. cbn. by rewrite lookup_alter_eq, Hx. Qed.

Lemma chan_set_chan_ne f c c' q : c' ≠ c → chan (set_chan f c q) c' = chan f c'.
Proof. intros Hne. unfold chan. cbn. by rewrite lookup_alter_ne. Qed.

(** A channel that was not made yet stays empty. *)
Lemma chan_set_chan_sub f c q p : p ∈ chan (set_chan f c q) c → p ∈ q.
Proof. unfold chan. cbn. rewrite lookup_alter_eq. destruct (chans f !! c); [done|]. by intros ?%elem_of_nil. Qed.

(** A scan that finds nothing leaves no usable socket in its channel. *)
Lemma scan_chan_None f c f' :
  scan_chan f c = (f', None) →
  (∀ p, p ∈ chan f' c → ~ usable f' p) ∧ ∀ c', c' ≠ c → chan f' c' = chan f c'.
Proof.
  unfold scan_chan. destruct (fallback_scan f (dark_hosts f) (chan f c) []) as [[f1 q1] o1] eqn:E. intros [= <- ->].
  apply fallback_scan_spec in E as ([ts ->] & _ & Hn & Hsub & _). simpl in Hsub.
  rewrite app_nil_r in Hsub. split; [|intros c' Hne; by rewrite chan_set_chan_ne].
  intros p Hin%chan_set_chan_sub (s & Hs & Hr & Hd).
  change (heap f !! p = Some s) in Hs. change (is_dark_mode_on s (dark_hosts f) = false) in Hd.
  rewrite (Hn eq_refl p s) in Hd; [done| |done..].
  eapply elem_of_submseteq; [exact Hin|exact Hsub].
Qed.

Lemma try_fallback_None f req c f' :
  try_fallback_sockets f req c = (f', None) →
  (should_fallback_to_first_path_matched req = true → ∀ p, p ∈ chan f' c → ~ usable f' p) ∧
  (req_allow_catch_all req = true → should_fallback_to_catch_all req = true →
   ∀ p, p ∈ route_chan f' STAR → ~ usable f' p).
Proof.
  unfold try_fallback_sockets. intros Hf.
  destruct (if should_fallback_to_first_path_matched req then _ else _) as [f1 [p1|]] eqn:E1; [done|].
  assert (H1 : should_fallback_to_first_path_matched req = true → ∀ p, p ∈ chan f1 c → ~ usable f1 p).
  { intros Hfirst. rewrite Hfirst in E1. by apply scan_chan_None in E1 as [? _]. }
  destruct (req_allow_catch_all req && should_fallback_to_catch_all req) eqn:Eb.
  2:{ simplify_eq. split; [done|]. intros Ha Hb. by rewrite Ha, Hb in Eb. }
  destruct (route_to_socket_chan f1 !! STAR) as [n|] eqn:Hstar.
  2:{ simplify_eq. split; [done|]. intros _ _ p. unfold route_chan. rewrite Hstar. by intros ?%elem_of_nil. }
  pose proof Hf as [Hm _]%scan_chan_moves. apply scan_chan_None in Hf as [Hn Hne]. split.
  - intros Hfirst p Hp. destruct (decide (c = (STAR, n))) as [->|Hneq]; [by apply Hn|]. rewrite Hne in Hp by done.
    specialize (H1 Hfirst p Hp). unfold usable in *. by rewrite (mv_heap _ _ _ Hm), (mv_dark _ _ _ Hm).
  - intros _ _ p. unfold route_chan. rewrite (mv_routes _ _ _ Hm), Hstar. apply Hn.
Qed.

(** With the domain filter, a route that has a live socket of the request's own
    host serves the request, as far as the filter loop goes, from sockets of
    exactly that host. *)
Lemma precise_domain_wins fuel path host resolve ca visited q f f' q' p :
  filter_loop fuel (domain_filter_request path (Some host) resolve ca) true visited q f =
    (f', q', Chosen p) →
  ∃ s, heap f !! p = Some s ∧ rs_domain s = host.
Proof.
  intros (_ & Hc & _)%filter_loop_spec. destruct (Hc p eq_refl) as (_ & s & Hs & _ & _ & Hd & Hu).
  exists s. split; [done|]. cbn in Hu. apply orb_true_iff in Hu as [Hu|Hu]; apply str_eqb_true in Hu.
  - by destruct (Hd eq_refl).
  - done.
Qed.

(** C30: the outcomes of a request: when the resolver maps its path to a route
    without a channel it fails at once with 404 and error kind 0002; otherwise it
    holds the channel that the map has for the route at that moment, and it gets a
    socket or fails with 503 when the time is over, and then no socket a fall back
    could use is left in the channel it holds (if the filter falls back to it) nor
    in the channel that the map has for the catch-all route (if catch-all is
    allowed). *)
Theorem request_outcomes max_wait wakes f req :
  let route := resolve_route req (collect_routes f req).2 (target_path req) in
  let '(f', r) := get_router_socket max_wait wakes f req in
  match route_to_socket_chan f !! route with
  | None => r = Err (no_route_error (target_path req)) ∧ queued f' = queued f
  | Some n =>
      (∃ p, r = Ok p) ∨
      (r = Err (timeout_error max_wait (target_path req)) ∧
       (should_fallback_to_first_path_matched req = true →
        ∀ p, p ∈ chan f' (route, n) → ~ usable f' p) ∧
       (req_allow_catch_all req = true → should_fallback_to_catch_all req = true →
        ∀ p, p ∈ route_chan f' STAR → ~ usable f' p))
  end.
Proof.
  unfold get_router_socket. destruct (collect_routes f req) as [f0 routes] eqn:Ec.
  apply collect_routes_spawns in Ec as [ts ->]. cbn [snd route_to_socket_chan spawn].
  destruct (route_to_socket_chan f !! _) as [n|]; [|done].
  destruct (await_socket _ _ _ _ _) as [f1 [p|]]; [by left; eexists|].
  destruct (try_fallback_sockets _ _ _) as [f2 [p|]] eqn:Et; [by left; eexists|].
  right. split; [done|]. by apply try_fallback_None in Et.
Qed.

End selection.
