(* ===== verification/Cancellation.v ===== *)
(** * Requests that are dropped while they look for a socket

    The filter loop of [get_router_socket_by_target_path_and_apply_filter]
    (websocket_farm.rs) one poll at a time.  A future can be dropped wherever it
    awaits: in [recv], or in the [send] that puts a socket back.  While it holds a
    socket that is in no channel, a [SocketGuard] holds it too; the [Drop] of the
    guard spawns a task that puts it back.  [filter_loop] of [Farm] is what the
    polls compute when nobody interrupts them. *)

From S2P Require Import Prelude RustStr Exceptions Http RouteResolver Config Farm.

Section cancellation.
Context {S : Type} `{RouterSocket S}.
Implicit Types (f : Farm S) (req : Request S) (q : list nat) (p : nat).

(** What follows a [send] that puts a socket back: [break], [continue] or
    [return]. *)
Inductive AfterSend := SBreak | SContinue | SReturn.

(** Where the loop stands: in [recv().await], in [send(p).await] with [p] in the
    guard, or behind the loop. *)
Inductive Phase :=
| Receiving
| Sending (p : nat) (next : AfterSend)
| Left (r : LoopRes).

Record LoopState := MkLoop {
  ls_farm : Farm S;
  ls_queue : list nat;
  ls_visited : gset str;
  ls_phase : Phase
}.

(** The socket of the [SocketGuard] at an await. *)
Definition guard_socket (ph : Phase) : option nat :=
  match ph with Sending p _ => Some p | _ => None end.

(** From one await to the next; [None] when the channel is empty or the loop is
    over. *)
Definition loop_poll req (has_precise_match : bool) (st : LoopState) : option LoopState :=
  let '(MkLoop f q visited ph) := st in
  match ph with
  | Receiving =>
      match q with
      | [] => None
      | p :: q =>
          match upgrade f p with
          | None => Some (MkLoop f q visited Receiving)
          | Some s =>
              let rsid := rs_id s in
              if bool_decide (rsid ∈ visited) then Some (MkLoop f q visited (Sending p SBreak))
              else
                let '(f, removed) := should_remove_if_is_removed f p s in
                if removed then Some (MkLoop f q visited Receiving)
                else
                  let visited := {[rsid]} ∪ visited in
                  if is_dark_mode_on s (dark_hosts f) then Some (MkLoop f q visited (Sending p SContinue))
                  else if has_precise_match && str_eqb (rs_domain s) STAR
                  then Some (MkLoop f q visited (Sending p SContinue))
                  else if should_use req s
                  then Some (MkLoop f q visited
                         (if str_eqb (rs_cranker_version s) CRANKER_V_3_0 then Sending p SReturn
                          else Left (Chosen p)))
                  else Some (MkLoop f q visited (Sending p SContinue))
          end
      end
  | Sending p next =>
      Some (MkLoop f (q ++ [p]) visited
              match next with
              | SBreak => Left Exhausted
              | SContinue => Receiving
              | SReturn => Left (Chosen p)
              end)
  | Left _ => None
  end.

(** The future is dropped, and the task its guard spawned has run. *)
Definition drop_loop (st : LoopState) : list nat := ls_queue st ++ option_list (guard_socket (ls_phase st)).

(** The polls, one after the other. *)
Definition polls req (precise : bool) : LoopState → LoopState → Prop :=
  rtc (λ a b, loop_poll req precise a = Some b).

(** ** The polls compute the filter loop *)

(** How a result of [filter_loop] looks as a state. *)
Definition final f q (visited : gset str) (r : LoopRes) : LoopState :=
  match r with
  | BlockedRecv v => MkLoop f q v Receiving
  | r => MkLoop f q visited (Left r)
  end.

Lemma filter_loop_polls fuel req precise visited q f f' q' r :
  filter_loop fuel req precise visited q f = (f', q', r) → r ≠ LoopOutOfFuel →
  ∃ visited', polls req precise (MkLoop f q visited Receiving) (final f' q' visited' r).
Proof.
  revert visited q f. induction fuel as [|fuel IH]; intros visited q f; cbn [filter_loop]; [by intros [= _ _ <-]|].
  (* a poll that leads back to [recv], and one that sends first *)
  assert (Hone : ∀ st f1 q1 v1, loop_poll req precise st = Some (MkLoop f1 q1 v1 Receiving) →
    filter_loop fuel req precise v1 q1 f1 = (f', q', r) → r ≠ LoopOutOfFuel →
    ∃ visited', polls req precise st (final f' q' visited' r)).
  { intros st f1 q1 v1 Hp Hl Hr. destruct (IH _ _ _ Hl Hr) as [v Hv]. exists v. eapply rtc_l; [exact Hp|exact Hv]. }
  assert (Htwo : ∀ st f1 q1 v1 p next ph, loop_poll req precise st = Some (MkLoop f1 q1 v1 (Sending p next)) →
    loop_poll req precise (MkLoop f1 q1 v1 (Sending p next)) = Some (MkLoop f1 (q1 ++ [p]) v1 ph) →
    polls req precise st (MkLoop f1 (q1 ++ [p]) v1 ph)).
  { intros. eapply rtc_l; [eassumption|]. by apply rtc_once. }
  destruct q as [|p q]; [by intros [= <- <- <-] _; exists visited|].
  destruct (upgrade f p) as [s|] eqn:Eu.
  2:{ intros Hl Hr. eapply Hone; [|exact Hl|done]. cbn. by rewrite Eu. }
  destruct (bool_decide _) eqn:Ev.
  { intros [= <- <- <-] _. exists visited. eapply (Htwo _ _ _ _ p SBreak); [|done]. cbn [loop_poll]. by rewrite Eu, Ev. }
  destruct (should_remove_if_is_removed f p s) as [f1 b] eqn:Er. destruct b.
  { intros Hl Hr. eapply Hone; [|exact Hl|done]. cbn [loop_poll]. by rewrite Eu, Ev, Er. }
  cbv zeta. set (v1 := {[rs_id s]} ∪ visited).
  assert (Hback : ∀ g, (filter_loop fuel req precise v1 (q ++ [p]) g = (f', q', r)) → r ≠ LoopOutOfFuel →
    loop_poll req precise (MkLoop f (p :: q) visited Receiving) = Some (MkLoop g q v1 (Sending p SContinue)) →
    ∃ visited', polls req precise (MkLoop f (p :: q) visited Receiving) (final f' q' visited' r)).
  { intros g Hl Hr Hp. destruct (IH _ _ _ Hl Hr) as [v Hv]. exists v. etransitivity; [|exact Hv].
    eapply Htwo; [exact Hp|done]. }
  destruct (is_dark_mode_on s _) eqn:Ed.
  { intros Hl Hr. eapply Hback; [exact Hl|done|]. cbn [loop_poll]. by rewrite Eu, Ev, Er, Ed. }
  destruct (precise && _) eqn:Ep.
  { intros Hl Hr. eapply Hback; [exact Hl|done|]. cbn [loop_poll]. by rewrite Eu, Ev, Er, Ed, Ep. }
  destruct (should_use req s) eqn:Es.
  2:{ intros Hl Hr. eapply Hback; [exact Hl|done|]. cbn [loop_poll]. by rewrite Eu, Ev, Er, Ed, Ep, Es. }
  intros [= <- <- <-] _. exists v1. destruct (str_eqb (rs_cranker_version s) _) eqn:E3.
  - eapply (Htwo _ _ _ _ p SReturn); [|done]. cbn [loop_poll]. by rewrite Eu, Ev, Er, Ed, Ep, Es, E3.
  - apply rtc_once. cbn [loop_poll]. by rewrite Eu, Ev, Er, Ed, Ep, Es, E3.
Qed.

(** ** What a dropped request leaves *)

Definition chosen_phase (ph : Phase) : option nat :=
  match ph with Left (Chosen p) => Some p | _ => None end.

(** The loop only returns from a [send] with a version 3 socket. *)
Definition returns_v3 (st : LoopState) : Prop :=
  ∀ p, ls_phase st = Sending p SReturn → is_v3 (ls_farm st) p = true.

Lemma poll_returns_v3 req precise st st' : loop_poll req precise st = Some st' → returns_v3 st'.
Proof.
  destruct st as [f q visited [|p next|r]]; cbn [loop_poll]; [| |done].
  - destruct q as [|p q]; [done|]. destruct (upgrade f p) as [s|] eqn:Eu; [|by intros [= <-]].
    destruct (bool_decide _); [by intros [= <-]|].
    destruct (should_remove_if_is_removed f p s) as [f1 b] eqn:Er. apply should_remove_spawns in Er as [[ts ->] _].
    destruct b; [by intros [= <-]|]. cbv zeta. destruct (is_dark_mode_on s _); [by intros [= <-]|].
    destruct (_ && _); [by intros [= <-]|]. destruct (should_use req s); [|by intros [= <-]].
    intros [= <-] p0. cbn [ls_phase ls_farm]. destruct (str_eqb _ _) eqn:E3; [|done]. intros [= <-].
    unfold is_v3. unfold upgrade in Eu. cbn. by rewrite Eu.
  - intros [= <-]. by destruct next.
Qed.

(** The live sockets of [st], in the channel or in the guard, are those of [st'] and
    the version 1 socket it has chosen; nothing is there twice that was not. *)
Definition keeps_live (st st' : LoopState) : Prop :=
  only_spawns (ls_farm st) (ls_farm st') ∧
  drop_loop st' ++ taken (ls_farm st) (chosen_phase (ls_phase st')) ⊆+ drop_loop st ∧
  filter (λ p, live (ls_farm st) p = true) (drop_loop st) ≡ₚ
    filter (λ p, live (ls_farm st) p = true) (drop_loop st') ++
    taken (ls_farm st) (chosen_phase (ls_phase st')).

(** A socket that goes back to the channel is in the guard meanwhile. *)
Lemma keeps_send f f1 p q (v visited : gset str) next :
  only_spawns f f1 → keeps_live (MkLoop f (p :: q) visited Receiving) (MkLoop f1 q v (Sending p next)).
Proof.
  intros Hs. split; [done|]. cbn [ls_farm ls_phase chosen_phase taken]. rewrite !app_nil_r.
  assert (Hp : drop_loop (MkLoop f1 q v (Sending p next)) ≡ₚ drop_loop (MkLoop f (p :: q) visited Receiving)).
  { unfold drop_loop. cbn. rewrite app_nil_r. by rewrite Permutation_app_comm. }
  by rewrite Hp.
Qed.

(** Only sockets that are not alive are passed over. *)
Lemma keeps_skip f f1 p q (visited : gset str) :
  only_spawns f f1 → live f p = false →
  keeps_live (MkLoop f (p :: q) visited Receiving) (MkLoop f1 q visited Receiving).
Proof.
  intros Hs Hl. split; [done|]. unfold drop_loop.
  cbn [ls_farm ls_queue ls_phase guard_socket option_list chosen_phase taken]. rewrite !app_nil_r.
  split; [by apply submseteq_cons|]. by rewrite filter_cons_False by congruence.
Qed.

(** A version 1 socket that is chosen leaves the channel. *)
Lemma keeps_chosen f f1 p q (s : S) (v visited : gset str) :
  only_spawns f f1 → heap f !! p = Some s → rs_is_removed s = false →
  str_eqb (rs_cranker_version s) CRANKER_V_3_0 = false →
  keeps_live (MkLoop f (p :: q) visited Receiving) (MkLoop f1 q v (Left (Chosen p))).
Proof.
  intros Hs Ep Erm E3. split; [done|]. unfold drop_loop.
  cbn [ls_farm ls_queue ls_phase guard_socket option_list chosen_phase taken]. unfold is_v3. rewrite Ep, E3, !app_nil_r.
  split; [by rewrite Permutation_app_comm|].
  rewrite filter_cons_True by (unfold live; by rewrite Ep, Erm). by rewrite Permutation_app_comm.
Qed.

(** Every poll keeps the live sockets. *)
Lemma poll_keeps req precise st st' :
  loop_poll req precise st = Some st' → returns_v3 st → keeps_live st st'.
Proof.
  intros Hp Hv3. revert Hp. destruct st as [f q visited [|p next|r]]; cbn [loop_poll]; [| |done].
  - destruct q as [|p q]; [done|]. unfold upgrade. destruct (heap f !! p) as [s|] eqn:Ep.
    2:{ intros [= <-]. apply keeps_skip; [apply only_spawns_refl|]. unfold live. by rewrite Ep. }
    destruct (bool_decide _); [intros [= <-]; apply keeps_send, only_spawns_refl|].
    destruct (should_remove_if_is_removed f p s) as [f1 b] eqn:Er. apply should_remove_spawns in Er as [Hs ->].
    destruct (rs_is_removed s) eqn:Erm.
    { intros [= <-]. apply keeps_skip; [done|]. unfold live. by rewrite Ep, Erm. }
    cbv zeta. destruct (is_dark_mode_on s _); [intros [= <-]; by apply keeps_send|].
    destruct (_ && _); [intros [= <-]; by apply keeps_send|].
    destruct (should_use req s); [|intros [= <-]; by apply keeps_send].
    destruct (str_eqb (rs_cranker_version s) CRANKER_V_3_0) eqn:E3; intros [= <-]; [by apply keeps_send|].
    by eapply keeps_chosen.
  - intros [= <-]. split; [apply only_spawns_refl|]. cbn [ls_farm ls_phase]. unfold drop_loop.
    replace (taken f _) with (@nil nat) by (destruct next; [done..|]; specialize (Hv3 p eq_refl); cbn in Hv3 |- *; by rewrite Hv3).
    destruct next; cbn; by rewrite !app_nil_r.
Qed.

Lemma polls_keep req precise st st' :
  polls req precise st st' → returns_v3 st → chosen_phase (ls_phase st) = None → keeps_live st st'.
Proof.
  induction 1 as [st|st st1 st' H1 Hr IH]; intros Hv Hc.
  { unfold keeps_live. rewrite Hc. cbn. rewrite !app_nil_r. by split; [apply only_spawns_refl|]. }
  destruct (poll_keeps _ _ _ _ H1 Hv) as ([ts Hs] & Hsub & Hperm). apply poll_returns_v3 in H1 as Hv1.
  destruct (chosen_phase (ls_phase st1)) as [p|] eqn:E1.
  - assert (st' = st1) as ->.
    { clear -Hr E1. inversion Hr as [|? st2 ? H2]; subst; [done|]. destruct st1 as [f q v [|? ?|r]]; done. }
    unfold keeps_live. rewrite E1. split; [by exists ts|done].
  - destruct (IH Hv1 eq_refl) as (Hs' & Hsub' & Hperm'). rewrite Hs in *. cbn in Hsub, Hperm.
    rewrite app_nil_r in Hsub, Hperm. split; [eapply only_spawns_trans; [|exact Hs']; by eexists|].
    split; [by etransitivity|]. by rewrite Hperm.
Qed.

(** ** The farm after a dropped request *)

(** The request is dropped after at most [n] polls of its loop on the channel
    [c]; the socket it has chosen by then, if any. *)
Fixpoint poll_n (n : nat) req (precise : bool) (st : LoopState) : LoopState :=
  match n with
  | O => st
  | Datatypes.S n => match loop_poll req precise st with Some st => poll_n n req precise st | None => st end
  end.

Definition cancel_after (n : nat) f req (c : str * nat) (precise : bool) (visited : gset str)
  : Farm S * option nat :=
  let st := poll_n n req precise (MkLoop f (chan f c) visited Receiving) in
  (set_chan (ls_farm st) c (drop_loop st), chosen_phase (ls_phase st)).

Lemma poll_n_polls n req precise st : polls req precise st (poll_n n req precise st).
Proof.
  revert st. induction n as [|n IH]; intros st; cbn; [apply rtc_refl|].
  destruct (loop_poll req precise st) as [st1|] eqn:E; [|apply rtc_refl]. eapply rtc_l; [exact E|apply IH].
Qed.

Lemma cancel_moves n f req c precise visited f' o :
  cancel_after n f req c precise visited = (f', o) → moves f f' o.
Proof.
  unfold cancel_after. set (st := MkLoop _ _ _ _). intros [= <- <-].
  destruct (polls_keep req precise st (poll_n n req precise st) (poll_n_polls _ _ _ _))
    as (Hs & Hsub & Hperm); [done|done|]. change (ls_farm st) with f in *.
  assert (Hd : drop_loop st = chan f c) by apply app_nil_r.
  rewrite Hd in Hsub, Hperm. by eapply moves_set_chan.
Qed.

(** A version 1 socket that was chosen was alive in the channel. *)
Lemma cancel_taken n f req c precise visited p :
  p ∈ taken f (cancel_after n f req c precise visited).2 → p ∈ chan f c ∧ live f p = true.
Proof.
  unfold cancel_after. set (st := MkLoop _ _ _ _). cbn [snd]. intros Hp.
  destruct (polls_keep req precise st (poll_n n req precise st) (poll_n_polls _ _ _ _))
    as (_ & _ & Hperm); [done|done|]. change (ls_farm st) with f in Hperm.
  assert (Hd : drop_loop st = chan f c) by apply app_nil_r. rewrite Hd in Hperm.
  assert (Hin : p ∈ filter (λ p, live f p = true) (chan f c)) by (rewrite Hperm; apply elem_of_app; by right).
  by apply list_elem_of_filter in Hin as [? ?].
Qed.

(** A request that comes to its first search and is dropped there. *)
Definition dropped_request (n : nat) f req : Farm S :=
  let '(f, current_routes) := collect_routes f req in
  let resolved_route := resolve_route req current_routes (target_path req) in
  match route_to_socket_chan f !! resolved_route with
  | None => f
  | Some m =>
      let f := with_waiting f (wrap32 (waiting_task_count f + 1)) in
      let '(f, precise) := find_precise_match f req resolved_route in
      (cancel_after n f req (resolved_route, m) precise ∅).1
  end.

(** The count of waiting requests is not taken back: the code that does it comes
    after the search. *)
Lemma dropped_request_stays_counted n f req :
  is_Some (route_to_socket_chan f !! resolve_route req (collect_routes f req).2 (target_path req)) →
  waiting_task_count (dropped_request n f req) = wrap32 (waiting_task_count f + 1).
Proof.
  unfold dropped_request. destruct (collect_routes f req) as [f0 routes] eqn:Ec.
  apply collect_routes_spawns in Ec as [ts ->]. cbn [snd route_to_socket_chan spawn]. intros [q ->].
  destruct (find_precise_match _ _ _) as [f1 b] eqn:Ef. apply find_precise_spawns in Ef as [ts' ->].
  destruct (cancel_after _ _ _ _ _ _) as [f2 o] eqn:Ea. apply cancel_moves in Ea. cbn [fst].
  by rewrite (mv_waiting _ _ _ Ea).
Qed.

(** C10: a request that is dropped while it looks for a socket loses none: after
    any number of polls of its loop, in [recv] or in the middle of putting a socket
    back, the sockets of the channel together with the one its guard puts back are
    the live sockets that were there before, none lost and none twice; and the
    polls compute the filter loop: left alone, they come to its result. *)
Theorem dropped_request_loses_no_socket req precise visited q f st :
  polls req precise (MkLoop f q visited Receiving) st →
  (chosen_phase (ls_phase st) = None →
   drop_loop st ⊆+ q ∧
   filter (λ p, live f p = true) q ≡ₚ filter (λ p, live f p = true) (drop_loop st)) ∧
  (let '(f', q', r) := filter_loop (Datatypes.S (length q)) req precise visited q f in
   ∃ visited', polls req precise (MkLoop f q visited Receiving) (final f' q' visited' r) ∧
     loop_poll req precise (final f' q' visited' r) = None).
Proof.
  intros Hp. split.
  - intros Hc. destruct (polls_keep _ _ _ _ Hp) as (_ & Hsub & Hperm); [done|done|].
    rewrite Hc in Hsub, Hperm. unfold drop_loop at 2 in Hsub. unfold drop_loop at 1 in Hperm.
    cbn in Hsub, Hperm. by rewrite !app_nil_r in Hsub, Hperm.
  - destruct (filter_loop _ _ _ _ _ _) as [[f' q'] r] eqn:El.
    assert (Hr : r ≠ LoopOutOfFuel).
    { pose proof (filter_loop_fuel (Datatypes.S (length q)) req precise visited q [] f ltac:(lia) ltac:(constructor)) as Hf.
      by rewrite app_nil_r, El in Hf. }
    destruct (filter_loop_polls _ _ _ _ _ _ _ _ _ El Hr) as [v Hv]. exists v. split; [exact Hv|].
    destruct r as [p| |v'|]; [done..| |done]. apply filter_loop_blocked in El as ->. done.
Qed.

End cancellation.
