(* ===== verification/FarmTraces.v ===== *)
(** * Histories of the pool of router sockets

    The operations of [Farm], run in any order by the tasks of the router, as
    one step function on a world: the farm, the pointers ever allocated, the
    version 1 sockets handed to requests, and the number of registrations that
    left the map of sockets without being counted.  The theorems are invariants
    of all histories. *)

From S2P Require Import Prelude RustStr Exceptions Http RouteResolver Config Farm Cancellation.

Section traces.
Context {S : Type} `{RouterSocket S}.

Inductive FarmOp :=
| OpRegister (p : nat) (s : S)
| OpRemove (now : Z) (route id : str) (p : nat)
| OpDeregister (now : Z) (route connector_id : str)
| OpClean (now keep : Z)
| OpEnableDark (d : DarkHost)
| OpDisableDark (d : DarkHost)
| OpTerminate (force : bool)
| OpTurn (req : Request S) (c : str * nat) (w : WaitAt)
| OpFallback (req : Request S) (c : str * nat)
| OpCancel (n : nat) (req : Request S) (c : str * nat) (precise : bool) (visited : gset str)
| OpSocket (p : nat) (s : S)
| OpDrop (p : nat).

Record World := MkWorld {
  w_farm : Farm S;
  w_alloc : gset nat;
  w_handed : list nat;
  w_leaked : Z
}.

Definition world_new : World := MkWorld farm_new ∅ [] 0.

(** Two states of the same socket: the fields that never change. *)
Definition same_socket (s s' : S) : Prop :=
  rs_route s' = rs_route s ∧ rs_id s' = rs_id s ∧ rs_connector_id s' = rs_connector_id s ∧
  rs_cranker_version s' = rs_cranker_version s.

#[global] Instance same_socket_dec s s' : Decision (same_socket s s').
Proof. unfold same_socket. apply _. Defined.

(** The active sockets a de-registration takes out of the map. *)
Definition active_deregistered (f : Farm S) (route connector_id : str) : list nat :=
  filter (λ p, has_connector (heap f) connector_id p = true ∧
               match heap f !! p with Some s => rs_is_active s | None => false end = true)
    (route_ptrs f route).

(** A socket is registered under a fresh pointer and id; a request continues
    from where it waits, on whatever channel it holds, or is dropped in the middle of
    its search; a socket changes its own state; a socket that is not in the map may
    be freed. *)
Definition farm_step (w : World) (op : FarmOp) : option World :=
  let f := w_farm w in
  match op with
  | OpRegister p s =>
      if decide (p ∈ w_alloc w) then None
      else if decide (default ∅ (sockets f !! rs_route s) !! rs_id s = None) then
        Some (MkWorld (add_router_socket_in_background (with_heap f (<[p := s]> (heap f))) p)
                ({[p]} ∪ w_alloc w) (w_handed w) (w_leaked w))
      else None
  | OpRemove now route i p =>
      Some (MkWorld (remove_router_socket_in_background f now route i p) (w_alloc w) (w_handed w)
              (w_leaked w))
  | OpDeregister now route c =>
      Some (MkWorld (de_register_router_socket_in_background f now route c) (w_alloc w) (w_handed w)
              (w_leaked w + Z.of_nat (length (active_deregistered f route c))))
  | OpClean now keep =>
      Some (MkWorld (clean_routes_in_background f now keep) (w_alloc w) (w_handed w) (w_leaked w))
  | OpEnableDark d => Some (MkWorld (enable_dark_mode f d) (w_alloc w) (w_handed w) (w_leaked w))
  | OpDisableDark d => Some (MkWorld (disable_dark_mode f d) (w_alloc w) (w_handed w) (w_leaked w))
  | OpTerminate force =>
      Some (MkWorld (terminate_all f force).2 (w_alloc w) (w_handed w)
              (w_leaked w + Z.of_nat (length (all_ptrs f))))
  | OpTurn req c wt =>
      let '(f', r) := resume f req c wt in
      Some (MkWorld f' (w_alloc w) (w_handed w ++ taken f (choice r)) (w_leaked w))
  | OpFallback req c =>
      let '(f', o) := try_fallback_sockets f req c in
      Some (MkWorld f' (w_alloc w) (w_handed w ++ taken f o) (w_leaked w))
  | OpCancel n req c precise visited =>
      let '(f', o) := cancel_after n f req c precise visited in
      Some (MkWorld f' (w_alloc w) (w_handed w ++ taken f o) (w_leaked w))
  | OpSocket p s' =>
      match heap f !! p with
      | Some s =>
          if decide (same_socket s s')
          then Some (MkWorld (with_heap f (<[p := s']> (heap f))) (w_alloc w) (w_handed w) (w_leaked w))
          else None
      | None => None
      end
  | OpDrop p =>
      if decide (p ∈ all_ptrs f) then None
      else Some (MkWorld (with_heap f (delete p (heap f))) (w_alloc w) (w_handed w) (w_leaked w))
  end.

Inductive history : World → Prop :=
| history_new : history world_new
| history_step w op w' : history w → farm_step w op = Some w' → history w'.

Fixpoint run_ops (w : World) (ops : list FarmOp) : option World :=
  match ops with
  | [] => Some w
  | op :: r => w' ← farm_step w op; run_ops w' r
  end.

Lemma history_run w ops w' : history w → run_ops w ops = Some w' → history w'.
Proof.
  revert w. induction ops as [|op ops IH]; intros w Hh Hr; cbn in Hr; [by simplify_eq|].
  destruct (farm_step w op) as [w1|] eqn:E; [|done]. eapply IH; [|exact Hr]. by eapply history_step.
Qed.

(** ** Version 1 sockets are handed out once *)

Implicit Types (f : Farm S).

Lemma queued_add f p s :
  heap f !! p = Some s → queued (add_router_socket_in_background f p) ≡ₚ queued f ++ [p].
Proof.
  intros Hp. destruct (add_router_socket_spec f p s Hp) as (n & _ & _ & Hc & _). unfold queued. rewrite Hc.
  unfold chan. destruct (chans f !! (rs_route s, n)) as [q|] eqn:Hq; cbn [default].
  - rewrite <- insert_delete_eq. rewrite map_to_list_insert by apply lookup_delete_eq. simpl.
    rewrite <- (map_to_list_delete _ _ _ Hq). simpl. rewrite <- !app_assoc.
    by rewrite (Permutation_app_comm [p]).
  - rewrite map_to_list_insert by done. simpl. by rewrite Permutation_app_comm.
Qed.

(** The channels and the references of the map. *)
Definition same_chans f f' : Prop :=
  chans f' = chans f ∧ route_to_socket_chan f' = route_to_socket_chan f.

Lemma same_chans_queued f f' : same_chans f f' → queued f' = queued f.
Proof. intros [Hc _]. unfold queued. by rewrite Hc. Qed.

Lemma close_if_idle_chans f p : same_chans f (close_if_idle f p).
Proof. unfold close_if_idle. destruct (heap f !! p) as [s|]; [|done]. by destruct (rs_is_active s). Qed.

Lemma foldl_close_chans f ps : same_chans f (foldl close_if_idle f ps).
Proof.
  revert f. induction ps as [|p ps IH]; intros f; [done|]. simpl. destruct (IH (close_if_idle f p)) as [H1 H2].
  destruct (close_if_idle_chans f p) as [H3 H4]. split; congruence.
Qed.

Lemma deregister_chans f now route c : same_chans f (de_register_router_socket_in_background f now route c).
Proof.
  unfold de_register_router_socket_in_background. destruct (sockets f !! route); [|done].
  destruct (foldl_close_chans (with_sockets (with_times f (<[route := now]> (route_last_removal_times f)))
    (<[route := filter (λ kv, has_connector (heap f) c kv.2 = false) g]> (sockets f)))
    (filter (λ p, has_connector (heap f) c p = true) (snd <$> map_to_list g))) as [H1 H2]. by split.
Qed.

Lemma remove_chans f now route i p : same_chans f (remove_router_socket_in_background f now route i p).
Proof. unfold remove_router_socket_in_background. cbn. by repeat case_match. Qed.

(** Every pointer in a channel or handed out was allocated, once. *)
Definition once_inv (w : World) : Prop :=
  NoDup (queued (w_farm w) ++ w_handed w) ∧
  ∀ p, p ∈ queued (w_farm w) ++ w_handed w → p ∈ w_alloc w.

Lemma once_inv_shrink w f' h' a' l' :
  once_inv w → a' = w_alloc w → queued f' ++ h' ⊆+ queued (w_farm w) ++ w_handed w →
  once_inv (MkWorld f' a' h' l').
Proof.
  intros [Hnd Hal] -> Hsub. split; simpl.
  - by eapply NoDup_sub.
  - intros p Hp. apply Hal. by eapply elem_of_submseteq.
Qed.

Lemma once_inv_step w op w' : once_inv w → farm_step w op = Some w' → once_inv w'.
Proof.
  intros Hi Hs. destruct op; cbn [farm_step] in Hs.
  - destruct (decide (p ∈ w_alloc w)) as [|Hp]; [done|]. destruct (decide _); [|done].
    simplify_eq. destruct Hi as [Hnd Hal].
    assert (Hq : queued (add_router_socket_in_background (with_heap (w_farm w)
      (<[p := s]> (heap (w_farm w)))) p) ≡ₚ queued (w_farm w) ++ [p]).
    { rewrite (queued_add _ p s); [done|]. apply lookup_insert_eq. }
    split; simpl.
    + rewrite Hq, <- app_assoc, Permutation_app_swap_app. simpl. apply list.NoDup_cons.
      split; [by intros ?%Hal|done].
    + intros p' Hp'. rewrite Hq, <- app_assoc, Permutation_app_swap_app in Hp'. simpl in Hp'.
      apply elem_of_cons in Hp' as [->|?%Hal]; set_solver.
  - simplify_eq. eapply once_inv_shrink; [done..|]. by rewrite (same_chans_queued _ _ (remove_chans _ _ _ _ _)).
  - simplify_eq. eapply once_inv_shrink; [done..|]. by rewrite (same_chans_queued _ _ (deregister_chans _ _ _ _)).
  - simplify_eq. by eapply once_inv_shrink.
  - simplify_eq. eapply once_inv_shrink; [done..|]. unfold enable_dark_mode. by case_match.
  - simplify_eq. eapply once_inv_shrink; [done..|]. unfold disable_dark_mode. by case_match.
  - simplify_eq. by eapply once_inv_shrink.
  - destruct (resume _ _ _ _) as [f' r] eqn:Er. simplify_eq. apply resume_moves in Er as [Hm _].
    eapply once_inv_shrink; [done..|]. rewrite (Permutation_app_comm (w_handed w)), app_assoc.
    apply submseteq_app; [apply Hm|done].
  - destruct (try_fallback_sockets _ _ _) as [f' o] eqn:Er. simplify_eq.
    apply try_fallback_moves in Er as [Hm _].
    eapply once_inv_shrink; [done..|]. rewrite (Permutation_app_comm (w_handed w)), app_assoc.
    apply submseteq_app; [apply Hm|done].
  - destruct (cancel_after _ _ _ _ _ _) as [f' o] eqn:Er. simplify_eq. apply cancel_moves in Er as Hm.
    eapply once_inv_shrink; [done..|]. rewrite (Permutation_app_comm (w_handed w)), app_assoc.
    apply submseteq_app; [apply Hm|done].
  - destruct (heap (w_farm w) !! p); [|done]. destruct (decide _); [|done]. simplify_eq.
    by eapply once_inv_shrink.
  - destruct (decide _); [done|]. simplify_eq. by eapply once_inv_shrink.
Qed.

Lemma history_once w : history w → once_inv w.
Proof.
  induction 1; [|by eapply once_inv_step]. split; unfold queued; simpl;
    rewrite map_to_list_empty; [constructor|set_solver].
Qed.

(** C7: in every history of registrations, removals, de-registrations, cleaning,
    dark mode changes and requests, a socket that is not a version 3 socket is
    handed to at most one request, and once handed out it is in no channel any
    more. *)
Theorem v1_socket_handed_out_once w :
  history w → NoDup (w_handed w) ∧ ∀ p, p ∈ w_handed w → p ∉ queued (w_farm w).
Proof.
  intros [Hnd _]%history_once. apply list.NoDup_app in Hnd as (_ & Hd & Hh). split; [done|].
  intros p Hp Hq. by eapply Hd.
Qed.

(** ** The idle count *)

Definition total (m : gmap str (gmap str nat)) : nat := sum_list (size ∘ snd <$> map_to_list m).

Lemma total_delete m route x : m !! route = Some x → total m = size x + total (delete route m).
Proof. intros Hx. unfold total. by rewrite <- (map_to_list_delete _ _ _ Hx). Qed.

Lemma total_insert m route x :
  total (<[route := x]> m) = size x + total (delete route m).
Proof.
  unfold total. rewrite <- insert_delete_eq. by rewrite map_to_list_insert by apply lookup_delete_eq.
Qed.

Lemma length_all_ptrs f : length (all_ptrs f) = total (sockets f).
Proof.
  unfold all_ptrs, total. induction (map_to_list (sockets f)) as [|[r m] l IH]; [done|].
  rewrite !fmap_cons. cbn [map concat]. rewrite length_app, length_fmap. cbn. by f_equal; [apply length_map_to_list|exact IH].
Qed.

(** The sockets of the map are on the heap, and the counter is exact. *)
Definition idle_inv (w : World) : Prop :=
  (∀ route m i p, sockets (w_farm w) !! route = Some m → m !! i = Some p →
                  is_Some (heap (w_farm w) !! p)) ∧
  (∀ p, is_Some (heap (w_farm w) !! p) → p ∈ w_alloc w) ∧
  idle_count (w_farm w) = wrap32 (Z.of_nat (total (sockets (w_farm w))) + w_leaked w).

Lemma elem_of_all_ptrs f p :
  p ∈ all_ptrs f ↔ ∃ route m i, sockets f !! route = Some m ∧ m !! i = Some p.
Proof.
  unfold all_ptrs. rewrite list_elem_of_In, in_concat. setoid_rewrite <- list_elem_of_In. split.
  - intros (l & Hl & Hp). apply list_elem_of_fmap in Hl as (m & -> & Hm).
    apply list_elem_of_fmap in Hm as ([route m'] & -> & Hm%elem_of_map_to_list).
    apply list_elem_of_fmap in Hp as ([i p'] & -> & Hp%elem_of_map_to_list). eauto.
  - intros (route & m & i & Hm & Hp). exists (snd <$> map_to_list m). split.
    + apply list_elem_of_fmap. exists m. split; [done|]. apply list_elem_of_fmap.
      exists (route, m). split; [done|]. by apply elem_of_map_to_list.
    + apply list_elem_of_fmap. exists (i, p). split; [done|]. by apply elem_of_map_to_list.
Qed.

Context `{!RouterSocketLaws S}.

Definition inactive (h : gmap nat S) (p : nat) : bool :=
  match h !! p with Some s => negb (rs_is_active s) | None => false end.

Lemma close_if_idle_inactive f p x :
  inactive (heap (close_if_idle f p)) x = inactive (heap f) x.
Proof.
  unfold close_if_idle, inactive.
  destruct (heap f !! p) as [s|] eqn:Hp; [|done]. destruct (rs_is_active s); [done|].
  cbn [heap with_close with_idle mark_removed with_heap]. destruct (decide (x = p)) as [->|Hne].
  - rewrite lookup_alter_eq, Hp. simpl. by rewrite mark_removed_active.
  - by rewrite lookup_alter_ne.
Qed.

Lemma close_if_idle_idle f p :
  wrap32 (idle_count f) = idle_count f →
  idle_count (close_if_idle f p) =
  wrap32 (idle_count f - Z.of_nat (if inactive (heap f) p then 1 else 0)).
Proof.
  intros Hw. unfold close_if_idle, inactive. destruct (heap f !! p) as [s|]; simpl.
  - destruct (rs_is_active s); simpl; rewrite ?Z.sub_0_r; done.
  - by rewrite Z.sub_0_r.
Qed.

(** The closing loop decrements the count once per inactive socket. *)
Lemma foldl_close_idle ps f :
  wrap32 (idle_count f) = idle_count f →
  idle_count (foldl close_if_idle f ps) =
  wrap32 (idle_count f - Z.of_nat (length (filter (λ p, inactive (heap f) p = true) ps))).
Proof.
  revert f. induction ps as [|p ps IH]; intros f Hw; [by rewrite Z.sub_0_r|]. cbn [foldl].
  rewrite IH by (rewrite close_if_idle_idle by done; apply wrap32_id, wrap32_range).
  rewrite close_if_idle_idle by done.
  rewrite (filter_ext_in _ (λ p, inactive (heap f) p = true))
    by (intros x _; by rewrite close_if_idle_inactive).
  rewrite filter_cons. unfold Z.sub. rewrite wrap32_add_l. f_equal.
  destruct (inactive (heap f) p); case_decide; try done; cbn [length]; lia.
Qed.

Lemma foldl_close_frame ps f :
  sockets (foldl close_if_idle f ps) = sockets f ∧
  ∀ p, is_Some (heap (foldl close_if_idle f ps) !! p) ↔ is_Some (heap f !! p).
Proof.
  revert f. induction ps as [|p ps IH]; intros f; [done|]. cbn [foldl].
  destruct (IH (close_if_idle f p)) as [-> Hh]. split.
  - unfold close_if_idle. destruct (heap f !! p); [|done]. by case_match.
  - intros x. rewrite Hh. unfold close_if_idle. destruct (heap f !! p); [|done].
    case_match; [done|]. cbn. by rewrite lookup_alter_is_Some.
Qed.

Lemma filter_split_length (b : nat → bool) (l : list (str * nat)) :
  length (filter (λ p, b p = true) (snd <$> l)) + length (filter (λ kv, b kv.2 = false) l) = length l.
Proof.
  induction l as [|[k p] l IH]; [done|]. rewrite fmap_cons, !filter_cons. simpl.
  destruct (b p); repeat case_decide; try done; simpl; lia.
Qed.

Lemma active_split_length f c ps :
  Forall (λ p, is_Some (heap f !! p)) ps →
  length (filter (λ p, inactive (heap f) p = true)
            (filter (λ p, has_connector (heap f) c p = true) ps)) +
  length (filter (λ p, has_connector (heap f) c p = true ∧
     match heap f !! p with Some s => rs_is_active s | None => false end = true) ps) =
  length (filter (λ p, has_connector (heap f) c p = true) ps).
Proof.
  induction 1 as [|p ps [s Hs] _ IH]; [done|].
  rewrite !(filter_cons _ p ps). unfold inactive in IH |- *. rewrite Hs.
  destruct (has_connector (heap f) c p) eqn:Eh, (rs_is_active s) eqn:Ea;
    repeat case_decide; try tauto; try (rewrite filter_cons, Hs, Ea; case_decide; try done);
    simpl in *; lia.
Qed.

Lemma deregister_idle w now route c :
  idle_inv w →
  idle_inv (MkWorld (de_register_router_socket_in_background (w_farm w) now route c) (w_alloc w)
    (w_handed w) (w_leaked w + Z.of_nat (length (active_deregistered (w_farm w) route c)))).
Proof.
  intros (Hheap & Halloc & Hidle). unfold idle_inv. cbn [w_farm w_alloc w_leaked].
  set (f := w_farm w) in *.
  unfold de_register_router_socket_in_background, active_deregistered, route_ptrs.
  destruct (sockets f !! route) as [m|] eqn:Hm.
  2:{ rewrite filter_nil. cbn. rewrite Z.add_0_r. done. }
  set (f1 := with_sockets _ _). set (ps := filter _ (snd <$> map_to_list m)).
  destruct (foldl_close_frame ps f1) as [Hsock Hsome]. rewrite Hsock. split_and!.
  - intros route' m' i p Hr Hi. apply Hsome. cbn [f1 sockets with_sockets with_times heap] in Hr |- *.
    destruct (decide (route' = route)) as [->|Hne].
    + rewrite lookup_insert_eq in Hr. simplify_eq. apply map_lookup_filter_Some in Hi as [Hi _].
      by eapply Hheap.
    + rewrite lookup_insert_ne in Hr by done. by eapply Hheap.
  - intros p Hp%Hsome. by apply Halloc.
  - assert (Hw : wrap32 (idle_count f1) = idle_count f1).
    { cbn. rewrite Hidle. apply wrap32_id, wrap32_range. }
    rewrite (foldl_close_idle ps f1 Hw). cbn [f1 idle_count with_sockets with_times sockets heap].
    rewrite Hidle. unfold Z.sub. rewrite wrap32_add_l. f_equal.
    rewrite total_insert, (total_delete _ _ _ Hm).
    assert (Hall : Forall (λ p, is_Some (heap f !! p)) (snd <$> map_to_list m)).
    { apply Forall_fmap, list.Forall_forall. intros [i p] Hin%elem_of_map_to_list. by eapply Hheap. }
    pose proof (active_split_length f c _ Hall) as Hact. fold ps in Hact.
    pose proof (filter_split_length (has_connector (heap f) c) (map_to_list m)) as Hsp. fold ps in Hsp.
    rewrite length_map_to_list in Hsp.
    assert (Hsz : size (filter (λ kv, has_connector (heap f) c kv.2 = false) m) =
      length (filter (λ kv, has_connector (heap f) c kv.2 = false) (map_to_list m))).
    { rewrite <- length_map_to_list. by rewrite map_to_list_filter. }
    rewrite Hsz. lia.
Qed.

Lemma remove_idle w now route i p :
  idle_inv w →
  idle_inv (MkWorld (remove_router_socket_in_background (w_farm w) now route i p) (w_alloc w)
    (w_handed w) (w_leaked w)).
Proof.
  intros (Hheap & Halloc & Hidle). unfold idle_inv. cbn [w_farm w_alloc w_leaked].
  set (f := w_farm w) in *. unfold remove_router_socket_in_background.
  cbn [sockets with_times]. destruct (sockets f !! route) as [m|] eqn:Hm; [|done].
  destruct (m !! i) as [p'|] eqn:Hi; [|done].
  cbn [mark_removed with_heap heap with_idle with_sockets with_times sockets idle_count].
  split_and!.
  - intros route' m' j q Hr Hj. rewrite lookup_alter_is_Some. destruct (decide (route' = route)) as [->|Hne].
    + rewrite lookup_insert_eq in Hr. simplify_eq. apply lookup_delete_Some in Hj as [_ Hj].
      by eapply Hheap.
    + rewrite lookup_insert_ne in Hr by done. by eapply Hheap.
  - intros q. rewrite lookup_alter_is_Some. apply Halloc.
  - rewrite Hidle, wrap32_add_l, total_insert, (total_delete _ _ _ Hm). f_equal.
    rewrite map_size_delete_Some by (by eexists).
    assert (size m ≠ 0); [|lia]. intros Hz%map_size_empty_inv. subst m. by rewrite lookup_empty in Hi.
Qed.

Lemma register_idle w p s :
  idle_inv w → p ∉ w_alloc w → default ∅ (sockets (w_farm w) !! rs_route s) !! rs_id s = None →
  idle_inv (MkWorld (add_router_socket_in_background
      (with_heap (w_farm w) (<[p := s]> (heap (w_farm w)))) p)
    ({[p]} ∪ w_alloc w) (w_handed w) (w_leaked w)).
Proof.
  intros (Hheap & Halloc & Hidle) Hp Hid. unfold idle_inv. cbn [w_farm w_alloc w_leaked].
  set (f := w_farm w) in *.
  destruct (add_router_socket_spec (with_heap f (<[p := s]> (heap f))) p s (lookup_insert_eq _ _ _))
    as (n & _ & _ & _ & -> & -> & -> & _). cbn [with_heap heap sockets idle_count].
  split_and!.
  - intros route' m' i q Hr Hi. destruct (decide (q = p)) as [->|Hq]; [by rewrite lookup_insert_eq|].
    rewrite lookup_insert_ne by done. destruct (decide (route' = rs_route s)) as [->|Hne].
    + rewrite lookup_insert_eq in Hr. simplify_eq.
      apply lookup_insert_Some in Hi as [[_ ?]|[_ Hi]]; [congruence|].
      destruct (sockets f !! rs_route s) as [m|] eqn:Hm; [by eapply Hheap|].
      simpl in Hi. by rewrite lookup_empty in Hi.
    + rewrite lookup_insert_ne in Hr by done. by eapply Hheap.
  - intros q Hq. destruct (decide (q = p)) as [->|Hne]; [set_solver|].
    rewrite lookup_insert_ne in Hq by done. apply Halloc in Hq. set_solver.
  - rewrite Hidle, wrap32_add_l, total_insert, map_size_insert_None by done. f_equal.
    destruct (sockets f !! rs_route s) as [m|] eqn:Hm; simpl.
    + rewrite (total_delete _ _ _ Hm). lia.
    + rewrite map_size_empty, delete_id by done. lia.
Qed.

Lemma sum_filter {A} (g : A → nat) (P : A → Prop) `{∀ x, Decision (P x)} (l : list A) :
  (∀ x, ~ P x → g x = 0) → sum_list (g <$> filter P l) = sum_list (g <$> l).
Proof.
  intros Hg. induction l as [|x l IH]; [done|]. rewrite filter_cons. case_decide as Hx.
  - rewrite !fmap_cons. simpl. lia.
  - rewrite fmap_cons. simpl. rewrite (Hg x Hx). lia.
Qed.

Lemma clean_idle w now keep :
  idle_inv w →
  idle_inv (MkWorld (clean_routes_in_background (w_farm w) now keep) (w_alloc w) (w_handed w)
    (w_leaked w)).
Proof.
  intros (Hheap & Halloc & Hidle). unfold idle_inv. cbn [w_farm w_alloc w_leaked].
  set (f := w_farm w) in *. unfold clean_routes_in_background.
  cbn [with_routes with_sockets heap sockets idle_count]. split_and!; [|done|].
  - intros route m i p [Hm _]%map_lookup_filter_Some. by eapply Hheap.
  - rewrite Hidle. do 3 f_equal. unfold total. rewrite map_to_list_filter.
    rewrite sum_filter; [done|]. intros [r m] Hd.
    apply not_false_iff_true, andb_true_iff in Hd as [Hd _]. bool_to_prop. simpl in *.
    subst m. apply map_size_empty.
Qed.

Lemma idle_inv_frame w f' h :
  idle_inv w → heap f' = heap (w_farm w) → sockets f' = sockets (w_farm w) →
  idle_count f' = idle_count (w_farm w) → idle_inv (MkWorld f' (w_alloc w) h (w_leaked w)).
Proof. intros Hi H1 H2 H3. unfold idle_inv in *. simpl. by rewrite H1, H2, H3. Qed.

Lemma idle_inv_step w op w' : idle_inv w → farm_step w op = Some w' → idle_inv w'.
Proof.
  intros Hi Hs. destruct op; cbn [farm_step] in Hs.
  - destruct (decide (p ∈ w_alloc w)); [done|]. destruct (decide _); [|done]. simplify_eq.
    by apply register_idle.
  - simplify_eq. by apply remove_idle.
  - simplify_eq. by apply deregister_idle.
  - simplify_eq. by apply clean_idle.
  - simplify_eq. unfold enable_dark_mode. case_match; by apply idle_inv_frame.
  - simplify_eq. unfold disable_dark_mode. case_match; by apply idle_inv_frame.
  - simplify_eq. destruct Hi as (Hheap & Halloc & Hidle). split_and!; simpl; [by intros * ?|done|].
    rewrite Hidle. f_equal. rewrite length_all_ptrs. unfold total at 2.
    rewrite map_to_list_empty. simpl. lia.
  - destruct (resume _ _ _ _) as [f' r] eqn:Er. simplify_eq. apply resume_moves in Er as [[] _].
    by apply idle_inv_frame.
  - destruct (try_fallback_sockets _ _ _) as [f' o] eqn:Er. simplify_eq.
    apply try_fallback_moves in Er as [[] _]. by apply idle_inv_frame.
  - destruct (cancel_after _ _ _ _ _ _) as [f' o] eqn:Er. simplify_eq. apply cancel_moves in Er as [].
    by apply idle_inv_frame.
  - destruct (heap (w_farm w) !! p) as [s0|] eqn:Hp; [|done]. destruct (decide _); [|done]. simplify_eq.
    destruct Hi as (Hheap & Halloc & Hidle). split_and!; simpl; [| |done].
    + intros route m i q Hm Hq. apply lookup_insert_is_Some'. right. by eapply Hheap.
    + intros q [->|Hq]%lookup_insert_is_Some'; apply Halloc; [by eexists|done].
  - destruct (decide _) as [|Hn]; [done|]. simplify_eq.
    destruct Hi as (Hheap & Halloc & Hidle). split_and!; simpl; [| |done].
    + intros route m i q Hm Hq. rewrite lookup_delete_ne; [by eapply Hheap|]. intros ->.
      apply Hn, elem_of_all_ptrs. eauto.
    + intros q [x Hq]. apply lookup_delete_Some in Hq as [_ Hq]. apply Halloc. by eexists.
Qed.

(** C33: in every history the idle count is, as a 32-bit number, the number of
    registered sockets plus the registrations that were dropped without being
    counted: the sockets that were active when they were de-registered and those
    dropped by [terminate_all]. *)
Theorem idle_count_exact w :
  history w →
  idle_count (w_farm w) = wrap32 (Z.of_nat (length (all_ptrs (w_farm w))) + w_leaked w).
Proof.
  intros Hh. assert (Hi : idle_inv w).
  { induction Hh; [|by eapply idle_inv_step]. split_and!; simpl.
    - by intros * ?.
    - intros p. rewrite lookup_empty. by intros [? ?].
    - unfold total. by rewrite map_to_list_empty. }
  destruct Hi as (_ & _ & ->). by rewrite length_all_ptrs.
Qed.

End traces.
