(* ===== verification/FarmSpec.v ===== *)
(** * The pool of sockets as its users see it

    A specification of websocket_farm.rs without channels, loops and maps of
    registrations: a pool knows which sockets stand ready for which route, which
    ones were lent for good, and which routes are open.  Connectors put sockets
    in, requests are served from it, and sockets and routes may go at any time; a
    route that is forgotten takes no new requests, but its sockets can still serve
    the requests that wait for it.
    [farm_refines_pool] shows that every history of the farm is a behaviour of the
    pool. *)

From S2P Require Import Prelude RustStr Exceptions Http RouteResolver Config Farm Cancellation FarmTraces.

(** ** The specification *)

(** What can be seen from outside: a socket is registered for a route; a request
    for [route] is served by a socket, which it shares with others (version 3) or
    has for itself (version 1). *)
Inductive PoolEvent :=
| Registered (p : nat) (route : str)
| Served (p : nat) (route : str) (shared : bool).

Record Pool := MkPool {
  ready : gmap nat str;
  lent : list nat;
  open_routes : gset str
}.

Definition pool_new : Pool := MkPool ∅ [] ∅.

Inductive pool_step : Pool → option PoolEvent → Pool → Prop :=
| ps_register a p route :
    ready a !! p = None → p ∉ lent a →
    pool_step a (Some (Registered p route))
      (MkPool (<[p := route]> (ready a)) (lent a) ({[route]} ∪ open_routes a))
| ps_share a p r route :
    ready a !! p = Some r → r = route ∨ r = STAR → pool_step a (Some (Served p route true)) a
| ps_lend a p r route :
    ready a !! p = Some r → r = route ∨ r = STAR →
    pool_step a (Some (Served p route false)) (MkPool (delete p (ready a)) (lent a ++ [p]) (open_routes a))
| ps_lose a m :
    m ⊆ ready a → pool_step a None (MkPool m (lent a) (open_routes a))
| ps_forget a (R : gset str) :
    pool_step a None (MkPool (ready a) (lent a) (open_routes a ∖ R)).

(** The events of a run, the last one at the end. *)
Inductive pool_trace : Pool → list PoolEvent → Prop :=
| pt_new : pool_trace pool_new []
| pt_step a t e a' : pool_trace a t → pool_step a e a' → pool_trace a' (t ++ option_list e).

(** ** What the specification promises *)

Definition serves (p : nat) (e : PoolEvent) : Prop :=
  match e with Served p' _ _ => p' = p | Registered _ _ => False end.

(** A served socket was registered before, for the route of the request or for the
    catch-all route; and one that was lent for good is not served again. *)
Definition orderly (t : list PoolEvent) : Prop :=
  (∀ i p route b, t !! i = Some (Served p route b) →
     ∃ j r, j < i ∧ t !! j = Some (Registered p r) ∧ (r = route ∨ r = STAR)) ∧
  (∀ i j p route e, t !! i = Some (Served p route false) → i < j → t !! j = Some e → ~ serves p e).

Definition pool_inv (a : Pool) (t : list PoolEvent) : Prop :=
  orderly t ∧
  (∀ p r, ready a !! p = Some r → Registered p r ∈ t ∧ p ∉ lent a) ∧
  (∀ p route, Served p route false ∈ t → p ∈ lent a).

Lemma orderly_snoc t e :
  orderly t →
  (∀ p route b, e = Served p route b →
     (∃ r, Registered p r ∈ t ∧ (r = route ∨ r = STAR)) ∧ ∀ route', Served p route' false ∉ t) →
  orderly (t ++ [e]).
Proof.
  intros [H1 H2] He. split.
  - intros i p route b [Hi|[Hi Hl]]%lookup_app_Some.
    + destruct (H1 i p route b Hi) as (j & r & Hj & Ht & Hr). exists j, r. split; [done|]. split; [|done].
      by apply lookup_app_l_Some.
    + apply list_lookup_singleton_Some in Hl as [Hl ->]. destruct (He p route b eq_refl) as [(r & Hr & Hs) _].
      apply list_elem_of_lookup in Hr as [j Hj]. exists j, r. apply lookup_lt_Some in Hj as Hlt.
      split; [lia|]. split; [by apply lookup_app_l_Some|done].
  - intros i j p route e' Hi Hij [Hj|[Hl Hj]]%lookup_app_Some.
    + apply lookup_app_Some in Hi as [Hi|[Hi _]]; [by eapply H2|]. apply lookup_lt_Some in Hj. lia.
    + apply list_lookup_singleton_Some in Hj as [Hl' ->].
      apply lookup_app_Some in Hi as [Hi|[Hi _]]; [|lia]. destruct e' as [p' r'|p' r' b']; [by intros []|].
      intros ->. destruct (He p r' b' eq_refl) as [_ Hn]. apply (Hn route). by eapply list_elem_of_lookup_2.
Qed.

Lemma pool_inv_step a t e a' : pool_inv a t → pool_step a e a' → pool_inv a' (t ++ option_list e).
Proof.
  intros (Ho & Hr & Hl) Hs. unfold pool_inv.
  destruct Hs as [a p route Hp Hn|a p r route Hp Hrt|a p r route Hp Hrt|a m Hm|a R];
    cbn [option_list ready lent open_routes].
  - split; [by apply orderly_snoc; [|intros]|]. split.
    + intros q r [[<- <-]|[_ Hq]]%lookup_insert_Some; [set_solver|]. destruct (Hr q r Hq). set_solver.
    + intros q rt [Hq|Hq]%elem_of_app; [by eapply Hl|]. by apply list_elem_of_singleton in Hq.
  - destruct (Hr p r Hp) as [Hreg Hnl]. split.
    + apply orderly_snoc; [done|]. intros p' rt b [= <- <- <-]. split; [by exists r|].
      intros rt' Hin. by apply Hl in Hin.
    + split; [|intros q rt [Hq|Hq]%elem_of_app; [by eapply Hl|by apply list_elem_of_singleton in Hq]].
      intros q r' Hq. destruct (Hr q r' Hq). set_solver.
  - destruct (Hr p r Hp) as [Hreg Hnl]. split.
    + apply orderly_snoc; [done|]. intros p' rt b [= <- <- <-]. split; [by exists r|].
      intros rt' Hin. by apply Hl in Hin.
    + split.
      * intros q r' [Hne Hq]%lookup_delete_Some. destruct (Hr q r' Hq). set_solver.
      * intros q rt [Hq%Hl|Hq]%elem_of_app; [set_solver|]. apply list_elem_of_singleton in Hq as [= -> ->]. set_solver.
  - rewrite app_nil_r. split; [done|]. split; [|done]. intros q r Hq. apply Hr. by eapply lookup_weaken.
  - by rewrite app_nil_r.
Qed.

Lemma pool_trace_inv a t : pool_trace a t → pool_inv a t.
Proof.
  induction 1; [|by eapply pool_inv_step]. split; [split; by intros|]. split; [|intros ?? []%elem_of_nil].
  intros p r Hp. cbn in Hp. by rewrite lookup_empty in Hp.
Qed.

(** ** The farm *)

Section refinement.
Context {S : Type} `{RouterSocketLaws S}.
Implicit Types (f : Farm S) (w : World (S := S)) (a : Pool) (p : nat).

(** A new socket is not removed yet, and a removed socket stays removed. *)
Definition proper_op w (op : FarmOp (S := S)) : Prop :=
  match op with
  | OpRegister _ s => rs_is_removed s = false
  | OpSocket p s' => ∀ s, heap (w_farm w) !! p = Some s → rs_is_removed s = true → rs_is_removed s' = true
  | _ => True
  end.

(** The event of an operation.  A request that is dropped after it has chosen a
    version 1 socket has used it up. *)
Definition observe w (op : FarmOp (S := S)) : option PoolEvent :=
  let f := w_farm w in
  let served route p := Served p route (is_v3 f p) in
  match op with
  | OpRegister p s => Some (Registered p (rs_route s))
  | OpTurn req c wt => served c.1 <$> choice (resume f req c wt).2
  | OpFallback req c => served c.1 <$> (try_fallback_sockets f req c).2
  | OpCancel n req c precise visited =>
      served c.1 <$> head (taken f (cancel_after n f req c precise visited).2)
  | _ => None
  end.

Inductive farm_trace : World → list PoolEvent → Prop :=
| ft_new : farm_trace world_new []
| ft_step w t op w' : farm_trace w t → proper_op w op → farm_step w op = Some w' →
    farm_trace w' (t ++ option_list (observe w op)).

(** The events of a list of operations, one after the other. *)
Fixpoint run_observed w (ops : list (FarmOp (S := S))) : option (World * list PoolEvent) :=
  match ops with
  | [] => Some (w, [])
  | op :: r =>
      w' ← farm_step w op; '(w'', t) ← run_observed w' r;
      Some (w'', option_list (observe w op) ++ t)
  end.

(** No socket is registered that is removed already, and none changes by itself. *)
Definition simple_op (op : FarmOp (S := S)) : bool :=
  match op with OpRegister _ s => negb (rs_is_removed s) | OpSocket _ _ => false | _ => true end.

Lemma run_observed_trace w t ops w' t' :
  farm_trace w t → forallb simple_op ops = true → run_observed w ops = Some (w', t') → farm_trace w' (t ++ t').
Proof.
  revert w t t'. induction ops as [|op ops IH]; intros w t t' Ht Hs Hr; cbn in Hr, Hs.
  { simplify_eq. by rewrite app_nil_r. }
  apply andb_true_iff in Hs as [H1 H2]. destruct (farm_step w op) as [w1|] eqn:E; [|done]. cbn in Hr.
  destruct (run_observed w1 ops) as [[w2 t2]|] eqn:E2; [|done]. simplify_eq/=. rewrite app_assoc.
  eapply IH; [|done|exact E2]. eapply ft_step; [done| |exact E].
  destruct op; try done. cbn in *. by destruct (rs_is_removed s).
Qed.

(** The socket is in a channel that was made for the route: the one of the map, or
    one that requests still hold. *)
Definition queued_for f (r : str) p : Prop := ∃ n, p ∈ chan f (r, n).

(** A socket is ready for a route when it is alive and in a channel of the route. *)
Record represents w a : Prop := {
  rp_ready p r : ready a !! p = Some r ↔ queued_for (w_farm w) r p ∧ live (w_farm w) p = true;
  rp_lent : lent a = w_handed w;
  rp_open : open_routes a = dom (route_to_socket_chan (w_farm w))
}.

(** The channels are the same and no socket comes back to life: sockets may be
    lost. *)
Lemma sim_lose w a f' al l' :
  represents w a → same_chans (w_farm w) f' →
  (∀ p, live f' p = true → live (w_farm w) p = true) →
  ∃ a', pool_step a None a' ∧ represents (MkWorld f' al (w_handed w) l') a'.
Proof.
  intros [Hr Hh Ho] [Hc Hm] Hl. eexists. split; [apply (ps_lose a (filter (λ kv, live f' kv.1 = true) (ready a)))|].
  { apply map_filter_subseteq. }
  split; cbn; [|done|by rewrite Hm]. intros p r. rewrite map_lookup_filter_Some, Hr.
  unfold queued_for, chan. rewrite Hc. naive_solver.
Qed.

(** After a selection the sockets that were ready are ready, but for the one that
    was taken. *)
Lemma moves_ready f f' o p r :
  NoDup (queued f) → moves f f' o →
  queued_for f' r p ∧ live f' p = true ↔ (queued_for f r p ∧ live f p = true) ∧ p ∉ taken f o.
Proof.
  intros Hnd Hm. assert (live f' p = live f p) as -> by (unfold live; by rewrite (mv_heap _ _ _ Hm)).
  pose proof (mv_live _ _ _ Hm) as Hp. split.
  - intros [[n Hc] Hl]. split; [split; [exists n; by apply (mv_chan _ _ _ Hm)|done]|]. intros Ht.
    assert (Hnd' : NoDup (filter (λ p, live f p = true) (queued f') ++ taken f o)).
    { rewrite <- Hp. by apply list.NoDup_filter. }
    apply list.NoDup_app in Hnd' as (_ & Hd & _). apply (Hd p); [|done].
    apply list_elem_of_filter. split; [done|]. apply elem_of_queued. by exists (r, n).
  - intros [[[n Hc] Hl] Ht]. split; [|done].
    assert (Hq : p ∈ filter (λ p, live f p = true) (queued f') ++ taken f o).
    { rewrite <- Hp. apply list_elem_of_filter. split; [done|]. apply elem_of_queued. by exists (r, n). }
    apply elem_of_app in Hq as [Hq|]; [|done]. apply list_elem_of_filter in Hq as [_ [c' Hq]%elem_of_queued].
    exists n. assert (c' = (r, n)) as <-; [|done].
    eapply chan_unique; [exact Hnd|by apply (mv_chan _ _ _ Hm)|done].
Qed.

Lemma usable_live f p : usable f p → live f p = true.
Proof. intros (s & Hs & Hr & _). unfold live. by rewrite Hs, Hr. Qed.

(** A selection serves the socket it hands out and keeps the others ready. *)
Lemma sim_moves w a f' o (c : str * nat) al l' :
  NoDup (queued (w_farm w)) → represents w a → moves (w_farm w) f' o →
  (∀ p, o = Some p → in_reach (w_farm w) c p ∧ live (w_farm w) p = true) →
  ∃ a', pool_step a ((λ p, Served p c.1 (is_v3 (w_farm w) p)) <$> o) a' ∧
    represents (MkWorld f' al (w_handed w ++ taken (w_farm w) o) l') a'.
Proof.
  intros Hnd [Hr Hh Ho] Hm Hsel. set (f := w_farm w) in *.
  assert (Hkeep : ∀ p r, queued_for f' r p ∧ live f' p = true ↔ ready a !! p = Some r ∧ p ∉ taken f o).
  { intros p r. by rewrite Hr, moves_ready. }
  assert (Hdom : open_routes a = dom (route_to_socket_chan f')) by (by rewrite (mv_routes _ _ _ Hm)).
  destruct o as [p|]; cbn [fmap option_fmap option_map taken] in *.
  - destruct (Hsel p eq_refl) as [Hc Hl].
    assert (Hp : ∃ r, ready a !! p = Some r ∧ (r = c.1 ∨ r = STAR)).
    { setoid_rewrite Hr. destruct Hc as [Hc|Hc].
      - exists c.1. split; [|by left]. split; [|done]. exists c.2. by destruct c.
      - exists STAR. split; [|by right]. split; [|done]. unfold route_chan in Hc.
        destruct (route_to_socket_chan f !! STAR) as [n|]; [by exists n|by apply elem_of_nil in Hc]. }
    destruct Hp as (r & Hp & Hrt). destruct (is_v3 f p).
    + exists a. split; [by eapply ps_share|]. rewrite app_nil_r. split; cbn; [|done|done].
      intros q rq. rewrite Hkeep. set_solver.
    + eexists. split; [by eapply ps_lend|]. split; cbn; [|by rewrite Hh|done].
      intros q rq. rewrite Hkeep, lookup_delete_Some. set_solver.
  - eexists. split; [by apply (ps_lose a (ready a))|]. rewrite app_nil_r. split; cbn; [|done|done].
    intros q rq. rewrite Hkeep. set_solver.
Qed.

(** Nothing brings a removed socket back. *)
Lemma live_mark_removed f p x : live (mark_removed f p) x = true → live f x = true.
Proof.
  unfold live, mark_removed. cbn. destruct (decide (p = x)) as [->|Hne]; [|by rewrite lookup_alter_ne].
  rewrite lookup_alter_eq. destruct (heap f !! x) as [s|]; [|done]. cbn. by rewrite mark_removed_set.
Qed.

Lemma live_remove f now route i p x :
  live (remove_router_socket_in_background f now route i p) x = true → live f x = true.
Proof.
  unfold remove_router_socket_in_background. cbn. destruct (sockets f !! route) as [m|]; [|done].
  destruct (m !! i); [|done]. intros Hl%live_mark_removed. exact Hl.
Qed.

Lemma live_close_if_idle ps f x : live (foldl close_if_idle f ps) x = true → live f x = true.
Proof.
  revert f. induction ps as [|p ps IH]; intros f; [done|]. cbn [foldl]. intros Hl%IH. revert Hl. unfold close_if_idle.
  destruct (heap f !! p) as [s|]; [|done]. destruct (rs_is_active s); [done|].
  intros Hl. apply (live_mark_removed f p). exact Hl.
Qed.

Lemma live_deregister f now route c x :
  live (de_register_router_socket_in_background f now route c) x = true → live f x = true.
Proof.
  unfold de_register_router_socket_in_background. destruct (sockets f !! route) as [m|]; [|done].
  intros Hl%live_close_if_idle. exact Hl.
Qed.

Lemma sim_register w a p s :
  once_inv w → represents w a → p ∉ w_alloc w → rs_is_removed s = false → ∀ al l',
  ∃ a', pool_step a (Some (Registered p (rs_route s))) a' ∧
    represents (MkWorld (add_router_socket_in_background (with_heap (w_farm w) (<[p := s]> (heap (w_farm w)))) p)
                  al (w_handed w) l') a'.
Proof.
  intros [_ Hal] [Hr Hh Ho] Hp Hs al l'. set (f := w_farm w) in *.
  assert (Hq : ∀ c, p ∉ chan f c).
  { intros c Hin. apply Hp, Hal, elem_of_app. left. apply elem_of_queued. by exists c. }
  destruct (add_router_socket_spec (with_heap f (<[p := s]> (heap f))) p s (lookup_insert_eq _ _ _))
    as (n & Hm & _ & Hc & _ & _ & Hheap & _). set (f' := add_router_socket_in_background _ p) in *.
  eexists. split; [apply ps_register|].
  - destruct (ready a !! p) as [r|] eqn:E; [|done]. apply Hr in E as [[m E] _]. by apply Hq in E.
  - rewrite Hh. intros Hin. apply Hp, Hal, elem_of_app. by right.
  - assert (Hch : ∀ c, chan f' c = if decide (c = (rs_route s, n)) then chan f c ++ [p] else chan f c).
    { intros c. unfold chan. rewrite Hc. cbn. case_decide as E; [subst c; by rewrite lookup_insert_eq|].
      by rewrite lookup_insert_ne. }
    split; cbn [w_farm ready lent w_handed open_routes]; [|done|by rewrite Hm, dom_insert_L, Ho].
    intros x r. unfold live. rewrite Hheap. cbn [heap with_heap]. destruct (decide (x = p)) as [->|Hx].
    + rewrite !lookup_insert_eq, Hs. unfold queued_for. split.
      * intros [= <-]. split; [|done]. exists n. rewrite Hch, decide_True by done. set_solver.
      * intros [[m Hin] _]. rewrite Hch in Hin. case_decide as E; [by injection E as <- ->|]. by apply Hq in Hin.
    + rewrite !(lookup_insert_ne _ p x) by done. rewrite Hr. unfold live. f_equiv. unfold queued_for. f_equiv.
      intros m. rewrite Hch. case_decide; [|done]. set_solver.
Qed.

Lemma sim_clean w a now keep al l' :
  represents w a →
  ∃ a', pool_step a None a' ∧
    represents (MkWorld (clean_routes_in_background (w_farm w) now keep) al (w_handed w) l') a'.
Proof.
  intros [Hr Hh Ho]. set (f := w_farm w) in *. set (f' := clean_routes_in_background f now keep).
  set (R := dom (route_to_socket_chan f) ∖ dom (route_to_socket_chan f')).
  assert (Hc : ∀ r, route_to_socket_chan f' !! r = None ∨ route_to_socket_chan f' !! r = route_to_socket_chan f !! r).
  { intros r. unfold f', clean_routes_in_background. cbn. rewrite map_lookup_filter.
    destruct (route_to_socket_chan f !! r); [|by right]. cbn. case_guard; [by right|by left]. }
  assert (Hl : ∀ p, live f' p = live f p) by done. assert (Hch : chans f' = chans f) by done. clearbody f'.
  exists (MkPool (ready a) (lent a) (open_routes a ∖ R)). split; [apply ps_forget|].
  split; cbn; [|done|].
  - intros p r. rewrite Hr, Hl. unfold queued_for, chan. by rewrite Hch.
  - rewrite Ho. apply set_eq. intros r. unfold R. rewrite !elem_of_difference, !elem_of_dom.
    destruct (Hc r) as [E|E]; rewrite E; [|destruct (route_to_socket_chan f !! r); naive_solver].
    split; [|by intros [? ?]]. intros [H1 H2]. destruct H2. split; [done|]. by intros [? ?].
Qed.

Lemma moves_taken f f' o o' : moves f f' o → taken f o' = taken f o → moves f f' o'.
Proof. intros [] E. split; try done; by rewrite E. Qed.

Lemma taken_head f o : taken f (head (taken f o)) = taken f o.
Proof. destruct o as [p|]; [|done]. cbn. destruct (is_v3 f p) eqn:E; [done|]. cbn. by rewrite E. Qed.

(** Every operation of the farm is a step of the pool. *)
Lemma farm_step_simulates w a op w' :
  once_inv w → represents w a → proper_op w op → farm_step w op = Some w' →
  ∃ a', pool_step a (observe w op) a' ∧ represents w' a'.
Proof.
  intros Hi Ha Hp Hs. assert (Hnd : NoDup (queued (w_farm w))) by (destruct Hi as [Hn _]; by apply list.NoDup_app in Hn as [? _]).
  destruct op; cbn [farm_step observe] in *.
  - destruct (decide (p ∈ w_alloc w)); [done|]. destruct (decide _); [|done]. simplify_eq. by apply sim_register.
  - simplify_eq. apply sim_lose; [done|apply remove_chans|intros x; apply live_remove].
  - simplify_eq. apply sim_lose; [done|apply deregister_chans|intros x; apply live_deregister].
  - simplify_eq. by apply sim_clean.
  - simplify_eq. apply sim_lose; [done|unfold enable_dark_mode; by case_match..].
  - simplify_eq. apply sim_lose; [done|unfold disable_dark_mode; by case_match..].
  - simplify_eq. by apply sim_lose.
  - destruct (resume _ _ _ _) as [f' r] eqn:Er. simplify_eq. cbn [snd]. pose proof Er as [Hm Hu]%resume_moves.
    apply sim_moves; [done..|]. intros p Hc. destruct r as [p'|]; [|done]. injection Hc as ->.
    split; [by eapply resume_chan|]. by apply usable_live, Hu.
  - destruct (try_fallback_sockets _ _ _) as [f' o] eqn:Er. simplify_eq. cbn [snd].
    pose proof Er as [Hm Hu]%try_fallback_moves. apply sim_moves; [done..|]. intros p ->.
    split; [by eapply try_fallback_chan|]. by apply usable_live, Hu.
  - destruct (cancel_after _ _ _ _ _ _) as [f' o] eqn:Er. simplify_eq. cbn [snd].
    pose proof (cancel_taken n (w_farm w) req c precise visited) as Ht. rewrite Er in Ht. cbn [snd] in Ht.
    apply cancel_moves in Er. pose proof (sim_moves w a f' (head (taken (w_farm w) o)) c) as Hsim.
    rewrite taken_head in Hsim. apply Hsim; [done|done| |].
    + by eapply moves_taken; [exact Er|apply taken_head].
    + intros p Hh. destruct (Ht p) as [Hc Hl]; [|by split; [left|]]. destruct (taken _ o) as [|q l]; [done|].
      injection Hh as ->. by left.
  - destruct (heap (w_farm w) !! p) as [s0|] eqn:E; [|done]. destruct (decide _); [|done]. simplify_eq.
    apply sim_lose; [done|done|]. intros x. unfold live. cbn.
    destruct (decide (p = x)) as [<-|Hne]; [|by rewrite lookup_insert_ne].
    rewrite lookup_insert_eq, E. cbn in Hp. specialize (Hp s0 E). destruct (rs_is_removed s0); [by rewrite Hp|done].
  - destruct (decide _); [done|]. simplify_eq. apply sim_lose; [done|done|]. intros x. unfold live. cbn.
    destruct (decide (p = x)) as [<-|Hne]; [by rewrite lookup_delete_eq|by rewrite lookup_delete_ne].
Qed.

Lemma farm_trace_history w t : farm_trace w t → history w.
Proof. induction 1; [apply history_new|by eapply history_step]. Qed.

Lemma represents_new : represents world_new pool_new.
Proof.
  split; cbn; [|done|by rewrite dom_empty_L]. intros p r. rewrite lookup_empty. unfold queued_for, chan. cbn.
  split; [done|]. intros [[n Hn] _]. rewrite lookup_empty in Hn. by apply elem_of_nil in Hn.
Qed.

(** C4: the farm refines the pool: whatever the tasks of the router do to it, in
    any order, what can be seen of it is a behaviour of the pool, whose ready
    sockets are exactly the live sockets in the channels.  So a request is only
    ever served by a socket that was registered before, for the route of the
    request or for the catch-all route; and once a version 1 socket has served a
    request, no other request is served by it. *)
Theorem farm_refines_pool w t :
  farm_trace w t → (∃ a, pool_trace a t ∧ represents w a) ∧ orderly t.
Proof.
  intros Ht. assert (Hsim : ∃ a, pool_trace a t ∧ represents w a).
  { induction Ht as [|w t op w' Ht (a & Hp & Ha) Hop Hs]; [exists pool_new; split; [constructor|apply represents_new]|].
    destruct (farm_step_simulates w a op w') as (a' & Hstep & Ha'); [|done..|].
    - by eapply history_once, farm_trace_history.
    - exists a'. split; [by eapply pt_step|done]. }
  split; [done|]. destruct Hsim as (a & Hp & _). by apply pool_trace_inv in Hp as [? _].
Qed.

End refinement.
