(* ===== verification/FarmService.v ===== *)
(** * What the pool of router sockets provides to its users

    Round robin over the sockets of a route, dark mode, cleaning of stale
    routes and de-registration, as properties of the operations of [Farm], with
    concrete sockets on which the theorems of [Farm] and [FarmTraces] are
    evaluated. *)

From S2P Require Import Prelude RustStr Exceptions Http RouteResolver Config Farm Cancellation FarmTraces FarmSpec.

Section service.
Context {S : Type} `{RouterSocketLaws S}.
Implicit Types (f : Farm S) (req : Request S) (p : nat).

(** ** Round robin *)

(** [n] requests of the same kind, one after the other; the sockets they get. *)
Fixpoint serve (n : nat) f req (c : str * nat) : Farm S * list nat :=
  match n with
  | O => (f, [])
  | Datatypes.S n =>
      match main_turn f req c with
      | (f', inl p) => let '(f'', ps) := serve n f' req c in (f'', p :: ps)
      | (f', inr _) => (f', [])
      end
  end.

Lemma main_turn_head f req c p q :
  opt_host req = None → chans f !! c = Some (p :: q) →
  eligible f req false p → is_v3 f p = true →
  main_turn f req c = (set_chan f c (q ++ [p]), inl p).
Proof.
  intros Hh Hc (s & Hs & Hr & Hd & _ & Hu) Hv. unfold is_v3 in Hv. rewrite Hs in Hv.
  unfold main_turn, find_precise_match. rewrite Hh. unfold run_loop, chan. rewrite Hc. simpl default.
  cbn [filter_loop length]. unfold upgrade. rewrite Hs, bool_decide_false by set_solver.
  unfold should_remove_if_is_removed. rewrite Hr, Hd. simpl andb. cbv iota. by rewrite Hu, Hv.
Qed.

Lemma serve_rotates f req c todo served :
  opt_host req = None → chans f !! c = Some (todo ++ served) →
  Forall (λ p, eligible f req false p ∧ is_v3 f p = true) todo →
  ∃ f', serve (length todo) f req c = (f', todo) ∧ chan f' c = served ++ todo.
Proof.
  intros Hh. revert f served. induction todo as [|p todo IH]; intros f served Hc Hall.
  - exists f. split; [done|]. unfold chan. rewrite Hc. simpl. by rewrite app_nil_r.
  - apply list.Forall_cons in Hall as [[He Hv] Hall]. cbn [length serve].
    rewrite (main_turn_head f req c p (todo ++ served)) by done.
    destruct (IH (set_chan f c ((todo ++ served) ++ [p])) (served ++ [p])) as (f' & -> & Hch).
    + cbn. rewrite lookup_alter_eq, Hc. simpl. by rewrite app_assoc.
    + exact Hall.
    + exists f'. split; [done|]. by rewrite Hch, <- app_assoc.
Qed.

(** Requests without a host are spread round robin over the version 3
    sockets of a channel: when every socket in it is usable and accepted
    by the filter, as many requests as there are sockets get each socket exactly
    once, in the order of the channel, and leave the channel as it was. *)
Theorem round_robin f req c q :
  opt_host req = None → chans f !! c = Some q →
  Forall (λ p, eligible f req false p ∧ is_v3 f p = true) q →
  ∃ f', serve (length q) f req c = (f', q) ∧ chan f' c = q.
Proof.
  intros Hh Hq Hall. destruct (serve_rotates f req c q []) as (f' & Hs & Hc); try done.
  - by rewrite app_nil_r.
  - eauto.
Qed.

(** ** Dark mode *)

Lemma existsb_dark (x : IpAddr) (l : list DarkHost) :
  existsb (λ i, same_host i x) l = true ↔ ∃ d, d ∈ l ∧ dh_address d = x.
Proof.
  rewrite existsb_exists. setoid_rewrite <- list_elem_of_In. unfold same_host.
  by setoid_rewrite bool_decide_eq_true.
Qed.

Lemma existsb_eqb (d : DarkHost) (l : list DarkHost) :
  existsb (dark_host_eqb d) l = existsb (λ i, same_host i (dh_address d)) l.
Proof.
  induction l as [|x l IH]; [done|]. simpl. rewrite IH. unfold dark_host_eqb, same_host.
  f_equal. apply bool_decide_ext. done.
Qed.

(** After [enable_dark_mode] exactly the sockets that were dark before and
    those of the given host are dark; after [disable_dark_mode] exactly those
    that were dark before except the sockets of the given host. *)
Theorem dark_mode_switches f (d : DarkHost) (s : S) :
  is_dark_mode_on s (dark_hosts (enable_dark_mode f d)) =
    is_dark_mode_on s (dark_hosts f) || bool_decide (addr_ip (rs_addr s) = dh_address d) ∧
  is_dark_mode_on s (dark_hosts (disable_dark_mode f d)) =
    is_dark_mode_on s (dark_hosts f) && negb (bool_decide (addr_ip (rs_addr s) = dh_address d)).
Proof.
  unfold is_dark_mode_on, enable_dark_mode, disable_dark_mode. set (x := addr_ip (rs_addr s)).
  rewrite existsb_eqb. split.
  - destruct (existsb _ (dark_hosts f)) eqn:E.
    + case_bool_decide as Hx; [|by rewrite orb_false_r]. rewrite orb_true_r, Hx. exact E.
    + cbn. rewrite existsb_app. simpl. unfold same_host at 2. rewrite orb_false_r. f_equal.
      apply bool_decide_ext. done.
  - destruct (existsb (λ i, same_host i (dh_address d)) (dark_hosts f)) eqn:E; cbn.
    + apply eq_iff_eq_true. rewrite andb_true_iff, negb_true_iff, bool_decide_eq_false, !existsb_dark.
      setoid_rewrite list_elem_of_filter. unfold dark_host_eqb.
      setoid_rewrite bool_decide_eq_false. split.
      * intros (d' & [Hne Hin] & Hx). split; [by exists d'|congruence].
      * intros [(d' & Hin & Hx) Hne]. exists d'. split; [|done]. split; [congruence|done].
    + case_bool_decide as Hx; [|by rewrite andb_true_r]. rewrite andb_false_r, Hx. exact E.
Qed.

(** ** Cleaning *)

(** Cleaning forgets a route, its channel and its map, exactly when the map
    is empty and the last removal is older than the time to keep it; every other
    route is untouched. *)
Theorem clean_routes_exact f now keep route :
  let stale := ∃ t, sockets f !! route = Some ∅ ∧
                    route_last_removal_times f !! route = Some t ∧ (t < now - keep)%Z in
  let f' := clean_routes_in_background f now keep in
  (stale → sockets f' !! route = None ∧ route_to_socket_chan f' !! route = None) ∧
  (~ stale → sockets f' !! route = sockets f !! route ∧
             route_to_socket_chan f' !! route = route_to_socket_chan f !! route).
Proof.
  intros stale f'.
  assert (Hst : ∀ m, sockets f !! route = Some m →
    (should_remove_route f (now - keep) route m = true ↔ stale)).
  { intros m Hm. unfold should_remove_route, stale. rewrite andb_true_iff, bool_decide_eq_true.
    destruct (route_last_removal_times f !! route) as [t|].
    - rewrite Z.ltb_lt, Hm. naive_solver.
    - naive_solver. }
  unfold f', clean_routes_in_background. cbn [sockets with_sockets with_routes route_to_socket_chan].
  rewrite !map_lookup_filter. cbn [fst snd].
  assert (Hstale : filter (λ kv, should_remove_route f (now - keep) kv.1 kv.2 = true) (sockets f)
    !! route = None ↔ ~ stale).
  { rewrite map_lookup_filter_None. cbn [fst snd]. destruct (sockets f !! route) as [m|] eqn:Hm.
    - rewrite <- (Hst m) by done. naive_solver.
    - split; [|by left]. intros _ (t & ? & _). congruence. }
  split; intros Hs.
  - pose proof Hs as (t & Hm & _). rewrite Hm. cbn.
    rewrite (option_guard_False (should_remove_route _ _ _ _ = false))
      by (rewrite (proj2 (Hst _ Hm) Hs); done).
    split; [done|]. destruct (route_to_socket_chan f !! route); [|done]. cbn.
    rewrite option_guard_False; [done|]. intros Hn. by apply Hstale in Hn.
  - split.
    + destruct (sockets f !! route) as [m|] eqn:Hm; [|done]. cbn. rewrite option_guard_True; [done|].
      apply not_true_iff_false. by rewrite (Hst m).
    + destruct (route_to_socket_chan f !! route); [|done]. cbn. rewrite option_guard_True; [done|].
      by apply Hstale.
Qed.

(** ** De-registration *)

Lemma close_if_idle_active f x p s :
  heap f !! p = Some s → rs_is_active s = true → heap (close_if_idle f x) !! p = Some s.
Proof.
  intros Hp Ha. unfold close_if_idle. destruct (heap f !! x) as [sx|] eqn:Hx; [|done].
  destruct (rs_is_active sx) eqn:Hax; [done|]. cbn. rewrite lookup_alter_ne; [done|]. congruence.
Qed.

Lemma foldl_close_active f ps p s :
  heap f !! p = Some s → rs_is_active s = true → heap (foldl close_if_idle f ps) !! p = Some s.
Proof.
  revert f. induction ps as [|x ps IH]; intros f Hp Ha; [done|]. cbn [foldl].
  apply IH; [|done]. by apply close_if_idle_active.
Qed.

(** Removed and told to close. *)
Definition closed_out f p : Prop :=
  (∃ s, heap f !! p = Some s ∧ rs_is_removed s = true) ∧ p ∈ close_sent f.

Lemma close_if_idle_closed f x p : closed_out f p → closed_out (close_if_idle f x) p.
Proof.
  intros [(s & Hs & Hr) Hc]. unfold close_if_idle. destruct (heap f !! x) as [sx|] eqn:Hx; [|by split; eauto].
  destruct (rs_is_active sx); [by split; eauto|]. split; cbn; [|set_solver].
  destruct (decide (p = x)) as [->|Hne].
  - rewrite lookup_alter_eq, Hx. eexists. split; [done|]. apply mark_removed_set.
  - rewrite lookup_alter_ne by done. eauto.
Qed.

Lemma foldl_close_closed f ps p : closed_out f p → closed_out (foldl close_if_idle f ps) p.
Proof.
  revert f. induction ps as [|x ps IH]; intros f Hc; [done|]. cbn [foldl]. by apply IH, close_if_idle_closed.
Qed.

Lemma foldl_close_dark f ps : dark_hosts (foldl close_if_idle f ps) = dark_hosts f.
Proof.
  revert f. induction ps as [|x ps IH]; intros f; [done|]. cbn [foldl]. rewrite IH.
  unfold close_if_idle. destruct (heap f !! x); [|done]. by case_match.
Qed.

Lemma foldl_close_inactive f ps p s :
  p ∈ ps → heap f !! p = Some s → rs_is_active s = false →
  closed_out (foldl close_if_idle f ps) p.
Proof.
  revert f s. induction ps as [|x ps IH]; intros f s Hin Hs Ha; [set_solver|]. cbn [foldl].
  destruct (decide (x = p)) as [->|Hne].
  - apply foldl_close_closed. unfold close_if_idle. rewrite Hs, Ha. split; cbn; [|set_solver].
    rewrite lookup_alter_eq, Hs. eexists. split; [done|]. apply mark_removed_set.
  - assert (Hin' : p ∈ ps) by set_solver.
    assert (Hh : ∃ s', heap (close_if_idle f x) !! p = Some s' ∧ rs_is_active s' = false).
    { unfold close_if_idle. destruct (heap f !! x); [|eauto]. case_match; [eauto|]. cbn.
      rewrite lookup_alter_ne by done. eauto. }
    destruct Hh as (s' & Hs' & Ha'). by eapply IH.
Qed.

(** De-registering a connector of a route leaves no registration of that
    connector on the route, keeps every other registration, and marks every idle
    socket it unregisters as removed and sends it a close frame, so that no
    request is given it any more. *)
Theorem deregistration_closes_idle_sockets f now route c m :
  sockets f !! route = Some m →
  let f' := de_register_router_socket_in_background f now route c in
  (∃ m', sockets f' !! route = Some m' ∧
     ∀ i p, m' !! i = Some p ↔ m !! i = Some p ∧ has_connector (heap f) c p = false) ∧
  (∀ route', route' ≠ route → sockets f' !! route' = sockets f !! route') ∧
  ∀ i p s, m !! i = Some p → heap f !! p = Some s → rs_connector_id s = c → rs_is_active s = false →
    closed_out f' p ∧ ~ usable f' p.
Proof.
  intros Hm f'. unfold f', de_register_router_socket_in_background. rewrite Hm.
  set (f1 := with_sockets _ _). set (ps := filter _ (snd <$> map_to_list m)).
  destruct (foldl_close_frame ps f1) as [Hsock _]. rewrite Hsock.
  cbn [f1 sockets with_sockets with_times]. split_and!.
  - eexists. split; [apply lookup_insert_eq|]. intros i p. by rewrite map_lookup_filter_Some.
  - intros route' Hne. by rewrite lookup_insert_ne.
  - intros i p s Hi Hs Hc Ha.
    assert (Hcl : closed_out (foldl close_if_idle f1 ps) p).
    { eapply foldl_close_inactive; [|exact Hs|exact Ha]. apply list_elem_of_filter. split.
      - unfold has_connector. rewrite Hs. by apply str_eqb_true.
      - apply list_elem_of_fmap. exists (i, p). split; [done|]. by apply elem_of_map_to_list. }
    split; [done|]. destruct Hcl as [(s' & Hs' & Hr') _]. intros (s'' & Hs'' & Hr'' & _). congruence.
Qed.

(** A socket that has requests in flight when its connector de-registers is
    still selected afterwards: it stays in the channel, unmarked, and the next
    request on a route where it is the only socket is given it, although the
    de-registration has taken it out of the map. *)
Theorem deregistered_active_socket_still_served f now route n c req p s :
  chans f !! (route, n) = Some [p] → heap f !! p = Some s →
  rs_is_active s = true → is_v3 f p = true → rs_connector_id s = c →
  opt_host req = None → eligible f req false p →
  let f' := de_register_router_socket_in_background f now route c in
  main_turn f' req (route, n) = (set_chan f' (route, n) [p], inl p).
Proof.
  intros Hc Hs Ha Hv Hcon Hh (s' & Hs' & Hr & Hd & Hdom & Hu) f'. rewrite Hs in Hs'. simplify_eq.
  assert (Hs1 : heap f' !! p = Some s').
  { unfold f', de_register_router_socket_in_background. destruct (sockets f !! route); [|done].
    by apply foldl_close_active. }
  assert (Hd1 : dark_hosts f' = dark_hosts f).
  { unfold f', de_register_router_socket_in_background. destruct (sockets f !! route); [|done].
    by rewrite foldl_close_dark. }
  apply (main_turn_head f' req (route, n) p []); [done| | |].
  - unfold f'. by destruct (deregister_chans f now route (rs_connector_id s')) as [-> _].
  - exists s'. rewrite Hd1. done.
  - unfold is_v3 in *. rewrite Hs in Hv. by rewrite Hs1.
Qed.

End service.

(** ** Concrete sockets *)

Module Demo.

Record Sock := MkSock {
  d_route : str; d_id : str; d_domain : str; d_connector : str; d_addr : SocketAddr;
  d_version : str; d_removed : bool; d_active : bool
}.

#[export] Instance sock : RouterSocket Sock := {
  rs_route := d_route;
  rs_id := d_id;
  rs_domain := d_domain;
  rs_connector_id := d_connector;
  rs_addr := d_addr;
  rs_cranker_version := d_version;
  rs_is_removed := d_removed;
  rs_mark_removed s := MkSock (d_route s) (d_id s) (d_domain s) (d_connector s) (d_addr s)
                         (d_version s) true (d_active s);
  rs_is_active := d_active
}.

#[export] Instance sock_laws : RouterSocketLaws Sock.
Proof. by split. Qed.

Definition v1 (i : string) : Sock :=
  MkSock (lit "app") (lit i) (lit "*") (lit "c1") (MkAddr (V4 7) 80) CRANKER_V_1_0 false false.
Definition v3 (i : string) (active : bool) : Sock :=
  MkSock (lit "app") (lit i) (lit "*") (lit "c3") (MkAddr (V4 9) 80) CRANKER_V_3_0 false active.

Definition req : Request Sock :=
  MkRequest (lit "/app/x") None resolve_default (λ _, true) false true true.

(** The channel of the route. *)
Definition app : str * nat := (lit "app", 0).

Definition world (ops : list FarmOp) : World := default world_new (run_ops world_new ops).

(** Two version 3 sockets, one of them busy, and a version 1 socket. *)
Definition three_ops : list FarmOp :=
  [OpRegister 0 (v3 "a" false); OpRegister 1 (v3 "b" true); OpRegister 2 (v1 "c")].
Definition three : World := world three_ops.

(** The farm after three more requests, the last of which got the version 1
    socket. *)
Definition request_ops : list FarmOp :=
  three_ops ++ [OpTurn req app AtNotify; OpTurn req app AtNotify;
                OpTurn req app AtNotify].
Definition after_requests : World := world request_ops.

Definition two : World := world [OpRegister 0 (v3 "a" false); OpRegister 1 (v3 "b" true)].

(** Their host is in dark mode, and the request may fall back to any of them. *)
Definition dark : Farm Sock := enable_dark_mode (w_farm two) (MkDarkHost (V4 9) 0 []).
Definition fallback_req : Request Sock :=
  MkRequest (lit "/app/x") None resolve_default (λ _, true) true true true.

Definition one_active : World := world [OpRegister 1 (v3 "b" true)].

End Demo.

#[local] Existing Instance Demo.sock.
#[local] Existing Instance Demo.sock_laws.

Lemma handed_socket_usable_witness :
  usable (get_router_socket 5000 [] (w_farm Demo.three) Demo.req).1 0.
Proof.
  apply (handed_socket_usable 5000 [] (w_farm Demo.three) Demo.req
    (get_router_socket 5000 [] (w_farm Demo.three) Demo.req).1 0). vm_compute. reflexivity.
Defined.

Lemma selection_conserves_sockets_witness :
  (main_turn (w_farm Demo.three) Demo.req Demo.app).2 = inl 0 ∧
  sockets (main_turn (w_farm Demo.three) Demo.req Demo.app).1 = sockets (w_farm Demo.three).
Proof.
  split; [vm_compute; reflexivity|].
  destruct (selection_conserves_sockets (w_farm Demo.three) Demo.req Demo.app
    (main_turn (w_farm Demo.three) Demo.req Demo.app).1
    (main_turn (w_farm Demo.three) Demo.req Demo.app).2) as (_ & _ & Hs & _).
  - vm_compute. reflexivity.
  - exact Hs.
Defined.

Lemma eligible_socket_is_found_witness :
  ∃ f' p, main_turn (w_farm Demo.three) Demo.req Demo.app = (f', inl p) ∧
          p ∈ chan (w_farm Demo.three) Demo.app.
Proof.
  destruct (eligible_socket_is_found (w_farm Demo.three) Demo.req Demo.app)
    as (f' & p & Hm & Hin & _).
  - apply (bool_decide_unpack _). vm_compute. exact I.
  - apply Exists_cons. left. exists (Demo.v3 "a" false).
    split_and!; try (vm_compute; reflexivity). vm_compute. discriminate.
  - exists f', p. split; [exact Hm|exact Hin].
Defined.

Lemma v1_socket_handed_out_once_witness :
  w_handed Demo.after_requests = [2] ∧ NoDup (w_handed Demo.after_requests).
Proof.
  split; [vm_compute; reflexivity|].
  refine (proj1 (v1_socket_handed_out_once Demo.after_requests _)).
  apply (history_run world_new Demo.request_ops); [apply history_new|]. vm_compute. reflexivity.
Defined.

Lemma farm_refines_pool_witness :
  orderly [Registered 0 (lit "app"); Registered 1 (lit "app"); Registered 2 (lit "app");
           Served 0 (lit "app") true; Served 1 (lit "app") true; Served 2 (lit "app") false].
Proof.
  refine (proj2 (farm_refines_pool Demo.after_requests _ _)).
  apply (run_observed_trace world_new [] Demo.request_ops); [apply ft_new|reflexivity|]. vm_compute. reflexivity.
Defined.

Lemma idle_count_exact_witness :
  idle_count (w_farm Demo.three) =
  wrap32 (Z.of_nat (length (all_ptrs (w_farm Demo.three))) + w_leaked Demo.three).
Proof.
  apply (idle_count_exact Demo.three).
  apply (history_run world_new Demo.three_ops); [apply history_new|]. vm_compute. reflexivity.
Defined.

Lemma round_robin_witness :
  ∃ f', serve 2 (w_farm Demo.two) Demo.req Demo.app = (f', [0; 1]) ∧
        chan f' Demo.app = [0; 1].
Proof.
  apply (round_robin (w_farm Demo.two) Demo.req Demo.app [0; 1]).
  - reflexivity.
  - vm_compute. reflexivity.
  - repeat constructor; try (vm_compute; reflexivity).
    + exists (Demo.v3 "a" false). split_and!; try (vm_compute; reflexivity). discriminate.
    + exists (Demo.v3 "b" true). split_and!; try (vm_compute; reflexivity). discriminate.
Defined.

Lemma deregistration_closes_idle_sockets_witness :
  closed_out (de_register_router_socket_in_background (w_farm Demo.two) 5 (lit "app") (lit "c3")) 0.
Proof.
  destruct (deregistration_closes_idle_sockets (w_farm Demo.two) 5 (lit "app") (lit "c3")
    (default ∅ (sockets (w_farm Demo.two) !! lit "app"))) as (_ & _ & Hc).
  - vm_compute. reflexivity.
  - apply (Hc (lit "a") 0 (Demo.v3 "a" false)); vm_compute; reflexivity.
Defined.

Lemma deregistered_active_socket_still_served_witness :
  let f' := de_register_router_socket_in_background (w_farm Demo.one_active) 5 (lit "app") (lit "c3") in
  main_turn f' Demo.req Demo.app = (set_chan f' Demo.app [1], inl 1) ∧ all_ptrs f' = [] ∧
  idle_count f' = 1%Z.
Proof.
  split; [|split; vm_compute; reflexivity].
  apply (deregistered_active_socket_still_served (w_farm Demo.one_active) 5 (lit "app") 0 (lit "c3")
    Demo.req 1 (Demo.v3 "b" true)); try (vm_compute; reflexivity).
  exists (Demo.v3 "b" true). split_and!; try (vm_compute; reflexivity). discriminate.
Defined.

(** The loop is dropped while it puts the first socket back: the channel has the
    three sockets again. *)
Lemma dropped_request_loses_no_socket_witness :
  let st := poll_n 1 Demo.req false (MkLoop (w_farm Demo.three) [0; 1; 2] ∅ Receiving) in
  ls_queue st = [1; 2] ∧ drop_loop st = [1; 2; 0] ∧ drop_loop st ⊆+ [0; 1; 2].
Proof.
  split; [vm_compute; reflexivity|]. split; [vm_compute; reflexivity|].
  refine (proj1 (proj1 (dropped_request_loses_no_socket Demo.req false ∅ [0; 1; 2] (w_farm Demo.three) _
    (poll_n_polls 1 Demo.req false _)) _)). vm_compute. reflexivity.
Defined.

Lemma request_outcomes_witness :
  (get_router_socket 5000 [] Demo.dark Demo.fallback_req).2 = Err (timeout_error 5000 (lit "/app/x")) ∧
  ∀ p, p ∈ chan (get_router_socket 5000 [] Demo.dark Demo.fallback_req).1 Demo.app →
    ~ usable (get_router_socket 5000 [] Demo.dark Demo.fallback_req).1 p.
Proof.
  pose proof (request_outcomes 5000 [] Demo.dark Demo.fallback_req) as Ho. cbv zeta in Ho.
  assert (Hr : resolve_route Demo.fallback_req (collect_routes Demo.dark Demo.fallback_req).2
    (target_path Demo.fallback_req) = lit "app") by (vm_compute; reflexivity).
  assert (Hl : route_to_socket_chan Demo.dark !! lit "app" = Some 0) by (vm_compute; reflexivity).
  rewrite Hr, Hl in Ho.
  assert (He : (get_router_socket 5000 [] Demo.dark Demo.fallback_req).2 = Err (timeout_error 5000 (lit "/app/x")))
    by (vm_compute; reflexivity).
  destruct (get_router_socket 5000 [] Demo.dark Demo.fallback_req) as [f' r]. cbn [fst snd] in *.
  destruct Ho as [[p Hp]|[Ho [Hf _]]]; [congruence|]. split; [exact Ho|]. exact (Hf eq_refl).
Defined.
