(* ===== verification/FarmSelect.v ===== *)
(** * The selection of a socket against a reference definition

    The filter loop of the farm turns the channel of a route round: sockets that
    do not fit are sent back to the end of the channel, those that were removed
    are dropped, and a set of visited ids stops the loop.  [select] says the same
    without a loop: the first eligible socket of the channel, and the channel that
    is left.  The two agree on every channel without a doubled id. *)

From S2P Require Import Prelude RustStr Exceptions Http RouteResolver Config Farm FarmTraces FarmService.

Section select.
Context {S : Type} `{RouterSocket S}.
Implicit Types (f : Farm S) (req : Request S) (q : list nat) (p : nat).

(** [eligible] as a test. *)
Definition eligible_b f req (precise : bool) p : bool :=
  match heap f !! p with
  | Some s => negb (rs_is_removed s) && negb (is_dark_mode_on s (dark_hosts f)) &&
              negb (precise && str_eqb (rs_domain s) STAR) && should_use req s
  | None => false
  end.

Lemma eligible_b_spec f req precise p : eligible_b f req precise p = true ↔ eligible f req precise p.
Proof.
  unfold eligible_b, eligible. destruct (heap f !! p) as [s|]; [|naive_solver].
  rewrite !andb_true_iff, !negb_true_iff, andb_false_iff, str_eqb_false. split.
  - intros [[[Hr Hd] Hp] Hu]. exists s. split_and!; try done. destruct Hp as [->|Hp]; done.
  - intros (s' & [= <-] & Hr & Hd & Hp & Hu). split_and!; try done. destruct precise; auto.
Qed.

(** The removals the loop spawns for the removed sockets it comes across. *)
Definition removals f q : list BgTask :=
  omap (λ p, match heap f !! p with
             | Some s => if rs_is_removed s then Some (BgRemove (rs_route s) (rs_id s) p) else None
             | None => None
             end) q.

Abbreviation lives f q := (filter (λ p, live f p = true) q).

(** One turn round a ring. *)
Definition rotate q : list nat := match q with [] => [] | p :: r => r ++ [p] end.

(** The reference: the first eligible socket; the live sockets before it move
    behind the rest, a chosen version 3 socket to the very end.  Without an
    eligible socket the live ones are left, turned by one. *)
Definition select f req (precise : bool) q : Farm S * list nat * LoopRes :=
  match list_find (λ p, eligible_b f req precise p = true) q with
  | Some (i, p) =>
      (spawn f (removals f (take i q)),
       drop (Datatypes.S i) q ++ lives f (take i q) ++ (if is_v3 f p then [p] else []), Chosen p)
  | None =>
      (spawn f (removals f q), rotate (lives f q),
       match lives f q with [] => BlockedRecv ∅ | _ => Exhausted end)
  end.

Lemma spawn_spawn f a b : spawn (spawn f a) b = spawn f (a ++ b).
Proof. unfold spawn. cbn. by rewrite app_assoc. Qed.

(** The state of the loop after some turns: [fresh] is the rest of the channel,
    [rotated] the live sockets sent to its end. *)
Definition select_from f req (precise : bool) (visited : gset str) fresh (rotated : list nat)
  : Farm S * list nat * LoopRes :=
  match list_find (λ p, eligible_b f req precise p = true) fresh with
  | Some (i, p) =>
      (spawn f (removals f (take i fresh)),
       drop (Datatypes.S i) fresh ++ (rotated ++ lives f (take i fresh)) ++ (if is_v3 f p then [p] else []),
       Chosen p)
  | None =>
      (spawn f (removals f fresh), rotate (rotated ++ lives f fresh),
       match rotated ++ lives f fresh with [] => BlockedRecv visited | _ => Exhausted end)
  end.

(** The four ways in which a turn of the loop treats the first socket. *)
Lemma select_from_skip f req precise visited p fresh rotated :
  live f p = false →
  select_from f req precise visited (p :: fresh) rotated =
  select_from (spawn f (removals f [p])) req precise visited fresh rotated.
Proof.
  intros Hl. unfold select_from. cbn [list_find].
  assert (He : eligible_b f req precise p = false).
  { unfold eligible_b, live in *. destruct (heap f !! p); [|done]. by rewrite Hl. }
  rewrite decide_False by congruence.
  change (eligible_b (spawn f (removals f [p]))) with (eligible_b f).
  assert (Hr : ∀ l, removals f (p :: l) = removals f [p] ++ removals f l).
  { intros l. unfold removals. by rewrite <- (omap_app _ [p] l). }
  destruct (list_find _ fresh) as [[i x]|]; cbn -[removals filter live]; rewrite Hr, spawn_spawn;
    rewrite filter_cons_False by congruence; done.
Qed.

Lemma select_from_rotate f req precise visited visited' p fresh rotated :
  live f p = true → eligible_b f req precise p = false →
  select_from f req precise visited (p :: fresh) rotated =
  select_from f req precise visited' fresh (rotated ++ [p]).
Proof.
  intros Hl He. unfold select_from. cbn [list_find]. rewrite decide_False by congruence.
  assert (Hr : ∀ l, removals f (p :: l) = removals f l).
  { intros l. unfold removals, live in *. cbn. destruct (heap f !! p) as [s|]; [|done].
    by destruct (rs_is_removed s). }
  destruct (list_find _ fresh) as [[i x]|]; cbn -[removals filter live]; rewrite Hr, filter_cons_True by done;
    rewrite <- !app_assoc; cbn [app]; [done|]. by destruct rotated.
Qed.

Lemma select_from_take f req precise visited p fresh rotated :
  eligible_b f req precise p = true →
  select_from f req precise visited (p :: fresh) rotated =
  (f, (fresh ++ rotated) ++ (if is_v3 f p then [p] else []), Chosen p).
Proof.
  intros He. unfold select_from. cbn [list_find]. rewrite decide_True by done. cbn.
  by rewrite spawn_nil, app_nil_r, app_assoc.
Qed.

Lemma filter_loop_select_from fuel req precise visited fresh rotated f :
  length fresh < fuel → NoDup (ids f fresh) → Forall (λ x, x ∉ visited) (ids f fresh) →
  Forall (λ p, live f p = true ∧ ∀ s, heap f !! p = Some s → rs_id s ∈ visited) rotated →
  filter_loop fuel req precise visited (fresh ++ rotated) f =
  select_from f req precise visited fresh rotated.
Proof.
  revert visited fresh rotated f.
  induction fuel as [|fuel IH]; intros visited fresh rotated f Hf Hnd Hv Hr; [lia|].
  destruct fresh as [|p fresh].
  { cbn [filter_loop app]. unfold select_from. cbn. rewrite spawn_nil, app_nil_r.
    destruct rotated as [|p r]; [done|]. apply list.Forall_cons in Hr as [[Hl Hp] _].
    unfold upgrade, live in *. destruct (heap f !! p) as [s|]; [|done]. by rewrite bool_decide_true by auto. }
  simpl in Hf. unfold ids in Hnd, Hv. simpl in Hnd, Hv.
  destruct (live f p) eqn:Hl.
  2:{ rewrite (select_from_skip _ _ _ _ _ _ _ Hl). cbn [filter_loop app]. unfold upgrade, live, removals in *. cbn.
      destruct (heap f !! p) as [s|] eqn:Hp; [|by rewrite spawn_nil; apply IH; try lia].
      apply list.NoDup_cons in Hnd as [_ Hnd]. apply list.Forall_cons in Hv as [Hvp Hv]. apply negb_false_iff in Hl.
      rewrite bool_decide_false by done. unfold should_remove_if_is_removed. rewrite Hl.
      by apply IH; try lia. }
  assert (Hs : ∃ s, heap f !! p = Some s ∧ rs_is_removed s = false).
  { unfold live in Hl. destruct (heap f !! p) as [s|]; [|done]. exists s. split; [done|by apply negb_true_iff]. }
  destruct Hs as (s & Hp & Hrm). rewrite Hp in Hnd, Hv. simpl in Hnd, Hv.
  apply list.NoDup_cons in Hnd as [Hni Hnd]. apply list.Forall_cons in Hv as [Hvp Hv].
  cbn [filter_loop app]. unfold upgrade. rewrite Hp, bool_decide_false by done.
  unfold should_remove_if_is_removed. rewrite Hrm.
  assert (Hgo : eligible_b f req precise p = false →
    filter_loop fuel req precise ({[rs_id s]} ∪ visited) ((fresh ++ rotated) ++ [p]) f =
    select_from f req precise visited (p :: fresh) rotated).
  { intros He. rewrite (select_from_rotate _ _ _ _ ({[rs_id s]} ∪ visited) _ _ _ Hl He), <- app_assoc.
    apply IH; [lia|done| |].
    - rewrite list.Forall_forall in Hv |- *. set_solver.
    - apply list.Forall_app. split; [|constructor; [|done]; split; [done|]; intros s' Hs'; simplify_eq; set_solver].
      eapply list.Forall_impl; [exact Hr|]. intros x [? Hx]. split; [done|]. intros s' Hs'. specialize (Hx s' Hs'). set_solver. }
  assert (He : eligible_b f req precise p = negb (is_dark_mode_on s (dark_hosts f)) &&
    negb (precise && str_eqb (rs_domain s) STAR) && should_use req s).
  { unfold eligible_b. by rewrite Hp, Hrm. }
  destruct (is_dark_mode_on s (dark_hosts f)); [by apply Hgo|].
  destruct (precise && str_eqb (rs_domain s) STAR); [by apply Hgo|].
  destruct (should_use req s); [|by apply Hgo].
  rewrite (select_from_take _ _ _ _ _ _ _ He). unfold is_v3. rewrite Hp.
  by destruct (str_eqb _ _); rewrite ?app_nil_r.
Qed.

(** C19: on a channel in which no socket id occurs twice, the filter loop of the
    farm computes exactly the reference selection: it hands out the first eligible
    socket of the channel, spawns the removal of the removed sockets before it,
    and leaves the channel with the rest, then the live sockets that were passed
    over, then the chosen socket if it can serve more requests; without an
    eligible socket it leaves the live ones and, after one round, goes on to the
    fallback or waits. *)
Theorem filter_loop_is_select f req precise q :
  NoDup (ids f q) →
  filter_loop (Datatypes.S (length q)) req precise ∅ q f = select f req precise q.
Proof.
  intros Hnd. pose proof (filter_loop_select_from (Datatypes.S (length q)) req precise ∅ q [] f) as Hf.
  rewrite app_nil_r in Hf. rewrite Hf; [done|lia|done| |constructor].
  apply list.Forall_forall. set_solver.
Qed.

End select.

#[local] Existing Instance Demo.sock.

Lemma filter_loop_is_select_witness :
  filter_loop 4 Demo.req false ∅ (chan (w_farm Demo.three) Demo.app) (w_farm Demo.three) =
  select (w_farm Demo.three) Demo.req false (chan (w_farm Demo.three) Demo.app) ∧
  (select (w_farm Demo.three) Demo.req false (chan (w_farm Demo.three) Demo.app)).2 = Chosen 0.
Proof.
  split; [|vm_compute; reflexivity].
  exact (filter_loop_is_select (w_farm Demo.three) Demo.req false (chan (w_farm Demo.three) Demo.app)
    (bool_decide_unpack (NoDup (ids (w_farm Demo.three) (chan (w_farm Demo.three) Demo.app))) I)).
Defined.
