(* ===== verification/SocketBase.v ===== *)
(** * What the router sockets of both versions share

    The channels of the async_channel crate, the messages of a websocket and the
    hooks of proxy_listener.rs.  A listener is user code, so it is a record of
    functions, which read what the trait [ProxyInfo] gives them (the type
    [Info]) and may fail. *)

From S2P Require Import Prelude RustStr Exceptions.

(** ** Channels of async_channel *)

Record Chan (A : Type) := MkChan { items : list A; is_closed : bool }.
Arguments MkChan {A} _ _.
Arguments items {A} _.
Arguments is_closed {A} _.

Definition chan_new {A} : Chan A := MkChan [] false.

(** [send] fails on a closed channel. *)
Definition chan_send {A} (c : Chan A) (x : A) : Chan A * bool :=
  if is_closed c then (c, false) else (MkChan (items c ++ [x]) false, true).

Definition chan_close {A} (c : Chan A) : Chan A := MkChan (items c) true.

(** What can still happen to a channel: items are taken at its front and added at
    its back, and never added once it is closed. *)
Definition chan_le {A} (a b : Chan A) : Prop :=
  is_closed a = true → is_closed b = true ∧ items b `suffix_of` items a.

#[export] Instance chan_le_refl {A} : Reflexive (@chan_le A).
Proof. by intros a Ha. Qed.

#[export] Instance chan_le_trans {A} : Transitive (@chan_le A).
Proof.
  intros a b c Hab Hbc Ha. destruct (Hab Ha) as [Hb ?], (Hbc Hb) as [Hc ?]. split; [done|].
  by etransitivity.
Qed.

Lemma chan_le_send {A} (c : Chan A) x : chan_le c (chan_send c x).1.
Proof. unfold chan_le, chan_send. intros Hc. by rewrite Hc. Qed.

Lemma chan_le_close {A} (c : Chan A) : chan_le c (chan_close c).
Proof. by intros Hc. Qed.

Lemma chan_le_tail {A} (c : Chan A) x rest : items c = x :: rest → chan_le c (MkChan rest (is_closed c)).
Proof. intros Hi Hc. rewrite Hi. split; [done|]. by exists [x]. Qed.

#[export] Hint Resolve chan_le_send chan_le_close chan_le_tail : cranker.

(** *** Errors for the reader of a channel *)

(** [b] is [a] with errors behind everything that was sent, at least one, unless
    [a] was closed. *)
Definition told_error {A E} (a b : Chan (result A E)) : Prop :=
  ∃ errs : list E, items b = items a ++ map Err errs ∧ (errs = [] ↔ is_closed a = true).

(** [b] is closed; its reader finds what was sent, then, unless the end is a normal
    one or [a] was closed, an error. *)
Definition ended_chan {A E} (normal : bool) (a b : Chan (result A E)) : Prop :=
  is_closed b = true ∧ if normal then items b = items a else told_error a b.

Lemma told_error_trans {A E} (a b c : Chan (result A E)) :
  told_error a b → (is_closed a = true → is_closed b = true) → told_error b c → told_error a c.
Proof.
  intros (e1 & H1 & Hn1) Hab (e2 & H2 & Hn2). exists (e1 ++ e2). split.
  - by rewrite H2, H1, map_app, app_assoc.
  - rewrite app_nil. naive_solver.
Qed.

Lemma told_error_send {A E} (a : Chan (result A E)) e : told_error a (chan_send a (Err e)).1.
Proof.
  unfold told_error, chan_send. destruct (is_closed a); cbn; [exists []|exists [e]]; split; try done.
  by rewrite app_nil_r.
Qed.

Lemma told_error_close {A E} (a b : Chan (result A E)) : told_error a b → ended_chan false a (chan_close b).
Proof. by intros Ht. Qed.

Lemma ended_chan_trans {A E} normal (a b c : Chan (result A E)) :
  ended_chan normal a b → ended_chan normal b c → ended_chan normal a c.
Proof.
  intros [Hb Hab] [Hc Hbc]. split; [done|]. destruct normal; [congruence|]. by eapply told_error_trans.
Qed.

Lemma chan_send_closed {A} (c : Chan A) x : is_closed (chan_send c x).1 = is_closed c.
Proof. unfold chan_send. by destruct (is_closed c) eqn:E. Qed.

(** A transitive relation between each state and the next holds over any number of
    steps. *)
Lemma iter_rel {C} (R : C → C → Prop) (g : C → C) n c :
  (∀ c, R c (g c)) → (∀ a b c, R a b → R b c → R a c) → R c (Nat.iter (S n) g c).
Proof. intros Hg Ht. induction n as [|n IH]; [apply Hg|]. eapply Ht; [exact IH|apply Hg]. Qed.

(** ** Websocket messages *)

Inductive Message :=
| Text (s : str)
| Binary (b : str)
| Ping (b : str)
| Pong (b : str)
| Close (frame : option (Z * str)).

(** ** Listeners (proxy_listener.rs)

    [on_response_body_chunk_received] is not a field: the router ignores what
    it returns. *)

Record ProxyListener (Info HM : Type) := MkListener {
  on_before_proxy_to_target : Info → HM → HM * result unit CrankerRouterException;
  on_before_responding_to_client : Info → result unit CrankerRouterException;
  on_after_target_to_proxy_headers_received :
    Info → Z → option HM → result unit CrankerRouterException;
  on_after_proxy_to_target_headers_sent : Info → HM → result unit CrankerRouterException;
  on_before_request_body_chunk_sent_to_target :
    Info → str → result unit CrankerRouterException;
  on_request_body_chunk_sent_to_target :
    Info → str → result unit CrankerRouterException;
  on_request_body_sent_to_target : Info → result unit CrankerRouterException;
  on_complete : Info → result unit CrankerRouterException;
  on_response_body_chunk_received_from_target :
    Info → str → result unit CrankerRouterException;
  really_need_on_response_body_chunk_received_from_target : bool;
  really_need_on_request_body_chunk_sent_to_target : bool
}.
Arguments on_before_proxy_to_target {Info HM} _.
Arguments on_before_responding_to_client {Info HM} _.
Arguments on_after_target_to_proxy_headers_received {Info HM} _.
Arguments on_after_proxy_to_target_headers_sent {Info HM} _.
Arguments on_before_request_body_chunk_sent_to_target {Info HM} _.
Arguments on_request_body_chunk_sent_to_target {Info HM} _.
Arguments on_request_body_sent_to_target {Info HM} _.
Arguments on_complete {Info HM} _.
Arguments on_response_body_chunk_received_from_target {Info HM} _.
Arguments really_need_on_response_body_chunk_received_from_target {Info HM} _.
Arguments really_need_on_request_body_chunk_sent_to_target {Info HM} _.

(** A [for] loop over the listeners with [?] on each call. *)
Fixpoint try_all {A} (call : A → result unit CrankerRouterException) (ls : list A)
  : result unit CrankerRouterException :=
  match ls with
  | [] => Ok tt
  | l :: r => let? _ := call l in try_all call r
  end.
