(* ===== verification/SocketV1.v ===== *)
(** * The router socket of version 1 (router_socket_v1.rs)

    A version 1 websocket serves one request: the request is a text message with
    the headers, binary messages with the body and a text message that ends it;
    the response is a text message, binary messages and a close frame.  The
    handlers are state-passing functions; those that read the clock take the
    time as [now].  The removal of the socket from the farm, which is spawned, is
    counted.  The farm outlives its sockets, so [websocket_farm.upgrade()]
    succeeds, and the lock of [error] is free. *)

From S2P Require Import Prelude RustStr Exceptions Http Forwarded Config HttpUtils CrankerProtocol Farm SocketBase.

Definition HEADER_MAX_SIZE : nat := 64 * 1024.

(** ** State *)

(** What [new_arc] is given and never changes. *)
Record V1Info := MkV1Info {
  v1_route : str;
  v1_component_name : str;
  v1_router_socket_id : str;
  v1_connector_id : str;
  v1_remote_address : SocketAddr
}.

(** [RSv1ClientSideResponseSender], with the two channels to the client that it
    shares with the socket. *)
Record ResSender := MkSender {
  bytes_sent : Z;
  v1_hdr : Chan (result str CrankerRouterException);
  v1_bdy : Chan (result str CrankerRouterException);
  is_tgt_res_hdr_received : bool;
  is_tgt_res_hdr_sent : bool;
  is_tgt_res_bdy_received : bool
}.

Definition sender_new : ResSender := MkSender 0 chan_new chan_new false false false.

Record RouterSocketV1 := MkV1 {
  v1_info : V1Info;
  v1_is_removed : bool;
  v1_can_send : bool;
  v1_bytes_received : Z;
  binary_frame_received : Z;
  socket_wait_in_millis : Z;
  v1_error : option CrankerRouterException;
  client_req_start_ts : Z;
  duration_millis : Z;
  v1_err_chan : Chan CrankerRouterException;
  cli_side_res_sender : ResSender;
  v1_wss : Chan Message;
  is_close_msg_received : bool;
  v1_farm_removals : nat;
  on_complete_calls : nat
}.

Definition v1_new (i : V1Info) (now : Z) : RouterSocketV1 :=
  MkV1 i false false 0 0 (- now) None 0 (- now) chan_new sender_new chan_new false 0 0.

Definition set_removed (s : RouterSocketV1) x :=
  MkV1 (v1_info s) x (v1_can_send s) (v1_bytes_received s) (binary_frame_received s)
    (socket_wait_in_millis s) (v1_error s) (client_req_start_ts s) (duration_millis s)
    (v1_err_chan s) (cli_side_res_sender s) (v1_wss s) (is_close_msg_received s)
    (v1_farm_removals s) (on_complete_calls s).
Definition v1_set_can_send (s : RouterSocketV1) x :=
  MkV1 (v1_info s) (v1_is_removed s) x (v1_bytes_received s) (binary_frame_received s)
    (socket_wait_in_millis s) (v1_error s) (client_req_start_ts s) (duration_millis s)
    (v1_err_chan s) (cli_side_res_sender s) (v1_wss s) (is_close_msg_received s)
    (v1_farm_removals s) (on_complete_calls s).
Definition set_bytes_received (s : RouterSocketV1) x :=
  MkV1 (v1_info s) (v1_is_removed s) (v1_can_send s) x (binary_frame_received s)
    (socket_wait_in_millis s) (v1_error s) (client_req_start_ts s) (duration_millis s)
    (v1_err_chan s) (cli_side_res_sender s) (v1_wss s) (is_close_msg_received s)
    (v1_farm_removals s) (on_complete_calls s).
Definition set_frames (s : RouterSocketV1) x :=
  MkV1 (v1_info s) (v1_is_removed s) (v1_can_send s) (v1_bytes_received s) x
    (socket_wait_in_millis s) (v1_error s) (client_req_start_ts s) (duration_millis s)
    (v1_err_chan s) (cli_side_res_sender s) (v1_wss s) (is_close_msg_received s)
    (v1_farm_removals s) (on_complete_calls s).
Definition set_wait (s : RouterSocketV1) x :=
  MkV1 (v1_info s) (v1_is_removed s) (v1_can_send s) (v1_bytes_received s)
    (binary_frame_received s) x (v1_error s) (client_req_start_ts s) (duration_millis s)
    (v1_err_chan s) (cli_side_res_sender s) (v1_wss s) (is_close_msg_received s)
    (v1_farm_removals s) (on_complete_calls s).
Definition v1_set_error (s : RouterSocketV1) x :=
  MkV1 (v1_info s) (v1_is_removed s) (v1_can_send s) (v1_bytes_received s)
    (binary_frame_received s) (socket_wait_in_millis s) x (client_req_start_ts s)
    (duration_millis s) (v1_err_chan s) (cli_side_res_sender s) (v1_wss s)
    (is_close_msg_received s) (v1_farm_removals s) (on_complete_calls s).
Definition set_start_ts (s : RouterSocketV1) x :=
  MkV1 (v1_info s) (v1_is_removed s) (v1_can_send s) (v1_bytes_received s)
    (binary_frame_received s) (socket_wait_in_millis s) (v1_error s) x (duration_millis s)
    (v1_err_chan s) (cli_side_res_sender s) (v1_wss s) (is_close_msg_received s)
    (v1_farm_removals s) (on_complete_calls s).
Definition set_duration (s : RouterSocketV1) x :=
  MkV1 (v1_info s) (v1_is_removed s) (v1_can_send s) (v1_bytes_received s)
    (binary_frame_received s) (socket_wait_in_millis s) (v1_error s) (client_req_start_ts s) x
    (v1_err_chan s) (cli_side_res_sender s) (v1_wss s) (is_close_msg_received s)
    (v1_farm_removals s) (on_complete_calls s).
Definition v1_set_err_chan (s : RouterSocketV1) x :=
  MkV1 (v1_info s) (v1_is_removed s) (v1_can_send s) (v1_bytes_received s)
    (binary_frame_received s) (socket_wait_in_millis s) (v1_error s) (client_req_start_ts s)
    (duration_millis s) x (cli_side_res_sender s) (v1_wss s) (is_close_msg_received s)
    (v1_farm_removals s) (on_complete_calls s).
Definition set_sender (s : RouterSocketV1) x :=
  MkV1 (v1_info s) (v1_is_removed s) (v1_can_send s) (v1_bytes_received s)
    (binary_frame_received s) (socket_wait_in_millis s) (v1_error s) (client_req_start_ts s)
    (duration_millis s) (v1_err_chan s) x (v1_wss s) (is_close_msg_received s)
    (v1_farm_removals s) (on_complete_calls s).
Definition v1_set_wss (s : RouterSocketV1) x :=
  MkV1 (v1_info s) (v1_is_removed s) (v1_can_send s) (v1_bytes_received s)
    (binary_frame_received s) (socket_wait_in_millis s) (v1_error s) (client_req_start_ts s)
    (duration_millis s) (v1_err_chan s) (cli_side_res_sender s) x (is_close_msg_received s)
    (v1_farm_removals s) (on_complete_calls s).
Definition set_close_received (s : RouterSocketV1) x :=
  MkV1 (v1_info s) (v1_is_removed s) (v1_can_send s) (v1_bytes_received s)
    (binary_frame_received s) (socket_wait_in_millis s) (v1_error s) (client_req_start_ts s)
    (duration_millis s) (v1_err_chan s) (cli_side_res_sender s) (v1_wss s) x (v1_farm_removals s)
    (on_complete_calls s).
Definition set_farm_removals (s : RouterSocketV1) x :=
  MkV1 (v1_info s) (v1_is_removed s) (v1_can_send s) (v1_bytes_received s)
    (binary_frame_received s) (socket_wait_in_millis s) (v1_error s) (client_req_start_ts s)
    (duration_millis s) (v1_err_chan s) (cli_side_res_sender s) (v1_wss s)
    (is_close_msg_received s) x (on_complete_calls s).
Definition set_complete_calls (s : RouterSocketV1) x :=
  MkV1 (v1_info s) (v1_is_removed s) (v1_can_send s) (v1_bytes_received s)
    (binary_frame_received s) (socket_wait_in_millis s) (v1_error s) (client_req_start_ts s)
    (duration_millis s) (v1_err_chan s) (cli_side_res_sender s) (v1_wss s)
    (is_close_msg_received s) (v1_farm_removals s) x.

Definition set_hdr_chan (c : ResSender) x :=
  MkSender (bytes_sent c) x (v1_bdy c) (is_tgt_res_hdr_received c) (is_tgt_res_hdr_sent c)
    (is_tgt_res_bdy_received c).
Definition set_bdy_chan (c : ResSender) x :=
  MkSender (bytes_sent c) (v1_hdr c) x (is_tgt_res_hdr_received c) (is_tgt_res_hdr_sent c)
    (is_tgt_res_bdy_received c).

(** [send(Err(..))] to both channels of the client, the results ignored. *)
Definition send_both (c : ResSender) (e : CrankerRouterException) : ResSender :=
  let c := set_hdr_chan c (chan_send (v1_hdr c) (Err e)).1 in
  set_bdy_chan c (chan_send (v1_bdy c) (Err e)).1.

Definition close_both (c : ResSender) : ResSender :=
  set_bdy_chan (set_hdr_chan c (chan_close (v1_hdr c))) (chan_close (v1_bdy c)).

(** ** The sender of the response *)

Section sender.
(** [{:?}] of a failed [send]. *)
Context (send_err_dbg : str).

Definition send_target_response_header_text_to_client (c : ResSender) (txt : str)
  : ResSender * result unit CrankerRouterException :=
  if is_tgt_res_hdr_sent c || is_tgt_res_hdr_received c
  then (c, Err (crex_new (lit "res header already handled!")))
  else
    let c := MkSender (bytes_sent c) (v1_hdr c) (v1_bdy c) true (is_tgt_res_hdr_sent c)
               (is_tgt_res_bdy_received c) in
    if HEADER_MAX_SIZE <? length txt
    then (c, Err (crex_new (lit "response header too large: over 64 * 1024 bytes.")))
    else
      let '(ch, ok) := chan_send (v1_hdr c) (Ok txt) in
      (MkSender (if ok then wrap64 (bytes_sent c + Z.of_nat (length txt)) else bytes_sent c)
         (chan_close ch) (v1_bdy c) (is_tgt_res_hdr_received c) true (is_tgt_res_bdy_received c),
       if ok then Ok tt
       else Err (crex_new (lit "rare ex: failed to send txt to cli res chan: " ++ send_err_dbg ++ lit ". "))).

Definition send_target_response_body_binary_fragment_to_client (c : ResSender) (bin : str)
  : ResSender * result unit CrankerRouterException :=
  if negb (is_tgt_res_hdr_received c) || negb (is_tgt_res_hdr_sent c)
  then (c, Err (crex_new (lit "res header not handle yet but comes binary first")))
  else
    let '(ch, ok) := chan_send (v1_bdy c) (Ok bin) in
    (MkSender (if ok then wrap64 (bytes_sent c + Z.of_nat (length bin)) else bytes_sent c)
       (v1_hdr c) ch (is_tgt_res_hdr_received c) (is_tgt_res_hdr_sent c) true,
     if ok then Ok tt
     else Err (crex_new (lit "failed to send binary to cli res chan: " ++ send_err_dbg))).

End sender.

(** ** The socket *)

Section v1.
Context {HM : Type} `{HttpLib HM}.
Context (listeners : list (ProxyListener RouterSocketV1 HM)).
Context (send_err_dbg recv_err_dbg : str) (debug_strs : list str → str) (http_err_dbg : str).
Context (local_ip : str) (ip_to_string : IpAddr → str) (version_debug : Version → str).
Context {L F R : Type} (config : CrankerRouterConfig L F R).

(** Whether some listener asks for the chunks of the response, or of the
    request. *)
Definition needs_response_chunks : bool :=
  existsb really_need_on_response_body_chunk_received_from_target listeners.
Definition needs_request_chunks : bool :=
  existsb really_need_on_request_body_chunk_sent_to_target listeners.

(** [wss_send_task_tx.send]. *)
Definition wss_send (s : RouterSocketV1) (m : Message) : RouterSocketV1 * bool :=
  let '(ch, ok) := chan_send (v1_wss s) m in (v1_set_wss s ch, ok).

(** The loop over [on_complete]: the calls made, and the first error. *)
Fixpoint complete_all (s : RouterSocketV1) (ls : list (ProxyListener RouterSocketV1 HM))
  : RouterSocketV1 * result unit CrankerRouterException :=
  match ls with
  | [] => (s, Ok tt)
  | l :: r =>
      let res := on_complete l s in
      let s := set_complete_calls s (S (on_complete_calls s)) in
      match res with
      | Err e => (s, Err e)
      | Ok _ => complete_all s r
      end
  end.

Definition v1_raise_completion_event (now : Z) (s : RouterSocketV1)
  : RouterSocketV1 * result unit CrankerRouterException :=
  let s := set_farm_removals s (S (v1_farm_removals s)) in
  if (client_req_start_ts s =? 0)%Z || bool_decide (length listeners = 0)
  then (s, Ok tt)
  else complete_all (set_duration s (now - client_req_start_ts s)) listeners.

Definition v1_on_error (now : Z) (s : RouterSocketV1) (err : CrankerRouterException)
  : RouterSocketV1 * result unit CrankerRouterException :=
  let '(ch, ok) := chan_send (v1_err_chan s) err in
  if ok then ((v1_raise_completion_event now (v1_set_err_chan s ch)).1, Ok tt)
  else (s, Err (crex_new (lit "rare ex that failed to send error to err chan: " ++ send_err_dbg))).

(** ** Websocket events *)

Definition v1_on_text (s : RouterSocketV1) (txt : str)
  : RouterSocketV1 * result unit CrankerRouterException :=
  if v1_can_send s then
    let '(c, r) := send_target_response_header_text_to_client send_err_dbg (cli_side_res_sender s) txt in
    (set_sender s c, r)
  else (s, Err (crex_new (lit "recv txt before handle cli req."))).

Definition v1_on_binary (s : RouterSocketV1) (bin : str)
  : RouterSocketV1 * result unit CrankerRouterException :=
  if v1_can_send s then
    let s := set_frames s (wrap64 (binary_frame_received s + 1)) in
    let '(c, r) :=
      send_target_response_body_binary_fragment_to_client send_err_dbg (cli_side_res_sender s) bin in
    let s := set_sender s c in
    match r with
    | Err e => (s, Err e)
    | Ok _ =>
        (s, if needs_response_chunks
            then try_all (λ l, on_response_body_chunk_received_from_target l s bin)
                   (filter (λ l, really_need_on_response_body_chunk_received_from_target l = true)
                      listeners)
            else Ok tt)
    end
  else (s, Err (crex_new (lit "recv bin before handle cli req."))).

Definition v1_on_ping (now : Z) (s : RouterSocketV1) (ping_msg : str)
  : RouterSocketV1 * result unit CrankerRouterException :=
  match wss_send s (Pong ping_msg) with
  | (s, true) => (s, Ok tt)
  | (s, false) => v1_on_error now s (crex_new (lit "failed to pong back " ++ send_err_dbg))
  end.

(** Runs a step and composes its error with those so far. *)
Definition then_compose (st : RouterSocketV1 * option CrankerRouterException)
  (f : RouterSocketV1 → RouterSocketV1 * result unit CrankerRouterException)
  : RouterSocketV1 * option CrankerRouterException :=
  let '(s, r) := f st.1 in (s, compose_ex st.2 r).

(** The early failure of [on_close], when nothing of the request was sent. *)
Definition close_early (now code : Z) (s : RouterSocketV1)
  : RouterSocketV1 * option CrankerRouterException :=
  if v1_can_send s && (v1_bytes_received s =? 0)%Z then
    if (code =? 1011)%Z then
      then_compose (s, None) (λ s, v1_on_error now s (with_status_code (crex_new (lit "ws code 1011")) 502))
    else if (code =? 1008)%Z then
      then_compose (s, None) (λ s, v1_on_error now s (with_status_code (crex_new (lit "ws code 1008")) 400))
    else (s, None)
  else (s, None).

(** Closing the channels to the client. *)
Definition close_client (now code : Z) (close_reason : str)
  (st : RouterSocketV1 * option CrankerRouterException)
  : RouterSocketV1 * option CrankerRouterException :=
  let c := cli_side_res_sender st.1 in
  if negb (is_closed (v1_hdr c)) || negb (is_closed (v1_bdy c)) then
    let st :=
      if (code =? 1000)%Z then st
      else
        let ex := crex_new (lit "upstream server error: ws code=" ++ display_Z code ++
                            lit ", reason=" ++ close_reason) in
        then_compose (set_sender st.1 (send_both c ex), st.2) (λ s, v1_on_error now s ex) in
    (set_sender st.1 (close_both (cli_side_res_sender st.1)), st.2)
  else st.

(** The hook [on_response_body_chunk_received] that the close handler also calls is
    left out: its result is ignored. *)
Definition v1_on_close (now : Z) (s : RouterSocketV1) (opt_close_frame : option (Z * str))
  : RouterSocketV1 * result unit CrankerRouterException :=
  let s := set_close_received s true in
  let s := (wss_send s (Close opt_close_frame)).1 in
  let '(code, close_reason) := match opt_close_frame with
                               | Some (k, r) => (k, r)
                               | None => (4000%Z, [])
                               end in
  let st := close_early now code s in
  let st := close_client now code close_reason st in
  let '(s, total_err) := then_compose st (v1_raise_completion_event now) in
  (s, match total_err with Some e => Err e | None => Ok tt end).

(** ** Requests from the client *)

(** A refused request leaves the socket as it is. *)
Definition v1_open_request (now : Z) (s : RouterSocketV1)
  : RouterSocketV1 * result unit CrankerRouterException :=
  if v1_is_removed s then
    (s, Err (crex_new (lit "try to handle cli req in a is_removed router socket. router_socket_id="
                       ++ v1_router_socket_id (v1_info s))))
  else
    let s := set_wait s (wrap64 (socket_wait_in_millis s + now)) in
    let s := set_start_ts s now in
    (set_duration s (- now), Ok tt).

(** The listeners get the header map and may change it. *)
Fixpoint v1_before_proxy (s : RouterSocketV1) (ls : list (ProxyListener RouterSocketV1 HM)) (hdr : HM)
  : result HM CrankerRouterException :=
  match ls with
  | [] => Ok hdr
  | l :: r =>
      match on_before_proxy_to_target l s hdr with
      | (_, Err crex) => Err crex
      | (hdr, Ok _) => v1_before_proxy s r hdr
      end
  end.

(** The request text: the builder takes the headers before the listeners get
    them. *)
Definition v1_request_text (s : RouterSocketV1) (method : str) (original_uri : Uri) (hdr_to_tgt : HM)
  (has_body : bool) : outcome (result str CrankerRouterException) :=
  let b := with_request_headers (with_request_line builder_new (create_request_line method original_uri))
             hdr_to_tgt in
  match v1_before_proxy s listeners hdr_to_tgt with
  | Err crex => Ret (Err crex)
  | Ok _ => request_build (if has_body then with_request_body_pending b else with_request_has_no_body b)
  end.

(** One chunk of the body. *)
Definition v1_send_chunk (s : RouterSocketV1) (bytes : str)
  : RouterSocketV1 * result unit CrankerRouterException :=
  match (let? _ := try_all (λ l, on_before_request_body_chunk_sent_to_target l s bytes) listeners in
         try_all (λ l, on_request_body_chunk_sent_to_target l s bytes) listeners) with
  | Err e => (s, Err e)
  | Ok _ =>
      match wss_send s (Binary bytes) with
      | (s, false) => (s, Err (crex_new (lit "error when sending req body to tgt: " ++ send_err_dbg)))
      | (s, true) =>
          (s, if needs_request_chunks
              then try_all (λ l, on_request_body_chunk_sent_to_target l s bytes)
                     (filter (λ l, really_need_on_request_body_chunk_sent_to_target l = true) listeners)
              else Ok tt)
      end
  end.

(** The loop over the body; [env i] is what other tasks do to the socket after
    the [i]-th chunk. *)
Fixpoint v1_send_body (env : nat → RouterSocketV1 → RouterSocketV1) (i : nat)
  (body : list (result str str)) (s : RouterSocketV1)
  : RouterSocketV1 * result unit CrankerRouterException :=
  match body with
  | [] => (s, Ok tt)
  | Err e :: _ => (s, Err (crex_new e))
  | Ok bytes :: r =>
      match v1_send_chunk s bytes with
      | (s, Err e) => (s, Err e)
      | (s, Ok _) => v1_send_body env (S i) r (env i s)
      end
  end.

(** The end marker after the body. *)
Definition v1_send_end (s : RouterSocketV1) : outcome (RouterSocketV1 * result unit CrankerRouterException) :=
  let! b := request_build (with_request_body_ended builder_new) in
  match b with
  | Err e => Ret (s, Err e)
  | Ok end_of_body =>
      match wss_send s (Text end_of_body) with
      | (s, true) => Ret (s, Ok tt)
      | (s, false) => Ret (s, Err (crex_new (lit "failed to send end of body end marker to tgt: " ++
                                             send_err_dbg)))
      end
  end.

Definition v1_split_part_one_send_or_err (env : nat → RouterSocketV1 → RouterSocketV1)
  (s : RouterSocketV1) (opt_body : option (list (result str str))) (cranker_req : str)
  : outcome (RouterSocketV1 * result unit CrankerRouterException) :=
  let s := v1_set_can_send s true in
  match wss_send s (Text cranker_req) with
  | (s, false) => Ret (s, Err (crex_new (lit "failed to send cli req hdr to tgt: " ++ send_err_dbg)))
  | (s, true) =>
      let! sr := match opt_body with
                 | None => Ret (s, Ok tt)
                 | Some body =>
                     match v1_send_body env 0 body s with
                     | (s, Err e) => Ret (s, Err e)
                     | (s, Ok _) => v1_send_end s
                     end
                 end in
      match sr with
      | (s, Err e) => Ret (s, Err e)
      | (s, Ok _) => Ret (s, try_all (λ l, on_request_body_sent_to_target l s) listeners)
      end
  end.

(** The spawned sender task. *)
Definition v1_sender_task (env : nat → RouterSocketV1 → RouterSocketV1) (now : Z)
  (s : RouterSocketV1) (opt_body : option (list (result str str))) (cranker_req : str)
  : outcome RouterSocketV1 :=
  let! sr := v1_split_part_one_send_or_err env s opt_body cranker_req in
  match sr with
  | (s, Err crex) => Ret (v1_on_error now s crex).1
  | (s, Ok _) => Ret s
  end.

(** [split_part_two_recv_and_res]; [None] while there is no header text. *)
Definition v1_split_part_two_recv_and_res (s : RouterSocketV1)
  : RouterSocketV1 * option (result (Z * HM) CrankerRouterException) :=
  let c := cli_side_res_sender s in
  match items (v1_hdr c) with
  | [] =>
      if is_closed (v1_hdr c)
      then (s, Some (Err (crex_new (
              lit "rare ex seems nothing received from tgt res hdr chan and it closed: " ++
              recv_err_dbg ++ lit ". router_socket_id=" ++ v1_router_socket_id (v1_info s)))))
      else (s, None)
  | r :: rest =>
      let s := set_sender s (set_hdr_chan c (MkChan rest (is_closed (v1_hdr c)))) in
      (s, Some (
        let? message_to_apply := r in
        let? cranker_res := CrankerProtocol.try_from_string message_to_apply in
        let? res_builder := response_build debug_strs cranker_res in
        let? _ := try_all (λ l,
          let? _ := on_before_responding_to_client l s in
          on_after_target_to_proxy_headers_received l s (resp_code cranker_res)
            (snd <$> res_builder)) listeners in
        match res_builder with
        | Some res => Ok res
        | None => Err (crex_new (lit "failed to build body: " ++ http_err_dbg))
        end))
  end.

(** [on_client_req]; [late] acts between the sender task and the arrival of the
    response header, [now'] is the time of an error in the sender task. *)
Definition v1_on_client_req (env : nat → RouterSocketV1 → RouterSocketV1)
  (late : RouterSocketV1 → RouterSocketV1) (now now' : Z) (s : RouterSocketV1)
  (http_version : Version) (method : str) (original_uri : Uri) (cli_headers : HM) (addr : SocketAddr)
  (is_tls : bool) (opt_body : option (list (result str str)))
  : RouterSocketV1 * outcome (option (result (Z * HM) CrankerRouterException)) :=
  match v1_open_request now s with
  | (s, Err e) => (s, Ret (Some (Err e)))
  | (s, Ok _) =>
      match set_target_request_headers local_ip ip_to_string version_debug config cli_headers hm_new
              http_version addr original_uri is_tls with
      | Panic => (s, Panic)
      | Ret (_, hdr_to_tgt) =>
          match v1_request_text s method original_uri hdr_to_tgt
                  (match opt_body with Some _ => true | None => false end) with
          | Panic => (s, Panic)
          | Ret (Err e) => (s, Ret (Some (Err e)))
          | Ret (Ok cranker_req) =>
              match v1_sender_task env now' s opt_body cranker_req with
              | Panic => (s, Panic)
              | Ret s =>
                  let '(s, r) := v1_split_part_two_recv_and_res (late s) in (s, Ret r)
              end
          end
      end
  end.

(** The task that waits for the end of the response body. *)
Definition v1_body_stream_ended (now : Z) (s : RouterSocketV1) : RouterSocketV1 :=
  if is_close_msg_received s then s
  else (v1_on_error now s (with_err_kind (crex_new (lit "connection to client closed unexpectedly"))
                             BrokenConnection_0011)).1.

(** ** The other operations of the trait *)

Definition send_ws_msg_to_uwss (s : RouterSocketV1) (m : Message)
  : RouterSocketV1 * result unit CrankerRouterException :=
  match wss_send s m with
  | (s, true) => (s, Ok tt)
  | (s, false) => (s, Err (crex_new (lit "failed to send ws msg to wss_send_task_tx: " ++ send_err_dbg)))
  end.

Definition v1_terminate_all_conn (s : RouterSocketV1) (opt_crex : option CrankerRouterException)
  : RouterSocketV1 :=
  let crex := default (crex_new (lit "ex occurs and should terminate all conn.")) opt_crex in
  set_sender s (close_both (send_both (cli_side_res_sender s) crex)).

Definition inc_bytes_received_from_cli (s : RouterSocketV1) (byte_count : Z) : RouterSocketV1 :=
  set_bytes_received s (wrap64 (v1_bytes_received s + byte_count)).

Definition v1_try_provide_general_error (s : RouterSocketV1) (opt_crex : option CrankerRouterException)
  : RouterSocketV1 := v1_set_error s opt_crex.

Definition v1_is_active (s : RouterSocketV1) : bool :=
  (0 <? client_req_start_ts s)%Z && (duration_millis s <=? 0)%Z.

End v1.

(** ** The interface of the farm *)

(** A version 1 socket serves every domain ([RouteIdentify::domain]). *)
#[export] Instance v1_router_socket : RouterSocket RouterSocketV1 := {
  rs_route s := v1_route (v1_info s);
  rs_id s := v1_router_socket_id (v1_info s);
  rs_domain _ := lit "*";
  rs_connector_id s := v1_connector_id (v1_info s);
  rs_addr s := v1_remote_address (v1_info s);
  rs_cranker_version _ := CRANKER_V_1_0;
  rs_is_removed := v1_is_removed;
  rs_mark_removed s := set_removed s true;
  rs_is_active := v1_is_active
}.

#[export] Instance v1_router_socket_laws : RouterSocketLaws RouterSocketV1.
Proof. by split. Qed.
