(* ===== verification/SocketV1Props.v ===== *)
(** * Properties of the router socket of version 1

    A response arrives at the client's channels byte for byte; whatever the
    connector sends, the client gets at most one header text and no body before
    it; the messages of a request leave in order; a close frame ends the request;
    and what the listeners change in the headers does not reach the target. *)

From S2P Require Import Prelude RustStr Exceptions Http Forwarded Config HttpUtils CrankerProtocol Farm SocketBase SocketV1.

#[local] Opaque HEADER_MAX_SIZE.

Section props.
Context {HM : Type} `{HttpLib HM}.
Context (listeners : list (ProxyListener RouterSocketV1 HM)) (send_err_dbg : str).
Implicit Types (s : RouterSocketV1) (c : ResSender).

#[local] Abbreviation raise_completion := (v1_raise_completion_event listeners).
#[local] Abbreviation on_error := (v1_on_error listeners send_err_dbg).
#[local] Abbreviation on_text := (v1_on_text send_err_dbg).
#[local] Abbreviation on_binary := (v1_on_binary listeners send_err_dbg).
#[local] Abbreviation on_ping := (v1_on_ping listeners send_err_dbg).
#[local] Abbreviation on_close := (v1_on_close listeners send_err_dbg).

(** ** What completion and errors leave alone *)

Lemma complete_all_calls (ls : list (ProxyListener RouterSocketV1 HM)) s : ∃ n, (complete_all s ls).1 = set_complete_calls s n.
Proof.
  revert s. induction ls as [|l ls IH]; intros s; cbn [complete_all].
  - exists (on_complete_calls s). by destruct s.
  - destruct (on_complete l s); [|by eexists].
    destruct (IH (set_complete_calls s (S (on_complete_calls s)))) as [n ->]. by exists n.
Qed.

Lemma raise_completion_frame now s :
  ∃ d n, (raise_completion now s).1 =
    set_complete_calls (set_duration (set_farm_removals s (S (v1_farm_removals s))) d) n.
Proof.
  unfold v1_raise_completion_event. cbv zeta. destruct (_ || _).
  - exists (duration_millis s), (on_complete_calls s). by destruct s.
  - set (s1 := set_farm_removals _ _). destruct (complete_all_calls listeners
      (set_duration s1 (now - client_req_start_ts s1))) as [n ->]. by eexists _, n.
Qed.

Lemma on_error_frame now s e :
  ∃ d n k, (on_error now s e).1 =
    set_complete_calls (set_duration (set_farm_removals
      (v1_set_err_chan s (chan_send (v1_err_chan s) e).1) k) d) n ∧
    k = (if is_closed (v1_err_chan s) then v1_farm_removals s else S (v1_farm_removals s)).
Proof.
  unfold v1_on_error, chan_send. destruct (is_closed (v1_err_chan s)).
  - exists (duration_millis s), (on_complete_calls s), (v1_farm_removals s). by destruct s.
  - destruct (raise_completion_frame now (v1_set_err_chan s (MkChan (items (v1_err_chan s) ++ [e]) false)))
      as (d & n & ->). by exists d, n, (S (v1_farm_removals s)).
Qed.

Lemma on_error_sender now s e :
  cli_side_res_sender (on_error now s e).1 = cli_side_res_sender s ∧
  is_close_msg_received (on_error now s e).1 = is_close_msg_received s ∧
  v1_can_send (on_error now s e).1 = v1_can_send s ∧
  v1_farm_removals s ≤ v1_farm_removals (on_error now s e).1.
Proof.
  destruct (on_error_frame now s e) as (d & n & k & -> & ->). split_and!; try done. simpl.
  case_match; lia.
Qed.

Lemma close_early_sender now code s :
  let s' := (close_early listeners send_err_dbg now code s).1 in
  cli_side_res_sender s' = cli_side_res_sender s ∧
  is_close_msg_received s' = is_close_msg_received s ∧ v1_farm_removals s ≤ v1_farm_removals s' ∧
  (code = 1000%Z → s' = s).
Proof.
  assert (Hgo : ∀ e, let s' := (then_compose (s, None) (λ s, on_error now s e)).1 in
    cli_side_res_sender s' = cli_side_res_sender s ∧
    is_close_msg_received s' = is_close_msg_received s ∧ v1_farm_removals s ≤ v1_farm_removals s').
  { intros e. unfold then_compose. simpl. destruct (on_error_sender now s e) as (Hs & Hc & _ & Hf).
    by destruct (v1_on_error listeners send_err_dbg now s e). }
  unfold close_early. destruct (v1_can_send s && _); [|done].
  destruct (code =? 1011)%Z eqn:E1.
  { apply Z.eqb_eq in E1 as ->. destruct (Hgo (with_status_code (crex_new (lit "ws code 1011")) 502))
      as (? & ? & ?). by split_and!. }
  destruct (code =? 1008)%Z eqn:E2; [|done].
  apply Z.eqb_eq in E2 as ->. destruct (Hgo (with_status_code (crex_new (lit "ws code 1008")) 400))
    as (? & ? & ?). by split_and!.
Qed.

Definition upstream_error (code : Z) (r : str) : CrankerRouterException :=
  crex_new (lit "upstream server error: ws code=" ++ display_Z code ++ lit ", reason=" ++ r).

(** The channels to the client after a close frame. *)
Definition closed_sender c (code : Z) (r : str) : ResSender :=
  if negb (is_closed (v1_hdr c)) || negb (is_closed (v1_bdy c))
  then close_both (if (code =? 1000)%Z then c else send_both c (upstream_error code r))
  else c.

Lemma close_client_sender now code r st :
  let s' := (close_client listeners send_err_dbg now code r st).1 in
  cli_side_res_sender s' = closed_sender (cli_side_res_sender st.1) code r ∧
  is_close_msg_received s' = is_close_msg_received st.1 ∧
  v1_farm_removals st.1 ≤ v1_farm_removals s' ∧
  (code = 1000%Z → v1_err_chan s' = v1_err_chan st.1 ∧ v1_farm_removals s' = v1_farm_removals st.1 ∧
                   v1_wss s' = v1_wss st.1).
Proof.
  unfold close_client, closed_sender. cbv zeta. destruct st as [s o]. cbn [fst snd].
  destruct (negb _ || negb _); [|done].
  destruct (code =? 1000)%Z eqn:E; [done|]. unfold then_compose. cbn [fst snd].
  fold (upstream_error code r). set (s1 := set_sender s _). set (ex := upstream_error code r).
  destruct (on_error_sender now s1 ex) as (Hs & Hc & _ & Hf).
  destruct (v1_on_error listeners send_err_dbg now s1 ex) as [s2 x]. cbn in *. rewrite Hs.
  split_and!; try done. intros ->. done.
Qed.

Lemma on_close_sender now s f :
  let code := match f with Some (k, _) => k | None => 4000%Z end in
  let r := match f with Some (_, r) => r | None => [] end in
  let s' := (on_close now s f).1 in
  cli_side_res_sender s' = closed_sender (cli_side_res_sender s) code r ∧
  is_close_msg_received s' = true ∧ v1_farm_removals s < v1_farm_removals s' ∧
  (code = 1000%Z → v1_err_chan s' = v1_err_chan s ∧ v1_farm_removals s' = S (v1_farm_removals s) ∧
                   v1_wss s' = (chan_send (v1_wss s) (Close f)).1).
Proof.
  intros code r s'. unfold s', v1_on_close. set (s0 := (wss_send _ _).1).
  assert (H0 : cli_side_res_sender s0 = cli_side_res_sender s ∧ is_close_msg_received s0 = true ∧
    v1_farm_removals s0 = v1_farm_removals s ∧ v1_err_chan s0 = v1_err_chan s ∧
    v1_wss s0 = (chan_send (v1_wss s) (Close f)).1).
  { unfold s0, wss_send. by destruct (chan_send _ _). }
  destruct H0 as (Hs0 & Hc0 & Hf0 & He0 & Hw0). clearbody s0.
  replace (match f with Some (k, r) => (k, r) | None => (4000%Z, []) end) with (code, r)
    by (by destruct f as [[]|]). cbv beta iota.
  destruct (close_early_sender now code s0) as (Hs1 & Hc1 & Hf1 & H10).
  set (st := close_early _ _ _ _ _) in *.
  destruct (close_client_sender now code r st) as (Hs2 & Hc2 & Hf2 & H20).
  set (st2 := close_client _ _ _ _ _ _) in *. unfold then_compose.
  destruct (raise_completion_frame now st2.1) as (d & n & Hr).
  destruct (v1_raise_completion_event listeners now st2.1) as [s3 x]. cbn in Hr |- *. subst s3. cbn.
  split_and!; [congruence|congruence|lia|].
  intros Hk. destruct (H20 Hk) as (-> & -> & ->). rewrite (H10 Hk). by rewrite He0, Hf0, Hw0.
Qed.

(** ** The response *)

Fixpoint total_len (chunks : list str) : Z :=
  match chunks with [] => 0 | x :: r => (Z.of_nat (length x) + total_len r)%Z end.

(** The binary messages of a response, handled in order. *)
Fixpoint feed s (chunks : list str) : RouterSocketV1 * list (result unit CrankerRouterException) :=
  match chunks with
  | [] => (s, [])
  | b :: r => let '(s, x) := on_binary s b in let '(s, xs) := feed s r in (s, x :: xs)
  end.

Lemma feed_delivers chunks s n hdr bdy bd :
  v1_can_send s = true → needs_response_chunks listeners = false →
  cli_side_res_sender s = MkSender (wrap64 n) hdr (MkChan bdy false) true true bd →
  ∃ bd' s' rs, feed s chunks = (s', rs) ∧ Forall (λ x, x = Ok tt) rs ∧
    cli_side_res_sender s' = MkSender (wrap64 (n + total_len chunks)) hdr
      (MkChan (bdy ++ map Ok chunks) false) true true bd' ∧
    v1_err_chan s' = v1_err_chan s ∧ v1_farm_removals s' = v1_farm_removals s ∧ v1_wss s' = v1_wss s.
Proof.
  revert s n bdy bd. induction chunks as [|b chunks IH]; intros s n bdy bd Hcan Hneed Hc; cbn [feed].
  { exists bd, s, []. rewrite Hc, Z.add_0_r, app_nil_r. done. }
  unfold v1_on_binary at 1. rewrite Hcan, Hneed. cbn -[wrap64]. rewrite Hc. cbn -[wrap64].
  set (s1 := set_sender _ _).
  destruct (IH s1 (n + Z.of_nat (length b))%Z (bdy ++ [Ok b]) true) as (bd' & s' & rs & -> & Hr & Hs & He & Hf & Hw).
  - done.
  - done.
  - cbn -[wrap64]. by rewrite wrap64_add_l.
  - exists bd', s', (Ok tt :: rs). split_and!; [done|by constructor| |done..].
    rewrite Hs. f_equal; [f_equal; simpl; lia|by rewrite <- app_assoc].
Qed.

(** A version 1 response is delivered completely: when the connector sends
    the header text (of at most 64 KiB), body messages of any size and a normal
    close frame, every message is accepted, the client's header channel holds
    exactly the text, its body channel exactly the chunks in order, both closed,
    the bytes are counted, no error is reported, the close frame is answered and
    the socket is removed from the farm. *)
Theorem v1_response_delivered now s txt chunks close_text :
  v1_can_send s = true → cli_side_res_sender s = sender_new →
  length txt ≤ HEADER_MAX_SIZE → needs_response_chunks listeners = false →
  ∃ s1 s2 rs bd, on_text s txt = (s1, Ok tt) ∧ feed s1 chunks = (s2, rs) ∧
    Forall (λ x, x = Ok tt) rs ∧
    let s3 := (on_close now s2 (Some (1000%Z, close_text))).1 in
    cli_side_res_sender s3 =
      MkSender (wrap64 (Z.of_nat (length txt) + total_len chunks)) (MkChan [Ok txt] true)
        (MkChan (map Ok chunks) true) true true bd ∧
    is_close_msg_received s3 = true ∧ v1_err_chan s3 = v1_err_chan s ∧
    v1_farm_removals s3 = S (v1_farm_removals s) ∧
    v1_wss s3 = (chan_send (v1_wss s) (Close (Some (1000%Z, close_text)))).1.
Proof.
  intros Hcan Hs Hlen Hneed.
  set (s1 := set_sender s (MkSender (wrap64 (Z.of_nat (length txt))) (MkChan [Ok txt] true) chan_new
    true true false)).
  assert (Ht : on_text s txt = (s1, Ok tt)).
  { unfold v1_on_text, send_target_response_header_text_to_client. rewrite Hcan, Hs.
    by rewrite (proj2 (Nat.ltb_ge _ _)). }
  destruct (feed_delivers chunks s1 (Z.of_nat (length txt)) (MkChan [Ok txt] true) [] false)
    as (bd & s2 & rs & Hfeed & Hr & Hs2 & He & Hf & Hw); [done..|].
  exists s1, s2, rs, bd. do 3 (split; [done|]). cbv zeta.
  destruct (on_close_sender now s2 (Some (1000%Z, close_text))) as (-> & -> & _ & Hk).
  destruct (Hk eq_refl) as (-> & -> & ->). by rewrite Hs2, He, Hf, Hw.
Qed.

(** A close frame ends the request of a version 1 socket, whatever its code:
    both channels to the client are closed, the removal from the farm is spawned,
    and unless the code is 1000 a channel that was open holds the error with the
    code and the reason, so the client is not left waiting. *)
Theorem v1_close_ends_request now s f :
  let code := match f with Some (k, _) => k | None => 4000%Z end in
  let r := match f with Some (_, r) => r | None => [] end in
  let c := cli_side_res_sender s in
  let s' := (on_close now s f).1 in
  let c' := cli_side_res_sender s' in
  is_closed (v1_hdr c') = true ∧ is_closed (v1_bdy c') = true ∧
  is_close_msg_received s' = true ∧ v1_farm_removals s < v1_farm_removals s' ∧
  (code ≠ 1000%Z →
   (is_closed (v1_hdr c) = false → items (v1_hdr c') = items (v1_hdr c) ++ [Err (upstream_error code r)]) ∧
   (is_closed (v1_bdy c) = false → items (v1_bdy c') = items (v1_bdy c) ++ [Err (upstream_error code r)])).
Proof.
  intros code r c s' c'. unfold c'. destruct (on_close_sender now s f) as (Hs & Hc & Hf & _).
  fold s' code r in Hs, Hc, Hf. rewrite Hs. fold c. unfold closed_sender.
  destruct (is_closed (v1_hdr c)) eqn:E1, (is_closed (v1_bdy c)) eqn:E2; simpl;
    rewrite ?E1, ?E2; split_and!; try done; intros Hk;
    rewrite (proj2 (Z.eqb_neq _ _)) by done; unfold send_both, chan_send; cbn; rewrite ?E1, ?E2;
    by split.
Qed.

(** ** What the client can see *)

(** Everything that can happen to a socket: websocket messages, errors from the
    other tasks, the start of the sender task, the end of the response body.  What is
    sent to the client stays in its channels. *)
Inductive V1Event :=
| EText (txt : str)
| EBinary (bin : str)
| EPing (now : Z) (b : str)
| EClose (now : Z) (f : option (Z * str))
| EError (now : Z) (e : CrankerRouterException)
| ETerminate (e : option CrankerRouterException)
| EStartSending
| EBodyEnded (now : Z).

Definition v1_event s (e : V1Event) : RouterSocketV1 :=
  match e with
  | EText txt => (on_text s txt).1
  | EBinary bin => (on_binary s bin).1
  | EPing now b => (on_ping now s b).1
  | EClose now f => (on_close now s f).1
  | EError now e => (on_error now s e).1
  | ETerminate e => v1_terminate_all_conn s e
  | EStartSending => v1_set_can_send s true
  | EBodyEnded now => v1_body_stream_ended listeners send_err_dbg now s
  end.

Definition ok_texts (ch : Chan (result str CrankerRouterException)) : list str :=
  omap result_ok (items ch).

Record sender_inv c : Prop := {
  si_one : length (ok_texts (v1_hdr c)) ≤ 1;
  si_size : Forall (λ t, length t ≤ HEADER_MAX_SIZE) (ok_texts (v1_hdr c));
  si_sent : is_tgt_res_hdr_sent c = true → is_closed (v1_hdr c) = true ∧ is_tgt_res_hdr_received c = true;
  si_none : is_tgt_res_hdr_sent c = false → ok_texts (v1_hdr c) = [];
  si_body : is_tgt_res_hdr_sent c = false → ok_texts (v1_bdy c) = []
}.

Lemma ok_texts_err ch e : ok_texts (chan_send ch (Err e)).1 = ok_texts ch.
Proof.
  unfold ok_texts, chan_send. destruct (is_closed ch); [done|]. simpl. by rewrite omap_app, app_nil_r.
Qed.

Lemma sender_inv_close c : sender_inv c → sender_inv (close_both c).
Proof. intros []. split; try done. intros Hs. by split; [|apply si_sent0]. Qed.

Lemma sender_inv_send_both c e : sender_inv c → sender_inv (send_both c e).
Proof.
  intros []. split; unfold send_both; cbn [v1_hdr v1_bdy set_hdr_chan set_bdy_chan
    is_tgt_res_hdr_sent is_tgt_res_hdr_received]; rewrite ?ok_texts_err; try done.
  intros Hs. destruct (si_sent0 Hs) as [Hc ?]. unfold chan_send. by rewrite Hc.
Qed.

Lemma sender_inv_text c txt :
  sender_inv c → sender_inv (send_target_response_header_text_to_client send_err_dbg c txt).1.
Proof.
  intros [H1 H2 H3 H4 H5]. unfold send_target_response_header_text_to_client.
  destruct (is_tgt_res_hdr_sent c || is_tgt_res_hdr_received c) eqn:E; [by split|].
  apply orb_false_iff in E as [Es Er].
  destruct (HEADER_MAX_SIZE <? length txt) eqn:El.
  { split; cbn; try done; congruence. }
  apply Nat.ltb_ge in El. specialize (H4 Es). cbn [v1_hdr v1_bdy]. unfold chan_send.
  destruct (is_closed (v1_hdr c)); split; cbn [fst v1_hdr v1_bdy is_tgt_res_hdr_sent
    is_tgt_res_hdr_received is_closed chan_close]; try done.
  all: unfold ok_texts in *; cbn [items chan_close]; rewrite omap_app, H4; simpl; first [lia|by repeat constructor].
Qed.

Lemma sender_inv_binary c bin :
  sender_inv c → sender_inv (send_target_response_body_binary_fragment_to_client send_err_dbg c bin).1.
Proof.
  intros [H1 H2 H3 H4 H5]. unfold send_target_response_body_binary_fragment_to_client.
  destruct (negb _ || negb _) eqn:E; [by split|].
  apply orb_false_iff in E as [Er%negb_false_iff Es%negb_false_iff].
  destruct (chan_send _ _) as [ch ok]. split; cbn; rewrite ?Es; try done; auto.
Qed.

(** What an event does to the sender of the response. *)
Inductive sender_step (e : V1Event) c : ResSender → Prop :=
| ss_same : sender_step e c c
| ss_close : sender_step e c (close_both c)
| ss_fail x : sender_step e c (close_both (send_both c x))
| ss_text txt : e = EText txt → sender_step e c (send_target_response_header_text_to_client send_err_dbg c txt).1
| ss_binary bin : e = EBinary bin →
    sender_step e c (send_target_response_body_binary_fragment_to_client send_err_dbg c bin).1.

Lemma v1_event_step s e : sender_step e (cli_side_res_sender s) (cli_side_res_sender (v1_event s e)).
Proof.
  destruct e as [txt|bin|now b|now f|now e|e| |now]; cbn [v1_event].
  - unfold v1_on_text. destruct (v1_can_send s); [|apply ss_same].
    pose proof (ss_text (EText txt) (cli_side_res_sender s) txt eq_refl) as Ht.
    by destruct (send_target_response_header_text_to_client _ _ _).
  - unfold v1_on_binary. destruct (v1_can_send s); [|apply ss_same]. cbv zeta. cbn [cli_side_res_sender set_frames].
    pose proof (ss_binary (EBinary bin) (cli_side_res_sender s) bin eq_refl) as Ht.
    destruct (send_target_response_body_binary_fragment_to_client _ _ _) as [c [u|e]]; done.
  - unfold v1_on_ping, wss_send. destruct (chan_send _ _) as [ch [|]]; [apply ss_same|].
    destruct (on_error_sender now (v1_set_wss s ch) (crex_new (lit "failed to pong back " ++ send_err_dbg)))
      as (-> & _). apply ss_same.
  - destruct (on_close_sender now s f) as (-> & _). unfold closed_sender.
    destruct (negb _ || negb _); [|apply ss_same]. destruct (_ =? 1000)%Z; [apply ss_close|apply ss_fail].
  - destruct (on_error_sender now s e) as (-> & _). apply ss_same.
  - apply ss_fail.
  - apply ss_same.
  - unfold v1_body_stream_ended. destruct (is_close_msg_received s); [apply ss_same|].
    destruct (on_error_sender now s (with_err_kind (crex_new (lit "connection to client closed unexpectedly"))
      BrokenConnection_0011)) as (-> & _). apply ss_same.
Qed.

Lemma sender_step_inv e c c' : sender_step e c c' → sender_inv c → sender_inv c'.
Proof.
  intros [] Hi; [done|by apply sender_inv_close|by apply sender_inv_close, sender_inv_send_both
    |by apply sender_inv_text|by apply sender_inv_binary].
Qed.

Lemma failed_texts c x :
  ok_texts (v1_hdr (close_both (send_both c x))) = ok_texts (v1_hdr c) ∧
  ok_texts (v1_bdy (close_both (send_both c x))) = ok_texts (v1_bdy c).
Proof. split; apply ok_texts_err. Qed.

(** The header channel is closed by the header text, or together with the body
    channel; the body only follows a header text. *)
Record header_first c : Prop := {
  hf_closed : is_closed (v1_hdr c) = true → is_closed (v1_bdy c) = false → length (ok_texts (v1_hdr c)) = 1;
  hf_sent : is_tgt_res_hdr_sent c = true → is_closed (v1_hdr c) = true;
  hf_body : ok_texts (v1_bdy c) ≠ [] → length (ok_texts (v1_hdr c)) = 1
}.

Lemma sender_step_header_first e c c' : sender_step e c c' → sender_inv c → header_first c → header_first c'.
Proof.
  intros Hs Hinv [H1 H2 H3]. destruct Hs as [| |x|txt _|bin _]; [done|by split|..].
  - split; [done|done|]. rewrite !(proj1 (failed_texts c x)), !(proj2 (failed_texts c x)). done.
  - unfold send_target_response_header_text_to_client.
    destruct (is_tgt_res_hdr_sent c || is_tgt_res_hdr_received c) eqn:E; [done|].
    apply orb_false_iff in E as [Es _]. destruct (HEADER_MAX_SIZE <? length txt); [done|].
    pose proof (si_none _ Hinv Es) as Hn. pose proof (si_body _ Hinv Es) as Hb. cbn [v1_hdr v1_bdy]. unfold chan_send.
    destruct (is_closed (v1_hdr c)) eqn:Ec; split; cbn; try done; try (by rewrite Hb); intros _ Ho.
    unfold ok_texts in *. cbn [items]. by rewrite omap_app, length_app, Hn.
  - unfold send_target_response_body_binary_fragment_to_client. destruct (negb _ || negb _) eqn:E; [done|].
    apply orb_false_iff in E as [_ Es%negb_false_iff]. unfold chan_send.
    destruct (is_closed (v1_bdy c)) eqn:Eb; split; cbn; rewrite ?Eb; auto.
Qed.

(** What the connector sent. *)
Definition texts_of (es : list V1Event) : list str :=
  omap (λ e, match e with EText t => Some t | _ => None end) es.
Definition binaries_of (es : list V1Event) : list str :=
  omap (λ e, match e with EBinary b => Some b | _ => None end) es.

Lemma ok_texts_ok ch t : ok_texts (chan_send ch (Ok t)).1 = ok_texts ch ++ (if is_closed ch then [] else [t]).
Proof.
  unfold ok_texts, chan_send. destruct (is_closed ch); cbn; [by rewrite app_nil_r|]. by rewrite omap_app.
Qed.

Lemma sender_step_texts e c c' :
  sender_step e c c' →
  ok_texts (v1_hdr c') `sublist_of` ok_texts (v1_hdr c) ++ texts_of [e] ∧
  ok_texts (v1_bdy c') `sublist_of` ok_texts (v1_bdy c) ++ binaries_of [e].
Proof.
  assert (Hself : ∀ l k : list str, l `sublist_of` l ++ k) by (intros; by apply sublist_inserts_r).
  assert (Hone : ∀ (l : list str) (b : bool) x, l ++ (if b then [] else [x]) `sublist_of` l ++ [x]).
  { intros l [] x; [rewrite app_nil_r; apply Hself|done]. }
  intros [| |x|txt ->|bin ->]; try by split.
  - destruct (failed_texts c x) as [-> ->]. by split.
  - unfold send_target_response_header_text_to_client. destruct (_ || _); [by split|].
    destruct (HEADER_MAX_SIZE <? length txt); [by split|]. cbn [v1_hdr v1_bdy].
    pose proof (ok_texts_ok (v1_hdr c) txt) as Hk. destruct (chan_send _ _) as [ch ok]. cbn in Hk |- *.
    split; [|apply Hself]. unfold ok_texts at 1. cbn [items chan_close]. unfold ok_texts at 1 in Hk. rewrite Hk. apply Hone.
  - unfold send_target_response_body_binary_fragment_to_client. destruct (_ || _); [by split|].
    pose proof (ok_texts_ok (v1_bdy c) bin) as Hk. destruct (chan_send _ _) as [ch ok]. cbn in Hk |- *.
    split; [apply Hself|]. rewrite Hk. apply Hone.
Qed.

(** C25: whatever a connector sends and whatever errors occur, in any order, the
    client of a version 1 socket is sent at most one header text, of at most
    64 KiB, which is a text message of the connector, and body chunks that are binary
    messages of the connector, in their order and each at most once; as soon as one
    chunk of the body was sent to the client, exactly one header text was sent to it
    before and the header channel is closed. *)
Theorem v1_one_header_before_body i now es :
  let c := cli_side_res_sender (foldl v1_event (v1_new i now) es) in
  length (ok_texts (v1_hdr c)) ≤ 1 ∧
  Forall (λ t, length t ≤ HEADER_MAX_SIZE) (ok_texts (v1_hdr c)) ∧
  ok_texts (v1_hdr c) `sublist_of` texts_of es ∧
  ok_texts (v1_bdy c) `sublist_of` binaries_of es ∧
  (ok_texts (v1_bdy c) ≠ [] → length (ok_texts (v1_hdr c)) = 1 ∧ is_closed (v1_hdr c) = true).
Proof.
  intros c.
  assert (Hinv : sender_inv c ∧ header_first c ∧ ok_texts (v1_hdr c) `sublist_of` texts_of es ∧
    ok_texts (v1_bdy c) `sublist_of` binaries_of es).
  { unfold c. clear c. induction es as [|e es IH] using rev_ind; [by split_and!; [split; [simpl; lia|constructor|..]|..]|].
    rewrite foldl_snoc. set (s := foldl v1_event _ es) in *. destruct IH as (H1 & H2 & H3 & H4).
    pose proof (v1_event_step s e) as Hs. destruct (sender_step_texts _ _ _ Hs) as [Ht Hb].
    unfold texts_of, binaries_of in *. rewrite !omap_app. split_and!; [by eapply sender_step_inv
      |by eapply sender_step_header_first|etransitivity; [exact Ht|by apply sublist_app]
      |etransitivity; [exact Hb|by apply sublist_app]]. }
  destruct Hinv as ([H1 H2 H3 H4 H5] & [F1 F2 F3] & Ht & Hb). split_and!; [done..|].
  intros Hne. split; [by apply F3|]. apply F2. destruct (is_tgt_res_hdr_sent c); [done|]. by rewrite H5 in Hne.
Qed.

(** ** The request *)

Definition request_msg (m : Message) : bool :=
  match m with Text _ | Binary _ => true | _ => false end.

Definition req_msgs s : list Message := filter (λ m, request_msg m = true) (items (v1_wss s)).

(** [s'] has queued the request messages [ms] more than [s], and still can send;
    [gone] are the messages the writing task took from the queue meanwhile. *)
Definition v1_sends s s' (ms : list Message) : Prop :=
  is_closed (v1_wss s') = false ∧ ∃ gone, gone ++ req_msgs s' = req_msgs s ++ ms.

Lemma v1_sends_trans s1 s2 s3 m1 m2 : v1_sends s1 s2 m1 → v1_sends s2 s3 m2 → v1_sends s1 s3 (m1 ++ m2).
Proof.
  intros [_ [g1 H1]] [Hc [g2 H2]]. split; [done|]. exists (g1 ++ g2).
  by rewrite <- app_assoc, H2, app_assoc, H1, <- app_assoc.
Qed.

Lemma wss_send_open s m :
  is_closed (v1_wss s) = false → request_msg m = true →
  ∃ s', wss_send s m = (s', true) ∧ v1_sends s s' [m].
Proof.
  intros Hc Hm. unfold wss_send, chan_send. rewrite Hc. eexists. split; [done|]. split; [done|].
  exists []. unfold req_msgs. cbn. by rewrite list.filter_app, filter_cons_True.
Qed.

(** The other tasks do not close the queue and queue no text or binary message;
    they may take messages from the front. *)
Definition v1_env_fair (env : nat → RouterSocketV1 → RouterSocketV1) : Prop :=
  ∀ i s, is_closed (v1_wss s) = false → v1_sends s (env i s) [].

Lemma v1_send_body_sends env i body s s' r :
  v1_env_fair env → is_closed (v1_wss s) = false →
  v1_send_body listeners send_err_dbg env i body s = (s', r) →
  ∃ k, v1_sends s s' (take k (map Binary (omap result_ok body))) ∧
       (r = Ok tt → take k (map Binary (omap result_ok body)) = map Binary (omap result_ok body) ∧
          Forall (λ x, is_ok x = true) body).
Proof.
  intros Henv. revert i s. induction body as [|[bytes|e] body IH]; intros i s Hc; cbn [v1_send_body].
  - intros [= <- <-]. exists 0. split; [|by split]. split; [done|]. exists []. by rewrite app_nil_r.
  - unfold v1_send_chunk. destruct (result_bind _ _) as [u|e].
    + destruct (wss_send_open s (Binary bytes)) as (s1 & -> & Hs1); [done..|].
      destruct (if needs_request_chunks listeners then _ else _) as [u'|e'].
      * intros Hb. pose proof (Henv i s1 (proj1 Hs1)) as Hs2.
        destruct (IH _ _ (proj1 Hs2) Hb) as (k & Hk & Hd). exists (S k). cbn [omap list_omap map take].
        pose proof (v1_sends_trans _ _ _ _ _ (v1_sends_trans _ _ _ _ _ Hs1 Hs2) Hk) as Hall.
        split; [exact Hall|]. intros Hr. destruct (Hd Hr) as [Hd1 Hd2]. split; [|by constructor].
        simpl. by f_equal.
      * intros [= <- <-]. exists 1. by split.
    + intros [= <- <-]. exists 0. split; [|done]. split; [done|]. exists []. by rewrite app_nil_r.
  - intros [= <- <-]. exists 0. split; [|done]. split; [done|]. exists []. by rewrite app_nil_r.
Qed.

(** The messages of a version 1 request leave in order: the sender task
    always returns, and what it queued is a prefix of the request text, one
    binary message per body chunk and the end marker ["_3"]; when it succeeds it
    is all of it, every chunk having been read without an error.  A request
    without a body is the text alone. *)
Theorem v1_request_in_order env s opt_body text :
  v1_env_fair env → is_closed (v1_wss s) = false →
  let all := Text text :: match opt_body with
                          | Some body => map Binary (omap result_ok body) ++ [Text (lit "_3")]
                          | None => []
                          end in
  ∃ s' r, v1_split_part_one_send_or_err listeners send_err_dbg env s opt_body text = Ret (s', r) ∧
  ∃ gone k, gone ++ req_msgs s' = req_msgs s ++ take k all ∧
    (r = Ok tt → take k all = all ∧ Forall (λ x, is_ok x = true) (default [] opt_body)).
Proof.
  intros Henv Hc all. unfold v1_split_part_one_send_or_err. cbv zeta.
  destruct (wss_send_open (v1_set_can_send s true) (Text text)) as (s1 & -> & Hs1); [done..|].
  change (v1_sends s s1 [Text text]) in Hs1. destruct opt_body as [body|].
  - destruct (v1_send_body listeners send_err_dbg env 0 body s1) as [s2 rb] eqn:Eb.
    destruct (v1_send_body_sends _ _ _ _ _ _ Henv (proj1 Hs1) Eb) as (k & Hk & Hd).
    pose proof (v1_sends_trans _ _ _ _ _ Hs1 Hk) as Hs12. destruct rb as [[]|e].
    + destruct (Hd eq_refl) as [Hall Hok]. rewrite Hall in Hs12.
      destruct (wss_send_open s2 (Text (lit "_3"))) as (s3 & E3 & Hs3); [by destruct Hs12|done|].
      unfold v1_send_end. cbn [outcome_bind request_build with_request_body_ended builder_new end_marker
        request_line header_map_str end_marker_str]. rewrite E3. cbn [outcome_bind].
      destruct (v1_sends_trans _ _ _ _ _ Hs12 Hs3) as [_ [gone Hg]].
      eexists _, _. split; [done|]. exists gone, (length all). rewrite firstn_all. split; [exact Hg|].
      by intros _.
    + cbn [outcome_bind]. destruct Hs12 as [_ [gone Hg]].
      eexists _, _. split; [done|]. exists gone, (S (k `min` length (map (@Binary) (omap result_ok body)))).
      split; [|done]. unfold all. cbn [take]. rewrite take_app_le by lia.
      by rewrite <- take_take, firstn_all.
  - cbn [outcome_bind]. destruct Hs1 as [_ [gone Hg]].
    eexists _, _. split; [done|]. exists gone, 1. split; [exact Hg|]. intros _. split; [done|constructor].
Qed.

(** With version 1 sockets the listeners cannot change the request headers:
    whatever they do to the header map in [on_before_proxy_to_target], the text
    sent to the connector is the one that would be sent without listeners. *)
Theorem v1_listener_headers_ignored s method uri (hdr hdr' : HM) has_body :
  v1_before_proxy s listeners hdr = Ok hdr' →
  v1_request_text listeners s method uri hdr has_body = v1_request_text [] s method uri hdr has_body.
Proof. intros Hb. unfold v1_request_text. by rewrite Hb. Qed.

End props.

(** ** Witnesses *)

#[local] Existing Instance Alist.lib.

Module DemoV1.

(** A listener that adds a header. *)
Definition adds_header : ProxyListener RouterSocketV1 Alist.headers :=
  MkListener _ _ (λ _ m, (hm_insert (lit "x-test-request") (lit "yes") m, Ok tt)) (λ _, Ok tt)
    (λ _ _ _, Ok tt) (λ _ _, Ok tt) (λ _ _, Ok tt) (λ _ _, Ok tt) (λ _, Ok tt) (λ _, Ok tt)
    (λ _ _, Ok tt) false false.

Definition socket : RouterSocketV1 :=
  v1_new (MkV1Info (lit "app") (lit "comp") (lit "rs1") (lit "c1") (MkAddr (V4 9) 80)) 1000.

(** A request is being sent. *)
Definition sending : RouterSocketV1 := v1_set_can_send socket true.

(** The connector sends two texts and a piece of the body. *)
Definition events : list V1Event :=
  [EStartSending; EText (lit "HTTP/1.1 200 OK"); EText (lit "again"); EBinary (lit "hello")].

Definition answered : RouterSocketV1 :=
  foldl (v1_event [adds_header] (lit "SendError(..)"))
    (v1_new (MkV1Info (lit "app") (lit "comp") (lit "rs1") (lit "c1") (MkAddr (V4 9) 80)) 1000) events.

End DemoV1.

Lemma v1_one_header_before_body_witness :
  ok_texts (v1_bdy (cli_side_res_sender DemoV1.answered)) = [lit "hello"] ∧
  length (ok_texts (v1_hdr (cli_side_res_sender DemoV1.answered))) = 1.
Proof.
  split; [vm_compute; reflexivity|].
  destruct (v1_one_header_before_body [DemoV1.adds_header] (lit "SendError(..)")
    (MkV1Info (lit "app") (lit "comp") (lit "rs1") (lit "c1") (MkAddr (V4 9) 80)) 1000 DemoV1.events)
    as (_ & _ & _ & _ & Hb).
  apply Hb. vm_compute. discriminate.
Defined.

Lemma v1_response_delivered_witness :
  ∃ bd s3, cli_side_res_sender s3 =
    MkSender 20 (MkChan [Ok (lit "HTTP/1.1 200 OK")] true) (MkChan [Ok (lit "he"); Ok (lit "llo")] true)
      true true bd.
Proof.
  destruct (v1_response_delivered [DemoV1.adds_header] (lit "SendError(..)") 2000 DemoV1.sending
    (lit "HTTP/1.1 200 OK") [lit "he"; lit "llo"] []) as (s1 & s2 & rs & bd & _ & _ & _ & Hs & _).
  - reflexivity.
  - reflexivity.
  - apply Nat.leb_le. vm_compute. reflexivity.
  - reflexivity.
  - eexists bd, _. exact Hs.
Defined.

Lemma v1_request_in_order_witness :
  ∃ s' gone, gone ++ req_msgs s' =
    req_msgs DemoV1.socket ++ [Text (lit "GET"); Binary (lit "ab"); Text (lit "_3")].
Proof.
  destruct (v1_request_in_order [DemoV1.adds_header] (lit "SendError(..)") (λ _ s, s) DemoV1.socket
    (Some [Ok (lit "ab")]) (lit "GET")) as (s' & r & E & gone & k & Hg & Hr).
  - intros i s Hc. split; [exact Hc|]. exists []. by rewrite app_nil_r.
  - reflexivity.
  - exists s', gone. rewrite Hg. f_equal. apply Hr. vm_compute in E. by injection E as _ <-.
Defined.

Lemma v1_listener_headers_ignored_witness :
  v1_request_text [DemoV1.adds_header] DemoV1.socket (lit "GET")
    (MkUri (lit "/a") (Some (lit "/a")) None None None) (hm_new : Alist.headers) false =
  Ret (Ok (lit "GET /a HTTP/1.1" ++ [LF; LF] ++ lit "_2")).
Proof.
  rewrite (v1_listener_headers_ignored [DemoV1.adds_header] DemoV1.socket (lit "GET")
    (MkUri (lit "/a") (Some (lit "/a")) None None None) hm_new
    [(lit "x-test-request", lit "yes")] false); vm_compute; reflexivity.
Defined.
