(* ===== verification/SocketV3.v ===== *)
(** * The multiplexed router socket (router_socket_v3.rs)

    One websocket carries many requests.  Every request has a [RequestContext];
    the frames of the connector are dispatched to it by [on_binary], and the
    client side reads the response from its two channels.  Contexts are shared
    objects: [ctx_heap] holds them and [context_map] maps a request id to one of
    them, so a context that has left the map can still be used by the task that
    holds it.  Handlers are state-passing functions; what the source spawns (the
    removal of a context, the removal of the socket from the farm) is recorded
    and is an operation of its own.

    The texts of the errors of other libraries are parameters. *)

From S2P Require Import Prelude RustStr Exceptions Http Forwarded Config HttpUtils CrankerProtocol Frames FlowControl SocketBase.

(** ** Request contexts *)

Inductive StreamState := Open | HalfClose | Closed | Error.

Definition is_completed (s : StreamState) : bool :=
  match s with Open | HalfClose => false | Closed | Error => true end.

Record RequestContext := MkCtx {
  request_id : Z;
  req_start_time : Z;
  flow_control : Flow;
  wss_on_binary_call_count : Z;
  tgt_res_hdr : Chan (result str CrankerRouterException);
  tgt_res_bdy : Chan (result str CrankerRouterException);
  from_client_bytes : Z;
  to_client_bytes : Z;
  ctx_error : option CrankerRouterException;
  is_rst_stream_sent : bool;
  ctx_state : StreamState;
  header_line_builder : str;
  is_tgt_can_send_res_now_according_to_rfc2616 : bool;
  is_end_stream_received_from_tgt : bool
}.

Definition ctx_new (req_id now : Z) : RequestContext :=
  MkCtx req_id now flow_new 0 chan_new chan_new 0 0 None false Open [] false false.

Definition set_flow (c : RequestContext) x := MkCtx (request_id c) (req_start_time c) x (wss_on_binary_call_count c)
  (tgt_res_hdr c) (tgt_res_bdy c) (from_client_bytes c) (to_client_bytes c) (ctx_error c)
  (is_rst_stream_sent c) (ctx_state c) (header_line_builder c)
  (is_tgt_can_send_res_now_according_to_rfc2616 c) (is_end_stream_received_from_tgt c).
Definition set_call_count (c : RequestContext) x := MkCtx (request_id c) (req_start_time c) (flow_control c) x
  (tgt_res_hdr c) (tgt_res_bdy c) (from_client_bytes c) (to_client_bytes c) (ctx_error c)
  (is_rst_stream_sent c) (ctx_state c) (header_line_builder c)
  (is_tgt_can_send_res_now_according_to_rfc2616 c) (is_end_stream_received_from_tgt c).
Definition set_hdr (c : RequestContext) x := MkCtx (request_id c) (req_start_time c) (flow_control c)
  (wss_on_binary_call_count c) x (tgt_res_bdy c) (from_client_bytes c) (to_client_bytes c)
  (ctx_error c) (is_rst_stream_sent c) (ctx_state c) (header_line_builder c)
  (is_tgt_can_send_res_now_according_to_rfc2616 c) (is_end_stream_received_from_tgt c).
Definition set_bdy (c : RequestContext) x := MkCtx (request_id c) (req_start_time c) (flow_control c)
  (wss_on_binary_call_count c) (tgt_res_hdr c) x (from_client_bytes c) (to_client_bytes c)
  (ctx_error c) (is_rst_stream_sent c) (ctx_state c) (header_line_builder c)
  (is_tgt_can_send_res_now_according_to_rfc2616 c) (is_end_stream_received_from_tgt c).
Definition set_from_client (c : RequestContext) x := MkCtx (request_id c) (req_start_time c) (flow_control c)
  (wss_on_binary_call_count c) (tgt_res_hdr c) (tgt_res_bdy c) x (to_client_bytes c)
  (ctx_error c) (is_rst_stream_sent c) (ctx_state c) (header_line_builder c)
  (is_tgt_can_send_res_now_according_to_rfc2616 c) (is_end_stream_received_from_tgt c).
Definition set_to_client (c : RequestContext) x := MkCtx (request_id c) (req_start_time c) (flow_control c)
  (wss_on_binary_call_count c) (tgt_res_hdr c) (tgt_res_bdy c) (from_client_bytes c) x
  (ctx_error c) (is_rst_stream_sent c) (ctx_state c) (header_line_builder c)
  (is_tgt_can_send_res_now_according_to_rfc2616 c) (is_end_stream_received_from_tgt c).
Definition set_error (c : RequestContext) x := MkCtx (request_id c) (req_start_time c) (flow_control c)
  (wss_on_binary_call_count c) (tgt_res_hdr c) (tgt_res_bdy c) (from_client_bytes c)
  (to_client_bytes c) x (is_rst_stream_sent c) (ctx_state c) (header_line_builder c)
  (is_tgt_can_send_res_now_according_to_rfc2616 c) (is_end_stream_received_from_tgt c).
Definition set_rst_sent (c : RequestContext) x := MkCtx (request_id c) (req_start_time c) (flow_control c)
  (wss_on_binary_call_count c) (tgt_res_hdr c) (tgt_res_bdy c) (from_client_bytes c)
  (to_client_bytes c) (ctx_error c) x (ctx_state c) (header_line_builder c)
  (is_tgt_can_send_res_now_according_to_rfc2616 c) (is_end_stream_received_from_tgt c).
Definition set_header_line (c : RequestContext) x := MkCtx (request_id c) (req_start_time c) (flow_control c)
  (wss_on_binary_call_count c) (tgt_res_hdr c) (tgt_res_bdy c) (from_client_bytes c)
  (to_client_bytes c) (ctx_error c) (is_rst_stream_sent c) (ctx_state c) x
  (is_tgt_can_send_res_now_according_to_rfc2616 c) (is_end_stream_received_from_tgt c).
Definition set_can_send (c : RequestContext) x := MkCtx (request_id c) (req_start_time c) (flow_control c)
  (wss_on_binary_call_count c) (tgt_res_hdr c) (tgt_res_bdy c) (from_client_bytes c)
  (to_client_bytes c) (ctx_error c) (is_rst_stream_sent c) (ctx_state c) (header_line_builder c)
  x (is_end_stream_received_from_tgt c).
Definition set_end_stream (c : RequestContext) x := MkCtx (request_id c) (req_start_time c) (flow_control c)
  (wss_on_binary_call_count c) (tgt_res_hdr c) (tgt_res_bdy c) (from_client_bytes c)
  (to_client_bytes c) (ctx_error c) (is_rst_stream_sent c) (ctx_state c) (header_line_builder c)
  (is_tgt_can_send_res_now_according_to_rfc2616 c) x.

(** [let _ = ctx.tgt_res_hdr_tx.send(Err(..)); let _ = ctx.tgt_res_bdy_tx.send(Err(..));] *)
Definition send_err_to_client (c : RequestContext) (e : CrankerRouterException) : RequestContext :=
  let c := set_hdr c (chan_send (tgt_res_hdr c) (Err e)).1 in
  set_bdy c (chan_send (tgt_res_bdy c) (Err e)).1.

(** Including the header of the client request. *)
Definition is_cli_req_not_start_to_send_to_tgt_yet (c : RequestContext) : bool :=
  is_tgt_can_send_res_now_according_to_rfc2616 c && (from_client_bytes c =? 0)%Z.

(** ** The socket *)

Record RouterSocketV3 := MkV3 {
  v3_route : str;
  v3_domain : str;
  v3_component_name : str;
  v3_router_socket_id : str;
  v3_connector_id : str;
  v3_remote_address : SocketAddr;
  v3_is_removed : bool;
  ctx_heap : list RequestContext;
  context_map : gmap Z nat;
  req_id_generator : Z;
  wss_send_task : Chan Message;
  err_chan : Chan CrankerRouterException;
  (** spawned [context_map.remove] tasks, farm removals, and the contexts for
      which the completion listeners were called, with the [duration_millis]
      stored then *)
  spawned_removes : list Z;
  farm_removals : nat;
  completed : list (nat * Z);
  (** what [current_time_millis] returns now, and what it returned before, the
      latest first *)
  v3_clock : Z;
  earlier_readings : list Z
}.

Definition with_ctx_heap (s : RouterSocketV3) x := MkV3 (v3_route s) (v3_domain s)
  (v3_component_name s) (v3_router_socket_id s) (v3_connector_id s) (v3_remote_address s)
  (v3_is_removed s) x (context_map s) (req_id_generator s) (wss_send_task s) (err_chan s)
  (spawned_removes s) (farm_removals s) (completed s) (v3_clock s) (earlier_readings s).
Definition with_context_map (s : RouterSocketV3) x := MkV3 (v3_route s) (v3_domain s)
  (v3_component_name s) (v3_router_socket_id s) (v3_connector_id s) (v3_remote_address s)
  (v3_is_removed s) (ctx_heap s) x (req_id_generator s) (wss_send_task s) (err_chan s)
  (spawned_removes s) (farm_removals s) (completed s) (v3_clock s) (earlier_readings s).
Definition with_generator (s : RouterSocketV3) x := MkV3 (v3_route s) (v3_domain s)
  (v3_component_name s) (v3_router_socket_id s) (v3_connector_id s) (v3_remote_address s)
  (v3_is_removed s) (ctx_heap s) (context_map s) x (wss_send_task s) (err_chan s)
  (spawned_removes s) (farm_removals s) (completed s) (v3_clock s) (earlier_readings s).
Definition with_wss (s : RouterSocketV3) x := MkV3 (v3_route s) (v3_domain s)
  (v3_component_name s) (v3_router_socket_id s) (v3_connector_id s) (v3_remote_address s)
  (v3_is_removed s) (ctx_heap s) (context_map s) (req_id_generator s) x (err_chan s)
  (spawned_removes s) (farm_removals s) (completed s) (v3_clock s) (earlier_readings s).
Definition with_err_chan (s : RouterSocketV3) x := MkV3 (v3_route s) (v3_domain s)
  (v3_component_name s) (v3_router_socket_id s) (v3_connector_id s) (v3_remote_address s)
  (v3_is_removed s) (ctx_heap s) (context_map s) (req_id_generator s) (wss_send_task s) x
  (spawned_removes s) (farm_removals s) (completed s) (v3_clock s) (earlier_readings s).
Definition with_removes (s : RouterSocketV3) x := MkV3 (v3_route s) (v3_domain s)
  (v3_component_name s) (v3_router_socket_id s) (v3_connector_id s) (v3_remote_address s)
  (v3_is_removed s) (ctx_heap s) (context_map s) (req_id_generator s) (wss_send_task s)
  (err_chan s) x (farm_removals s) (completed s) (v3_clock s) (earlier_readings s).
Definition with_completed (s : RouterSocketV3) x := MkV3 (v3_route s) (v3_domain s)
  (v3_component_name s) (v3_router_socket_id s) (v3_connector_id s) (v3_remote_address s)
  (v3_is_removed s) (ctx_heap s) (context_map s) (req_id_generator s) (wss_send_task s)
  (err_chan s) (spawned_removes s) (farm_removals s) x (v3_clock s) (earlier_readings s).
Definition mark_v3_removed (s : RouterSocketV3) := MkV3 (v3_route s) (v3_domain s)
  (v3_component_name s) (v3_router_socket_id s) (v3_connector_id s) (v3_remote_address s)
  true (ctx_heap s) (context_map s) (req_id_generator s) (wss_send_task s)
  (err_chan s) (spawned_removes s) (farm_removals s) (completed s) (v3_clock s) (earlier_readings s).
Definition spawn_farm_removal (s : RouterSocketV3) := MkV3 (v3_route s) (v3_domain s)
  (v3_component_name s) (v3_router_socket_id s) (v3_connector_id s) (v3_remote_address s)
  (v3_is_removed s) (ctx_heap s) (context_map s) (req_id_generator s) (wss_send_task s)
  (err_chan s) (spawned_removes s) (S (farm_removals s)) (completed s) (v3_clock s) (earlier_readings s).
(** Time passes: the clock reads [t] from now on. *)
Definition tick (s : RouterSocketV3) (t : Z) := MkV3 (v3_route s) (v3_domain s)
  (v3_component_name s) (v3_router_socket_id s) (v3_connector_id s) (v3_remote_address s)
  (v3_is_removed s) (ctx_heap s) (context_map s) (req_id_generator s) (wss_send_task s)
  (err_chan s) (spawned_removes s) (farm_removals s) (completed s) t
  (v3_clock s :: earlier_readings s).

(** [new_arc]; [now] is the time it is called at. *)
Definition v3_new (route domain component_name router_socket_id connector_id : str)
  (remote_address : SocketAddr) (now : Z) : RouterSocketV3 :=
  MkV3 route domain component_name router_socket_id connector_id remote_address false [] ∅ 0
    chan_new chan_new [] 0 [] now [].

Definition upd_ctx (s : RouterSocketV3) (p : nat) (g : RequestContext → RequestContext)
  : RouterSocketV3 := with_ctx_heap s (alter g p (ctx_heap s)).

Definition ctx_of (s : RouterSocketV3) (p : nat) : RequestContext :=
  default (ctx_new 0 0) (ctx_heap s !! p).

Definition inflight_count (s : RouterSocketV3) : Z := wrap32 (Z.of_nat (size (context_map s))).
Definition is_active (s : RouterSocketV3) : bool := (0 <? inflight_count s)%Z.

Section v3.
Context {HM : Type} `{HttpLib HM}.
Context (listeners : list (ProxyListener RequestContext HM)).
(** [{:?}] of a failed [send], of a failed [recv] and of a UTF-8 error. *)
Context (send_err_dbg recv_err_dbg : str) (utf8_err_dbg : str → str) (debug_strs : list str → str).
Context (crex_dbg : CrankerRouterException → str) (http_err_dbg : str).
(** The parameters of [set_target_request_headers]. *)
Context (local_ip : str) (ip_to_string : IpAddr → str) (version_debug : Version → str).
Context {L F R : Type} (config : CrankerRouterConfig L F R).

Definition send_data (s : RouterSocketV3) (m : Message)
  : RouterSocketV3 * result unit CrankerRouterException :=
  let '(c, ok) := chan_send (wss_send_task s) m in
  if ok then (with_wss s c, Ok tt)
  else (s, Err (crex_new (lit "failed to send_data: " ++ send_err_dbg ++ lit ". route = " ++
                          v3_route s ++ lit " , router socket id = " ++ v3_router_socket_id s))).

Definition check_if_context_exists (s : RouterSocketV3) (req_id : Z)
  : result nat CrankerRouterException :=
  match context_map s !! req_id with
  | None => Err (crex_new (lit "can not find ctx for req id=" ++ display_Z req_id ++
                  lit " in router_socket_id=" ++ v3_router_socket_id s ++ lit ". route = " ++ v3_route s))
  | Some p => Ok p
  end.

(** The duration is stored and every listener is told; their errors are only
    logged. *)
Definition raise_completion_event (s : RouterSocketV3) (opt_cli_req_id : option Z) : RouterSocketV3 :=
  match opt_cli_req_id with
  | Some req_id =>
      match context_map s !! req_id with
      | Some p => with_completed s (completed s ++
          [(p, wrap64 (v3_clock s - req_start_time (ctx_of s p)))])
      | None => s
      end
  | None => s
  end.

Definition try_spawn_remove_req_ctx (s : RouterSocketV3) (req_id : Z) : RouterSocketV3 :=
  with_removes s (spawned_removes s ++ [req_id]).

Definition try_provide_general_error (s : RouterSocketV3) (opt_crex : option CrankerRouterException)
  : RouterSocketV3 :=
  match opt_crex with
  | Some crex =>
      foldl (λ s kv, upd_ctx s kv.2 (λ c, set_error c (Some crex))) s (map_to_list (context_map s))
  | None => s
  end.

Definition cli_fail_prior_to_tgt_res (c : RequestContext) (opt_reason : option str)
  (opt_status : option Z) : RequestContext :=
  send_err_to_client c (with_status_code (crex_new (default (lit "unknown early failed reason") opt_reason))
    (default 500%Z opt_status)).

(** What [notify_client_request_close] does to the context. *)
Definition close_ctx (c : RequestContext) (code : Z) (opt_reason : option str) : RequestContext :=
  let reason := default (lit "closed by router") opt_reason in
  let c :=
    if is_cli_req_not_start_to_send_to_tgt_yet c then
      if (code =? 1011)%Z then cli_fail_prior_to_tgt_res c (Some (lit "ws code 1011")) (Some 502%Z)
      else if (code =? 1008)%Z
      then cli_fail_prior_to_tgt_res c (Some (lit "ws code 1008")) (Some 400%Z)
      else c
    else c in
  if negb (is_closed (tgt_res_hdr c)) || negb (is_closed (tgt_res_bdy c)) then
    let c :=
      if (code =? 1000)%Z then c
      else send_err_to_client c (crex_new (lit "upstream server error: ws code=" ++ display_Z code ++
                                           lit ", reason=" ++ reason)) in
    set_bdy (set_hdr c (chan_close (tgt_res_hdr c))) (chan_close (tgt_res_bdy c))
  else c.

Definition ctx_id (s : RouterSocketV3) (p : nat) : Z :=
  match ctx_heap s !! p with Some c => request_id c | None => 0 end.

Definition notify_client_request_close (s : RouterSocketV3) (p : nat) (ws_status_code : Z)
  (opt_reason : option str) : RouterSocketV3 :=
  let s := upd_ctx s p (λ c, close_ctx c ws_status_code opt_reason) in
  let s := raise_completion_event s (Some (ctx_id s p)) in
  try_spawn_remove_req_ctx s (ctx_id s p).

(** The error the client gets. *)
Definition error_for_client (c : RequestContext) (crex : CrankerRouterException)
  : CrankerRouterException :=
  if bool_decide (opt_err_kind crex = Some Timeout_0001) then
    if is_cli_req_not_start_to_send_to_tgt_yet c then crex
    else prepend_str (append_str (with_status_code crex 504)
                        (lit "closing cli req early due to timeout"))
                     (lit "504 Gateway Timeout")
  else
    if is_cli_req_not_start_to_send_to_tgt_yet c
    then prepend_str (with_status_code crex 502) (lit "502 Bad Gateway")
    else append_str crex (lit "closing cli req early due to cranker wss conn err").

Definition error_ctx (c : RequestContext) (crex : CrankerRouterException) : RequestContext :=
  let c := set_error c (Some crex) in
  send_err_to_client c (error_for_client c crex).

Definition notify_client_request_error (s : RouterSocketV3) (p : nat) (crex : CrankerRouterException)
  : RouterSocketV3 :=
  let s := upd_ctx s p (λ c, error_ctx c crex) in
  let s := raise_completion_event s (Some (ctx_id s p)) in
  try_spawn_remove_req_ctx s (ctx_id s p).

Definition reset_stream (s : RouterSocketV3) (p : nat) (err_code : Z) (msg : str) : RouterSocketV3 :=
  let s :=
    match ctx_heap s !! p with
    | Some c =>
        if negb (is_completed (ctx_state c)) && negb (is_rst_stream_sent c) then
          let '(s, _) := send_data s (Binary (rst_message (request_id c) err_code msg)) in
          upd_ctx s p (λ c, set_rst_sent c true)
        else s
    | None => s
    end in
  try_spawn_remove_req_ctx s (ctx_id s p).

(** ** Frames from the connector *)

Definition check_if_tgt_can_send_res_first (s : RouterSocketV3) (c : RequestContext) (req_id : Z)
  : result unit CrankerRouterException :=
  if is_tgt_can_send_res_now_according_to_rfc2616 c then Ok tt
  else Err (crex_new (lit "recv data/bin before handle cli req. route = " ++ v3_route s ++
              lit " , router socket id = " ++ v3_router_socket_id s ++ lit " , req id = " ++
              display_Z req_id)).

Definition handle_data (s : RouterSocketV3) (p : nat) (c : RequestContext) (flags req_id : Z)
  (bin : str) : RouterSocketV3 * result unit CrankerRouterException :=
  match check_if_tgt_can_send_res_first s c req_id with
  | Err e => (s, Err e)
  | Ok _ =>
      let is_end_stream := judge_is_stream_end_from_flags flags in
      let s := if is_end_stream then upd_ctx s p (λ c, set_end_stream c true) else s in
      match bin with
      | [] => (if is_end_stream then notify_client_request_close s p 1000 None else s, Ok tt)
      | _ =>
          let len := Z.of_nat (length bin) in
          let s := upd_ctx s p (λ c, set_call_count c (wrap64 (wss_on_binary_call_count c + 1))) in
          let '(s, res) :=
            if is_closed (tgt_res_bdy c) then
              let crex := crex_new (lit "rare ex failed to send bin to tgt_res_bdy chan: " ++ send_err_dbg) in
              (try_provide_general_error s (Some crex), Err crex)
            else
              let s := upd_ctx s p (λ c, set_bdy c (chan_send (tgt_res_bdy c) (Ok bin)).1) in
              let s := if is_end_stream then notify_client_request_close s p 1000 None else s in
              let s := upd_ctx s p (λ c, set_to_client c (wrap64 (to_client_bytes c + len))) in
              ((send_data s (Binary (window_update_message req_id (wrap32 len)))).1, Ok tt) in
          let needed := filter (λ l, really_need_on_response_body_chunk_received_from_target l = true)
                          listeners in
          match try_all (λ l, on_response_body_chunk_received_from_target l
                                (default c (ctx_heap s !! p)) bin) needed with
          | Err e => (s, Err e)
          | Ok _ => (s, res)
          end
      end
  end.

Definition handle_header (s : RouterSocketV3) (p : nat) (c : RequestContext) (flags req_id : Z)
  (bin : str) : RouterSocketV3 * result unit CrankerRouterException :=
  match check_if_tgt_can_send_res_first s c req_id with
  | Err e => (s, Err e)
  | Ok _ =>
      let is_stream_end := judge_is_stream_end_from_flags flags in
      let s := if is_stream_end then upd_ctx s p (λ c, set_end_stream c true) else s in
      let is_header_end := judge_is_header_end_from_flags flags in
      let where_ := lit " , req id = " ++ display_Z req_id ++ lit " , router socket id = " ++
                    v3_router_socket_id s ++ lit " , route = " ++ v3_route s in
      if (i32_max <? Z.of_nat (length bin))%Z then
        (s, Err (crex_new (lit "failed to handle remaining bin msg len, it's even larger than i32::MAX ? ex : TryFromIntError(())" ++ where_)))
      else if negb (utf8_valid bin) then
        (s, Err (crex_new (lit "failed to convert binary to header text in utf8 : " ++
                           utf8_err_dbg bin ++ lit ", req id = " ++ display_Z req_id ++
                           lit " , router socket id = " ++ v3_router_socket_id s ++
                           lit " , route = " ++ v3_route s)))
      else
        let s := upd_ctx s p (λ c, set_header_line c (header_line_builder c ++ bin)) in
        if is_header_end && is_closed (tgt_res_hdr c) then
          (s, Err (crex_new (lit "failed to send header text : " ++ send_err_dbg)))
        else
          let s := if is_header_end
                   then upd_ctx s p (λ c, set_hdr c (chan_send (tgt_res_hdr c)
                                                       (Ok (header_line_builder c))).1)
                   else s in
          let s := if is_stream_end then notify_client_request_close s p 1000 None else s in
          send_data s (Binary (window_update_message req_id (Z.of_nat (length bin))))
  end.

Definition handle_rst_stream (s : RouterSocketV3) (p : nat) (req_id : Z) (bin : str) : RouterSocketV3 :=
  let '(error_code, r) := get_error_code bin in
  let error_message := get_error_message r in
  notify_client_request_error s p (crex_new (
    lit "stream closed by connector, error code: " ++ display_Z error_code ++
    lit ", error message: " ++ error_message ++ lit ", req id = " ++ display_Z req_id ++
    lit " , router socket id = " ++ v3_router_socket_id s ++ lit " , route = " ++ v3_route s)).

(** [bin.get_i32()] panics on a short payload. *)
Definition handle_window_update (s : RouterSocketV3) (p : nat) (bin : str) : outcome RouterSocketV3 :=
  let! r := get_i32 bin in
  Ret (upd_ctx s p (λ c, set_flow c (target_connector_ack_bytes (flow_control c) r.1))).

(** The dispatch of [on_binary]; it returns [Ok] in every case. *)
Definition dispatch_frame (s : RouterSocketV3) (p : nat) (c : RequestContext)
  (msg_type flags req_id : Z) (bin : str)
  : outcome (RouterSocketV3 * result unit CrankerRouterException) :=
  if (msg_type =? MESSAGE_TYPE_DATA)%Z then Ret (handle_data s p c flags req_id bin)
  else if (msg_type =? MESSAGE_TYPE_HEADER)%Z then Ret (handle_header s p c flags req_id bin)
  else if (msg_type =? MESSAGE_TYPE_RST_STREAM)%Z then
    Ret (handle_rst_stream s p req_id bin, Ok tt)
  else if (msg_type =? MESSAGE_TYPE_WINDOW_UPDATE)%Z then
    let! s := handle_window_update s p bin in Ret (s, Ok tt)
  else Ret (s, Ok tt).

Definition on_binary (s : RouterSocketV3) (binary_msg : str) : outcome RouterSocketV3 :=
  match read_frame binary_msg with
  | None => Ret s
  | Some (msg_type, flags, req_id, bin) =>
      match context_map s !! req_id with
      | None => Ret s
      | Some p =>
          match ctx_heap s !! p with
          | None => Ret s
          | Some c =>
              let! r := dispatch_frame s p c msg_type flags req_id bin in
              match r with
              | (s, Ok _) => Ret s
              | (s, Err crex) =>
                  let s := notify_client_request_error s p crex in
                  Ret (reset_stream s p 1001 (lit "Going away"))
              end
          end
      end
  end.

(** ** Other websocket events *)

Definition on_error (s : RouterSocketV3) (err : CrankerRouterException)
  : RouterSocketV3 * result unit CrankerRouterException :=
  let '(c, ok) := chan_send (err_chan s) err in
  if ok then (with_err_chan s c, Ok tt)
  else (s, Err (crex_new (lit "rare ex that failed to send error to err chan: " ++ send_err_dbg))).

Definition on_text (s : RouterSocketV3) (text_msg : str) : RouterSocketV3 := s.

Definition on_ping (s : RouterSocketV3) (ping_msg : str)
  : RouterSocketV3 * result unit CrankerRouterException :=
  match send_data s (Pong ping_msg) with
  | (s, Ok _) => (s, Ok tt)
  | (s, Err e) => on_error s (crex_new (lit "failed to pong back " ++ crex_dbg e))
  end.

Definition on_close (s : RouterSocketV3) (close_msg : option (Z * str)) : RouterSocketV3 :=
  let s := if v3_is_removed s then s else mark_v3_removed (spawn_farm_removal s) in
  let '(code, reason) := match close_msg with
                         | Some (c, r) => (c, Some r)
                         | None => (4000%Z, None)
                         end in
  foldl (λ s kv, notify_client_request_close s kv.2 code reason) s (map_to_list (context_map s)).

Definition terminate_all_conn (s : RouterSocketV3) (opt_crex : option CrankerRouterException)
  : RouterSocketV3 :=
  let crex := default (crex_new (lit "terminating all connections on cranker router v3 for unknown reason"))
                opt_crex in
  let s := foldl (λ s kv, notify_client_request_error s kv.2 crex) s (map_to_list (context_map s)) in
  with_context_map s ∅.

(** A spawned removal of a context runs. *)
Definition run_spawned_remove (s : RouterSocketV3) : RouterSocketV3 :=
  match spawned_removes s with
  | [] => s
  | i :: r => with_removes (with_context_map s (delete i (context_map s))) r
  end.

(** ** Requests from the client *)

(** The first part of [on_client_req]: a removed socket refuses; otherwise a
    fresh id and a new context. *)
Definition open_request (s : RouterSocketV3)
  : RouterSocketV3 * result (Z * nat) CrankerRouterException :=
  if v3_is_removed s then
    (s, Err (crex_new (lit "try to handle cli req in a is_removed router socket. router_socket_id="
                       ++ v3_router_socket_id s)))
  else
    let req_id := wrap32 (req_id_generator s + 1) in
    let p := length (ctx_heap s) in
    let s := with_generator s req_id in
    let s := with_ctx_heap s (ctx_heap s ++ [ctx_new req_id (v3_clock s)]) in
    (with_context_map s (<[req_id := p]> (context_map s)), Ok (req_id, p)).

(** The listeners may change the headers; the first error stops the request. *)
Fixpoint before_proxy (c : RequestContext) (ls : list (ProxyListener RequestContext HM)) (hdr : HM)
  : result HM CrankerRouterException :=
  match ls with
  | [] => Ok hdr
  | l :: r =>
      match on_before_proxy_to_target l c hdr with
      | (_, Err crex) => Err (with_err_kind crex ProxyListenerError_0009)
      | (hdr, Ok _) => before_proxy c r hdr
      end
  end.

Definition request_header_text (method : str) (original_uri : Uri) (hdr_to_tgt : HM) : str :=
  create_request_line method original_uri ++ [LF] ++ build_header_str hdr_to_tgt ++ [LF].

(** The loop over the header frames. *)
Fixpoint send_headers (s : RouterSocketV3) (p : nat) (frames : list str)
  : RouterSocketV3 * result unit CrankerRouterException :=
  match frames with
  | [] => (s, Ok tt)
  | hb :: r =>
      let payload_len := Z.of_nat (length hb - HEADER_LEN_IN_BYTES) in
      let s := upd_ctx s p (λ c, set_flow c
        (inc_rtr_to_tgt_pending_ack_bytes (flow_control c) (wrap32 payload_len))) in
      match send_data s (Binary hb) with
      | (s, Err e) => (s, Err e)
      | (s, Ok _) =>
          let s := upd_ctx s p (λ c, set_from_client c (wrap64 (from_client_bytes c + payload_len))) in
          send_headers s p r
      end
  end.

Inductive SendRes :=
| SendDone (r : result unit CrankerRouterException)
| SendWaiting.

(** The end of [split_part_one_send_or_err]. *)
Definition after_body (s : RouterSocketV3) (p : nat) (hdr_to_tgt : HM) : SendRes :=
  SendDone (try_all (λ l, let? _ := on_after_proxy_to_target_headers_sent l (ctx_of s p) hdr_to_tgt in
                          on_request_body_sent_to_target l (ctx_of s p)) listeners).

(** One body chunk: listeners, the frame, the counters, the listeners again. *)
Definition send_chunk (s : RouterSocketV3) (p : nat) (req_id : Z) (bytes : str)
  : RouterSocketV3 * result unit CrankerRouterException :=
  match try_all (λ l, on_before_request_body_chunk_sent_to_target l (ctx_of s p) bytes) listeners with
  | Err e => (s, Err e)
  | Ok _ =>
      let data := data_messages req_id false (Some bytes) in
      let s := upd_ctx s p (λ c, set_flow c (inc_rtr_to_tgt_pending_ack_bytes (flow_control c)
                 (wrap32 (Z.of_nat (length data - HEADER_LEN_IN_BYTES))))) in
      match send_data s (Binary data) with
      | (s, Err e) => (s, Err e)
      | (s, Ok _) =>
          let s := upd_ctx s p (λ c, set_from_client c
                     (wrap64 (from_client_bytes c + Z.of_nat (length bytes)))) in
          (s, try_all (λ l, on_request_body_chunk_sent_to_target l (ctx_of s p) bytes)
                (filter (λ l, really_need_on_request_body_chunk_sent_to_target l = true) listeners))
      end
  end.

(** The loop over the body.  [env i] is what other tasks do to the socket after
    the [i]-th chunk; when the stream is not writable the task queues its
    callback [i] and goes on only if it was released by then. *)
Fixpoint send_body (env : nat → RouterSocketV3 → RouterSocketV3) (hdr_to_tgt : HM)
  (p : nat) (req_id : Z) (i : nat) (body : list (result str str)) (s : RouterSocketV3)
  : RouterSocketV3 * SendRes :=
  match body with
  | [] =>
      match send_data s (Binary (data_messages req_id true None)) with
      | (s, Err e) => (s, SendDone (Err e))
      | (s, Ok _) => (s, after_body s p hdr_to_tgt)
      end
  | Err e :: _ => (s, SendDone (Err (with_err_kind (crex_new e) ClientRequestBodyReadError_0010)))
  | Ok bytes :: r =>
      match send_chunk s p req_id bytes with
      | (s, Err e) => (s, SendDone (Err e))
      | (s, Ok _) =>
          if is_wss_writable (flow_control (ctx_of s p))
          then send_body env hdr_to_tgt p req_id (S i) r (env i s)
          else
            let s := upd_ctx s p (λ c, set_flow c (write_it_maybe
                       (set_cbs (flow_control c) (cbs (flow_control c) ++ [Ok i])))) in
            let s := env i s in
            if bool_decide (i ∈ released (flow_control (ctx_of s p)))
            then send_body env hdr_to_tgt p req_id (S i) r s
            else (s, SendWaiting)
      end
  end.

Definition split_part_one_send_or_err (env : nat → RouterSocketV3 → RouterSocketV3)
  (s : RouterSocketV3) (hdr_to_tgt : HM) (opt_body : option (list (result str str)))
  (req_id : Z) (p : nat) (header_text : str) : RouterSocketV3 * SendRes :=
  let is_stream_end := match opt_body with None => true | Some _ => false end in
  let header_bytes := header_messages req_id true is_stream_end header_text in
  let s := upd_ctx s p (λ c, set_can_send c true) in
  match send_headers s p header_bytes with
  | (s, Err e) => (s, SendDone (Err e))
  | (s, Ok _) =>
      match opt_body with
      | Some body => send_body env hdr_to_tgt p req_id 0 body s
      | None => (s, after_body s p hdr_to_tgt)
      end
  end.

(** The spawned sender task. *)
Definition sender_task (env : nat → RouterSocketV3 → RouterSocketV3)
  (s : RouterSocketV3) (hdr_to_tgt : HM) (opt_body : option (list (result str str)))
  (req_id : Z) (p : nat) (header_text : str) : RouterSocketV3 :=
  match split_part_one_send_or_err env s hdr_to_tgt opt_body req_id p header_text with
  | (s, SendDone (Err crex)) =>
      if is_end_stream_received_from_tgt (ctx_of s p) then s
      else notify_client_request_error s p crex
  | (s, _) => s
  end.

(** [split_part_two_recv_and_res]: the header text is taken from the channel;
    [None] when there is none yet.  The response is its status and headers; its
    body is the body channel of the context. *)
Definition split_part_two_recv_and_res (s : RouterSocketV3) (p : nat)
  : RouterSocketV3 * option (result (Z * HM) CrankerRouterException) :=
  let c := ctx_of s p in
  match items (tgt_res_hdr c) with
  | [] =>
      if is_closed (tgt_res_hdr c)
      then (s, Some (Err (crex_new (lit "failed to receive header from ctx: " ++ recv_err_dbg))))
      else (s, None)
  | r :: rest =>
      let s := upd_ctx s p (λ c, set_hdr c (MkChan rest (is_closed (tgt_res_hdr c)))) in
      (s, Some (
        let? full_content := r in
        let? cpr := CrankerProtocol.try_from_string full_content in
        let? res_builder := response_build debug_strs cpr in
        let? _ := try_all (λ l,
          let? _ := on_before_responding_to_client l (ctx_of s p) in
          on_after_target_to_proxy_headers_received l (ctx_of s p) (resp_code cpr)
            (snd <$> res_builder)) listeners in
        match res_builder with
        | Some res => Ok res
        | None => Err (crex_new (lit "failed to build body: " ++ http_err_dbg))
        end))
  end.

(** The error branch of [on_client_req]. *)
Definition fail_request (s : RouterSocketV3) (p : nat) (crex : CrankerRouterException)
  : RouterSocketV3 :=
  let s := notify_client_request_error s p crex in
  match opt_err_kind crex with
  | Some ProxyListenerError_0009 => reset_stream s p ERROR_INTERNAL (lit "Proxy listener error")
  | Some ClientRequestBodyReadError_0010 =>
      reset_stream s p ERROR_INTERNAL (lit "Client request body read error")
  | _ => reset_stream s p 1001 (lit "Going away")
  end.

(** [on_client_req] with [send_request_over_websocket_v3]: [env] acts between
    the chunks, [late] between the sender task and the arrival of the response
    header.  [Panic] is a panic while the headers are prepared. *)
Definition on_client_req (env : nat → RouterSocketV3 → RouterSocketV3)
  (late : RouterSocketV3 → RouterSocketV3) (s : RouterSocketV3) (http_version : Version)
  (method : str) (original_uri : Uri) (cli_headers : HM) (addr : SocketAddr) (is_tls : bool)
  (opt_body : option (list (result str str)))
  : RouterSocketV3 * outcome (option (result (Z * HM) CrankerRouterException)) :=
  match open_request s with
  | (s, Err e) => (s, Ret (Some (Err e)))
  | (s, Ok (req_id, p)) =>
      match set_target_request_headers local_ip ip_to_string version_debug config cli_headers hm_new
              http_version addr original_uri is_tls with
      | Panic => (s, Panic)
      | Ret (_, hdr_to_tgt) =>
          match before_proxy (ctx_of s p) listeners hdr_to_tgt with
          | Err crex => (fail_request s p crex, Ret (Some (Err crex)))
          | Ok hdr =>
              let s := sender_task env s hdr opt_body req_id p
                         (request_header_text method original_uri hdr) in
              match split_part_two_recv_and_res (late s) p with
              | (s, Some (Err crex)) => (fail_request s p crex, Ret (Some (Err crex)))
              | (s, r) => (s, Ret r)
              end
          end
      end
  end.

(** The client's body stream was dropped: the task that waits for it. *)
Definition client_body_dropped (s : RouterSocketV3) (req_id : Z) (p : nat) : RouterSocketV3 :=
  if is_end_stream_received_from_tgt (ctx_of s p) then s
  else match check_if_context_exists s req_id with
       | Err _ => s
       | Ok q =>
           let s := upd_ctx s q (λ c, set_error c (Some (with_err_kind
             (crex_new (lit "connection to client closed unexpectedly")) BrokenConnection_0011))) in
           reset_stream s q 1001 (lit "Going away")
       end.

End v3.
