(* ===== verification/SocketV3Props.v ===== *)
(** * Properties of the multiplexed router socket

    [RouterSocketV3] implements the interface the farm relies on; a frame can
    only make [on_binary] panic in one way and only touches the context it is
    addressed to, except in one case; a response sent in frames arrives at the
    client's channels byte for byte and is acknowledged; the frames of a request
    leave in order; a closed websocket ends every request. *)

From S2P Require Import Prelude RustStr Exceptions Http Forwarded Config HttpUtils CrankerProtocol Frames FlowControl Farm SocketBase SocketV3.

(** ** The interface of the farm *)

#[export] Instance v3_router_socket : RouterSocket RouterSocketV3 := {
  rs_route := v3_route;
  rs_id := v3_router_socket_id;
  rs_domain := v3_domain;
  rs_connector_id := v3_connector_id;
  rs_addr := v3_remote_address;
  rs_cranker_version _ := CRANKER_V_3_0;
  rs_is_removed := v3_is_removed;
  rs_mark_removed := mark_v3_removed;
  rs_is_active := is_active
}.

#[export] Instance v3_router_socket_laws : RouterSocketLaws RouterSocketV3.
Proof. by split. Qed.

Section props.
Context {HM : Type} `{HttpLib HM}.
Context (listeners : list (ProxyListener RequestContext HM)).
Context (send_err_dbg : str) (utf8_err_dbg : str → str).
Implicit Types (s : RouterSocketV3) (p q : nat) (c : RequestContext).

#[local] Abbreviation send_data := (send_data send_err_dbg).
#[local] Abbreviation reset_stream := (reset_stream send_err_dbg).
#[local] Abbreviation handle_data := (handle_data listeners send_err_dbg).
#[local] Abbreviation handle_header := (handle_header send_err_dbg utf8_err_dbg).
#[local] Abbreviation dispatch_frame := (dispatch_frame listeners send_err_dbg utf8_err_dbg).
#[local] Abbreviation on_binary := (on_binary listeners send_err_dbg utf8_err_dbg).

(** Handling a frame panics exactly when it is a window update for a request
    in flight whose payload is shorter than the four bytes of the window; every
    other frame, however malformed, is handled or dropped. *)
Theorem on_binary_panics_iff s bin :
  on_binary s bin = Panic ↔
  ∃ flags id payload p c, read_frame bin = Some (MESSAGE_TYPE_WINDOW_UPDATE, flags, id, payload) ∧
    context_map s !! id = Some p ∧ ctx_heap s !! p = Some c ∧ length payload < 4.
Proof.
  unfold SocketV3.on_binary. destruct (read_frame bin) as [[[[t fl] id] pl]|]; [|naive_solver].
  destruct (context_map s !! id) as [p|] eqn:Hp; [|split; [done|naive_solver]].
  destruct (ctx_heap s !! p) as [c|] eqn:Hc; [|split; [done|naive_solver]].
  unfold SocketV3.dispatch_frame.
  destruct (t =? MESSAGE_TYPE_DATA)%Z eqn:E1.
  { apply Z.eqb_eq in E1 as ->. simpl. destruct (SocketV3.handle_data _ _ _ _ _ _ _ _) as [s' [|]];
      split; try done; naive_solver. }
  destruct (t =? MESSAGE_TYPE_HEADER)%Z eqn:E2.
  { apply Z.eqb_eq in E2 as ->. simpl. destruct (SocketV3.handle_header _ _ _ _ _ _ _ _) as [s' [|]];
      split; try done; naive_solver. }
  destruct (t =? MESSAGE_TYPE_RST_STREAM)%Z eqn:E3.
  { apply Z.eqb_eq in E3 as ->. split; [done|naive_solver]. }
  destruct (t =? MESSAGE_TYPE_WINDOW_UPDATE)%Z eqn:E4.
  - apply Z.eqb_eq in E4 as ->. unfold handle_window_update.
    destruct (get_i32 pl) as [r|] eqn:Eg; simpl.
    + split; [done|]. intros (fl' & id' & pl' & p' & c' & [= -> -> ->] & _ & _ & Hl).
      apply get_i32_Panic in Hl. congruence.
    + split; [|done]. intros _. apply get_i32_Panic in Eg. naive_solver.
  - split; [done|]. intros (fl' & id' & pl' & p' & c' & [= -> -> -> ->] & _).
    by rewrite Z.eqb_refl in E4.
Qed.

(** ** Isolation *)

(** The other contexts and the map of contexts stay as they are. *)
Definition others_same (p : nat) s s' : Prop :=
  (∀ q, q ≠ p → ctx_heap s' !! q = ctx_heap s !! q) ∧ context_map s' = context_map s.

#[local] Instance others_same_refl p : Reflexive (others_same p).
Proof. by split. Qed.

#[local] Instance others_same_trans p : Transitive (others_same p).
Proof.
  intros s1 s2 s3 [H1 M1] [H2 M2]. split; [|congruence]. intros q Hq. by rewrite H2, H1.
Qed.

Lemma upd_ctx_others p s g : others_same p s (upd_ctx s p g).
Proof. split; [|done]. intros q Hq. cbn. by apply list_lookup_alter_ne. Qed.

Lemma send_data_others p s m : others_same p s (send_data s m).1.
Proof. unfold SocketV3.send_data, chan_send. by destruct (is_closed _). Qed.

Lemma raise_completion_others p s o : others_same p s (raise_completion_event s o).
Proof. destruct o as [i|]; [|done]. cbn. by destruct (context_map s !! i). Qed.

Lemma notify_close_others p s code r : others_same p s (notify_client_request_close s p code r).
Proof.
  unfold notify_client_request_close. etransitivity; [apply upd_ctx_others|].
  etransitivity; [apply raise_completion_others|]. done.
Qed.

Lemma notify_error_others p s e : others_same p s (notify_client_request_error s p e).
Proof.
  unfold notify_client_request_error. etransitivity; [apply upd_ctx_others|].
  etransitivity; [apply raise_completion_others|]. done.
Qed.

Lemma reset_stream_others p s code m : others_same p s (reset_stream s p code m).
Proof.
  unfold SocketV3.reset_stream. destruct (ctx_heap s !! p) as [c|]; [|done].
  destruct (_ && _); [|done].
  pose proof (send_data_others p s (Binary (rst_message (request_id c) code m))) as Hs.
  destruct (SocketV3.send_data _ _ _) as [s1 r]. etransitivity; [exact Hs|].
  etransitivity; [apply upd_ctx_others|]. done.
Qed.

(** Chains the steps of a handler. *)
Ltac others_tac :=
  repeat match goal with
  | |- others_same _ ?s ?s => reflexivity
  | |- others_same _ _ (SocketV3.send_data _ _ _).1 => etransitivity; [|apply send_data_others]
  | |- others_same _ _ (notify_client_request_close _ _ _ _) =>
      etransitivity; [|apply notify_close_others]
  | |- others_same _ _ (notify_client_request_error _ _ _) =>
      etransitivity; [|apply notify_error_others]
  | |- others_same _ _ (upd_ctx _ _ _) => etransitivity; [|apply upd_ctx_others]
  | |- others_same _ _ (if ?b then _ else _) => destruct b
  end.

Lemma handle_header_others s p c fl id bin : others_same p s (handle_header s p c fl id bin).1.
Proof.
  unfold SocketV3.handle_header. destruct (check_if_tgt_can_send_res_first s c id); [|done].
  cbv zeta. repeat (case_match; try (cbn [fst]; others_tac)).
Qed.

Lemma handle_data_others s p c fl id bin :
  is_closed (tgt_res_bdy c) = false → others_same p s (handle_data s p c fl id bin).1.
Proof.
  intros Hc. unfold SocketV3.handle_data.
  destruct (check_if_tgt_can_send_res_first s c id); [|done]. cbv zeta.
  destruct bin as [|b bin]; [cbn [fst]; others_tac|]. rewrite Hc.
  destruct (try_all _ _); cbn [fst]; others_tac.
Qed.

(** C11: a frame only changes the context of the request it is addressed to:
    every other context, and the map of the requests in flight, are left as they
    are, provided the frame is not body data for a request whose client is
    gone. *)
Theorem frame_touches_own_context s bin s' t fl id pl p c :
  read_frame bin = Some (t, fl, id, pl) → context_map s !! id = Some p →
  ctx_heap s !! p = Some c →
  (t ≠ MESSAGE_TYPE_DATA ∨ is_closed (tgt_res_bdy c) = false) →
  on_binary s bin = Ret s' →
  (∀ q, q ≠ p → ctx_heap s' !! q = ctx_heap s !! q) ∧ context_map s' = context_map s.
Proof.
  intros Hr Hp Hc Hd Hb. change (others_same p s s'). unfold SocketV3.on_binary in Hb.
  rewrite Hr, Hp, Hc in Hb.
  assert (Hdis : match dispatch_frame s p c t fl id pl with
                 | Ret (s1, _) => others_same p s s1 | Panic => True end).
  { unfold SocketV3.dispatch_frame. destruct (t =? MESSAGE_TYPE_DATA)%Z eqn:E1.
    { destruct Hd as [Hd|Hd]; [by apply Z.eqb_eq in E1|].
      pose proof (handle_data_others s p c fl id pl Hd). by destruct (SocketV3.handle_data _ _ _ _ _ _ _ _). }
    destruct (t =? MESSAGE_TYPE_HEADER)%Z.
    { pose proof (handle_header_others s p c fl id pl). by destruct (SocketV3.handle_header _ _ _ _ _ _ _ _). }
    destruct (t =? MESSAGE_TYPE_RST_STREAM)%Z.
    { unfold handle_rst_stream. destruct (get_error_code pl). apply notify_error_others. }
    destruct (t =? MESSAGE_TYPE_WINDOW_UPDATE)%Z; [|done].
    unfold handle_window_update. destruct (get_i32 pl); [|done]. apply upd_ctx_others. }
  destruct (SocketV3.dispatch_frame _ _ _ _ _ _ _ _ _ _) as [[s1 [[]|e]]|]; simplify_eq/=; [done|].
  etransitivity; [exact Hdis|]. etransitivity; [apply notify_error_others|apply reset_stream_others].
Qed.

(** ** Delivery of a response *)

(** The state of a request while its response arrives: what the client can read
    from its two channels and what was sent on the websocket. *)
Record Stream s p (id : Z) (hl : str) (hdr bdy : Chan (result str CrankerRouterException)) (n : Z)
  (sent : list Message) : Prop := {
  st_map : context_map s !! id = Some p;
  st_ctx : ∃ c, ctx_heap s !! p = Some c ∧ is_tgt_can_send_res_now_according_to_rfc2616 c = true ∧
             header_line_builder c = hl ∧ tgt_res_hdr c = hdr ∧ tgt_res_bdy c = bdy ∧
             to_client_bytes c = n;
  st_wss : wss_send_task s = MkChan sent false
}.

(** No listener asks for the response chunks. *)
Definition no_chunk_listener : Prop :=
  filter (λ l, really_need_on_response_body_chunk_received_from_target l = true) listeners = [].

Definition ack (id : Z) (bytes : str) : Message :=
  Binary (window_update_message id (wrap32 (Z.of_nat (length bytes)))).

Lemma stream_header s p id hl hdr bdy n sent he part :
  Stream s p id hl hdr bdy n sent → in_i32 id → utf8_valid part = true →
  (Z.of_nat (length part) ≤ i32_max)%Z → is_closed hdr = false →
  ∃ s', on_binary s (header_message id he false part) = Ret s' ∧
    Stream s' p id (hl ++ part)
      (if he then MkChan (items hdr ++ [Ok (hl ++ part)]) false else hdr) bdy n
      (sent ++ [ack id part]).
Proof.
  intros [Hm (c & Hc & Hcan & Hhl & Hh & Hb & Hn) Hw] Hid Hu Hlen Hopen.
  unfold SocketV3.on_binary, header_message.
  destruct (judge_flags he false) as (Hj1 & Hj2 & Hj3).
  cbv zeta in *. rewrite read_put_frame; [|done|exact Hj3|done].
  rewrite Hm, Hc. unfold SocketV3.dispatch_frame. simpl (MESSAGE_TYPE_HEADER =? _)%Z. cbv iota.
  unfold SocketV3.handle_header, check_if_tgt_can_send_res_first. rewrite Hcan. cbv zeta.
  simpl in Hj1, Hj2. rewrite Hj1, Hj2. rewrite (proj2 (Z.ltb_ge _ _)) by done. rewrite Hu. simpl negb.
  cbv iota. rewrite Hh, Hopen, andb_false_r.
  assert (Hack : ack id part = Binary (window_update_message id (Z.of_nat (length part)))).
  { unfold ack. rewrite wrap32_id; [done|]. unfold in_i32, i32_min in *. lia. }
  unfold SocketV3.send_data, chan_send. destruct he.
  - cbn [wss_send_task upd_ctx with_ctx_heap]. rewrite Hw. cbn.
    eexists. split; [done|]. split; cbn; [done| |by rewrite Hack].
    eexists. split.
    { rewrite !list_lookup_alter_eq, Hc. reflexivity. }
    cbn. unfold chan_send. rewrite Hh, Hopen, Hhl. done.
  - cbn [wss_send_task upd_ctx with_ctx_heap]. rewrite Hw. cbn.
    eexists. split; [done|]. split; cbn; [done| |by rewrite Hack].
    eexists. split.
    { rewrite list_lookup_alter_eq, Hc. reflexivity. }
    cbn. rewrite Hhl. done.
Qed.

Lemma read_data_message id e o :
  in_i32 id →
  read_frame (data_messages id e o) =
  Some (MESSAGE_TYPE_DATA, (if e then 1 else 0)%Z, id, default [] o).
Proof. intros Hid. unfold data_messages. rewrite read_put_frame by (done || by destruct e). by destruct o. Qed.

Lemma stream_data s p id hl hdr bdy n sent bytes :
  Stream s p id hl hdr bdy n sent → in_i32 id → no_chunk_listener → bytes ≠ [] →
  is_closed bdy = false →
  ∃ s', on_binary s (data_messages id false (Some bytes)) = Ret s' ∧
    Stream s' p id hl hdr (MkChan (items bdy ++ [Ok bytes]) false)
      (wrap64 (n + Z.of_nat (length bytes))) (sent ++ [ack id bytes]).
Proof.
  intros [Hm (c & Hc & Hcan & Hhl & Hh & Hb & Hn) Hw] Hid Hl Hne Hopen.
  unfold SocketV3.on_binary. rewrite read_data_message by done. cbn [default].
  rewrite Hm, Hc. unfold SocketV3.dispatch_frame. simpl (MESSAGE_TYPE_DATA =? _)%Z. cbv iota.
  unfold SocketV3.handle_data, check_if_tgt_can_send_res_first. rewrite Hcan. cbv zeta.
  change (judge_is_stream_end_from_flags 0) with false. cbv iota.
  destruct bytes as [|b bytes]; [done|]. rewrite Hb, Hopen, Hl. cbn [try_all].
  unfold SocketV3.send_data, chan_send. cbn [wss_send_task upd_ctx with_ctx_heap]. rewrite Hw. cbn.
  eexists. split; [done|]. split; cbn; [done| |done].
  eexists. split; [rewrite !list_lookup_alter_eq, Hc; reflexivity|]. cbn.
  unfold chan_send. rewrite Hb, Hopen, Hn. done.
Qed.

Lemma stream_end s p id hl hdr bdy n sent :
  Stream s p id hl hdr bdy n sent → in_i32 id →
  ∃ s', on_binary s (data_messages id true None) = Ret s' ∧
    Stream s' p id hl (chan_close hdr) (chan_close bdy) n sent.
Proof.
  intros [Hm (c & Hc & Hcan & Hhl & Hh & Hb & Hn) Hw] Hid.
  unfold SocketV3.on_binary. rewrite read_data_message by done. cbn [default].
  rewrite Hm, Hc. unfold SocketV3.dispatch_frame. simpl (MESSAGE_TYPE_DATA =? _)%Z. cbv iota.
  unfold SocketV3.handle_data, check_if_tgt_can_send_res_first. rewrite Hcan. cbv zeta.
  change (judge_is_stream_end_from_flags 1) with true. cbv iota.
  eexists. split; [done|].
  unfold notify_client_request_close, raise_completion_event.
  set (s1 := upd_ctx (upd_ctx s p _) p _).
  assert (Hc1 : ctx_heap s1 !! p = Some (close_ctx (set_end_stream c true) 1000 None)).
  { cbn. by rewrite !list_lookup_alter_eq, Hc. }
  assert (Hcl : ∃ c', close_ctx (set_end_stream c true) 1000 None = c' ∧
    is_tgt_can_send_res_now_according_to_rfc2616 c' = true ∧ header_line_builder c' = hl ∧
    tgt_res_hdr c' = chan_close hdr ∧ tgt_res_bdy c' = chan_close bdy ∧ to_client_bytes c' = n).
  { eexists. split; [done|]. unfold close_ctx. simpl (1000 =? _)%Z. cbv iota.
    destruct (is_cli_req_not_start_to_send_to_tgt_yet (set_end_stream c true)); cbn;
      rewrite Hh, Hb; destruct hdr as [hi []], bdy as [bi []]; cbn; rewrite ?Hh, ?Hb; done. }
  destruct Hcl as (c' & Hcl & Hp1). rewrite Hcl in Hc1.
  change (context_map s1) with (context_map s).
  destruct (context_map s !! ctx_id s1 p); split; cbn; try done; exists c'; done.
Qed.

(** The frames arrive one after the other. *)
Fixpoint on_binaries s (msgs : list str) : outcome RouterSocketV3 :=
  match msgs with
  | [] => Ret s
  | m :: r => let! s' := on_binary s m in on_binaries s' r
  end.

Lemma on_binaries_app s m1 m2 :
  on_binaries s (m1 ++ m2) = (let! s' := on_binaries s m1 in on_binaries s' m2).
Proof.
  revert s. induction m1 as [|m m1 IH]; intros s; [done|]. simpl.
  destruct (SocketV3.on_binary _ _ _ _ m); [apply IH|done].
Qed.

Lemma stream_headers parts s p id hl bdy n sent :
  Stream s p id hl chan_new bdy n sent → in_i32 id → parts ≠ [] →
  Forall (λ x, utf8_valid x = true ∧ (Z.of_nat (length x) ≤ i32_max)%Z) parts →
  ∃ s', on_binaries s (imap (λ i x, header_message id (i =? length parts - 1) false x) parts) = Ret s' ∧
    Stream s' p id (hl ++ concat parts) (MkChan [Ok (hl ++ concat parts)] false) bdy n
      (sent ++ map (ack id) parts).
Proof.
  revert s hl sent. induction parts as [|x parts IH]; intros s hl sent Hs Hid Hne Hall; [done|].
  apply list.Forall_cons in Hall as [[Hu Hlen] Hall]. cbn [imap on_binaries].
  destruct parts as [|y parts].
  - destruct (stream_header _ _ _ _ _ _ _ _ true x Hs Hid Hu Hlen eq_refl) as (s1 & Hb1 & Hs1).
    cbn [length Nat.sub Nat.eqb]. rewrite Hb1. cbn. exists s1. split; [done|].
    by rewrite app_nil_r.
  - destruct (stream_header _ _ _ _ _ _ _ _ false x Hs Hid Hu Hlen eq_refl) as (s1 & Hb1 & Hs1).
    cbn [length Nat.sub Nat.eqb]. rewrite Hb1. cbn [outcome_bind].
    destruct (IH s1 (hl ++ x) (sent ++ [ack id x]) Hs1 Hid) as (s2 & Hb2 & Hs2); [done|done|].
    exists s2. split.
    + rewrite <- Hb2. f_equal. apply imap_ext. intros i z _. simpl. by rewrite !Nat.sub_0_r.
    + cbn [concat map] in *. rewrite <- !app_assoc in Hs2. exact Hs2.
Qed.

Definition total_bytes (chunks : list str) : Z := Z.of_nat (sum_list (map length chunks)).

Lemma stream_chunks chunks s p id hl hdr bdy n sent :
  Stream s p id hl hdr bdy (wrap64 n) sent → in_i32 id → no_chunk_listener → is_closed bdy = false →
  Forall (λ x, x ≠ []) chunks →
  ∃ s', on_binaries s (map (λ x, data_messages id false (Some x)) chunks) = Ret s' ∧
    Stream s' p id hl hdr (MkChan (items bdy ++ map Ok chunks) false)
      (wrap64 (n + total_bytes chunks)) (sent ++ map (ack id) chunks).
Proof.
  revert s bdy n sent. induction chunks as [|x chunks IH]; intros s bdy n sent Hs Hid Hl Ho Hall.
  - exists s. split; [done|]. simpl. rewrite !app_nil_r, Z.add_0_r. destruct bdy; simpl in *; by subst.
  - apply list.Forall_cons in Hall as [Hx Hall]. cbn [map on_binaries].
    destruct (stream_data _ _ _ _ _ _ _ _ x Hs Hid Hl Hx Ho) as (s1 & Hb1 & Hs1).
    rewrite Hb1. cbn [outcome_bind]. rewrite wrap64_add_l in Hs1.
    destruct (IH s1 _ _ _ Hs1 Hid Hl eq_refl Hall) as (s2 & Hb2 & Hs2).
    exists s2. split; [exact Hb2|]. cbn [items map] in Hs2. rewrite <- !app_assoc in Hs2.
    replace (n + total_bytes (x :: chunks))%Z with (n + Z.of_nat (length x) + total_bytes chunks)%Z
      by (unfold total_bytes; simpl; lia). exact Hs2.
Qed.

(** The frames of a header text of any length. *)
Lemma stream_header_text s p id text bdy n sent :
  Stream s p id [] chan_new bdy n sent → in_i32 id → utf8_valid text = true →
  (Z.of_nat (length text) ≤ i32_max)%Z →
  ∃ s' parts, concat parts = text ∧ on_binaries s (header_messages id true false text) = Ret s' ∧
    Stream s' p id text (MkChan [Ok text] false) bdy n (sent ++ map (ack id) parts).
Proof.
  intros Hs Hid Hu Hlen. destruct (header_messages_parts id false text Hu) as (parts & -> & Hcat & Hne & Hparts).
  destruct (stream_headers parts s p id [] bdy n sent Hs Hid Hne) as (s1 & Hr & Hs1).
  { rewrite list.Forall_forall in Hparts |- *. intros x Hx. split; [by apply Hparts|].
    etransitivity; [|exact Hlen]. rewrite <- Hcat. apply inj_le.
    apply list_elem_of_split in Hx as (l1 & l2 & ->). rewrite concat_app. simpl.
    rewrite !length_app. lia. }
  exists s1, parts. rewrite Hcat in Hs1. done.
Qed.

(** The frames of a body and of its end. *)
Lemma stream_body s p id hl hdr sent chunks :
  Stream s p id hl hdr chan_new 0 sent → in_i32 id → no_chunk_listener → Forall (λ x, x ≠ []) chunks →
  ∃ s', on_binaries s (map (λ x, data_messages id false (Some x)) chunks ++ [data_messages id true None]) = Ret s' ∧
    Stream s' p id hl (chan_close hdr) (MkChan (map Ok chunks) true) (wrap64 (total_bytes chunks))
      (sent ++ map (ack id) chunks).
Proof.
  intros Hs Hid Hl Hall. rewrite on_binaries_app.
  destruct (stream_chunks chunks s p id hl _ chan_new 0 _ Hs Hid Hl eq_refl Hall) as (s2 & -> & Hs2).
  cbn [outcome_bind on_binaries]. destruct (stream_end _ _ _ _ _ _ _ _ Hs2 Hid) as (s3 & -> & Hs3). cbn.
  by exists s3.
Qed.

(** C5: a response that the connector sends as header frames, data frames and a
    final frame is delivered completely and in order: the client's header channel
    holds exactly the header text, its body channel exactly the chunks, both are
    closed, the header frames and the data frames are acknowledged in order, each
    with a window update of its size (the final frame, which is empty, is not), and
    the bytes delivered are counted; this for any header text, split over frames as
    needed, any chunks that are not empty, and listeners none of which asks for the
    chunks. *)
Theorem response_delivered s p id text chunks sent :
  Stream s p id [] chan_new chan_new 0 sent → in_i32 id → no_chunk_listener →
  utf8_valid text = true → (Z.of_nat (length text) ≤ i32_max)%Z → Forall (λ x, x ≠ []) chunks →
  ∃ s' parts, concat parts = text ∧
    on_binaries s (header_messages id true false text ++
                   map (λ x, data_messages id false (Some x)) chunks ++
                   [data_messages id true None]) = Ret s' ∧
    Stream s' p id text (MkChan [Ok text] true) (MkChan (map Ok chunks) true)
      (wrap64 (total_bytes chunks)) (sent ++ map (ack id) (parts ++ chunks)).
Proof.
  intros Hs Hid Hl Hu Hlen Hall.
  destruct (stream_header_text s p id text _ _ _ Hs Hid Hu Hlen) as (s1 & parts & Hcat & Hr1 & Hs1).
  destruct (stream_body _ _ _ _ _ _ chunks Hs1 Hid Hl Hall) as (s2 & Hr2 & Hs2).
  exists s2, parts. split; [done|]. rewrite on_binaries_app, Hr1. split; [exact Hr2|].
  by rewrite map_app, app_assoc.
Qed.

(** ** A closed websocket *)

(** Both channels of the context are closed, and their readers are told unless the
    code is 1000. *)
Definition ended_by (code : Z) c c' : Prop :=
  ended_chan (code =? 1000)%Z (tgt_res_hdr c) (tgt_res_hdr c') ∧
  ended_chan (code =? 1000)%Z (tgt_res_bdy c) (tgt_res_bdy c').

(** The readers of both its channels find an error, unless the channel was closed. *)
Definition told_by_error c c' : Prop :=
  told_error (tgt_res_hdr c) (tgt_res_hdr c') ∧ told_error (tgt_res_bdy c) (tgt_res_bdy c') ∧
  is_closed (tgt_res_hdr c') = is_closed (tgt_res_hdr c) ∧
  is_closed (tgt_res_bdy c') = is_closed (tgt_res_bdy c).

Lemma told_by_error_trans a b c : told_by_error a b → told_by_error b c → told_by_error a c.
Proof.
  intros (H1 & H2 & H3 & H4) (K1 & K2 & K3 & K4).
  split_and!; [eapply told_error_trans; [exact H1|congruence|exact K1]
    |eapply told_error_trans; [exact H2|congruence|exact K2]|congruence|congruence].
Qed.

Lemma send_err_told c e : told_by_error c (send_err_to_client c e).
Proof. split_and!; [apply told_error_send..|apply chan_send_closed|apply chan_send_closed]. Qed.

Lemma told_by_error_ended code c c' :
  code ≠ 1000%Z → told_by_error c c' →
  ended_by code c (set_bdy (set_hdr c' (chan_close (tgt_res_hdr c'))) (chan_close (tgt_res_bdy c'))).
Proof.
  intros Hne (H1 & H2 & _). unfold ended_by. rewrite (proj2 (Z.eqb_neq _ _)) by done.
  split; by apply told_error_close.
Qed.

Lemma close_ctx_ended c code r : ended_by code c (close_ctx c code r).
Proof.
  unfold close_ctx. cbv zeta. set (c1 := if is_cli_req_not_start_to_send_to_tgt_yet c then _ else _).
  destruct (decide (code = 1000%Z)) as [->|Hne].
  { assert (c1 = c) as -> by (unfold c1; by destruct (is_cli_req_not_start_to_send_to_tgt_yet c)). cbn.
    destruct (is_closed (tgt_res_hdr c)) eqn:E1, (is_closed (tgt_res_bdy c)) eqn:E2; by cbn. }
  assert (Hc1 : c1 = c ∨ told_by_error c c1).
  { unfold c1, cli_fail_prior_to_tgt_res. repeat case_match; first [by left|right; apply send_err_told]. }
  clearbody c1. rewrite (proj2 (Z.eqb_neq _ _)) by done. set (e := crex_new _).
  destruct (negb (is_closed (tgt_res_hdr c1)) || negb (is_closed (tgt_res_bdy c1))) eqn:E.
  - apply told_by_error_ended; [done|]. destruct Hc1 as [->|Hc1]; [apply send_err_told|].
    eapply told_by_error_trans; [exact Hc1|apply send_err_told].
  - apply orb_false_iff in E as [E1%negb_false_iff E2%negb_false_iff]. unfold ended_by.
    rewrite (proj2 (Z.eqb_neq _ _)) by done. destruct Hc1 as [->|(H1 & H2 & _)]; [|done].
    split; (split; [done|]; exists []; by rewrite app_nil_r).
Qed.

Lemma ended_by_trans code a b c : ended_by code a b → ended_by code b c → ended_by code a c.
Proof. intros [H1 H2] [K1 K2]. split; by eapply ended_chan_trans. Qed.

(** A loop that changes the context of every entry. *)
Lemma foldl_ctx (step : RouterSocketV3 → nat → RouterSocketV3) (g : RequestContext → RequestContext)
  (l : list (Z * nat)) s p :
  (∀ s x, ctx_heap (step s x) = alter g x (ctx_heap s)) →
  ctx_heap (foldl (λ s kv, step s kv.2) s l) !! p =
  (λ c, Nat.iter (count_occ Nat.eq_dec (snd <$> l) p) g c) <$> ctx_heap s !! p.
Proof.
  intros Hstep. revert s. induction l as [|[k q] l IH]; intros s; cbn [foldl].
  { by destruct (ctx_heap s !! p). }
  rewrite IH, Hstep, fmap_cons. cbn [snd count_occ]. destruct (Nat.eq_dec q p) as [->|Hne].
  - rewrite list_lookup_alter_eq. destruct (ctx_heap s !! p); [|done]. cbn. by rewrite <- Nat.iter_succ_r.
  - by rewrite list_lookup_alter_ne.
Qed.

(** Every context of the map is changed, as a transitive relation says. *)
Lemma foldl_context_map (R : RequestContext → RequestContext → Prop) step g s0 s id p c :
  (∀ s x, ctx_heap (step s x) = alter g x (ctx_heap s)) →
  (∀ c, R c (g c)) → (∀ a b c, R a b → R b c → R a c) →
  context_map s0 !! id = Some p → ctx_heap s !! p = Some c →
  ∃ c', ctx_heap (foldl (λ s (kv : Z * nat), step s kv.2) s (map_to_list (context_map s0))) !! p = Some c' ∧ R c c'.
Proof.
  intros Hstep Hg Ht Hid Hc. rewrite (foldl_ctx step g) by done. rewrite Hc. cbn. eexists. split; [done|].
  assert (Hin : count_occ Nat.eq_dec (snd <$> map_to_list (context_map s0)) p > 0).
  { apply count_occ_In, list_elem_of_In, list_elem_of_fmap. exists (id, p). split; [done|].
    by apply elem_of_map_to_list. }
  destruct (count_occ _ _ _) as [|n]; [lia|]. by apply iter_rel.
Qed.

Lemma notify_close_ctx code r s x :
  ctx_heap (notify_client_request_close s x code r) = alter (λ c, close_ctx c code r) x (ctx_heap s).
Proof. unfold notify_client_request_close, raise_completion_event. by case_match. Qed.

Lemma notify_error_ctx e s x :
  ctx_heap (notify_client_request_error s x e) = alter (λ c, error_ctx c e) x (ctx_heap s).
Proof. unfold notify_client_request_error, raise_completion_event. by case_match. Qed.

(** [terminate_all_conn] tells every client. *)
Lemma terminate_tells_contexts s crex i p c :
  context_map s !! i = Some p → ctx_heap s !! p = Some c →
  ∃ c', ctx_heap (terminate_all_conn s (Some crex)) !! p = Some c' ∧ told_by_error c c'.
Proof.
  intros Hi Hc. unfold terminate_all_conn. cbn [from_option id with_context_map ctx_heap].
  eapply (foldl_context_map told_by_error (λ s x, notify_client_request_error s x crex)); [by intros; apply notify_error_ctx| |exact told_by_error_trans|done..].
  intros c0. apply (send_err_told (set_error c0 (Some crex))).
Qed.

Lemma foldl_close_flags (l : list (Z * nat)) code r s :
  v3_is_removed (foldl (λ s kv, notify_client_request_close s kv.2 code r) s l) = v3_is_removed s ∧
  farm_removals (foldl (λ s kv, notify_client_request_close s kv.2 code r) s l) = farm_removals s.
Proof.
  revert s. induction l as [|[k q] l IH]; intros s; [done|]. cbn [foldl].
  destruct (IH (notify_client_request_close s q code r)) as [H1 H2]. split.
  - etransitivity; [exact H1|]. unfold notify_client_request_close, raise_completion_event. by case_match.
  - etransitivity; [exact H2|]. unfold notify_client_request_close, raise_completion_event. by case_match.
Qed.

(** C14: when the websocket closes, with whatever code, the socket is marked as
    removed, it is taken out of the farm exactly once, and both channels of every
    request in flight, the one for the header and the one for the body, are closed.
    Their reader finds exactly what was sent and then, unless the code is 1000 or the
    channel was closed before, at least one error: a client that waits for its header
    is not left waiting, and a body that was cut off does not end as if it were
    complete. *)
Theorem on_close_ends_all_requests s msg :
  let code := match msg with Some (k, _) => k | None => 4000%Z end in
  let s' := on_close s msg in
  v3_is_removed s' = true ∧
  farm_removals s' = (if v3_is_removed s then farm_removals s else S (farm_removals s)) ∧
  ∀ id p c, context_map s !! id = Some p → ctx_heap s !! p = Some c →
    ∃ c', ctx_heap s' !! p = Some c' ∧ ended_by code c c'.
Proof.
  intros code s'. unfold s', on_close.
  set (s0 := if v3_is_removed s then s else mark_v3_removed (spawn_farm_removal s)).
  assert (Hs0 : context_map s0 = context_map s ∧ ctx_heap s0 = ctx_heap s ∧ v3_is_removed s0 = true ∧
    farm_removals s0 = (if v3_is_removed s then farm_removals s else S (farm_removals s))).
  { unfold s0. by destruct (v3_is_removed s) eqn:E. }
  destruct Hs0 as (Hm & Hh & Hr & Hf). clearbody s0.
  set (rsn := match msg with Some (_, r) => Some r | None => None end).
  assert (Hcr : match msg with Some (c, r) => (c, Some r) | None => (4000%Z, None) end = (code, rsn)).
  { by destruct msg as [[]|]. }
  rewrite Hcr. destruct (foldl_close_flags (map_to_list (context_map s0)) code rsn s0) as [-> ->].
  split_and!; [done|done|]. intros id p c Hid Hc.
  eapply (foldl_context_map (ended_by code) (λ s x, notify_client_request_close s x code rsn)); [by intros; apply notify_close_ctx| | |by rewrite Hm|by rewrite Hh].
  - intros c0. apply close_ctx_ended.
  - apply ended_by_trans.
Qed.

(** ** The frames of a request *)

(** A header or data frame of the request [id]. *)
Definition request_frame (id : Z) (m : Message) : bool :=
  match m with
  | Binary b =>
      match read_frame b with
      | Some (t, _, i, _) => (i =? id)%Z && ((t =? MESSAGE_TYPE_DATA)%Z || (t =? MESSAGE_TYPE_HEADER)%Z)
      | None => false
      end
  | _ => false
  end.

Definition frames_of (id : Z) s : list Message :=
  filter (λ m, request_frame id m = true) (items (wss_send_task s)).

(** [s'] has queued the request frames [fs] more than [s], and still can send;
    [gone] are the frames the writing task took from the queue meanwhile. *)
Definition sends (id : Z) s s' (fs : list Message) : Prop :=
  is_closed (wss_send_task s') = false ∧ ∃ gone, gone ++ frames_of id s' = frames_of id s ++ fs.

Lemma sends_trans id s1 s2 s3 f1 f2 : sends id s1 s2 f1 → sends id s2 s3 f2 → sends id s1 s3 (f1 ++ f2).
Proof.
  intros [_ [g1 H1]] [Hc [g2 H2]]. split; [done|]. exists (g1 ++ g2).
  by rewrite <- app_assoc, H2, app_assoc, H1, <- app_assoc.
Qed.

Lemma sends_upd id s s' fs p g : sends id s s' fs → sends id s (upd_ctx s' p g) fs.
Proof. done. Qed.

Lemma sends_refl id s : is_closed (wss_send_task s) = false → sends id s s [].
Proof. intros Hc. split; [done|]. exists []. by rewrite app_nil_r. Qed.

Lemma send_data_open id s m :
  is_closed (wss_send_task s) = false →
  ∃ s', send_data s m = (s', Ok tt) ∧ sends id s s' (if request_frame id m then [m] else []).
Proof.
  intros Hc. unfold SocketV3.send_data, chan_send. rewrite Hc. eexists. split; [done|]. split; [done|].
  exists []. unfold frames_of. cbn. rewrite list.filter_app, filter_cons. by destruct (request_frame id m).
Qed.

Lemma request_frame_data id e o : in_i32 id → request_frame id (Binary (data_messages id e o)) = true.
Proof. intros Hid. unfold request_frame. rewrite read_data_message by done. by rewrite Z.eqb_refl. Qed.

Lemma request_frame_header id h e t : in_i32 id → request_frame id (Binary (header_message id h e t)) = true.
Proof.
  intros Hid. unfold request_frame, header_message. destruct (judge_flags h e) as (_ & _ & Hr).
  cbv zeta in *. rewrite read_put_frame by done. by rewrite Z.eqb_refl.
Qed.

Lemma header_messages_request_frames id se text :
  in_i32 id → Forall (λ m, request_frame id (Binary m) = true) (header_messages id true se text).
Proof.
  intros Hid. unfold header_messages. destruct (_ <? _).
  - constructor; [by apply request_frame_header|constructor].
  - apply Forall_lookup. intros i m Hm. rewrite list_lookup_imap in Hm.
    destruct (chunks _ _ !! i) as [x|]; [|done]. injection Hm as <-. by apply request_frame_header.
Qed.

Lemma send_headers_sends id frames s p :
  is_closed (wss_send_task s) = false → Forall (λ m, request_frame id (Binary m) = true) frames →
  ∃ s', send_headers send_err_dbg s p frames = (s', Ok tt) ∧ sends id s s' (map Binary frames).
Proof.
  intros Hc Hall. revert s Hc. induction Hall as [|m frames Hm _ IH]; intros s Hc.
  { exists s. split; [done|]. by apply sends_refl. }
  cbn [send_headers]. set (s1 := upd_ctx s p _).
  destruct (send_data_open id s1 (Binary m)) as (s2 & -> & Hs2); [done|]. rewrite Hm in Hs2.
  set (s3 := upd_ctx s2 p _). destruct (IH s3) as (s4 & -> & Hs4); [by destruct Hs2|].
  exists s4. split; [done|]. change (map Binary (m :: frames)) with ([Binary m] ++ map Binary frames).
  eapply sends_trans; [|exact Hs4]. exact Hs2.
Qed.

Lemma send_chunk_sends id s p bytes s' r :
  in_i32 id → is_closed (wss_send_task s) = false →
  send_chunk listeners send_err_dbg s p id bytes = (s', r) →
  sends id s s' [Binary (data_messages id false (Some bytes))] ∨ sends id s s' [] ∧ r ≠ Ok tt.
Proof.
  intros Hid Hc. unfold send_chunk. destruct (try_all _ listeners) as [u|e].
  - set (s1 := upd_ctx s p _).
    destruct (send_data_open id s1 (Binary (data_messages id false (Some bytes)))) as (s2 & -> & Hs2); [done|].
    rewrite request_frame_data in Hs2 by done. intros [= <- <-]. left. exact Hs2.
  - intros [= <- <-]. right. split; [by apply sends_refl|done].
Qed.

(** The other tasks do not close the queue and do not send frames of this
    request; they may take messages from the front of the queue. *)
Definition env_fair (id : Z) (env : nat → RouterSocketV3 → RouterSocketV3) : Prop :=
  ∀ i s, is_closed (wss_send_task s) = false → sends id s (env i s) [].

(** The frames of a whole body. *)
Definition body_frames (id : Z) (body : list (result str str)) : list Message :=
  map (λ x, Binary (data_messages id false (Some x))) (omap result_ok body) ++
  [Binary (data_messages id true None)].

Lemma prefix_cons_app {A} (x : A) l k : x :: take k l = take (S k) (x :: l).
Proof. done. Qed.

Lemma send_body_sends id env hdr p i body s s' r :
  in_i32 id → env_fair id env → is_closed (wss_send_task s) = false →
  send_body listeners send_err_dbg env hdr p id i body s = (s', r) →
  ∃ k, sends id s s' (take k (body_frames id body)) ∧
       (r = SendDone (Ok tt) → take k (body_frames id body) = body_frames id body ∧
          Forall (λ x, is_ok x = true) body).
Proof.
  intros Hid Henv. revert i s. induction body as [|[bytes|e] body IH]; intros i s Hc Hb; cbn [send_body] in Hb.
  - destruct (send_data_open id s (Binary (data_messages id true None)) Hc) as (s1 & E & Hs1).
    rewrite E in Hb. rewrite request_frame_data in Hs1 by done. simplify_eq.
    exists 1. split; [exact Hs1|]. intros _. by split.
  - destruct (send_chunk _ _ _ _ _ _) as [s1 [u|e]] eqn:E.
    2:{ simplify_eq. destruct (send_chunk_sends _ _ _ _ _ _ Hid Hc E) as [Hs|[Hs _]].
        - exists 1. split; [exact Hs|done].
        - exists 0. split; [exact Hs|done]. }
    destruct (send_chunk_sends _ _ _ _ _ _ Hid Hc E) as [Hs|[_ Hs]]; [|by destruct u].
    set (fr := Binary (data_messages id false (Some bytes))) in *.
    assert (Hfr : body_frames id (Ok bytes :: body) = fr :: body_frames id body) by done. rewrite Hfr.
    assert (Hgo : ∀ s2, sends id s1 s2 [] →
      send_body listeners send_err_dbg env hdr p id (S i) body s2 = (s', r) →
      ∃ k, sends id s s' (take k (fr :: body_frames id body)) ∧ (r = SendDone (Ok tt) →
        take k (fr :: body_frames id body) = fr :: body_frames id body ∧
        Forall (λ x, is_ok x = true) (Ok bytes :: body))).
    { intros s2 Hs2 Hb2. destruct (IH _ _ (proj1 Hs2) Hb2) as (k & Hk & Hd). exists (S k).
      pose proof (sends_trans _ _ _ _ _ _ Hs Hs2) as Hs12. cbn [app] in Hs12. split.
      - exact (sends_trans _ _ _ _ _ _ Hs12 Hk).
      - intros Hr. destruct (Hd Hr) as [Hd1 Hd2]. split; [|by constructor]. simpl. by rewrite Hd1. }
    destruct (is_wss_writable _).
    + eapply Hgo; [|exact Hb]. apply Henv. by destruct Hs.
    + set (s2 := upd_ctx s1 p _) in *.
      assert (Hs2 : sends id s1 (env i s2) []).
      { destruct (Henv i s2) as [H1 H2]; [by destruct Hs|]. split; [done|]. exact H2. }
      destruct (bool_decide _); [by eapply Hgo|]. simplify_eq. exists 1. split; [|done].
      exact (sends_trans _ _ _ _ _ _ Hs Hs2).
  - simplify_eq. exists 0. split; [by apply sends_refl|done].
Qed.

(** C9: the frames of a request leave in order, whatever other requests send on
    the same websocket and whatever the writing task takes from the queue in
    between ([gone]): at any time the frames queued are a prefix of the header
    frames followed by one data frame per body chunk and the final frame, and
    when the sender task succeeds they are all of them, every chunk of the body
    having been read without an error. *)
Theorem request_frames_in_order env s hdr opt_body id p text s' r :
  in_i32 id → env_fair id env → is_closed (wss_send_task s) = false →
  split_part_one_send_or_err listeners send_err_dbg env s hdr opt_body id p text = (s', r) →
  let se := match opt_body with None => true | Some _ => false end in
  let all := map Binary (header_messages id true se text) ++
             match opt_body with Some body => body_frames id body | None => [] end in
  ∃ gone k, gone ++ frames_of id s' = frames_of id s ++ take k all ∧
       (r = SendDone (Ok tt) → take k all = all ∧
          Forall (λ x, is_ok x = true) (default [] opt_body)).
Proof.
  intros Hid Henv Hc. unfold split_part_one_send_or_err. cbv zeta. set (s0 := upd_ctx s p _).
  set (hm := header_messages _ _ _ _).
  destruct (send_headers_sends id hm s0 p) as (s1 & -> & Hs1);
    [done|by apply header_messages_request_frames|].
  change (sends id s s1 (map Binary hm)) in Hs1.
  destruct opt_body as [body|].
  - intros Hb. destruct (send_body_sends _ _ _ _ _ _ _ _ _ Hid Henv (proj1 Hs1) Hb) as (k & Hk & Hd).
    destruct (sends_trans _ _ _ _ _ _ Hs1 Hk) as [_ [gone Hg]].
    exists gone, (length (map Binary hm) + k). rewrite take_app_add. split; [exact Hg|].
    intros Hr. destruct (Hd Hr) as [Hd1 Hd2]. by rewrite Hd1.
  - intros [= <- <-]. destruct Hs1 as [_ [gone Hg]]. exists gone, (length (map Binary hm)).
    rewrite app_nil_r, firstn_all. split; [exact Hg|]. intros _. split; [done|constructor].
Qed.

(** ** Errors *)

(** The status code of an error that ends a request: 504 for a timeout, 502
    when nothing of the client request has been sent to the connector yet, and
    500 otherwise, unless the error carries its own status; the response always
    asks for the connection to be closed. *)
Theorem client_error_status err_id c crex :
  opt_status_code crex = None →
  ∃ body, into_response err_id (error_for_client c crex) =
    Ret (Resp (if decide (opt_err_kind crex = Some Timeout_0001) then 504
               else if is_cli_req_not_start_to_send_to_tgt_yet c then 502 else 500)
           [(lit "connection", lit "close")] body).
Proof.
  intros Hs. unfold error_for_client. destruct crex as [r st k]. simpl in *. subst st.
  destruct (is_cli_req_not_start_to_send_to_tgt_yet c), k as [[]|];
    eexists; unfold into_response; cbn; reflexivity.
Qed.

Lemma foldl_set_error (l : list (Z * nat)) e s q cq :
  ctx_heap s !! q = Some cq → q ∈ snd <$> l ∨ ctx_error cq = Some e →
  ∃ cq', ctx_heap (foldl (λ s kv, upd_ctx s kv.2 (λ c, set_error c (Some e))) s l) !! q = Some cq' ∧
         ctx_error cq' = Some e.
Proof.
  revert s cq. induction l as [|[k x] l IH]; intros s cq Hq Hor; cbn [foldl].
  { destruct Hor as [?|?]; [set_solver|eauto]. }
  destruct (decide (x = q)) as [->|Hne].
  - eapply IH; [cbn; by rewrite list_lookup_alter_eq, Hq|by right].
  - eapply IH; [cbn; by rewrite list_lookup_alter_ne|]. destruct Hor as [Hor|?]; [|by right].
    left. simpl in Hor. set_solver.
Qed.

(** Body data for one request whose client has already gone away marks
    every other request in flight on the same websocket with that error. *)
Theorem late_data_marks_every_request s bin s' fl id pl p c id2 q cq :
  read_frame bin = Some (MESSAGE_TYPE_DATA, fl, id, pl) → context_map s !! id = Some p →
  ctx_heap s !! p = Some c → is_tgt_can_send_res_now_according_to_rfc2616 c = true →
  is_closed (tgt_res_bdy c) = true → pl ≠ [] →
  context_map s !! id2 = Some q → q ≠ p → ctx_heap s !! q = Some cq →
  on_binary s bin = Ret s' →
  ∃ cq', ctx_heap s' !! q = Some cq' ∧ ctx_error cq' =
    Some (crex_new (lit "rare ex failed to send bin to tgt_res_bdy chan: " ++ send_err_dbg)).
Proof.
  intros Hr Hp Hc Hcan Hcl Hpl Hq Hne Hcq. unfold SocketV3.on_binary. rewrite Hr, Hp, Hc.
  unfold SocketV3.dispatch_frame. simpl (MESSAGE_TYPE_DATA =? _)%Z. cbv iota.
  unfold SocketV3.handle_data, check_if_tgt_can_send_res_first. rewrite Hcan. cbv zeta.
  destruct pl as [|b pl]; [done|]. rewrite Hcl.
  set (e := crex_new (_ ++ send_err_dbg)).
  set (s1 := upd_ctx (if judge_is_stream_end_from_flags fl then _ else _) p _).
  assert (Hs1 : others_same p s s1).
  { unfold s1. etransitivity; [|apply upd_ctx_others]. destruct (judge_is_stream_end_from_flags fl);
      [apply upd_ctx_others|reflexivity]. }
  destruct Hs1 as [Hh1 Hm1]. clearbody s1. unfold try_provide_general_error. rewrite Hm1.
  destruct (foldl_set_error (map_to_list (context_map s)) e s1 q cq) as (cq' & Hcq' & He).
  - by rewrite Hh1.
  - left. apply list_elem_of_fmap. exists (id2, q). split; [done|]. by apply elem_of_map_to_list.
  - set (s2 := foldl _ _ _) in *. clearbody s2.
    assert (Hfin : ∀ e', others_same p s2 (reset_stream (notify_client_request_error s2 p e') p 1001
      (lit "Going away"))).
    { intros e'. etransitivity; [apply notify_error_others|apply reset_stream_others]. }
    destruct (try_all _ _) as [u|e']; cbn; intros [= <-]; exists cq'; split; try done.
    + destruct (Hfin e) as [Hf _]. by rewrite Hf.
    + destruct (Hfin e') as [Hf _]. by rewrite Hf.
Qed.

End props.

(** ** Witnesses *)

#[local] Existing Instance Alist.lib.

Module DemoV3.

Definition no_listeners : list (ProxyListener RequestContext Alist.headers) := [].

Definition socket : RouterSocketV3 :=
  v3_new (lit "app") (lit "*") (lit "comp") (lit "rs1") (lit "c1") (MkAddr (V4 9) 80) 0.

(** Two requests in flight, both allowed to receive a response. *)
Definition two_requests : RouterSocketV3 :=
  let s := (open_request (open_request socket).1).1 in
  upd_ctx (upd_ctx s 0 (λ c, set_can_send c true)) 1 (λ c, set_can_send c true).

(** The client of the first one is gone. *)
Definition first_gone : RouterSocketV3 :=
  upd_ctx two_requests 0 (λ c, set_bdy c (chan_close (tgt_res_bdy c))).

Definition on_binary : RouterSocketV3 → str → outcome RouterSocketV3 :=
  SocketV3.on_binary no_listeners (lit "SendError(..)") (λ _, []).

Definition got (o : outcome RouterSocketV3) : RouterSocketV3 :=
  match o with Ret s => s | Panic => socket end.

Definition data1 : str := data_messages 1 false (Some (lit "hi")).

Definition sent : RouterSocketV3 * SendRes :=
  split_part_one_send_or_err no_listeners (lit "SendError(..)") (λ _ s, s) two_requests []
    (Some [Ok (lit "ab"); Ok (lit "c")]) 2 1 (lit "GET / HTTP/1.1").

(** The first request has its header and a chunk of its body when the websocket
    closes with code 1006. *)
Definition streaming : RouterSocketV3 :=
  upd_ctx two_requests 0 (λ c,
    set_bdy (set_hdr c (MkChan [Ok (lit "HTTP/1.1 200 OK")] true)) (MkChan [Ok (lit "hel")] false)).

Definition closed : RouterSocketV3 := on_close streaming (Some (1006%Z, lit "gone")).

End DemoV3.

Lemma frame_touches_own_context_witness :
  ctx_heap (DemoV3.got (DemoV3.on_binary DemoV3.two_requests DemoV3.data1)) !! 1
  = ctx_heap DemoV3.two_requests !! 1.
Proof.
  refine (proj1 (frame_touches_own_context DemoV3.no_listeners (lit "SendError(..)") (λ _, [])
    DemoV3.two_requests DemoV3.data1
    (DemoV3.got (DemoV3.on_binary DemoV3.two_requests DemoV3.data1)) 0 0 1 (lit "hi") 0
    (ctx_of DemoV3.two_requests 0) _ _ _ _ _) 1 _); try (vm_compute; reflexivity).
  - right. vm_compute. reflexivity.
  - discriminate.
Defined.

Lemma on_close_ends_all_requests_witness :
  v3_is_removed DemoV3.closed = true ∧ ∃ c' e errs, ctx_heap DemoV3.closed !! 0 = Some c' ∧
    tgt_res_hdr c' = MkChan [Ok (lit "HTTP/1.1 200 OK")] true ∧
    tgt_res_bdy c' = MkChan (Ok (lit "hel") :: Err e :: map Err errs) true.
Proof.
  destruct (on_close_ends_all_requests DemoV3.streaming (Some (1006%Z, lit "gone"))) as (Hr & _ & Hall).
  split; [exact Hr|]. destruct (Hall 1%Z 0 (ctx_of DemoV3.streaming 0)) as (c' & Hc & [H1 He1] & [H2 He2]);
    [vm_compute; reflexivity|vm_compute; reflexivity|].
  destruct He1 as (errs1 & Hi1 & Hn1), He2 as ([|e errs2] & Hi2 & Hn2).
  { destruct Hn2 as [Hn2 _]. discriminate (Hn2 eq_refl). }
  exists c', e, errs2. split; [exact Hc|].
  destruct (tgt_res_hdr c') as [i1 k1], (tgt_res_bdy c') as [i2 k2]. cbn in H1, H2, Hi1, Hi2.
  rewrite (proj2 Hn1 eq_refl) in Hi1. by subst.
Defined.

Lemma response_delivered_witness :
  ∃ s' parts, concat parts = lit "HTTP/1.1 200 OK" ∧
    Stream s' 0 1 (lit "HTTP/1.1 200 OK") (MkChan [Ok (lit "HTTP/1.1 200 OK")] true)
      (MkChan [Ok (lit "he"); Ok (lit "llo")] true) 5
      ([] ++ map (ack 1) (parts ++ [lit "he"; lit "llo"])).
Proof.
  destruct (response_delivered DemoV3.no_listeners (lit "SendError(..)") (λ _, [])
    DemoV3.two_requests 0 1 (lit "HTTP/1.1 200 OK") [lit "he"; lit "llo"] [])
    as (s' & parts & Hc & _ & Hs).
  - split; [vm_compute; reflexivity| |vm_compute; reflexivity].
    exists (ctx_of DemoV3.two_requests 0). split_and!; vm_compute; reflexivity.
  - apply (bool_decide_unpack _). vm_compute. exact I.
  - reflexivity.
  - vm_compute. reflexivity.
  - vm_compute. discriminate.
  - repeat constructor; discriminate.
  - exists s', parts. split; [exact Hc|exact Hs].
Defined.

Lemma request_frames_in_order_witness :
  ∃ gone, gone ++ frames_of 2 DemoV3.sent.1 =
  frames_of 2 DemoV3.two_requests ++
    map Binary (header_messages 2 true false (lit "GET / HTTP/1.1")) ++
    body_frames 2 [Ok (lit "ab"); Ok (lit "c")].
Proof.
  destruct (request_frames_in_order DemoV3.no_listeners (lit "SendError(..)") (λ _ s, s)
    DemoV3.two_requests [] (Some [Ok (lit "ab"); Ok (lit "c")]) 2 1 (lit "GET / HTTP/1.1")
    DemoV3.sent.1 DemoV3.sent.2) as (gone & k & Hg & Hd).
  - apply (bool_decide_unpack _). vm_compute. exact I.
  - intros i s Hc. apply sends_refl. exact Hc.
  - vm_compute. reflexivity.
  - vm_compute. reflexivity.
  - exists gone. rewrite Hg. f_equal. apply Hd. vm_compute. reflexivity.
Defined.

Lemma client_error_status_witness :
  ∃ body, into_response (lit "id") (error_for_client (ctx_new 1 0) (crex_new (lit "x"))) =
    Ret (Resp 500 [(lit "connection", lit "close")] body).
Proof. apply (client_error_status (lit "id") (ctx_new 1 0) (crex_new (lit "x"))). reflexivity. Defined.

Lemma late_data_marks_every_request_witness :
  ∃ cq', ctx_heap (DemoV3.got (DemoV3.on_binary DemoV3.first_gone DemoV3.data1)) !! 1 = Some cq' ∧
    ctx_error cq' = Some (crex_new (lit "rare ex failed to send bin to tgt_res_bdy chan: " ++
                                    lit "SendError(..)")).
Proof.
  apply (late_data_marks_every_request DemoV3.no_listeners (lit "SendError(..)") (λ _, [])
    DemoV3.first_gone DemoV3.data1
    (DemoV3.got (DemoV3.on_binary DemoV3.first_gone DemoV3.data1)) 0 1 (lit "hi") 0
    (ctx_of DemoV3.first_gone 0) 2 1 (ctx_of DemoV3.first_gone 1));
    try (vm_compute; reflexivity); discriminate.
Defined.
