(* ===== verification/Upload.v ===== *)
(** * Sending the body of a request under flow control

    The sender task of [SocketV3] against a connector that acknowledges what it
    gets: [keeps_up] says when the acknowledgements come in time, and
    [upload_completes] that then the whole body is sent, whatever the size of the
    body and of its chunks, with the sender stopped at the high water mark and
    released again as often as needed. *)

From S2P Require Import Prelude RustStr Exceptions Http Forwarded Config HttpUtils CrankerProtocol Frames FlowControl Farm SocketBase SocketV3 SocketV3Props.

(** ** The counters *)

(** The counters of a request: [out] bytes are not acknowledged, the stream is
    writable or not, and the callbacks [q] wait. *)
Record flow_at (F : Flow) (out : Z) (w : bool) (q : list (result nat CrankerRouterException)) : Prop := {
  fa_pending : wss_rtr_to_tgt_pending_ack_bytes F = out;
  fa_writable : is_wss_writable F = w;
  fa_writing : is_wss_writing F = false;
  fa_cbs : cbs F = q;
  fa_closed : cbs_closed F = false
}.

Lemma flow_new_at : flow_at flow_new 0 true [].
Proof. by split. Qed.

Lemma flow_at_inc F out w q n :
  flow_at F out w q → in_i32 n → in_i32 (out + n) →
  flow_at (inc_rtr_to_tgt_pending_ack_bytes F n) (out + n) (w && (out + n <=? WATER_MARK_HIGH)%Z) q.
Proof.
  intros [Hp Hw Hwr Hq Hc] Hn Ho. unfold inc_rtr_to_tgt_pending_ack_bytes.
  cbn [wss_rtr_to_tgt_pending_ack_bytes set_pending is_wss_writable]. rewrite Hp, wrap32_id, Hw by done.
  destruct (Z.ltb_spec WATER_MARK_HIGH (out + n)), (Z.leb_spec (out + n) WATER_MARK_HIGH); try lia; destruct w; by split.
Qed.

(** The callback is queued while the stream is not writable: nothing happens. *)
Lemma flow_at_wait F out cb :
  flow_at F out false [] → flow_at (write_it_maybe (set_cbs F (cbs F ++ [Ok cb]))) out false [Ok cb].
Proof.
  intros [Hp Hw Hwr Hq Hc]. rewrite write_it_maybe_spec. unfold may_write. cbn. rewrite Hw. cbn. rewrite Hq. by split.
Qed.

(** One acknowledgement while the stream is writable. *)
Lemma flow_at_ack_writable F out n :
  flow_at F out true [] → in_i32 (out - n) →
  flow_at (target_connector_ack_bytes F n) (out - n) true [] ∧
  released (target_connector_ack_bytes F n) = released F.
Proof.
  intros [Hp Hw Hwr Hq Hc] Ho. unfold target_connector_ack_bytes.
  cbn [wss_rtr_to_tgt_pending_ack_bytes set_pending set_acked is_wss_writable]. rewrite Hp, Hw, wrap32_id by done.
  by destruct (_ <? _)%Z.
Qed.

(** One acknowledgement while the sender waits: it goes on under the low water
    mark. *)
Lemma flow_at_ack_waiting F out n cb :
  flow_at F out false [Ok cb] → in_i32 (out - n) →
  if (out - n <? WATER_MARK_LOW)%Z
  then flow_at (target_connector_ack_bytes F n) (out - n) true [] ∧ cb ∈ released (target_connector_ack_bytes F n)
  else flow_at (target_connector_ack_bytes F n) (out - n) false [Ok cb].
Proof.
  intros [Hp Hw Hwr Hq Hc] Ho. unfold target_connector_ack_bytes.
  cbn [wss_rtr_to_tgt_pending_ack_bytes set_pending set_acked is_wss_writable]. rewrite Hp, Hw, wrap32_id by done.
  destruct (_ <? _)%Z; [|by split]. rewrite write_it_maybe_spec. unfold may_write. cbn. rewrite Hq, Hc, Hwr. cbn.
  split; [by split|set_solver].
Qed.

Definition ack_all (F : Flow) (acks : list Z) : Flow := foldl target_connector_ack_bytes F acks.

Fixpoint sum_z (l : list Z) : Z := match l with [] => 0%Z | x :: l => (x + sum_z l)%Z end.

Lemma sum_z_nonneg l : forallb (Z.leb 0) l = true → (0 ≤ sum_z l)%Z.
Proof. induction l as [|x l IH]; cbn; [lia|]. intros [Hx%Z.leb_le Hl]%andb_true_iff. apply IH in Hl. lia. Qed.

Lemma ack_all_writable acks F out :
  flow_at F out true [] → forallb (Z.leb 0) acks = true → in_i32 out → (0 ≤ out - sum_z acks)%Z →
  flow_at (ack_all F acks) (out - sum_z acks) true [] ∧ released (ack_all F acks) = released F.
Proof.
  revert F out. induction acks as [|n acks IH]; intros F out HF Hn Ho Hs; cbn [sum_z forallb ack_all foldl] in *.
  { rewrite Z.sub_0_r. done. }
  apply andb_true_iff in Hn as [Hn%Z.leb_le Hl]. pose proof (sum_z_nonneg _ Hl).
  assert (Hin : in_i32 (out - n)) by (unfold in_i32, i32_min in *; lia).
  destruct (flow_at_ack_writable F out n HF Hin) as [HF' Hr].
  destruct (IH _ _ HF' Hl Hin) as [HF'' Hr']; [lia|]. rewrite <- Hr, <- Hr'.
  by replace (out - (n + sum_z acks))%Z with (out - n - sum_z acks)%Z by lia.
Qed.

Lemma ack_all_waiting acks F out cb :
  flow_at F out false [Ok cb] → forallb (Z.leb 0) acks = true → in_i32 out → (0 ≤ out - sum_z acks)%Z →
  (out - sum_z acks < WATER_MARK_LOW)%Z → (WATER_MARK_LOW ≤ out)%Z →
  flow_at (ack_all F acks) (out - sum_z acks) true [] ∧ cb ∈ released (ack_all F acks).
Proof.
  revert F out. induction acks as [|n acks IH]; intros F out HF Hn Ho Hs Hlow Hout;
    cbn [sum_z forallb ack_all foldl] in *; [lia|].
  apply andb_true_iff in Hn as [Hn%Z.leb_le Hl]. pose proof (sum_z_nonneg _ Hl).
  assert (Hin : in_i32 (out - n)) by (unfold in_i32, i32_min in *; lia).
  replace (out - (n + sum_z acks))%Z with (out - n - sum_z acks)%Z in * by lia.
  pose proof (flow_at_ack_waiting F out n cb HF Hin) as Hw. destruct (Z.ltb_spec (out - n) WATER_MARK_LOW).
  - destruct Hw as [HF' Hcb]. destruct (ack_all_writable acks _ _ HF' Hl Hin Hs) as [HF'' Hr].
    by rewrite <- Hr in Hcb.
  - by apply IH.
Qed.

(** ** The socket *)

Section upload.
Context {HM : Type} `{HttpLib HM}.
Context (send_err_dbg : str) (utf8_err_dbg : str → str).
Implicit Types (s : RouterSocketV3) (p : nat).

#[local] Abbreviation none := (@nil (ProxyListener RequestContext HM)).
#[local] Abbreviation on_binaries := (on_binaries none send_err_dbg utf8_err_dbg).

(** The frames arrive one after the other. *)
Definition receive (frames : list str) s : RouterSocketV3 :=
  match on_binaries s frames with Ret s' => s' | Panic => s end.

(** After the [i]-th chunk the connector acknowledges the numbers of bytes
    [acks !! i], each with a frame of its own. *)
Definition acknowledges (id : Z) (acks : list (list Z)) (i : nat) : RouterSocketV3 → RouterSocketV3 :=
  receive (map (window_update_message id) (default [] (acks !! i))).

(** The acknowledgements come in time: they are numbers of bytes, never more than
    was sent, and whenever the sender has stopped they bring what is not
    acknowledged under the low water mark before the next chunk. *)
Fixpoint keeps_up (w : bool) (out : Z) (chunks : list str) (acks : list (list Z)) : bool :=
  match chunks with
  | [] => true
  | c :: chunks =>
      let a := default [] (head acks) in
      let out1 := (out + Z.of_nat (length c))%Z in
      let out2 := (out1 - sum_z a)%Z in
      forallb (Z.leb 0) a && forallb (λ n, n <=? i32_max)%Z a && (out1 <=? i32_max)%Z && (0 <=? out2)%Z &&
      (w && (out1 <=? WATER_MARK_HIGH)%Z || (out2 <? WATER_MARK_LOW)%Z) &&
      keeps_up true out2 chunks (tail acks)
  end.

(** A request that is being sent: nothing of the response has come. *)
Record Sending s p (id : Z) (sent : list Message) (out : Z) (w : bool) (q : list (result nat CrankerRouterException))
  : Prop := {
  sg_stream : Stream s p id [] chan_new chan_new 0 sent;
  sg_flow : flow_at (flow_control (ctx_of s p)) out w q;
  sg_range : (0 ≤ out ≤ i32_max)%Z;
  sg_stopped : w = false → (WATER_MARK_LOW ≤ out)%Z
}.

(** Sending leaves the response side of the context alone. *)
Lemma stream_upd s p id hl hdr bdy n sent g :
  Stream s p id hl hdr bdy n sent →
  (∀ c, is_tgt_can_send_res_now_according_to_rfc2616 (g c) = is_tgt_can_send_res_now_according_to_rfc2616 c ∧
     header_line_builder (g c) = header_line_builder c ∧ tgt_res_hdr (g c) = tgt_res_hdr c ∧
     tgt_res_bdy (g c) = tgt_res_bdy c ∧ to_client_bytes (g c) = to_client_bytes c) →
  Stream (upd_ctx s p g) p id hl hdr bdy n sent.
Proof.
  intros [Hm (c & Hc & H1 & H2 & H3 & H4 & H5) Hw] Hg. split; [done| |done].
  exists (g c). unfold upd_ctx. cbn. rewrite list_lookup_alter_eq, Hc. split; [done|].
  destruct (Hg c) as (-> & -> & -> & -> & ->). done.
Qed.

Lemma ctx_of_upd s p g c : ctx_heap s !! p = Some c → ctx_of (upd_ctx s p g) p = g (ctx_of s p).
Proof. intros Hc. unfold ctx_of, upd_ctx. cbn. by rewrite list_lookup_alter_eq, Hc. Qed.

(** An operation on the counters. *)
Lemma sending_flow s p id sent out w q g out' w' q' :
  Sending s p id sent out w q →
  (∀ F, flow_at F out w q → flow_at (g F) out' w' q') → (0 ≤ out' ≤ i32_max)%Z →
  (w' = false → (WATER_MARK_LOW ≤ out')%Z) →
  Sending (upd_ctx s p (λ c, set_flow c (g (flow_control c)))) p id sent out' w' q'.
Proof.
  intros [Hs HF Hr Hst] Hg Ho Hw. split; [by apply stream_upd| |done..].
  destruct (st_ctx _ _ _ _ _ _ _ _ Hs) as (c & Hc & _). rewrite (ctx_of_upd s p _ c Hc). by apply Hg.
Qed.

(** A frame of [n] bytes is counted and queued. *)
Lemma sending_frame s p id sent out w m n b :
  Sending s p id sent out w [] → (0 ≤ n)%Z → (out + n ≤ i32_max)%Z →
  let s1 := upd_ctx s p (λ c, set_flow c (inc_rtr_to_tgt_pending_ack_bytes (flow_control c) (wrap32 n))) in
  ∃ s2, send_data send_err_dbg s1 m = (s2, Ok tt) ∧
    Sending (upd_ctx s2 p (λ c, set_from_client c (b c))) p id (sent ++ [m]) (out + n)
      (w && (out + n <=? WATER_MARK_HIGH)%Z) [].
Proof.
  intros Hs Hn Ho s1. pose proof (sg_range _ _ _ _ _ _ _ Hs) as Hr.
  assert (Hi : in_i32 n ∧ in_i32 (out + n)) by (unfold in_i32, i32_min in *; lia). destruct Hi as [Hi Hi'].
  assert (H1 : Sending s1 p id sent (out + n) (w && (out + n <=? WATER_MARK_HIGH)%Z) []).
  { apply (sending_flow s p id sent out w []
      (λ F, inc_rtr_to_tgt_pending_ack_bytes F (wrap32 n))); [done| |lia|].
    - intros F HF. rewrite wrap32_id by done. by apply flow_at_inc.
    - pose proof (sg_stopped _ _ _ _ _ _ _ Hs) as Hst. destruct w; cbn; [|specialize (Hst eq_refl); lia].
      intros ?%Z.leb_gt. unfold WATER_MARK_HIGH, WATER_MARK_LOW in *. lia. }
  destruct H1 as [Hst HF Hr' Hstop]. unfold send_data, chan_send. rewrite (st_wss _ _ _ _ _ _ _ _ Hst).
  cbn [is_closed items]. eexists. split; [done|]. split; [|  |done..].
  - apply stream_upd; [|done]. by destruct Hst.
  - destruct (st_ctx _ _ _ _ _ _ _ _ Hst) as (c & Hc & _). erewrite ctx_of_upd; [|exact Hc]. exact HF.
Qed.

(** The bytes of header frames that count. *)
Definition payload (frames : list str) : Z :=
  sum_z (map (λ hb, Z.of_nat (length hb - HEADER_LEN_IN_BYTES)) frames).

Lemma payload_cons hb frames :
  payload (hb :: frames) = (Z.of_nat (length hb - HEADER_LEN_IN_BYTES) + payload frames)%Z.
Proof. done. Qed.

Lemma payload_nonneg frames : (0 ≤ payload frames)%Z.
Proof. induction frames; [done|]. rewrite payload_cons. lia. Qed.

Lemma send_headers_sending frames s p id sent out w :
  Sending s p id sent out w [] → (out + payload frames ≤ i32_max)%Z →
  (w = (out <=? WATER_MARK_HIGH)%Z) →
  ∃ s', send_headers send_err_dbg s p frames = (s', Ok tt) ∧
    Sending s' p id (sent ++ map Binary frames) (out + payload frames) (out + payload frames <=? WATER_MARK_HIGH)%Z [].
Proof.
  revert s sent out w. induction frames as [|hb frames IH]; intros s sent out w Hs Ho Hw.
  { exists s. cbn. rewrite app_nil_r, Z.add_0_r. by rewrite Hw in Hs. }
  rewrite payload_cons in *. pose proof (payload_nonneg frames).
  set (n := Z.of_nat (length hb - HEADER_LEN_IN_BYTES)) in *. assert (0 ≤ n)%Z by apply Nat2Z.is_nonneg.
  cbn [send_headers]. fold n.
  destruct (sending_frame s p id sent out w (Binary hb) n (λ c, wrap64 (from_client_bytes c + n)) Hs)
    as (s2 & -> & H2); [lia..|].
  destruct (IH _ _ _ _ H2) as (s3 & -> & H3); [lia| |].
  - rewrite Hw. destruct (Z.leb_spec out WATER_MARK_HIGH); [done|]. symmetry. apply Z.leb_gt. lia.
  - exists s3. split; [done|]. rewrite <- app_assoc, <- Z.add_assoc in H3. exact H3.
Qed.

(** A window update of a request that is being sent. *)
Lemma on_binary_window_update s p id hl hdr bdy n0 sent n :
  Stream s p id hl hdr bdy n0 sent → in_i32 id → in_i32 n →
  on_binary none send_err_dbg utf8_err_dbg s (window_update_message id n) =
  Ret (upd_ctx s p (λ c, set_flow c (target_connector_ack_bytes (flow_control c) n))).
Proof.
  intros [Hm (c & Hc & _) _] Hid Hn. unfold on_binary, window_update_message. rewrite read_put_frame by done.
  rewrite Hm, Hc. unfold dispatch_frame, handle_window_update. rewrite <- (app_nil_r (put_i32 n)).
  rewrite get_put_i32 by done. done.
Qed.

(** The acknowledgements after a chunk. *)
Lemma receive_acks a s p id sent :
  Stream s p id [] chan_new chan_new 0 sent → in_i32 id → Forall in_i32 a →
  ∃ s', receive (map (window_update_message id) a) s = s' ∧ Stream s' p id [] chan_new chan_new 0 sent ∧
    flow_control (ctx_of s' p) = ack_all (flow_control (ctx_of s p)) a.
Proof.
  intros Hs Hid Ha. unfold receive.
  enough (∃ s', on_binaries s (map (window_update_message id) a) = Ret s' ∧
    Stream s' p id [] chan_new chan_new 0 sent ∧
    flow_control (ctx_of s' p) = ack_all (flow_control (ctx_of s p)) a) as (s' & -> & H1 & H2) by by exists s'.
  revert s Hs. induction Ha as [|n a Hn Ha IH]; intros s Hs; [by exists s|]. cbn [map SocketV3Props.on_binaries].
  rewrite (on_binary_window_update s p id _ _ _ _ _ n Hs Hid Hn). cbn [outcome_bind].
  destruct (IH (upd_ctx s p (λ c, set_flow c (target_connector_ack_bytes (flow_control c) n)))) as (s' & Hr & H1 & H2);
    [by apply stream_upd|].
  exists s'. split; [done|]. split; [done|]. rewrite H2. destruct (st_ctx _ _ _ _ _ _ _ _ Hs) as (c & Hc & _).
  by erewrite ctx_of_upd by exact Hc.
Qed.

Lemma keeps_up_cons w out c chunks acks :
  keeps_up w out (c :: chunks) acks = true →
  let a := default [] (head acks) in
  let out1 := (out + Z.of_nat (length c))%Z in
  let out2 := (out1 - sum_z a)%Z in
  forallb (Z.leb 0) a = true ∧ Forall in_i32 a ∧ (out1 ≤ i32_max)%Z ∧ (0 ≤ out2)%Z ∧
  (w && (out1 <=? WATER_MARK_HIGH)%Z = true ∨ (out2 < WATER_MARK_LOW)%Z) ∧
  keeps_up true out2 chunks (tail acks) = true.
Proof.
  cbn [keeps_up]. intros [[[[[H1 H2]%andb_true_iff H3%Z.leb_le]%andb_true_iff H4%Z.leb_le]%andb_true_iff
    H5%orb_true_iff]%andb_true_iff H6]%andb_true_iff. split_and!; try done; [|by rewrite Z.ltb_lt in H5].
  rewrite forallb_forall in H1, H2. apply Forall_forall. intros x Hx. specialize (H1 x Hx).
  specialize (H2 x Hx). unfold in_i32, i32_min. lia.
Qed.

(** One chunk, and the wait behind it if the stream is not writable. *)
Lemma send_body_chunk hdr c r acks i s p id sent out w :
  let a := default [] (acks !! i) in
  let out1 := (out + Z.of_nat (length c))%Z in
  let out2 := (out1 - sum_z a)%Z in
  Sending s p id sent out w [] → in_i32 id → forallb (Z.leb 0) a = true → Forall in_i32 a →
  (out1 ≤ i32_max)%Z → (0 ≤ out2)%Z → w && (out1 <=? WATER_MARK_HIGH)%Z = true ∨ (out2 < WATER_MARK_LOW)%Z →
  ∃ s', send_body none send_err_dbg (acknowledges id acks) hdr p id i (Ok c :: r) s =
      send_body none send_err_dbg (acknowledges id acks) hdr p id (S i) r s' ∧
    Sending s' p id (sent ++ [Binary (data_messages id false (Some c))]) out2 true [].
Proof.
  intros a out1 out2 Hs Hid H1 H2 H3 H4 H5. cbn [send_body]. unfold send_chunk. cbn [try_all].
  set (data := data_messages id false (Some c)).
  assert (Hlen : length data - HEADER_LEN_IN_BYTES = length c) by (unfold data, data_messages; cbn; lia).
  rewrite Hlen.
  destruct (sending_frame s p id sent out w (Binary data) (Z.of_nat (length c))
    (λ c0, wrap64 (from_client_bytes c0 + Z.of_nat (length c))) Hs) as (s2 & -> & [Hst HF Hr Hstop]); [lia|done|].
  set (s3 := upd_ctx s2 p _) in *. rewrite filter_nil. cbn [try_all]. fold out1 in HF, Hr, Hstop.
  assert (Hin : in_i32 out1) by (unfold in_i32, i32_min; lia). rewrite (fa_writable _ _ _ _ HF).
  assert (Hr2 : (0 ≤ out2 ≤ i32_max)%Z) by (pose proof (sum_z_nonneg _ H1); lia).
  destruct (w && _) eqn:Ew.
  - destruct (receive_acks a s3 p id _ Hst Hid H2) as (s4 & Hrec & Hst4 & HF4).
    destruct (ack_all_writable a _ _ HF H1 Hin H4) as [HF5 _].
    change (acknowledges id acks i s3 = s4) in Hrec. exists s4. rewrite Hrec. split; [done|]. split; [done|by rewrite HF4|done..].
  - destruct H5 as [H5|H5]; [done|]. set (s3' := upd_ctx s3 p _).
    destruct (st_ctx _ _ _ _ _ _ _ _ Hst) as (c0 & Hc0 & _).
    assert (HF' : flow_at (flow_control (ctx_of s3' p)) out1 false [Ok i]).
    { unfold s3'. erewrite ctx_of_upd by exact Hc0. by apply flow_at_wait. }
    destruct (receive_acks a s3' p id (sent ++ [Binary data])) as (s4 & Hrec & Hst4 & HF4); [by apply stream_upd|done..|].
    destruct (ack_all_waiting a _ _ _ HF' H1 Hin H4 H5 (Hstop eq_refl)) as [HF5 Hcb].
    change (acknowledges id acks i s3' = s4) in Hrec. exists s4. rewrite Hrec, HF4, bool_decide_true by done.
    split; [done|]. split; [done|by rewrite HF4|done..].
Qed.

(** The whole body is sent. *)
Lemma send_body_completes hdr chunks acks i s p id sent out w :
  Sending s p id sent out w [] → in_i32 id → keeps_up w out chunks (drop i acks) = true →
  ∃ s', send_body none send_err_dbg (acknowledges id acks) hdr p id i (map Ok chunks) s = (s', SendDone (Ok tt)) ∧
    Stream s' p id [] chan_new chan_new 0 (sent ++ body_frames id (map Ok chunks)).
Proof.
  intros Hs Hid. revert i s sent out w Hs. induction chunks as [|c chunks IH]; intros i s sent out w Hs Hk.
  - destruct Hs as [[] _ _ _]. cbn [map send_body]. unfold send_data, chan_send. rewrite st_wss.
    eexists. by split.
  - apply keeps_up_cons in Hk as (H1 & H2 & H3 & H4 & H5 & H6).
    assert (Hacks : default [] (head (drop i acks)) = default [] (acks !! i)).
    { destruct (acks !! i) as [a|] eqn:E; [by rewrite (drop_S _ _ _ E)|].
      by rewrite drop_ge by by apply lookup_ge_None. }
    rewrite Hacks in *.
    destruct (send_body_chunk hdr c (map Ok chunks) acks i s p id sent out w Hs Hid H1 H2 H3 H4 H5) as (s' & Hb & Hs').
    cbn [map]. rewrite Hb. destruct (IH (S i) _ _ _ _ Hs') as (s'' & Hb' & Hs'').
    { replace (drop (S i) acks) with (tail (drop i acks)); [done|].
      rewrite <- Nat.add_1_r, <- drop_drop. by destruct (drop i acks). }
    exists s''. split; [done|]. by rewrite <- app_assoc in Hs''.
Qed.

(** ** A whole request *)

(** The messages of a request: its header text in frames, then its body, if it has
    one, chunk by chunk and the end of the stream. *)
Definition request_frames (id : Z) (text : str) (body : option (list str)) : list Message :=
  map Binary (header_messages id true (match body with None => true | Some _ => false end) text) ++
  match body with None => [] | Some chunks => body_frames id (map Ok chunks) end.

(** The connector acknowledges the request in time. *)
Definition in_time (id : Z) (text : str) (body : option (list str)) (acks : list (list Z)) : bool :=
  match body with
  | None => true
  | Some chunks =>
      let n := payload (header_messages id true false text) in
      (n <=? i32_max)%Z && keeps_up (n <=? WATER_MARK_HIGH)%Z n chunks acks
  end.

(** A connector that acknowledges every chunk before the next one, and the headers
    with the first, is in time whatever it is sent. *)
Fixpoint prompt_acks (out : Z) (chunks : list str) : list (list Z) :=
  match chunks with
  | [] => []
  | c :: chunks => [out; Z.of_nat (length c)] :: prompt_acks 0 chunks
  end.

Lemma prompt_keeps_up w out chunks :
  (0 ≤ out)%Z → Forall (λ c, (out + Z.of_nat (length c) ≤ i32_max)%Z) chunks →
  keeps_up w out chunks (prompt_acks out chunks) = true.
Proof.
  revert w out. induction chunks as [|c chunks IH]; intros w out Ho Hall; [done|].
  apply Forall_cons_iff in Hall as [Hc Hall].
  cbn [keeps_up prompt_acks head option_map default tail sum_z forallb id from_option].
  assert (Hz : (out + Z.of_nat (length c) - (out + (Z.of_nat (length c) + 0)) = 0)%Z) by lia. rewrite Hz.
  rewrite IH; [|done|eapply list.Forall_impl; [exact Hall|]; cbn; intros; lia].
  rewrite !andb_true_iff, orb_true_iff, !Z.leb_le. split_and!; try done; try lia. by right.
Qed.

Lemma prompt_in_time id text chunks :
  let n := payload (header_messages id true false text) in
  (n ≤ i32_max)%Z → Forall (λ c, (n + Z.of_nat (length c) ≤ i32_max)%Z) chunks →
  in_time id text (Some chunks) (prompt_acks n chunks) = true.
Proof.
  intros n Hn Hall. cbn [in_time]. fold n. apply andb_true_iff. split; [by apply Z.leb_le|].
  apply prompt_keeps_up; [apply payload_nonneg|done].
Qed.

Lemma send_headers_stream frames s p id hl hdr bdy n sent :
  Stream s p id hl hdr bdy n sent →
  ∃ s', send_headers send_err_dbg s p frames = (s', Ok tt) ∧
    Stream s' p id hl hdr bdy n (sent ++ map Binary frames).
Proof.
  revert s sent. induction frames as [|hb frames IH]; intros s sent Hs.
  { exists s. by rewrite app_nil_r. }
  cbn [send_headers]. set (s1 := upd_ctx s p _).
  assert (H1 : Stream s1 p id hl hdr bdy n sent) by by apply stream_upd.
  unfold send_data, chan_send. rewrite (st_wss _ _ _ _ _ _ _ _ H1). cbn [is_closed items].
  set (s2 := upd_ctx _ p _). assert (H2 : Stream s2 p id hl hdr bdy n (sent ++ [Binary hb])).
  { apply stream_upd; [|done]. by destruct H1. }
  destruct (IH s2 _ H2) as (s3 & -> & H3). exists s3. split; [done|]. by rewrite <- app_assoc in H3.
Qed.

(** A request whose body is acknowledged in time is sent completely. *)
Theorem request_is_sent hdr s p id sent text body acks :
  let s1 := upd_ctx s p (λ c, set_can_send c true) in
  Stream s1 p id [] chan_new chan_new 0 sent → flow_control (ctx_of s1 p) = flow_new → in_i32 id →
  in_time id text body acks = true →
  ∃ s', split_part_one_send_or_err none send_err_dbg (acknowledges id acks) s hdr (map Ok <$> body) id p text =
      (s', SendDone (Ok tt)) ∧
    Stream s' p id [] chan_new chan_new 0 (sent ++ request_frames id text body).
Proof.
  intros s1 H1 HF Hid Ht. unfold split_part_one_send_or_err, request_frames. fold s1.
  destruct body as [chunks|]; cbn [fmap option_fmap option_map].
  - apply andb_true_iff in Ht as [Hn%Z.leb_le Hk].
    destruct (send_headers_sending (header_messages id true false text) s1 p id sent 0 true) as (s2 & -> & H2).
    + split; [done| |done|done]. rewrite HF. apply flow_new_at.
    + lia.
    + done.
    + destruct (send_body_completes hdr chunks acks 0 _ _ _ _ _ _ H2 Hid Hk) as (s3 & -> & H3).
      exists s3. by rewrite app_assoc.
  - destruct (send_headers_stream (header_messages id true true text) _ _ _ _ _ _ _ _ H1) as (s2 & -> & H2).
    exists s2. by rewrite app_nil_r.
Qed.

End upload.
