(* ===== verification/Exchange.v ===== *)
(** * A whole exchange over a version 3 socket

    The request side of [SocketV3] and its response side put together: a client
    request is sent, the connector answers in frames while the request waits, and
    the client gets the response. *)

From S2P Require Import Prelude RustStr Exceptions Http Forwarded Config HttpUtils CrankerProtocol Frames FlowControl Farm SocketBase SocketV3 SocketV3Props Upload.

Section exchange.
Context {HM : Type} `{HttpLib HM}.
Context (send_err_dbg recv_err_dbg : str) (utf8_err_dbg : str → str) (debug_strs : list str → str).
Context (http_err_dbg : str).
Context (local_ip : str) (ip_to_string : IpAddr → str) (version_debug : Version → str).
Context {L F R : Type} (config : CrankerRouterConfig L F R).
Implicit Types (s : RouterSocketV3) (p : nat).

#[local] Abbreviation none := (@nil (ProxyListener RequestContext HM)).
#[local] Abbreviation on_client_req := (on_client_req none send_err_dbg recv_err_dbg debug_strs
  http_err_dbg local_ip ip_to_string version_debug config).

(** The frames of a response. *)
Definition response_frames (id : Z) (text : str) (chunks : list str) : list str :=
  header_messages id true false text ++ map (λ x, data_messages id false (Some x)) chunks ++
  [data_messages id true None].

(** A client request that a live version 3 socket serves, whose body (if it has
    one) the connector acknowledges in time, and that it answers with a response in
    frames, completes: the frames of the request leave in order behind what was
    queued before, the client is given exactly the status and headers of the
    response, and it finds exactly the chunks of the response in its body channel,
    which is closed; all that follows on the websocket are the acknowledgements of
    the received frames. *)
Theorem v3_exchange_completes s sent version method uri headers addr is_tls cl hdr body acks text chunks cpr res :
  v3_is_removed s = false → wss_send_task s = MkChan sent false →
  set_target_request_headers local_ip ip_to_string version_debug config headers hm_new version addr uri
    is_tls = Ret (cl, hdr) →
  utf8_valid text = true → (Z.of_nat (length text) ≤ i32_max)%Z → Forall (λ x, x ≠ []) chunks →
  CrankerProtocol.try_from_string text = Ok cpr → response_build debug_strs cpr = Ok (Some res) →
  let id := wrap32 (req_id_generator s + 1) in
  in_time id (request_header_text method uri hdr) body acks = true →
  ∃ s' c parts,
    on_client_req (acknowledges (HM := HM) send_err_dbg utf8_err_dbg id acks)
      (receive (HM := HM) send_err_dbg utf8_err_dbg (response_frames id text chunks)) s version method uri headers
      addr is_tls (map Ok <$> body) = (s', Ret (Some (Ok res))) ∧
    ctx_heap s' !! length (ctx_heap s) = Some c ∧
    tgt_res_bdy c = MkChan (map Ok chunks) true ∧ concat parts = text ∧
    wss_send_task s' = MkChan (sent ++ request_frames id (request_header_text method uri hdr) body ++
      map (ack id) (parts ++ chunks)) false.
Proof.
  intros Hrem Hw Hh Hu Hlen Hall Hp Hb id Hin. set (p := length (ctx_heap s)).
  unfold SocketV3.on_client_req, open_request. rewrite Hrem. cbv zeta. fold id.
  set (s1 := with_context_map _ _). rewrite Hh. cbn [before_proxy].
  assert (Hid : in_i32 id) by apply wrap32_range.
  assert (H1 : Stream (upd_ctx s1 p (λ c, set_can_send c true)) p id [] chan_new chan_new 0 sent).
  { split; cbn; [by rewrite lookup_insert_eq| |done]. exists (set_can_send (ctx_new id (v3_clock s)) true).
    by rewrite list_lookup_alter_eq, lookup_app_r, Nat.sub_diag. }
  assert (HF : flow_control (ctx_of (upd_ctx s1 p (λ c, set_can_send c true)) p) = flow_new).
  { unfold ctx_of. cbn. by rewrite list_lookup_alter_eq, lookup_app_r, Nat.sub_diag. }
  unfold sender_task. fold p.
  destruct (request_is_sent send_err_dbg utf8_err_dbg hdr s1 p id sent _ body acks H1 HF Hid Hin) as (s2 & -> & H2).
  destruct (stream_header_text none send_err_dbg utf8_err_dbg s2 p id text _ _ _ H2 Hid Hu Hlen)
    as (s2' & parts & Hparts & Hr1 & H2').
  destruct (stream_body none send_err_dbg utf8_err_dbg _ _ _ _ _ _ chunks H2' Hid eq_refl Hall) as (s3 & Hr2 & H3).
  assert (Hs3 : receive (HM := HM) send_err_dbg utf8_err_dbg (response_frames id text chunks) s2 = s3).
  { unfold receive, response_frames. rewrite on_binaries_app, Hr1. cbn [outcome_bind]. by rewrite Hr2. }
  rewrite Hs3. destruct H3 as [_ (c & Hc & _ & _ & Hch & Hcb & _) Hwss].
  unfold split_part_two_recv_and_res.
  assert (Hctx : ctx_of s3 p = c) by (unfold ctx_of; by rewrite Hc). rewrite Hctx, Hch. cbn [items].
  eexists _, (set_hdr c (MkChan [] true)), parts. split; [cbn; rewrite Hp; cbn; by rewrite Hb|].
  cbn. rewrite list_lookup_alter_eq, Hc. cbn. rewrite Hch. split_and!; try done.
  by rewrite Hwss, map_app, !app_assoc.
Qed.

End exchange.

#[local] Existing Instance Alist.lib.

(** A request with a body of two chunks; the first one stops the sender, and is
    acknowledged together with the headers. *)
Lemma v3_exchange_completes_witness :
  let big := replicate (Z.to_nat 70000) "x"%byte in
  let out := (demo_out demo_config []).2 in
  let n := Z.of_nat (length (request_header_text (lit "POST") demo_uri out)) in
  ∃ s' c, (on_client_req [] [] [] (λ _, []) [] (lit "10.0.0.1") demo_ip demo_version demo_config
      (acknowledges (HM := Alist.headers) [] (λ _, []) 1 [[n; 70000%Z]])
      (receive (HM := Alist.headers) [] (λ _, [])
        (response_frames 1 (lit "HTTP/1.1 200 OK") [lit "he"; lit "llo"])) DemoV3.socket
      HTTP_11 (lit "POST") demo_uri ([] : Alist.headers) demo_addr false (Some [Ok big; Ok (lit "y")])) =
      (s', Ret (Some (Ok (200%Z, [])))) ∧
    ctx_heap s' !! 0 = Some c ∧ tgt_res_bdy c = MkChan [Ok (lit "he"); Ok (lit "llo")] true.
Proof.
  intros big out n.
  destruct (v3_exchange_completes (HM := Alist.headers) [] [] (λ _, []) (λ _, []) [] (lit "10.0.0.1") demo_ip demo_version
    demo_config DemoV3.socket [] HTTP_11 (lit "POST") demo_uri [] demo_addr false
    (demo_out demo_config []).1 (demo_out demo_config []).2 (Some [big; lit "y"]) [[n; 70000%Z]]
    (lit "HTTP/1.1 200 OK") [lit "he"; lit "llo"] (MkResponse [] 200) (200%Z, []))
    as (s' & c & parts & Hr & Hc & Hb & _).
  - vm_compute. reflexivity.
  - vm_compute. reflexivity.
  - vm_compute. reflexivity.
  - vm_compute. reflexivity.
  - vm_compute. discriminate.
  - repeat constructor; discriminate.
  - vm_compute. reflexivity.
  - vm_compute. reflexivity.
  - vm_compute. reflexivity.
  - exists s', c. split; [exact Hr|]. split; [exact Hc|exact Hb].
Defined.
