(* ===== verification/Listeners.v ===== *)
(** * Listeners that only observe

    [DefaultProxyListener] of proxy_listener.rs, whose hooks all return [Ok], and
    the [DemoProxyListener] of the example servers, which counts and logs.  A
    listener whose hooks return [Ok] and leave the request headers alone ([quiet])
    does not change what a version 3 socket does.  On a version 1 socket any listener
    makes a difference: without one the duration of a request is never stored. *)

From S2P Require Import Prelude RustStr Exceptions Http Forwarded Config HttpUtils CrankerProtocol Frames FlowControl Farm SocketBase SocketV1 SocketV1Props SocketV3 SocketV3Props Upload Exchange.

(** ** The listeners of the crate and of the examples *)

(** The bodies the trait gives to all hooks but the two [really_need_..]. *)
Definition DefaultProxyListener {Info HM : Type} : ProxyListener Info HM := {|
  on_before_proxy_to_target _ request_headers_to_target := (request_headers_to_target, Ok tt);
  on_before_responding_to_client _ := Ok tt;
  on_after_target_to_proxy_headers_received _ _ _ := Ok tt;
  on_after_proxy_to_target_headers_sent _ _ := Ok tt;
  on_before_request_body_chunk_sent_to_target _ _ := Ok tt;
  on_request_body_chunk_sent_to_target _ _ := Ok tt;
  on_request_body_sent_to_target _ := Ok tt;
  on_complete _ := Ok tt;
  on_response_body_chunk_received_from_target _ _ := Ok tt;
  really_need_on_response_body_chunk_received_from_target := false;
  really_need_on_request_body_chunk_sent_to_target := false
|}.

Module DemoListener.

(** The atomic counter of a [DemoProxyListener], a [u64]. *)
Record DemoProxyListener := MkDemo { counter : Z }.

Definition u64_mod : Z := 18446744073709551616.

Definition demo_new : DemoProxyListener := MkDemo 0.

(** What a hook logs. *)
Inductive Log (HM : Type) :=
| LogBefore (id : Z) (request_headers_to_target : HM)
| LogAfter (id : Z) (status : Z) (headers : option HM).
Arguments LogBefore {HM}.
Arguments LogAfter {HM}.

Definition before_proxy_to_target {HM} (l : DemoProxyListener) (hdr : HM)
  : DemoProxyListener * Log HM * (HM * result unit CrankerRouterException) :=
  let id := ((1 + counter l) mod u64_mod)%Z in
  (MkDemo ((counter l + 1) mod u64_mod), LogBefore id hdr, (hdr, Ok tt)).

Definition after_target_to_proxy_headers_received {HM} (l : DemoProxyListener) (status : Z)
  (headers : option HM) : DemoProxyListener * Log HM * result unit CrankerRouterException :=
  (l, LogAfter (counter l) status headers, Ok tt).

(** The listener as the sockets call it: the counter and the log are its own. *)
Definition demo_listener {Info HM} (l : DemoProxyListener) : ProxyListener Info HM :=
  let default : ProxyListener Info HM := DefaultProxyListener in {|
  on_before_proxy_to_target _ hdr := (before_proxy_to_target l hdr).2;
  on_before_responding_to_client := on_before_responding_to_client default;
  on_after_target_to_proxy_headers_received _ status headers :=
    (after_target_to_proxy_headers_received (HM := HM) l status headers).2;
  on_after_proxy_to_target_headers_sent := on_after_proxy_to_target_headers_sent default;
  on_before_request_body_chunk_sent_to_target :=
    on_before_request_body_chunk_sent_to_target default;
  on_request_body_chunk_sent_to_target := on_request_body_chunk_sent_to_target default;
  on_request_body_sent_to_target := on_request_body_sent_to_target default;
  on_complete := on_complete default;
  on_response_body_chunk_received_from_target :=
    on_response_body_chunk_received_from_target default;
  really_need_on_response_body_chunk_received_from_target := false;
  really_need_on_request_body_chunk_sent_to_target := false
|}.

(** The requests are numbered from one, in the order in which their headers are
    sent, until the counter is full. *)
Fixpoint logged {HM} (l : DemoProxyListener) (hdrs : list HM) : list (Log HM) :=
  match hdrs with
  | [] => []
  | h :: r => let '(l, log, _) := before_proxy_to_target l h in log :: logged l r
  end.

Lemma logged_ids {HM} (hdrs : list HM) n :
  (0 ≤ n)%Z → (n + Z.of_nat (length hdrs) < u64_mod)%Z →
  logged (MkDemo n) hdrs = imap (λ i h, LogBefore (n + 1 + Z.of_nat i)%Z h) hdrs.
Proof.
  revert n. induction hdrs as [|h hdrs IH]; intros n Hn Hl; [done|]. cbn [logged before_proxy_to_target].
  cbn in Hl. unfold before_proxy_to_target. cbn [counter]. rewrite !Z.mod_small by lia.
  rewrite IH by lia. cbn [imap]. f_equal; [f_equal; lia|]. apply imap_ext. intros i x _. cbn. f_equal. lia.
Qed.

Lemma demo_requests_numbered {HM} (hdrs : list HM) :
  (Z.of_nat (length hdrs) < u64_mod)%Z →
  logged demo_new hdrs = imap (λ i h, LogBefore (1 + Z.of_nat i)%Z h) hdrs.
Proof. intros Hl. unfold demo_new. by rewrite (logged_ids hdrs 0). Qed.

End DemoListener.

(** ** Quiet listeners *)

Record quiet {Info HM : Type} (l : ProxyListener Info HM) : Prop := {
  q_before i h : on_before_proxy_to_target l i h = (h, Ok tt);
  q_responding i : on_before_responding_to_client l i = Ok tt;
  q_received i st h : on_after_target_to_proxy_headers_received l i st h = Ok tt;
  q_headers_sent i h : on_after_proxy_to_target_headers_sent l i h = Ok tt;
  q_before_chunk i b : on_before_request_body_chunk_sent_to_target l i b = Ok tt;
  q_chunk_sent i b : on_request_body_chunk_sent_to_target l i b = Ok tt;
  q_body_sent i : on_request_body_sent_to_target l i = Ok tt;
  q_chunk_received i b : on_response_body_chunk_received_from_target l i b = Ok tt
}.

Lemma default_quiet {Info HM} : quiet (@DefaultProxyListener Info HM).
Proof. done. Qed.

Lemma demo_quiet {Info HM} d : quiet (@DemoListener.demo_listener Info HM d).
Proof. done. Qed.

#[export] Hint Resolve default_quiet demo_quiet : cranker.

Lemma try_all_ok {A} (call : A → result unit CrankerRouterException) ls :
  Forall (λ l, call l = Ok tt) ls → try_all call ls = Ok tt.
Proof. induction 1 as [|l ls Hl _ IH]; [done|]. cbn. by rewrite Hl. Qed.

(** A loop over quiet listeners, or over some of them, passes. *)
Lemma quiet_all {Info HM} (ls : list (ProxyListener Info HM)) call :
  Forall quiet ls → (∀ l, quiet l → call l = Ok tt) → try_all call ls = Ok tt.
Proof. intros Hq Hc. apply try_all_ok. eapply list.Forall_impl; [exact Hq|exact Hc]. Qed.

Lemma quiet_some {Info HM} (ls : list (ProxyListener Info HM)) call (P : ProxyListener Info HM → Prop)
  `{∀ l, Decision (P l)} :
  Forall quiet ls → (∀ l, quiet l → call l = Ok tt) → try_all call (filter P ls) = Ok tt.
Proof.
  intros Hq Hc. apply try_all_ok, list.Forall_forall. intros l [_ Hl]%list_elem_of_filter.
  apply Hc. by eapply list.Forall_forall in Hq.
Qed.

Section quiet.
Context {HM : Type} `{HttpLib HM}.
Context (send_err_dbg recv_err_dbg : str) (utf8_err_dbg : str → str) (debug_strs : list str → str).
Context (http_err_dbg : str).
Context (local_ip : str) (ip_to_string : IpAddr → str) (version_debug : Version → str).
Context {L F R : Type} (config : CrankerRouterConfig L F R).

(** *** Version 3 *)

Section v3.
Context (listeners : list (ProxyListener RequestContext HM)).
Hypothesis Hq : Forall quiet listeners.

#[local] Abbreviation none := (@nil (ProxyListener RequestContext HM)).

Lemma quiet_before_proxy c hdr : before_proxy c listeners hdr = Ok hdr.
Proof.
  clear -Hq. revert Hq. induction 1 as [|l ls Hl _ IH]; [done|]. cbn. rewrite (q_before _ Hl). exact IH.
Qed.

Lemma quiet_on_binary s bin :
  on_binary listeners send_err_dbg utf8_err_dbg s bin = on_binary none send_err_dbg utf8_err_dbg s bin.
Proof.
  unfold on_binary, dispatch_frame. destruct (read_frame bin) as [[[[t fl] id] pl]|]; [|done].
  destruct (context_map s !! id) as [p|]; [|done]. destruct (ctx_heap s !! p) as [c|]; [|done].
  assert (Hd : handle_data listeners send_err_dbg s p c fl id pl = handle_data none send_err_dbg s p c fl id pl).
  { unfold handle_data. destruct (check_if_tgt_can_send_res_first s c id); [|done]. cbv zeta.
    destruct pl; [done|]. destruct (is_closed (tgt_res_bdy c)); by rewrite quiet_some by (done || by intros l []). }
  by rewrite Hd.
Qed.

Lemma quiet_on_binaries frames s :
  on_binaries listeners send_err_dbg utf8_err_dbg s frames =
  on_binaries none send_err_dbg utf8_err_dbg s frames.
Proof.
  revert s. induction frames as [|b frames IH]; intros s; [done|]. cbn [on_binaries].
  rewrite quiet_on_binary. destruct (on_binary _ _ _ s b); [apply IH|done].
Qed.

Lemma quiet_send_chunk s p id bytes :
  send_chunk listeners send_err_dbg s p id bytes = send_chunk none send_err_dbg s p id bytes.
Proof.
  unfold send_chunk. rewrite quiet_all by (done || by intros l []). cbn [try_all]. cbv zeta.
  destruct (send_data _ _ _) as [s1 [u|e]]; [|done]. by rewrite quiet_some by (done || by intros l []).
Qed.

Lemma quiet_after_body s p hdr : after_body listeners s p hdr = after_body none s p hdr.
Proof.
  unfold after_body. rewrite quiet_all; [done..|]. intros l Hl. by rewrite (q_headers_sent _ Hl), (q_body_sent _ Hl).
Qed.

Lemma quiet_send_body env hdr p id i body s :
  send_body listeners send_err_dbg env hdr p id i body s = send_body none send_err_dbg env hdr p id i body s.
Proof.
  revert i s. induction body as [|[bytes|e] body IH]; intros i s; cbn [send_body]; [| |done].
  - destruct (send_data _ _ _) as [s1 [u|e]]; [|done]. by rewrite quiet_after_body.
  - rewrite quiet_send_chunk. destruct (send_chunk _ _ _ _ _ _) as [s1 [u|e]]; [|done].
    by rewrite !IH.
Qed.

Lemma quiet_sender_task env s hdr body id p text :
  sender_task listeners send_err_dbg env s hdr body id p text =
  sender_task none send_err_dbg env s hdr body id p text.
Proof.
  unfold sender_task, split_part_one_send_or_err. destruct (send_headers _ _ _ _) as [s1 [u|e]]; [|done].
  destruct body; [by rewrite quiet_send_body|by rewrite quiet_after_body].
Qed.

Lemma quiet_recv s p :
  split_part_two_recv_and_res listeners recv_err_dbg debug_strs http_err_dbg s p =
  split_part_two_recv_and_res none recv_err_dbg debug_strs http_err_dbg s p.
Proof.
  unfold split_part_two_recv_and_res. destruct (items _) as [|r rest]; [done|]. do 2 f_equal.
  destruct r as [text|]; [|done]. cbn [result_bind]. destruct (try_from_string text) as [cpr|]; [|done].
  cbn [result_bind]. destruct (response_build debug_strs cpr); [|done]. cbn [result_bind].
  rewrite quiet_all; [done..|]. intros l Hl. by rewrite (q_responding _ Hl); cbn; rewrite (q_received _ Hl).
Qed.

Lemma quiet_on_client_req env late s version method uri headers addr is_tls body :
  on_client_req listeners send_err_dbg recv_err_dbg debug_strs http_err_dbg local_ip ip_to_string
    version_debug config env late s version method uri headers addr is_tls body =
  on_client_req none send_err_dbg recv_err_dbg debug_strs http_err_dbg local_ip ip_to_string
    version_debug config env late s version method uri headers addr is_tls body.
Proof.
  unfold on_client_req. destruct (open_request s) as [s1 [[id p]|e]]; [|done].
  destruct (set_target_request_headers _ _ _ _ _ _ _ _ _ _) as [[cl hdr]|]; [|done].
  rewrite quiet_before_proxy. cbn [before_proxy]. by rewrite quiet_sender_task, quiet_recv.
Qed.

End v3.

(** C24: listeners that only observe are transparent on version 3: with listeners that return [Ok] from
    every hook and do not touch the headers, such as the default listener and the
    listener of the examples, a version 3 socket treats every frame and every
    client request exactly as without listeners; states, messages, answers and
    panics are the same, whatever other tasks do. *)
Theorem quiet_listeners_transparent (listeners : list (ProxyListener RequestContext HM)) :
  Forall quiet listeners →
  (∀ s bin, on_binary listeners send_err_dbg utf8_err_dbg s bin =
            on_binary (HM := HM) [] send_err_dbg utf8_err_dbg s bin) ∧
  (∀ env late s version method uri headers addr is_tls body,
     on_client_req listeners send_err_dbg recv_err_dbg debug_strs http_err_dbg local_ip ip_to_string
       version_debug config env late s version method uri headers addr is_tls body =
     on_client_req [] send_err_dbg recv_err_dbg debug_strs http_err_dbg local_ip ip_to_string
       version_debug config env late s version method uri headers addr is_tls body).
Proof. intros Hq. split; [by apply quiet_on_binary|by apply quiet_on_client_req]. Qed.

End quiet.

(** ** Version 1 *)

Lemma complete_all_active {HM : Type} (ls : list (ProxyListener RouterSocketV1 HM)) s :
  v1_is_active (complete_all s ls).1 = v1_is_active s.
Proof.
  revert s. induction ls as [|l ls IH]; intros s; [done|]. cbn [complete_all].
  destruct (on_complete l s); [by rewrite IH|done].
Qed.

(** A version 1 socket whose request is over is no longer active only if there is a
    listener, whatever its hooks do: without listeners the completion does not store
    the duration, and the socket counts as active for ever. *)
Theorem v1_completion_needs_listener {HM : Type} (listeners : list (ProxyListener RouterSocketV1 HM)) now s :
  (0 < client_req_start_ts s < now)%Z → v1_is_active s = true →
  v1_is_active (v1_raise_completion_event listeners now s).1 = bool_decide (listeners = []).
Proof.
  intros Hs Ha. unfold v1_raise_completion_event. cbn [client_req_start_ts set_farm_removals].
  rewrite (proj2 (Z.eqb_neq _ _)) by lia. destruct listeners as [|l ls]; [exact Ha|].
  rewrite (bool_decide_eq_false_2 (length (l :: ls) = 0)), (bool_decide_eq_false_2 (l :: ls = [])) by done.
  cbn [orb]. rewrite complete_all_active. unfold v1_is_active. cbn.
  by destruct (Z.ltb_spec 0 (client_req_start_ts s)), (Z.leb_spec (now - client_req_start_ts s) 0); try lia.
Qed.

#[local] Existing Instance Alist.lib.

Lemma quiet_listeners_transparent_witness :
  on_client_req [DemoListener.demo_listener DemoListener.demo_new; DefaultProxyListener] [] [] (λ _, []) [] (lit "10.0.0.1")
    demo_ip demo_version demo_config (λ _ s, s)
    (receive (HM := Alist.headers) [] (λ _, []) (response_frames 1 (lit "HTTP/1.1 200 OK") [lit "hello"]))
    DemoV3.socket HTTP_11 (lit "GET") demo_uri ([] : Alist.headers) demo_addr false None =
  on_client_req [] [] [] (λ _, []) [] (lit "10.0.0.1") demo_ip demo_version demo_config (λ _ s, s)
    (receive (HM := Alist.headers) [] (λ _, []) (response_frames 1 (lit "HTTP/1.1 200 OK") [lit "hello"]))
    DemoV3.socket HTTP_11 (lit "GET") demo_uri ([] : Alist.headers) demo_addr false None.
Proof.
  apply (quiet_listeners_transparent [] [] (λ _, []) (λ _, []) [] (lit "10.0.0.1") demo_ip demo_version demo_config
    [DemoListener.demo_listener DemoListener.demo_new; DefaultProxyListener]).
  constructor; [apply demo_quiet|]. constructor; [apply default_quiet|constructor].
Defined.
