(* ===== verification/ExchangeV1.v ===== *)
(** * A whole exchange over a version 1 socket

    The request side of [SocketV1] and its response side put together: a client
    request with or without a body is sent, the connector answers with a header
    text, body messages and a close frame, and the client gets the response. *)

From S2P Require Import Prelude RustStr Exceptions Http Forwarded Config HttpUtils CrankerProtocol FlowControl Farm SocketBase SocketV1 SocketV1Props SocketV3 SocketV3Props Listeners.

Section exchange.
Context {HM : Type} `{HttpLib HM}.
Context (listeners : list (ProxyListener RouterSocketV1 HM)).
Context (send_err_dbg recv_err_dbg : str) (debug_strs : list str → str) (http_err_dbg : str).
Context (local_ip : str) (ip_to_string : IpAddr → str) (version_debug : Version → str).
Context {L F R : Type} (config : CrankerRouterConfig L F R).
Hypothesis Hquiet : Forall quiet listeners.
Implicit Types (s : RouterSocketV1).

#[local] Abbreviation on_client_req := (v1_on_client_req listeners send_err_dbg recv_err_dbg debug_strs
  http_err_dbg local_ip ip_to_string version_debug config).

(** No other task touches the socket while the request is sent. *)
#[local] Abbreviation undisturbed := (λ (_ : nat) (s : RouterSocketV1), s).

Lemma quiet_v1_before_proxy s hdr : v1_before_proxy s listeners hdr = Ok hdr.
Proof.
  clear -Hquiet. revert Hquiet. induction 1 as [|l ls Hl _ IH]; [done|]. cbn. rewrite (q_before _ Hl). exact IH.
Qed.

Lemma v1_send_chunk_quiet s sent bytes :
  v1_wss s = MkChan sent false →
  v1_send_chunk listeners send_err_dbg s bytes = (v1_set_wss s (MkChan (sent ++ [Binary bytes]) false), Ok tt).
Proof.
  intros Hw. unfold v1_send_chunk, wss_send, chan_send. rewrite !quiet_all by (done || by intros l []).
  cbn [result_bind]. rewrite Hw. cbn [is_closed items].
  destruct (needs_request_chunks listeners); [|done]. by rewrite quiet_some by (done || by intros l []).
Qed.

Lemma v1_send_body_quiet chunks i s sent :
  v1_wss s = MkChan sent false →
  v1_send_body listeners send_err_dbg undisturbed i (map Ok chunks) s =
    (v1_set_wss s (MkChan (sent ++ map Binary chunks) false), Ok tt).
Proof.
  revert i s sent. induction chunks as [|b chunks IH]; intros i s sent Hw; cbn [map v1_send_body].
  { rewrite app_nil_r, <- Hw. by destruct s. }
  rewrite (v1_send_chunk_quiet s sent b Hw), (IH _ _ (sent ++ [Binary b])) by done.
  by rewrite <- app_assoc.
Qed.

(** The messages of a request. *)
Definition request_messages (text : str) (opt_body : option (list str)) : list Message :=
  Text text :: match opt_body with
               | Some chunks => map Binary chunks ++ [Text (lit "_3")]
               | None => []
               end.

Lemma v1_sender_quiet now s sent opt_body text :
  v1_wss s = MkChan sent false →
  v1_sender_task listeners send_err_dbg undisturbed now s (map Ok <$> opt_body) text =
  Ret (v1_set_wss (v1_set_can_send s true) (MkChan (sent ++ request_messages text opt_body) false)).
Proof.
  intros Hw. unfold v1_sender_task, v1_split_part_one_send_or_err, wss_send, chan_send.
  cbn [v1_wss v1_set_can_send]. rewrite Hw. cbn [is_closed items]. destruct opt_body as [chunks|]; cbn [fmap option_fmap option_map].
  - rewrite (v1_send_body_quiet chunks 0 _ (sent ++ [Text text])) by done.
    unfold v1_send_end, wss_send, chan_send. cbn. rewrite quiet_all by (done || by intros l []). cbn.
    unfold request_messages. by rewrite <- !app_assoc.
  - cbn. rewrite quiet_all by (done || by intros l []). done.
Qed.

(** The connector answers: the header text, the body and a normal close frame. *)
Definition answer (now : Z) (text : str) (chunks : list str) (close_text : str) s : RouterSocketV1 :=
  let s := (v1_on_text send_err_dbg s text).1 in
  let s := (feed listeners send_err_dbg s chunks).1 in
  (v1_on_close listeners send_err_dbg now s (Some (1000%Z, close_text))).1.

(** The text of a request. *)
Definition v1_text (method : str) (uri : Uri) (hdr : HM) (has_body : bool) : str :=
  create_request_line method uri ++ [LF] ++ build_header_str hdr ++ [LF] ++
  end_marker_str (if has_body then RequestBodyPending else RequestHasNoBody).

Lemma v1_request_text_quiet s method uri hdr b :
  v1_request_text listeners s method uri hdr b = Ret (Ok (v1_text method uri hdr b)).
Proof. unfold v1_request_text. rewrite quiet_v1_before_proxy. by destruct b. Qed.

(** A client request, with a body or without, that a fresh version 1 socket
    serves and that the connector answers completes: the request text, one message
    per chunk of the body and the end marker leave in order behind what was queued
    before, followed by the answer to the close frame; the client is given exactly
    the status and headers of the response and finds exactly the chunks of the
    response in its body channel, which is closed; the bytes are counted and the
    socket is removed from the farm.  Observing listeners change nothing of
    this. *)
Theorem v1_exchange_completes s sent now now' now'' version method uri headers addr is_tls cl hdr
  opt_body text chunks close_text cpr res :
  v1_is_removed s = false → v1_wss s = MkChan sent false → cli_side_res_sender s = sender_new →
  set_target_request_headers local_ip ip_to_string version_debug config headers hm_new version addr uri
    is_tls = Ret (cl, hdr) →
  length text ≤ HEADER_MAX_SIZE → needs_response_chunks listeners = false →
  CrankerProtocol.try_from_string text = Ok cpr → response_build debug_strs cpr = Ok (Some res) →
  ∃ s', on_client_req undisturbed (answer now'' text chunks close_text) now now' s version method uri headers
      addr is_tls (map Ok <$> opt_body) = (s', Ret (Some (Ok res))) ∧
    v1_bdy (cli_side_res_sender s') = MkChan (map Ok chunks) true ∧
    bytes_sent (cli_side_res_sender s') = wrap64 (Z.of_nat (length text) + total_len chunks) ∧
    v1_farm_removals s' = S (v1_farm_removals s) ∧
    v1_wss s' = MkChan (sent ++
      request_messages (v1_text method uri hdr (match opt_body with Some _ => true | None => false end)) opt_body ++
      [Close (Some (1000%Z, close_text))]) false.
Proof.
  intros Hrem Hw Hs Hh Hlen Hneed Hp Hb. unfold v1_on_client_req, v1_open_request. rewrite Hrem. cbv zeta.
  set (s1 := set_duration _ _). rewrite Hh, v1_request_text_quiet.
  replace (match map Ok <$> opt_body with Some _ => true | None => false end)
    with (match opt_body with Some _ => true | None => false end) by (by destruct opt_body).
  set (req := v1_text _ _ _ _). rewrite (v1_sender_quiet now' s1 sent opt_body req) by done.
  set (s2 := v1_set_wss _ _). unfold answer.
  destruct (v1_response_delivered listeners send_err_dbg now'' s2 text chunks close_text)
    as (s3 & s4 & rs & bd & Ht & Hf & _ & Hd & _ & _ & Hr & Hx); [done..|].
  rewrite Ht. cbn [fst]. rewrite Hf. cbn [fst]. set (s5 := (v1_on_close _ _ _ _ _).1) in *.
  unfold v1_split_part_two_recv_and_res. rewrite Hd. cbn [items v1_hdr]. eexists. split.
  { cbn [result_bind]. rewrite Hp. cbn [result_bind]. rewrite Hb. cbn [result_bind].
    rewrite quiet_all; [done..|]. intros l Hl. by rewrite (q_responding _ Hl); cbn; rewrite (q_received _ Hl). }
  cbn. split_and!; [done..|by rewrite Hr|]. rewrite Hx. cbn. by rewrite <- !app_assoc.
Qed.

End exchange.

#[local] Existing Instance Alist.lib.

Lemma v1_exchange_completes_witness :
  ∃ s', v1_on_client_req [DefaultProxyListener; DemoListener.demo_listener DemoListener.demo_new] [] [] (λ _, []) []
      (lit "10.0.0.1") demo_ip demo_version demo_config (λ _ s, s)
      (answer (HM := Alist.headers) [DefaultProxyListener; DemoListener.demo_listener DemoListener.demo_new] [] 3 (lit "HTTP/1.1 200 OK")
         [lit "he"; lit "llo"] (lit "bye")) 1 2 DemoV1.socket HTTP_11 (lit "POST") demo_uri
      ([] : Alist.headers) demo_addr false (Some [Ok (lit "question")]) = (s', Ret (Some (Ok (200%Z, [])))) ∧
    v1_bdy (cli_side_res_sender s') = MkChan [Ok (lit "he"); Ok (lit "llo")] true.
Proof.
  destruct (v1_exchange_completes [DefaultProxyListener; DemoListener.demo_listener DemoListener.demo_new] [] [] (λ _, []) []
    (lit "10.0.0.1") demo_ip demo_version demo_config
    ltac:(constructor; [apply default_quiet|constructor; [apply demo_quiet|constructor]])
    DemoV1.socket [] 1 2 3 HTTP_11 (lit "POST") demo_uri ([] : Alist.headers) demo_addr false
    (demo_out demo_config []).1 (demo_out demo_config []).2 (Some [lit "question"])
    (lit "HTTP/1.1 200 OK") [lit "he"; lit "llo"] (lit "bye") (MkResponse [] 200) (200%Z, []))
    as (s' & Hr & Hb & _).
  - vm_compute. reflexivity.
  - vm_compute. reflexivity.
  - vm_compute. reflexivity.
  - vm_compute. reflexivity.
  - apply Nat.leb_le. vm_compute. reflexivity.
  - vm_compute. reflexivity.
  - vm_compute. reflexivity.
  - vm_compute. reflexivity.
  - exists s'. split; [exact Hr|exact Hb].
Defined.
