(* ===== verification/Pipes.v ===== *)
(** * The tasks that read and write a websocket (router_socket.rs)

    Every router socket has a task that hands the messages of the websocket to
    the listener functions and a task that writes the queued messages to it and
    reacts to errors.  Both work on any socket that implements [WsSocket], the
    part of the traits [RouterSocket] and [WebSocketListener] they use;
    [WsSocketLaws] is what the theorems need.  The two timers are operations of
    their own.  [now] is the time a listener function reads from the clock. *)

From S2P Require Import Prelude RustStr Exceptions Http Forwarded Config HttpUtils CrankerProtocol Frames FlowControl Farm SocketBase SocketV1 SocketV1Props SocketV3 SocketV3Props.

(** ** The interface *)

Class WsSocket (S : Type) := {
  ws_queue : S → Chan Message;
  ws_set_queue : S → Chan Message → S;
  ws_err : S → Chan CrankerRouterException;
  ws_set_err : S → Chan CrankerRouterException → S;
  ws_is_removed : S → bool;
  (** [remove_router_socket_in_background] of the farm, spawned *)
  ws_spawn_removal : S → S;
  ws_inc_bytes_received_from_cli : S → Z → S;
  ws_try_provide_general_error : S → CrankerRouterException → S;
  ws_terminate_all_conn : S → CrankerRouterException → S;
  ws_on_text : Z → S → str → outcome (S * result unit CrankerRouterException);
  ws_on_binary : Z → S → str → outcome (S * result unit CrankerRouterException);
  ws_on_ping : Z → S → str → outcome (S * result unit CrankerRouterException);
  ws_on_close : Z → S → option (Z * str) → outcome (S * result unit CrankerRouterException);
  (** [on_error], whose result both tasks ignore *)
  ws_on_error : Z → S → CrankerRouterException → S
}.

Class WsSocketLaws (S : Type) `{WsSocket S} := {
  queue_set_queue s q : ws_queue (ws_set_queue s q) = q;
  queue_set_err s q : ws_queue (ws_set_err s q) = ws_queue s;
  queue_spawn_removal s : ws_queue (ws_spawn_removal s) = ws_queue s;
  queue_inc_bytes s n : ws_queue (ws_inc_bytes_received_from_cli s n) = ws_queue s;
  queue_provide s e : ws_queue (ws_try_provide_general_error s e) = ws_queue s;
  queue_terminate s e : ws_queue (ws_terminate_all_conn s e) = ws_queue s;
  queue_on_error now s e : ws_queue (ws_on_error now s e) = ws_queue s;
  err_set_queue s q : ws_err (ws_set_queue s q) = ws_err s;
  err_on_error now s e : ws_err (ws_on_error now s e) = (chan_send (ws_err s) e).1;
  removed_on_error now s e : ws_is_removed (ws_on_error now s e) = ws_is_removed s;
  removed_set_queue s q : ws_is_removed (ws_set_queue s q) = ws_is_removed s
}.

Create Rewrite HintDb pipes.
#[export] Hint Rewrite @queue_set_queue @queue_set_err @queue_spawn_removal @queue_inc_bytes
  @queue_provide @queue_terminate @queue_on_error @err_set_queue @err_on_error @removed_on_error @removed_set_queue
  using typeclasses eauto : pipes.

Section pipes.
Context {S : Type} `{WsSocket S}.

(** ** Reading *)

(** The [match msg] of the receive loop; [on_pong] only logs. *)
Definition dispatch_msg (now : Z) (s : S) (m : Message)
  : outcome (S * result unit CrankerRouterException) :=
  match m with
  | Text txt => ws_on_text now s txt
  | Binary bin => ws_on_binary now s bin
  | Ping b => ws_on_ping now s b
  | Pong _ => Ret (s, Ok tt)
  | Close f => ws_on_close now s f
  end.

Definition already_closed_error : CrankerRouterException :=
  crex_new (lit "underlying wss already closed but still is_removed = false").

(** After the loop. *)
Definition recv_finish (now : Z) (may_ex : option CrankerRouterException) (s : S) : S :=
  let s := match may_ex with Some ex => ws_on_error now s ex | None => s end in
  if ws_is_removed s then s else ws_on_error now s already_closed_error.

(** [msgs] is what the websocket yields with the time of its arrival; the text
    of a receive error is its [{:?}].  [env i] is what other tasks do before the
    next message. *)
Fixpoint recv_pipe (env : nat → S → S) (i : nat) (now_end : Z)
  (msgs : list (Z * result Message str)) (s : S) : outcome S :=
  match msgs with
  | [] => Ret (recv_finish now_end None s)
  | (now, Err e) :: _ =>
      Ret (recv_finish now (Some (crex_new (lit "underlying wss recv err: " ++ e ++ lit "."))) s)
  | (now, Ok m) :: r =>
      let! res := dispatch_msg now s m in
      let s := match res with
               | (s, Err ex) => ws_on_error now s ex
               | (s, Ok _) => s
               end in
      recv_pipe env (Datatypes.S i) now_end r (env i s)
  end.

(** The read timer has expired. *)
Definition read_timeout (now : Z) (s : S) : S :=
  let s := ws_set_queue s (chan_send (ws_queue s) (Close (Some (1001, lit "timeout")%Z))).1 in
  ws_on_error now s (with_err_kind (crex_new (lit "uwss read idle timeout")) Timeout_0001).

(** The write timer has expired. *)
Definition ping_tick (s : S) : S :=
  ws_set_queue s (chan_send (ws_queue s) (Ping (lit "ping"))).1.

(** ** Writing *)

(** [written] are the messages given to the websocket. *)
Record Pipe := MkPipe { sock : S; written : list Message; running : bool }.

Definition identifier (m : Message) : str :=
  match m with
  | Text _ => lit "txt"
  | Binary _ => lit "bin"
  | Ping _ => lit "ping"
  | Pong _ => lit "pong"
  | Close _ => lit "close"
  end.

Definition err_msg_for_uwss (m : Message) : str :=
  match m with
  | Text _ => lit "err sending txt to uwss"
  | Binary _ => lit "err sending bin to uwss"
  | Ping _ => lit "err sending ping to uwss"
  | Pong _ => lit "err sending pong to uwss"
  | Close _ => lit "err sending close to uwss"
  end.

Lemma err_msg_identifies m : err_msg_for_uwss m = lit "err sending " ++ identifier m ++ lit " to uwss".
Proof. by destruct m. Qed.

(** [reason_in_clo_frame[0..100]] panics inside a character. *)
Definition close_reason (reason : str) : outcome str :=
  if 100 <? length reason
  then (if is_char_boundary reason 100 then Ret (take 100 reason) else Panic)
  else Ret reason.

(** The branch of [select!] for an error. *)
Definition handle_err (p : Pipe) (s : S) (crex : CrankerRouterException) : outcome Pipe :=
  let s := if ws_is_removed s then s else ws_try_provide_general_error s crex in
  let s := ws_set_queue s (chan_close (ws_queue s)) in
  let! cut := close_reason (reason crex) in
  let s := if ws_is_removed s then s else ws_spawn_removal s in
  Ret (MkPipe (ws_terminate_all_conn s crex) (written p ++ [Close (Some (1011%Z, cut))]) false).

(** [try_into().unwrap()] of a length to [i32]. *)
Definition len_i32 (n : nat) : outcome Z :=
  if (Z.of_nat n <=? i32_max)%Z then Ret (Z.of_nat n) else Panic.

(** The branch of [select!] for a message; [write_err] is the [{:?}] of a failed
    write. *)
Definition handle_msg (now : Z) (write_err : option str) (p : Pipe) (s : S) (msg : Message) : outcome Pipe :=
  let w := written p ++ [msg] in
  let fail s := match write_err with
                | Some e => ws_on_error now s (crex_new (err_msg_for_uwss msg ++ lit " : " ++ e))
                | None => s
                end in
  match msg with
  | Binary b | Text b =>
      let! n := len_i32 (length b) in
      Ret (MkPipe (fail (ws_inc_bytes_received_from_cli s n)) w true)
  | Close _ => Ret (MkPipe (fail s) w true)
  | Ping _ | Pong _ =>
      match write_err with
      | Some _ => if ws_is_removed s then Ret (MkPipe s w false) else Ret (MkPipe (fail s) w true)
      | None => Ret (MkPipe s w true)
      end
  end.

(** What happens next: a branch of [select!] is taken, or another task changes
    the socket by queueing a message or by reporting an error. *)
Inductive PipeEvent :=
| PickErr
| PickMsg (now : Z) (write_err : option str)
| Enqueue (m : Message)
| Report (now : Z) (e : CrankerRouterException).

(** A branch that is not ready does nothing. *)
Definition pipe_step (p : Pipe) (e : PipeEvent) : outcome Pipe :=
  let s := sock p in
  match e with
  | Enqueue m => Ret (MkPipe (ws_set_queue s (chan_send (ws_queue s) m).1) (written p) (running p))
  | Report now ex => Ret (MkPipe (ws_on_error now s ex) (written p) (running p))
  | PickErr =>
      if running p then
        match items (ws_err s) with
        | [] => Ret p
        | crex :: rest => handle_err p (ws_set_err s (MkChan rest (is_closed (ws_err s)))) crex
        end
      else Ret p
  | PickMsg now write_err =>
      if running p then
        match items (ws_queue s) with
        | [] => Ret (MkPipe s (written p) (negb (is_closed (ws_queue s))))
        | msg :: rest =>
            handle_msg now write_err p (ws_set_queue s (MkChan rest (is_closed (ws_queue s)))) msg
        end
      else Ret p
  end.


Definition pipe_new (s : S) : Pipe := MkPipe s [] true.


End pipes.

Arguments Pipe : clear implicits.

(** ** Both versions of the router socket *)

Section instances.
Context {HM : Type} `{HttpLib HM}.

Definition v1_ws (listeners : list (ProxyListener RouterSocketV1 HM)) (send_err_dbg : str)
  : WsSocket RouterSocketV1 := {|
  ws_queue := v1_wss;
  ws_set_queue := v1_set_wss;
  ws_err := v1_err_chan;
  ws_set_err := v1_set_err_chan;
  ws_is_removed := v1_is_removed;
  ws_spawn_removal s := set_farm_removals s (S (v1_farm_removals s));
  ws_inc_bytes_received_from_cli := inc_bytes_received_from_cli;
  ws_try_provide_general_error s e := v1_try_provide_general_error s (Some e);
  ws_terminate_all_conn s e := v1_terminate_all_conn s (Some e);
  ws_on_text _ s txt := Ret (v1_on_text send_err_dbg s txt);
  ws_on_binary _ s bin := Ret (v1_on_binary listeners send_err_dbg s bin);
  ws_on_ping now s b := Ret (v1_on_ping listeners send_err_dbg now s b);
  ws_on_close now s f := Ret (v1_on_close listeners send_err_dbg now s f);
  ws_on_error now s e := (v1_on_error listeners send_err_dbg now s e).1
|}.

Definition v3_ws (listeners : list (ProxyListener RequestContext HM)) (send_err_dbg : str)
  (utf8_err_dbg : str → str) (crex_dbg : CrankerRouterException → str)
  : WsSocket RouterSocketV3 := {|
  ws_queue := wss_send_task;
  ws_set_queue := with_wss;
  ws_err := err_chan;
  ws_set_err := with_err_chan;
  ws_is_removed := v3_is_removed;
  ws_spawn_removal := spawn_farm_removal;
  ws_inc_bytes_received_from_cli s _ := s;
  ws_try_provide_general_error s e := try_provide_general_error s (Some e);
  ws_terminate_all_conn s e := terminate_all_conn s (Some e);
  ws_on_text _ s txt := Ret (on_text s txt, Ok tt);
  ws_on_binary _ s bin :=
    let! s := on_binary listeners send_err_dbg utf8_err_dbg s bin in Ret (s, Ok tt);
  ws_on_ping _ s b := Ret (on_ping send_err_dbg crex_dbg s b);
  ws_on_close _ s f := Ret (on_close s f, Ok tt);
  ws_on_error _ s e := (on_error send_err_dbg s e).1
|}.

End instances.

(** ** Theorems on any socket *)

Section theorems.
Context {S : Type} `{WsSocketLaws S}.
Implicit Types (s : S) (p : Pipe S).









(** *** Why the writing task stops *)









(** When the websocket ends, with or without a receive error, the reading
    task leaves the socket marked as removed or an error for the writing task,
    which ends the requests: a lost connection is never overlooked. *)
Theorem lost_websocket_reported env i now msgs s s' :
  recv_pipe env i now msgs s = Ret s' → is_closed (ws_err s') = false →
  ws_is_removed s' = true ∨ ∃ es, items (ws_err s') = es ++ [already_closed_error].
Proof.
  intros Hr Hc.
  assert (Hfin : ∀ n o s0, s' = recv_finish n o s0 →
    ws_is_removed s' = true ∨ ∃ es, items (ws_err s') = es ++ [already_closed_error]).
  { intros n o s0 ->. unfold recv_finish in *. set (s1 := match o with Some _ => _ | None => _ end) in *.
    destruct (ws_is_removed s1) eqn:E; [by left|]. right. autorewrite with pipes in *.
    unfold chan_send in *. destruct (is_closed (ws_err s1)) eqn:E'; [simpl in Hc; congruence|].
    by eexists. }
  revert i s Hr. induction msgs as [|[t [m|e]] msgs IH]; intros i s Hr; cbn [recv_pipe] in Hr.
  - simplify_eq. by eapply Hfin.
  - destruct (dispatch_msg t s m) as [[s1 r]|]; [|done]. by eapply IH.
  - simplify_eq. by eapply Hfin.
Qed.

(** The writing task panics on an error exactly when the reason is longer
    than 100 bytes and byte 100 is inside a character; the requests of the socket
    are then not terminated. *)
Theorem long_reason_panics p crex rest :
  running p = true → items (ws_err (sock p)) = crex :: rest →
  pipe_step p PickErr = Panic ↔
  100 < length (reason crex) ∧ is_char_boundary (reason crex) 100 = false.
Proof.
  intros Hr He. cbn [pipe_step]. rewrite Hr, He. unfold handle_err, close_reason.
  destruct (100 <? length (reason crex)) eqn:E.
  - apply Nat.ltb_lt in E. destruct (is_char_boundary (reason crex) 100); simpl; [|by split].
    split; [done|by intros [_ ?]].
  - apply Nat.ltb_ge in E. simpl. split; [done|lia].
Qed.

End theorems.

(** ** Both versions *)

Section versions.
Context {HM : Type} `{HttpLib HM}.

Lemma v1_ws_laws (listeners : list (ProxyListener RouterSocketV1 HM)) dbg :
  @WsSocketLaws _ (v1_ws listeners dbg).
Proof.
  split; try done; cbn; intros now s e;
    destruct (on_error_frame listeners dbg now s e) as (d & n & k & -> & _); done.
Qed.

(** [notify_client_request_error] on contexts that leave the queue alone. *)
Lemma foldl_error_frame (l : list (Z * nat)) e s :
  let s' := foldl (λ s kv, notify_client_request_error s kv.2 e) s l in
  wss_send_task s' = wss_send_task s ∧ farm_removals s' = farm_removals s.
Proof.
  revert s. induction l as [|[k q] l IH]; intros s; [done|]. cbn [foldl].
  destruct (IH (notify_client_request_error s q e)) as [H1 H2]. split.
  - etransitivity; [exact H1|]. unfold notify_client_request_error, raise_completion_event. by case_match.
  - etransitivity; [exact H2|]. unfold notify_client_request_error, raise_completion_event. by case_match.
Qed.

Lemma foldl_provide_frame (l : list (Z * nat)) e s :
  let s' := foldl (λ s kv, upd_ctx s kv.2 (λ c, set_error c (Some e))) s l in
  wss_send_task s' = wss_send_task s ∧ context_map s' = context_map s ∧
  v3_is_removed s' = v3_is_removed s ∧ farm_removals s' = farm_removals s.
Proof. revert s. induction l as [|[k q] l IH]; intros s; [done|]. cbn [foldl]. by apply (IH (upd_ctx s q _)). Qed.

Lemma v3_ws_laws (listeners : list (ProxyListener RequestContext HM)) dbg udbg cdbg :
  @WsSocketLaws _ (v3_ws listeners dbg udbg cdbg).
Proof.
  split; try done; cbn.
  - intros s e. by destruct (foldl_provide_frame (map_to_list (context_map s)) e s).
  - intros s e. by destruct (foldl_error_frame (map_to_list (context_map s)) e s).
  - intros now s e. unfold on_error. by destruct (chan_send _ _) as [ch [|]].
  - intros now s e. unfold on_error, chan_send. by destruct (is_closed (err_chan s)).
  - intros now s e. unfold on_error. by destruct (chan_send _ _) as [ch [|]].
Qed.

(** An error on a version 1 socket ends its request: the writing task stops
    with a close frame 1011, takes no more messages, has the socket removed from
    the farm unless that was done, and the client finds the error in every channel
    that was still open; both channels are closed. *)
Theorem v1_error_ends_request (listeners : list (ProxyListener RouterSocketV1 HM)) dbg
  (p : Pipe RouterSocketV1) crex rest cut :
  running p = true → items (v1_err_chan (sock p)) = crex :: rest →
  close_reason (reason crex) = Ret cut →
  let s := sock p in
  let told (ch : Chan (result str CrankerRouterException)) :=
    MkChan (items ch ++ if is_closed ch then [] else [Err crex]) true in
  ∃ p', @pipe_step _ (v1_ws listeners dbg) p PickErr = Ret p' ∧ running p' = false ∧
    written p' = written p ++ [Close (Some (1011%Z, cut))] ∧ is_closed (v1_wss (sock p')) = true ∧
    v1_farm_removals (sock p') = v1_farm_removals s + (if v1_is_removed s then 0 else 1) ∧
    v1_hdr (cli_side_res_sender (sock p')) = told (v1_hdr (cli_side_res_sender s)) ∧
    v1_bdy (cli_side_res_sender (sock p')) = told (v1_bdy (cli_side_res_sender s)).
Proof.
  intros Hr He Hcut s told. cbn [pipe_step]. rewrite Hr. cbn [ws_err v1_ws]. rewrite He.
  unfold handle_err. cbn [ws_is_removed v1_ws]. rewrite Hcut. fold s. cbn [outcome_bind].
  eexists. split; [done|]. split; [done|]. split; [done|]. unfold told.
  destruct s as [inf rm cs br bf sw er st du ec [bs [hi hc] [bi bc] hr hs bd] ws cr fr cc].
  destruct rm, hc, bc; cbn; rewrite ?app_nil_r, ?Nat.add_0_r, ?Nat.add_1_r; done.
Qed.

(** Storing the error leaves the channels alone. *)
Definition same_channels (c c' : RequestContext) : Prop :=
  tgt_res_hdr c' = tgt_res_hdr c ∧ tgt_res_bdy c' = tgt_res_bdy c.

Lemma foldl_provide_channels (l : list (Z * nat)) e s p c :
  ctx_heap s !! p = Some c →
  ∃ c', ctx_heap (foldl (λ s kv, upd_ctx s kv.2 (λ c, set_error c (Some e))) s l) !! p = Some c' ∧ same_channels c c'.
Proof.
  intros Hc. rewrite (foldl_ctx (λ s x, upd_ctx s x (λ c, set_error c (Some e))) (λ c, set_error c (Some e))) by done.
  rewrite Hc. eexists. split; [done|]. cbn. by induction (count_occ _ _ _).
Qed.

(** C26: an error on a version 3 websocket ends all its requests: the writing task
    stops with a close frame 1011 and takes no more messages, the socket is
    removed from the farm unless that was done, no request is left in flight, and
    every client finds an error behind what it was sent, in the channel of its
    response header and in that of the body, wherever the channel was still open.
    All this holds when the reason for the close frame can be cut: it has at most
    100 bytes, or byte 100 does not split a character ([long_reason_panics] is the
    other case). *)
Theorem v3_error_ends_all_requests (listeners : list (ProxyListener RequestContext HM)) dbg udbg cdbg
  (p : Pipe RouterSocketV3) crex rest cut :
  running p = true → items (err_chan (sock p)) = crex :: rest →
  close_reason (reason crex) = Ret cut →
  let s := sock p in
  ∃ p', @pipe_step _ (v3_ws listeners dbg udbg cdbg) p PickErr = Ret p' ∧ running p' = false ∧
    written p' = written p ++ [Close (Some (1011%Z, cut))] ∧
    is_closed (wss_send_task (sock p')) = true ∧ context_map (sock p') = ∅ ∧
    farm_removals (sock p') = farm_removals s + (if v3_is_removed s then 0 else 1) ∧
    ∀ id q c, context_map s !! id = Some q → ctx_heap s !! q = Some c →
      ∃ c', ctx_heap (sock p') !! q = Some c' ∧ told_by_error c c'.
Proof.
  intros Hr He Hcut s. cbn [pipe_step]. rewrite Hr. cbn [ws_err v3_ws]. rewrite He.
  unfold handle_err. cbn [ws_is_removed ws_queue ws_set_queue ws_spawn_removal v3_ws
    ws_try_provide_general_error ws_terminate_all_conn ws_set_err]. rewrite Hcut. fold s. cbn [outcome_bind].
  eexists. split; [done|]. split; [done|]. split; [done|]. cbn [sock].
  set (s0 := with_err_chan s _).
  set (s1 := if v3_is_removed s0 then s0 else try_provide_general_error s0 (Some crex)).
  assert (H1 : context_map s1 = context_map s ∧ v3_is_removed s1 = v3_is_removed s ∧
    farm_removals s1 = farm_removals s ∧ ∀ q c, ctx_heap s !! q = Some c →
      ∃ c', ctx_heap s1 !! q = Some c' ∧ same_channels c c').
  { unfold s1. destruct (v3_is_removed s0) eqn:E.
    - split_and!; try done. intros q c Hc. by exists c.
    - destruct (foldl_provide_frame (map_to_list (context_map s0)) crex s0) as (_ & Hm & Hrm & Hf).
      split_and!; try done. intros q c Hc. by apply (foldl_provide_channels _ crex s0). }
  clearbody s1. destruct H1 as (Hm & Hrm & Hf & Hh).
  set (s2 := if v3_is_removed _ then _ else _).
  assert (H2 : context_map s2 = context_map s ∧ ctx_heap s2 = ctx_heap s1 ∧
    is_closed (wss_send_task s2) = true ∧
    farm_removals s2 = farm_removals s + (if v3_is_removed s then 0 else 1)).
  { unfold s2. cbn [v3_is_removed with_wss]. rewrite Hrm.
    destruct (v3_is_removed s); cbn; rewrite ?Hf, ?Nat.add_0_r, ?Nat.add_1_r; done. }
  clearbody s2. destruct H2 as (Hm2 & Hh2 & Hq2 & Hf2).
  destruct (foldl_error_frame (map_to_list (context_map s2)) crex s2) as [Hq3 Hf3].
  split_and!; [by rewrite <- Hq2, <- Hq3|done|by rewrite <- Hf2, <- Hf3|].
  intros i q c Hid Hc. destruct (Hh q c Hc) as (c1 & Hc1 & Hs1 & Hs2). rewrite <- Hm2 in Hid. rewrite <- Hh2 in Hc1.
  destruct (terminate_tells_contexts s2 crex i q c1 Hid Hc1) as (c' & Hc' & Ht). exists c'. split; [exact Hc'|].
  unfold told_by_error, told_error in *. by rewrite Hs1, Hs2 in Ht.
Qed.

End versions.

(** ** Witnesses *)

#[local] Existing Instance Alist.lib.

Module DemoPipe.

#[export] Instance ws : WsSocket RouterSocketV1 := v1_ws [DemoV1.adds_header] (lit "SendError(..)").
#[export] Instance ws_laws : WsSocketLaws RouterSocketV1 := v1_ws_laws _ _.
#[export] Instance ws3 : WsSocket RouterSocketV3 :=
  v3_ws DemoV3.no_listeners (lit "SendError(..)") (λ _, []) (λ _, []).




Definition failing (r : str) : Pipe RouterSocketV1 := pipe_new (ws_on_error 1 DemoV1.sending (crex_new r)).
Definition failing3 : Pipe RouterSocketV3 :=
  pipe_new (ws_on_error 1 DemoV3.two_requests (crex_new (lit "lost"))).

(** Ninety-nine letters and a character of two bytes. *)
Definition long_reason : str := replicate 99 "a"%byte ++ ["195"%byte; "169"%byte].

End DemoPipe.

#[local] Existing Instances DemoPipe.ws DemoPipe.ws_laws DemoPipe.ws3.


Lemma lost_websocket_reported_witness :
  ∃ es, items (v1_err_chan (recv_finish 5 None (DemoV1.sending))) = es ++ [already_closed_error].
Proof.
  destruct (lost_websocket_reported (λ _ s, s) 0 5 [] DemoV1.sending (recv_finish 5 None DemoV1.sending))
    as [Hr|He].
  - reflexivity.
  - vm_compute. reflexivity.
  - vm_compute in Hr. discriminate.
  - exact He.
Defined.

Lemma long_reason_panics_witness : pipe_step (DemoPipe.failing DemoPipe.long_reason) PickErr = Panic.
Proof.
  apply (long_reason_panics (DemoPipe.failing DemoPipe.long_reason) (crex_new DemoPipe.long_reason) []).
  - reflexivity.
  - vm_compute. reflexivity.
  - split; [apply Nat.ltb_lt; vm_compute; reflexivity|vm_compute; reflexivity].
Defined.

Lemma v1_error_ends_request_witness :
  ∃ p', pipe_step (DemoPipe.failing (lit "lost")) PickErr = Ret p' ∧
    v1_hdr (cli_side_res_sender (sock p')) = MkChan [Err (crex_new (lit "lost"))] true.
Proof.
  destruct (v1_error_ends_request [DemoV1.adds_header] (lit "SendError(..)")
    (DemoPipe.failing (lit "lost")) (crex_new (lit "lost")) [] (lit "lost") eq_refl eq_refl eq_refl)
    as (p' & Hs & _ & _ & _ & _ & Hh & _).
  exists p'. split; [exact Hs|]. rewrite Hh. vm_compute. reflexivity.
Defined.

Lemma v3_error_ends_all_requests_witness :
  ∃ p', pipe_step DemoPipe.failing3 PickErr = Ret p' ∧ context_map (sock p') = ∅ ∧
    ∃ c', ctx_heap (sock p') !! 1 = Some c' ∧ told_by_error (ctx_of DemoPipe.failing3.(sock) 1) c'.
Proof.
  destruct (v3_error_ends_all_requests DemoV3.no_listeners (lit "SendError(..)") (λ _, []) (λ _, [])
    DemoPipe.failing3 (crex_new (lit "lost")) [] (lit "lost") eq_refl eq_refl eq_refl)
    as (p' & Hs & _ & _ & _ & Hm & _ & Hall).
  exists p'. split; [exact Hs|]. split; [exact Hm|].
  apply (Hall 2%Z 1 (ctx_of DemoPipe.failing3.(sock) 1)); vm_compute; reflexivity.
Defined.
