(* ===== verification/Timers.v ===== *)
(** * The timers of a websocket (router_socket.rs)

    Next to each of the two tasks of [Pipes] runs a timer: one that gives the
    websocket up when nothing was read for [idle_read_timeout_ms], and one that
    queues a ping when nothing was written for [ping_sent_after_no_write_for_ms].
    Both are a [tokio::time::timeout] around [Notify::notified] in a loop.  Here
    the tasks and the timers run on a common clock: an event happens at an
    instant, and time passes by an event of its own, but never past a deadline: it is
    an assumption of the model that the task of a timer runs when its time has come.
    The socket is kept alive by the tasks, so the weak references of the timers
    can be upgraded.  A handler that panics has changed nothing: in both versions
    only [handle_window_update] can, when it reads the number of bytes. *)

From S2P Require Import Prelude RustStr Exceptions Http Forwarded Config Frames Farm SocketBase SocketV1 SocketV1Props SocketV3 SocketV3Props Pipes.

Section timers.
Context {S : Type} `{WsSocket S}.
Context (idle_read_timeout_ms ping_sent_after_no_write_for_ms : Z).

#[local] Abbreviation R := idle_read_timeout_ms.
#[local] Abbreviation P := ping_sent_after_no_write_for_ms.

(** [reading]: the reading task is in its loop.  A deadline is [None] when its
    timer has ended.  The last two fields only observe: since when the writing task
    has something to take from its queue, and when the first message was written
    after the last one that was read. *)
Record Timed := MkTimed {
  tm_now : Z;
  tm_pipe : Pipe S;
  reading : bool;
  read_deadline : option Z;
  ping_deadline : option Z;
  work_since : option Z;
  unanswered : option Z
}.

Inductive TimedEvent :=
| Elapse (ms : Z)
| Arrive (m : Message)
| EndOfStream (recv_err : option str)
| ReadExpires
| PingExpires
| Writes (write_err : option str)
| TakesError
| Queues (m : Message)
| Reports (e : CrankerRouterException).

Definition has_work (p : Pipe S) : bool :=
  negb (bool_decide (items (ws_queue (sock p)) = [])) || is_closed (ws_queue (sock p)).

(** The state after an event of the instant [tm_now t]. *)
Definition observe_work (t : Timed) : Timed :=
  MkTimed (tm_now t) (tm_pipe t) (reading t) (read_deadline t) (ping_deadline t)
    (if has_work (tm_pipe t) then Some (default (tm_now t) (work_since t)) else None) (unanswered t).

Definition with_sock (t : Timed) (s : S) : Timed :=
  MkTimed (tm_now t) (MkPipe s (written (tm_pipe t)) (running (tm_pipe t))) (reading t) (read_deadline t)
    (ping_deadline t) (work_since t) (unanswered t).

(** [read_notifier.notify_waiters]: a timer that still runs starts again. *)
Definition notify (now ms : Z) (deadline : option Z) : option Z :=
  (λ _, now + ms)%Z <$> deadline.

(** Time does not pass a deadline. *)
Definition not_past (deadline : option Z) (now : Z) : bool :=
  match deadline with Some d => (now <=? d)%Z | None => true end.

Definition expired (deadline : option Z) (now : Z) : bool :=
  match deadline with Some d => (d <=? now)%Z | None => false end.

(** A message: the timer is notified, then the message is handled.  A task that
    panics leaves its loop without a word, and its timer goes on. *)
Definition arrive (t : Timed) (m : Message) : Timed :=
  let now := tm_now t in
  let t := MkTimed now (tm_pipe t) (reading t) (notify now R (read_deadline t)) (ping_deadline t) (work_since t) None in
  match dispatch_msg now (sock (tm_pipe t)) m with
  | Ret (s, Ok _) => with_sock t s
  | Ret (s, Err ex) => with_sock t (ws_on_error now s ex)
  | Panic => MkTimed now (tm_pipe t) false (read_deadline t) (ping_deadline t) (work_since t) (unanswered t)
  end.

(** The end of the loop of the reading task, which aborts its timer. *)
Definition end_of_stream (t : Timed) (recv_err : option str) : Timed :=
  let may_ex := (λ e, crex_new (lit "underlying wss recv err: " ++ e ++ lit ".")) <$> recv_err in
  let t := with_sock t (recv_finish (tm_now t) may_ex (sock (tm_pipe t))) in
  MkTimed (tm_now t) (tm_pipe t) false None (ping_deadline t) (work_since t) (unanswered t).

(** The read timer expires and ends. *)
Definition read_expires (t : Timed) : Timed :=
  let t := with_sock t (read_timeout (tm_now t) (sock (tm_pipe t))) in
  MkTimed (tm_now t) (tm_pipe t) (reading t) None (ping_deadline t) (work_since t) (unanswered t).

(** The write timer expires and starts again. *)
Definition ping_expires (t : Timed) : Timed :=
  let t := with_sock t (ping_tick (sock (tm_pipe t))) in
  MkTimed (tm_now t) (tm_pipe t) (reading t) (read_deadline t) (Some (tm_now t + P)%Z) (work_since t) (unanswered t).

(** The writing task after a branch of [select!]: when it has taken a message its
    timer starts again, and when it has left its loop the timer is aborted. *)
Definition after_branch (t : Timed) (p : Pipe S) (took_message : bool) : Timed :=
  MkTimed (tm_now t) p (reading t) (read_deadline t)
    (if running p then if took_message then notify (tm_now t) P (ping_deadline t) else ping_deadline t else None)
    (if took_message then None else work_since t)
    (if took_message then Some (default (tm_now t) (unanswered t)) else unanswered t).

(** [None]: the event cannot happen in this state, or the writing task panics. *)
Definition timed_event (t : Timed) (e : TimedEvent) : option Timed :=
  let now := tm_now t in
  let p := tm_pipe t in
  match e with
  | Elapse ms =>
      if (0 <=? ms)%Z && not_past (read_deadline t) (now + ms) && not_past (ping_deadline t) (now + ms)
      then Some (MkTimed (now + ms) p (reading t) (read_deadline t) (ping_deadline t) (work_since t) (unanswered t))
      else None
  | Arrive m => if reading t then Some (arrive t m) else None
  | EndOfStream recv_err => if reading t then Some (end_of_stream t recv_err) else None
  | ReadExpires => if expired (read_deadline t) now then Some (read_expires t) else None
  | PingExpires => if expired (ping_deadline t) now then Some (ping_expires t) else None
  | Writes write_err =>
      if running p && has_work p then
        match pipe_step p (PickMsg now write_err) with
        | Ret p' => Some (after_branch t p' (negb (bool_decide (items (ws_queue (sock p)) = []))))
        | Panic => None
        end
      else None
  | TakesError =>
      if running p && negb (bool_decide (items (ws_err (sock p)) = [])) then
        match pipe_step p PickErr with
        | Ret p' => Some (after_branch t p' false)
        | Panic => None
        end
      else None
  | Queues m => match pipe_step p (Enqueue m) with Ret p' => Some (with_sock t (sock p')) | Panic => None end
  | Reports ex => match pipe_step p (Report now ex) with Ret p' => Some (with_sock t (sock p')) | Panic => None end
  end.

Definition timed_step (t : Timed) (e : TimedEvent) : option Timed := observe_work <$> timed_event t e.

Fixpoint timed_run (t : Timed) (es : list TimedEvent) : option Timed :=
  match es with
  | [] => Some t
  | e :: r => t' ← timed_step t e; timed_run t' r
  end.

(** Both tasks start. *)
Definition timed_new (now : Z) (s : S) : Timed :=
  observe_work (MkTimed now (pipe_new s) true (Some (now + R)%Z) (Some (now + P)%Z) None None).

(** Runs in which the writing task takes what is queued within [W] milliseconds
    and the connector answers a message, with whatever message, within [D]. *)
Definition prompt (W D : Z) (t : Timed) (e : TimedEvent) : bool :=
  match e with
  | Elapse ms =>
      not_past ((λ d, d + W)%Z <$> work_since t) (tm_now t + ms) &&
      not_past ((λ d, d + D)%Z <$> unanswered t) (tm_now t + ms)
  | _ => true
  end.

Fixpoint prompt_run (W D : Z) (t : Timed) (es : list TimedEvent) : option Timed :=
  match es with
  | [] => Some t
  | e :: r => if prompt W D t e then t' ← timed_step t e; prompt_run W D t' r else None
  end.

End timers.

Arguments Timed : clear implicits.

Section theorems.
Context {S : Type} `{WsSocketLaws S}.
Context (R P : Z).
Implicit Types (t : Timed S) (s : S).

#[local] Abbreviation step := (timed_step R P).

(** ** A connector that answers *)

Section kept.
Context (W D : Z).
Hypothesis HW : (0 ≤ W)%Z.
Hypothesis HD : (0 ≤ D)%Z.
Hypothesis HP : (0 ≤ P)%Z.
Hypothesis HR : (P + W + D < R)%Z.

(** The last message was read at the time [L].  Then either something was written
    since, soon enough, or the ping timer will see to it, or it is in the queue. *)
Record kept t (L pd : Z) : Prop := {
  k_read : read_deadline t = Some (L + R)%Z;
  k_ping : ping_deadline t = Some pd;
  k_pd : (tm_now t ≤ pd ≤ tm_now t + P)%Z;
  k_L : (L ≤ tm_now t)%Z;
  k_has_work : has_work (tm_pipe t) = true ↔ is_Some (work_since t);
  k_work ws : work_since t = Some ws → (ws ≤ tm_now t ≤ ws + W)%Z;
  k_unanswered : match unanswered t with
    | Some u => (u ≤ L + P + W ∧ tm_now t ≤ u + D)%Z
    | None => (pd ≤ L + P)%Z ∨ ∃ ws, work_since t = Some ws ∧ (ws ≤ L + P)%Z
    end
}.

Lemma kept_in_time t L pd : kept t L pd → (tm_now t < L + R)%Z.
Proof.
  intros [_ _ Hpd _ _ Hw Hu]. destruct (unanswered t) as [u|]; [lia|]. destruct Hu as [?|(ws & Hws & ?)]; [lia|].
  specialize (Hw ws Hws). lia.
Qed.

(** The last message that was read. *)
Lemma observe_kept t L pd :
  read_deadline t = Some (L + R)%Z → ping_deadline t = Some pd → (tm_now t ≤ pd ≤ tm_now t + P)%Z →
  (L ≤ tm_now t)%Z → (∀ ws, work_since t = Some ws → (ws ≤ tm_now t ≤ ws + W)%Z) →
  match unanswered t with
  | Some u => (u ≤ L + P + W ∧ tm_now t ≤ u + D)%Z
  | None => (pd ≤ L + P)%Z ∨
      has_work (tm_pipe t) = true ∧ (default (tm_now t) (work_since t) ≤ L + P)%Z
  end → kept (observe_work t) L pd.
Proof.
  intros H1 H2 H3 H4 H5 H6. split; cbn; try done.
  - destruct (has_work _); [|by split; [|intros []]]. by split.
  - intros ws. destruct (has_work _); [|done]. destruct (work_since t) as [w|] eqn:E; intros [= <-]; [by apply H5|lia].
  - destruct (unanswered t); [done|]. destruct H6 as [?|[-> ?]]; [by left|right]. by eexists.
Qed.

Definition alive t : bool := running (tm_pipe t) && reading t.

Lemma has_work_sent (p : Pipe S) s m :
  has_work (MkPipe (ws_set_queue s (chan_send (ws_queue s) m).1) (written p) (running p)) = true.
Proof.
  unfold has_work. cbn. autorewrite with pipes. unfold chan_send. destruct (is_closed (ws_queue s)) eqn:E; cbn.
  - by rewrite E, orb_true_r.
  - by destruct (items (ws_queue s)).
Qed.

Lemma kept_elapse t ms L pd t' :
  kept t L pd → prompt W D t (Elapse ms) = true → step t (Elapse ms) = Some t' → kept t' L pd.
Proof.
  intros [Hr Hpd Hpr HL Hhw Hw Hu] Hp Hs. unfold timed_step in Hs. cbn [timed_event] in Hs.
  rewrite Hr, Hpd in Hs. cbn [not_past] in Hs.
  destruct ((0 <=? ms) && (tm_now t + ms <=? L + R) && (tm_now t + ms <=? pd))%Z eqn:E; [|done].
  apply andb_true_iff in E as [[E1 E2]%andb_true_iff E3]. apply andb_true_iff in Hp as [Hp1 Hp2].
  cbn in Hs. injection Hs as <-. apply observe_kept; cbn; try done; [lia|lia| |].
  - intros ws Hws. rewrite Hws in Hp1. cbn in Hp1. specialize (Hw ws Hws). lia.
  - destruct (unanswered t) as [u|]; [cbn in Hp2; lia|]. destruct Hu as [?|(ws & Hws & ?)]; [by left|right].
    rewrite Hws in *. split; [by apply Hhw|done].
Qed.

Lemma kept_arrive t m L pd t' :
  kept t L pd → step t (Arrive m) = Some t' → alive t' = true → kept t' (tm_now t) pd.
Proof.
  intros [Hr Hpd Hpr HL Hhw Hw Hu] Hs Ha. unfold timed_step in Hs. cbn [timed_event] in Hs.
  destruct (reading t) eqn:Er; [|done]. injection Hs as <-. unfold arrive in *. rewrite Hr, Hpd in *.
  assert (Ho : ∀ s, kept (observe_work (with_sock (MkTimed (tm_now t) (tm_pipe t) (reading t)
    (Some (tm_now t + R)%Z) (Some pd) (work_since t) None) s)) (tm_now t) pd).
  { intros s. apply observe_kept; cbn; try done. left. lia. }
  cbn [notify fmap option_fmap option_map tm_pipe] in *. rewrite Er in *.
  destruct (dispatch_msg _ _ m) as [[s [u|e]]|]; [apply Ho..|]. unfold alive in Ha. cbn in Ha. by rewrite andb_false_r in Ha.
Qed.

(** An event that leaves the timers alone and takes nothing from the queue. *)
Lemma kept_other t s L pd :
  kept t L pd → (has_work (tm_pipe t) = true → has_work (tm_pipe (with_sock t s)) = true) →
  kept (observe_work (with_sock t s)) L pd.
Proof.
  intros [Hr Hpd Hpr HL Hhw Hw Hu] Hq. apply observe_kept; try done. cbn [unanswered with_sock].
  destruct (unanswered t); [done|]. destruct Hu as [?|(ws & Hws & ?)]; [by left|right].
  cbn [work_since with_sock]. rewrite Hws in *. split; [by apply Hq, Hhw|done].
Qed.

Lemma kept_ping t L pd t' : kept t L pd → step t PingExpires = Some t' → ∃ pd', kept t' L pd'.
Proof.
  intros [Hr Hpd Hpr HL Hhw Hw Hu] Hs. unfold timed_step in Hs. cbn [timed_event] in Hs. rewrite Hpd in Hs.
  cbn [expired] in Hs. destruct (Z.leb_spec pd (tm_now t)); [|done]. cbn in Hs. injection Hs as <-.
  exists (tm_now t + P)%Z. apply observe_kept; cbn; try done; [lia|].
  destruct (unanswered t); [done|]. right. split; [apply (has_work_sent (tm_pipe t))|].
  destruct Hu as [?|(ws & Hws & ?)]; [|by rewrite Hws]. destruct (work_since t) as [w|] eqn:E; cbn; [|lia].
  specialize (Hw w eq_refl). lia.
Qed.

Lemma kept_write t we L pd t' :
  kept t L pd → step t (Writes we) = Some t' → alive t' = true → ∃ pd', kept t' L pd'.
Proof.
  intros [Hr Hpd Hpr HL Hhw Hw Hu] Hs Ha. unfold timed_step in Hs. cbn [timed_event] in Hs.
  destruct (running (tm_pipe t) && has_work (tm_pipe t)) eqn:E; [|done].
  apply andb_true_iff in E as [E1 E2]. cbn [pipe_step] in Hs. rewrite E1 in Hs.
  destruct (items (ws_queue (sock (tm_pipe t)))) as [|m rest] eqn:Ei.
  - injection Hs as <-. unfold has_work in E2. rewrite Ei in E2. cbn in E2. unfold alive in Ha. cbn in Ha.
    by rewrite E2 in Ha.
  - destruct (handle_msg _ _ _ _ m) as [p'|]; [|done]. injection Hs as <-. exists (tm_now t + P)%Z.
    unfold alive in Ha. cbn in Ha. apply andb_true_iff in Ha as [Ha _].
    apply observe_kept; cbn; try done; [by rewrite Ha, Hpd|lia|].
    destruct (unanswered t) as [u|]; cbn; [lia|]. destruct Hu as [?|(ws & Hws & ?)]; [lia|].
    specialize (Hw ws Hws). lia.
Qed.

Lemma takes_error_stops t t' : step t TakesError = Some t' → alive t' = false.
Proof.
  unfold timed_step. cbn [timed_event]. destruct (running (tm_pipe t)) eqn:E1; [|done]. cbn [andb].
  destruct (items (ws_err (sock (tm_pipe t)))) as [|e rest] eqn:E; [done|]. cbn [pipe_step bool_decide negb]. cbn.
  rewrite E1, E. unfold handle_err. destruct (close_reason _); [|done]. by intros [= <-].
Qed.

Lemma kept_step t e t' L pd :
  kept t L pd → prompt W D t e = true → step t e = Some t' → alive t' = true → ∃ L' pd', kept t' L' pd'.
Proof.
  intros Hk Hp Hs Ha. destruct e as [ms|m|r| | |we| |m|ex].
  - eexists _, _. by eapply kept_elapse.
  - eexists _, _. by eapply kept_arrive.
  - unfold timed_step in Hs. cbn in Hs. destruct (reading t); [|done]. injection Hs as <-.
    unfold alive in Ha. cbn in Ha. by rewrite andb_false_r in Ha.
  - pose proof (kept_in_time _ _ _ Hk). unfold timed_step in Hs. cbn in Hs. rewrite (k_read _ _ _ Hk) in Hs. cbn in Hs.
    destruct (Z.leb_spec (L + R) (tm_now t)); [lia|done].
  - exists L. by eapply kept_ping.
  - exists L. by eapply kept_write.
  - apply takes_error_stops in Hs. congruence.
  - unfold timed_step in Hs. cbn in Hs. injection Hs as <-. exists L, pd. apply kept_other; [done|].
    intros _. apply (has_work_sent (tm_pipe t)).
  - unfold timed_step in Hs. cbn in Hs. injection Hs as <-. exists L, pd. apply kept_other; [done|].
    unfold has_work. cbn. by autorewrite with pipes.
Qed.

(** Neither task comes back. *)
Lemma alive_step t e t' : step t e = Some t' → alive t' = true → alive t = true.
Proof.
  unfold timed_step. intros (t1 & Hs & ->)%fmap_Some Ha. unfold alive in *. cbn in Ha.
  destruct e; cbn [timed_event] in Hs.
  - destruct (_ && _); [|done]. by simplify_eq.
  - destruct (reading t) eqn:E; [|done]. simplify_eq. unfold arrive in Ha.
    destruct (dispatch_msg _ _ m) as [[s [u|ex]]|]; cbn in Ha; rewrite ?E in Ha; [done..|]. by rewrite andb_false_r in Ha.
  - destruct (reading t); [|done]. simplify_eq. cbn in Ha. by rewrite andb_false_r in Ha.
  - destruct (expired _ _); [|done]. by simplify_eq.
  - destruct (expired _ _); [|done]. by simplify_eq.
  - destruct (running (tm_pipe t)); [|done]. cbn [andb] in Hs. destruct (has_work _); [|done].
    destruct (pipe_step _ _); [|done]. simplify_eq. by apply andb_true_iff in Ha as [_ Ha].
  - destruct (running (tm_pipe t)); [|done]. cbn [andb] in Hs. destruct (negb _); [|done].
    destruct (pipe_step _ _); [|done]. simplify_eq. by apply andb_true_iff in Ha as [_ Ha].
  - by simplify_eq/=.
  - by simplify_eq/=.
Qed.

Lemma alive_run t es t' : prompt_run R P W D t es = Some t' → alive t' = true → alive t = true.
Proof.
  revert t. induction es as [|e es IH]; intros t Hr Ha; cbn in Hr; [by simplify_eq|].
  destruct (prompt W D t e); [|done]. destruct (step t e) as [t1|] eqn:E; [|done]. eapply alive_step; [exact E|]. by eapply IH.
Qed.

Lemma kept_run t es t' L pd :
  kept t L pd → prompt_run R P W D t es = Some t' → alive t' = true → ∃ L' pd', kept t' L' pd'.
Proof.
  revert t L pd. induction es as [|e es IH]; intros t L pd Hk Hr Ha; cbn in Hr; [simplify_eq; by eexists _, _|].
  destruct (prompt W D t e) eqn:Ep; [|done]. destruct (step t e) as [t1|] eqn:E; [|done]. cbn in Hr.
  pose proof (alive_run _ _ _ Hr Ha) as Ha1. destruct (kept_step _ _ _ _ _ Hk Ep E Ha1) as (L' & pd' & Hk'). by eapply IH.
Qed.

Lemma kept_new now s : kept (timed_new R P now s) now (now + P)%Z.
Proof. apply observe_kept; cbn; try done; [lia|]. by left. Qed.

End kept.

(** C27: A connector that answers is never given up: if the writing task takes a
    queued message within [W] milliseconds, the connector answers what it is sent
    within [D] (a ping with a pong, say), and the idle timeout is longer than the
    ping interval and both delays together, then, as long as both tasks of the
    websocket run, the read timer is running and does not expire, whatever is sent
    and however long nothing is: the pings of the router keep the connection. *)
Theorem answering_connector_kept W D now s es t :
  (0 ≤ W)%Z → (0 ≤ D)%Z → (0 ≤ P)%Z → (P + W + D < R)%Z →
  prompt_run R P W D (timed_new R P now s) es = Some t → running (tm_pipe t) = true → reading t = true →
  step t ReadExpires = None ∧ ∃ last, read_deadline t = Some (last + R)%Z ∧ (last ≤ tm_now t < last + R)%Z.
Proof.
  intros HW HD HP HR Hr Hrun Hread.
  assert (Hn : kept W D (timed_new R P now s) now (now + P)) by by apply kept_new.
  assert (Hk : ∃ L pd, kept W D t L pd) by
    (eapply kept_run; [..|exact Hn|exact Hr|]; try done; unfold alive; by rewrite Hrun, Hread).
  destruct Hk as (L & pd & Hk). assert (Hlt : (tm_now t < L + R)%Z) by (eapply kept_in_time; [..|exact Hk]; done).
  pose proof (k_read _ _ _ _ _ Hk) as Hd. split.
  - unfold timed_step. cbn. rewrite Hd. cbn. by destruct (Z.leb_spec (L + R) (tm_now t)); [lia|].
  - exists L. split; [done|]. split; [apply (k_L _ _ _ _ _ Hk)|done].
Qed.

(** ** A connector that is silent *)

Definition silent (e : TimedEvent) : bool :=
  match e with Arrive _ | EndOfStream _ | ReadExpires => false | _ => true end.

Lemma silent_step t e t' d :
  read_deadline t = Some d → (tm_now t ≤ d)%Z → silent e = true → step t e = Some t' →
  read_deadline t' = Some d ∧ (tm_now t ≤ tm_now t' ≤ d)%Z ∧ reading t' = reading t.
Proof.
  intros Hd Hle He. unfold timed_step. intros (t1 & Hs & ->)%fmap_Some. cbn. destruct e; try done; cbn [timed_event] in Hs.
  - rewrite Hd in Hs. cbn [not_past] in Hs. destruct (Z.leb_spec 0 ms); [|done].
    destruct (Z.leb_spec (tm_now t + ms) d); [|done]. cbn [andb] in Hs. destruct (not_past _ _); [|done].
    simplify_eq. cbn. split; [done|]. split; [lia|done].
  - destruct (expired _ _); [|done]. simplify_eq. cbn. split; [done|]. split; [lia|done].
  - destruct (_ && _); [|done]. destruct (pipe_step _ _); [|done]. simplify_eq. cbn. split; [done|]. split; [lia|done].
  - destruct (_ && _); [|done]. destruct (pipe_step _ _); [|done]. simplify_eq. cbn. split; [done|]. split; [lia|done].
  - simplify_eq/=. split; [done|]. split; [lia|done].
  - simplify_eq/=. split; [done|]. split; [lia|done].
Qed.

Lemma silent_run t es t' d :
  read_deadline t = Some d → (tm_now t ≤ d)%Z → forallb silent es = true → timed_run R P t es = Some t' →
  read_deadline t' = Some d ∧ (tm_now t' ≤ d)%Z.
Proof.
  revert t. induction es as [|e es IH]; intros t Hd Hle He Hr; cbn in Hr; [by simplify_eq|].
  apply andb_true_iff in He as [He Hes]. destruct (step t e) as [t1|] eqn:E; [|done]. cbn in Hr.
  destruct (silent_step t e t1 d Hd Hle He E) as (Hd1 & Hle1 & _). apply (IH t1); [done|lia|done..].
Qed.

Definition timeout_error : CrankerRouterException :=
  with_err_kind (crex_new (lit "uwss read idle timeout")) Timeout_0001.

(** What the read timer does when it expires. *)
Definition gives_up t t' : Prop :=
  read_deadline t' = None ∧
  ws_queue (sock (tm_pipe t')) =
    (chan_send (ws_queue (sock (tm_pipe t))) (Close (Some (1001%Z, lit "timeout")))).1 ∧
  ws_err (sock (tm_pipe t')) = (chan_send (ws_err (sock (tm_pipe t))) timeout_error).1.

Lemma expiry_gives_up t d :
  read_deadline t = Some d → (d ≤ tm_now t)%Z → ∃ t', step t ReadExpires = Some t' ∧ gives_up t t'.
Proof.
  intros Hd Hle. unfold timed_step. cbn [timed_event]. rewrite Hd. cbn [expired]. destruct (Z.leb_spec d (tm_now t)); [|lia].
  eexists. split; [done|]. unfold gives_up. cbn. unfold read_timeout. autorewrite with pipes. done.
Qed.

Lemma arrive_resets t m t0 :
  step t (Arrive m) = Some t0 → is_Some (read_deadline t) →
  read_deadline t0 = Some (tm_now t + R)%Z ∧ tm_now t0 = tm_now t.
Proof.
  unfold timed_step. cbn. intros Hs [d Hd]. destruct (reading t); [|done]. injection Hs as <-. unfold arrive.
  rewrite Hd. by destruct (dispatch_msg _ _ m) as [[s [u|e]]|].
Qed.

(** *** How long the connector has been silent *)

(** The websocket is open and its read timer has not expired. *)
Definition listening (e : TimedEvent) : bool :=
  match e with EndOfStream _ | ReadExpires => false | _ => true end.

(** The time since the last message, or since the start if none came yet. *)
Definition silence_after (since : Z) (e : TimedEvent) : Z :=
  match e with Elapse ms => since + ms | Arrive _ => 0 | _ => since end.

Definition silence (es : list TimedEvent) : Z := foldl silence_after 0%Z es.

Lemma silence_step t e t' since :
  read_deadline t = Some (tm_now t - since + R)%Z → listening e = true → step t e = Some t' →
  read_deadline t' = Some (tm_now t' - silence_after since e + R)%Z.
Proof.
  intros Hd He Hs. destruct e as [ms|m|r| | |we| |m|ex]; try done.
  - unfold timed_step in Hs. cbn [timed_event] in Hs. destruct (_ && _); [|done]. injection Hs as <-. cbn.
    rewrite Hd. f_equal. lia.
  - apply arrive_resets in Hs as [-> ->]; [|by rewrite Hd]. cbn. f_equal. lia.
  - unfold timed_step in Hs. cbn [timed_event] in Hs. destruct (expired _ _); [|done]. by injection Hs as <-.
  - unfold timed_step in Hs. cbn [timed_event] in Hs. destruct (_ && _); [|done]. destruct (pipe_step _ _); [|done].
    by injection Hs as <-.
  - unfold timed_step in Hs. cbn [timed_event] in Hs. destruct (_ && _); [|done]. destruct (pipe_step _ _); [|done].
    by injection Hs as <-.
  - unfold timed_step in Hs. cbn in Hs. by injection Hs as <-.
  - unfold timed_step in Hs. cbn in Hs. by injection Hs as <-.
Qed.

Lemma silence_run t es t' since :
  read_deadline t = Some (tm_now t - since + R)%Z → forallb listening es = true → timed_run R P t es = Some t' →
  read_deadline t' = Some (tm_now t' - foldl silence_after since es + R)%Z.
Proof.
  revert t since. induction es as [|e es IH]; intros t since Hd He Hr; cbn in Hr; [by simplify_eq|].
  apply andb_true_iff in He as [He Hes]. destruct (step t e) as [t1|] eqn:E; [|done]. cbn in Hr.
  eapply IH; [by eapply silence_step|done..].
Qed.

(** The writing task takes the timeout error. *)
Lemma timeout_error_taken t :
  running (tm_pipe t) = true → items (ws_err (sock (tm_pipe t))) = [timeout_error] →
  ∃ t', step t TakesError = Some t' ∧ running (tm_pipe t') = false ∧ ping_deadline t' = None ∧
    written (tm_pipe t') = written (tm_pipe t) ++ [Close (Some (1011%Z, lit "uwss read idle timeout"))].
Proof.
  intros Hr He. unfold timed_step. cbn [timed_event pipe_step]. rewrite Hr, He. cbn [andb negb bool_decide].
  eexists. split; [reflexivity|]. done.
Qed.

(** C28: a connector that is silent is given up, one that speaks is not: whatever
    happens on a websocket from its start, the read timer can expire exactly when
    nothing was read for the idle timeout, counted from the last message or, as long
    as none has come, from the start.  When it expires, a close frame 1001 is queued
    and a timeout error is given to the writing task; if that runs and has no other
    error to take, it can take this one, and then it writes a close frame 1011 with
    the reason and stops, and the ping timer with it. *)
Theorem silent_connector_given_up now s es t :
  timed_run R P (timed_new R P now s) es = Some t → forallb listening es = true →
  (is_Some (step t ReadExpires) ↔ (R ≤ silence es)%Z) ∧
  ∀ t', step t ReadExpires = Some t' → gives_up t t' ∧
    (running (tm_pipe t) = true → ws_err (sock (tm_pipe t)) = chan_new →
     ∃ t'', step t' TakesError = Some t'' ∧ running (tm_pipe t'') = false ∧ ping_deadline t'' = None ∧
       written (tm_pipe t'') = written (tm_pipe t) ++ [Close (Some (1011%Z, lit "uwss read idle timeout"))]).
Proof.
  intros Hr He. assert (Hd : read_deadline t = Some (tm_now t - silence es + R)%Z).
  { eapply silence_run; [|exact He|exact Hr]. cbn. f_equal. lia. }
  assert (Hexp : is_Some (step t ReadExpires) ↔ (R ≤ silence es)%Z).
  { unfold timed_step. cbn [timed_event]. rewrite Hd. cbn [expired].
    destruct (Z.leb_spec (tm_now t - silence es + R) (tm_now t)); cbn; split; intros Hx; try lia; [by eexists|].
    by destruct Hx. }
  split; [exact Hexp|]. intros t' Ht. destruct (expiry_gives_up t _ Hd) as (t1 & Ht1 & Hg).
  { assert (R ≤ silence es)%Z by (apply Hexp; by eexists). lia. }
  assert (t1 = t') as -> by congruence. split; [done|]. intros Hrun Herr.
  assert (Hpipe : written (tm_pipe t') = written (tm_pipe t) ∧ running (tm_pipe t') = running (tm_pipe t)).
  { unfold timed_step in Ht. cbn in Ht. destruct (expired _ _); [|done]. by injection Ht as <-. }
  destruct Hpipe as [<- Hrun']. destruct Hg as (_ & _ & Hg). apply timeout_error_taken; [by rewrite Hrun'|].
  by rewrite Hg, Herr.
Qed.

(** ** A reading task that panics *)

Lemma unread_run t es t' d :
  reading t = false → read_deadline t = Some d → (tm_now t ≤ d)%Z → ReadExpires ∉ es → timed_run R P t es = Some t' →
  forallb silent es = true ∧ reading t' = false.
Proof.
  revert t. induction es as [|e es IH]; intros t Hread Hd Hle He Hr; cbn in Hr; [by simplify_eq|].
  apply not_elem_of_cons in He as [He Hes]. destruct (step t e) as [t1|] eqn:E; [|done]. cbn in Hr.
  assert (He' : silent e = true) by (unfold timed_step in E; destruct e; try done; cbn in E; by rewrite Hread in E).
  destruct (silent_step t e t1 d Hd Hle He' E) as (Hd1 & Hle1 & Hr1).
  destruct (IH t1) as [H1 H2]; [congruence|done|lia|done|done|]. split; [|done]. cbn. by rewrite He', H1.
Qed.

(** The panic of a handler goes unnoticed at first: the websocket is open and the
    socket stays in the farm; but the timer of the reading task is not aborted, and
    the websocket is given up no later than the idle timeout. *)
Theorem panicked_reader_given_up t m t0 d es t' :
  read_deadline t = Some d → dispatch_msg (tm_now t) (sock (tm_pipe t)) m = Panic → step t (Arrive m) = Some t0 →
  (0 ≤ R)%Z → ReadExpires ∉ es → timed_run R P t0 es = Some t' →
  reading t' = false ∧ (tm_now t' ≤ tm_now t + R)%Z ∧
  (tm_now t' = tm_now t + R → ∃ t'', step t' ReadExpires = Some t'' ∧ gives_up t' t'')%Z.
Proof.
  intros Hd Hp Hs HR He Hr. pose proof Hs as [Hd0 Hn0]%arrive_resets; [|by rewrite Hd].
  assert (Hread : reading t0 = false).
  { unfold timed_step in Hs. cbn in Hs. destruct (reading t); [|done]. injection Hs as <-. unfold arrive. cbn. by rewrite Hp. }
  destruct (unread_run t0 es t' _ Hread Hd0) as [Hsil Hread']; [lia|done..|]. split; [done|].
  destruct (silent_run t0 es t' _ Hd0) as [Hd' Hle]; [lia|done..|]. split; [done|].
  intros Hn. eapply expiry_gives_up; [done|lia].
Qed.

End theorems.

(** ** Concrete runs, with the default settings *)

#[local] Existing Instance Alist.lib.
#[local] Existing Instances DemoPipe.ws DemoPipe.ws_laws DemoPipe.ws3.

#[local] Instance ws3_laws : WsSocketLaws RouterSocketV3 := v3_ws_laws _ _ _ _.

Module DemoTimers.

Abbreviation R := DEF_IDLE_READ_TIMEOUT_MS.
Abbreviation P := DEF_PING_SENT_AFTER_NO_WRITE_FOR_MS.

Definition start : Timed RouterSocketV1 := timed_new R P 0 DemoV1.sending.

(** The router pings and the connector answers, for more than a minute and a
    half. *)
Definition round : list TimedEvent :=
  [Elapse 9800; PingExpires; Elapse 100; Writes None; Elapse 200; Arrive (Pong (lit "ping"))].

Definition quiet_minutes : list TimedEvent := Elapse 200 :: concat (replicate 10 round).

(** A client uploads a chunk every five seconds, and the connector, which waits
    for the end of the request, says nothing. *)
Definition upload : list TimedEvent :=
  concat (replicate 12 [Queues (Binary (lit "chunk")); Writes None; Elapse 5000]).

Definition after (es : list TimedEvent) : Timed RouterSocketV1 := default start (timed_run R P start es).

(** The start, with a version 3 socket. *)
Definition start3 : Timed RouterSocketV3 := timed_new R P 0 DemoV3.two_requests.

(** A window update that is too short. *)
Definition bad_frame : Message :=
  Binary (put_u8 MESSAGE_TYPE_WINDOW_UPDATE ++ put_u8 0 ++ put_i32 1).

End DemoTimers.

Lemma answering_connector_kept_witness :
  tm_now (DemoTimers.after DemoTimers.quiet_minutes) = 101200%Z ∧
  timed_step DemoTimers.R DemoTimers.P (DemoTimers.after DemoTimers.quiet_minutes) ReadExpires = None.
Proof.
  split; [vm_compute; reflexivity|].
  apply (answering_connector_kept DemoTimers.R DemoTimers.P 100 300 0 DemoV1.sending DemoTimers.quiet_minutes);
    vm_compute; first [reflexivity | discriminate].
Defined.

(** The pings stop while something is written: a connector that would answer them
    but has nothing else to say is given up in the middle of a long upload. *)
Example upload_without_pings :
  let t := DemoTimers.after DemoTimers.upload in
  tm_now t = 60000%Z ∧ written (tm_pipe t) = replicate 12 (Binary (lit "chunk")) ∧
  is_Some (timed_step DemoTimers.R DemoTimers.P t ReadExpires).
Proof. split_and!; [vm_compute; reflexivity..|]. eexists. vm_compute. reflexivity. Qed.

Lemma silent_connector_given_up_witness :
  ∃ t' t'', timed_step DemoTimers.R DemoTimers.P (DemoTimers.after DemoTimers.upload) ReadExpires = Some t' ∧
    timed_step DemoTimers.R DemoTimers.P t' TakesError = Some t'' ∧
    written (tm_pipe t'') = replicate 12 (Binary (lit "chunk")) ++
      [Close (Some (1011%Z, lit "uwss read idle timeout"))].
Proof.
  destruct (silent_connector_given_up DemoTimers.R DemoTimers.P 0 DemoV1.sending DemoTimers.upload
    (DemoTimers.after DemoTimers.upload)) as [[_ Hx] Hall].
  - vm_compute. reflexivity.
  - vm_compute. reflexivity.
  - destruct Hx as [t' Ht]; [vm_compute; discriminate|].
    destruct (Hall t' Ht) as [_ Hd]. destruct Hd as (t'' & Ht2 & _ & _ & Hw).
    + vm_compute. reflexivity.
    + vm_compute. reflexivity.
    + exists t', t''. split; [exact Ht|]. split; [exact Ht2|]. rewrite Hw. vm_compute. reflexivity.
Defined.

Lemma panicked_reader_given_up_witness :
  ∃ t0 t' t'', timed_step DemoTimers.R DemoTimers.P DemoTimers.start3 (Arrive DemoTimers.bad_frame) = Some t0 ∧
    reading t' = false ∧ timed_step DemoTimers.R DemoTimers.P t' ReadExpires = Some t'' ∧ gives_up t' t''.
Proof.
  set (t0 := default DemoTimers.start3
    (timed_step DemoTimers.R DemoTimers.P DemoTimers.start3 (Arrive DemoTimers.bad_frame))).
  set (es := [Elapse 10000; PingExpires; Writes None] ++ concat (replicate 5 [Elapse 10000; PingExpires; Writes None])).
  set (t' := default t0 (timed_run DemoTimers.R DemoTimers.P t0 es)).
  destruct (panicked_reader_given_up DemoTimers.R DemoTimers.P DemoTimers.start3 DemoTimers.bad_frame t0 60000 es t')
    as (Hr & _ & Hg).
  - vm_compute. reflexivity.
  - vm_compute. reflexivity.
  - vm_compute. reflexivity.
  - vm_compute. discriminate.
  - intros Hin. repeat (apply elem_of_cons in Hin as [Hin|Hin]; [discriminate|]). by apply elem_of_nil in Hin.
  - vm_compute. reflexivity.
  - destruct Hg as (t'' & Hs & Hg); [vm_compute; reflexivity|].
    exists t0, t', t''. split; [vm_compute; reflexivity|]. split; [exact Hr|]. split; [exact Hs|exact Hg].
Defined.
