(* ===== verification/SocketV1Traces.v ===== *)
(** * Histories of a version 1 socket

    The counterpart of [SocketV3Traces] for [RouterSocketV1]: every message of the
    connector, every step of the two tasks of the websocket, the client request
    and the reading of its response, in any order.  Along every history the
    response to the client obeys the protocol ([sender_inv]) and the socket only
    moves forward ([v1_evolves]). *)

From S2P Require Import Prelude RustStr Exceptions Http Forwarded Config HttpUtils CrankerProtocol Farm SocketBase SocketV1 SocketV1Props Pipes.

Record sender_le (c c' : ResSender) : Prop := {
  sl_hdr : chan_le (v1_hdr c) (v1_hdr c');
  sl_bdy : chan_le (v1_bdy c) (v1_bdy c');
  sl_received : is_tgt_res_hdr_received c = true → is_tgt_res_hdr_received c' = true;
  sl_sent : is_tgt_res_hdr_sent c = true → is_tgt_res_hdr_sent c' = true;
  sl_inv : sender_inv c → sender_inv c'
}.

Record v1_evolves (s s' : RouterSocketV1) : Prop := {
  v1_ev_info : v1_info s' = v1_info s;
  v1_ev_sender : sender_le (cli_side_res_sender s) (cli_side_res_sender s');
  v1_ev_removed : v1_is_removed s = true → v1_is_removed s' = true;
  v1_ev_close : is_close_msg_received s = true → is_close_msg_received s' = true
}.

#[export] Instance sender_le_refl : Reflexive sender_le.
Proof. by intros c. Qed.

#[export] Instance sender_le_trans : Transitive sender_le.
Proof. intros a b c [] []. split; eauto; by etransitivity. Qed.

#[export] Instance v1_evolves_refl : Reflexive v1_evolves.
Proof. by intros s. Qed.

#[export] Instance v1_evolves_trans : Transitive v1_evolves.
Proof. intros s1 s2 s3 [] []. split; eauto; try congruence. by etransitivity. Qed.

(** ** The sender of the response *)

Section sender.
Context (send_err_dbg : str).

Lemma sl_close_both c : sender_le c (close_both c).
Proof. split; cbn; eauto using sender_inv_close with cranker. Qed.

Lemma sl_send_both c e : sender_le c (send_both c e).
Proof. split; unfold send_both; eauto using sender_inv_send_both with cranker; cbn; auto with cranker. Qed.

Lemma sl_text c txt : sender_le c (send_target_response_header_text_to_client send_err_dbg c txt).1.
Proof.
  split; [| | | |apply sender_inv_text]; unfold send_target_response_header_text_to_client;
    destruct (is_tgt_res_hdr_sent c) eqn:Es, (is_tgt_res_hdr_received c) eqn:Er; cbn [orb]; try done;
    destruct (_ <? _); cbn; try done; destruct (chan_send _ _) as [ch ok] eqn:E; cbn; try done.
  intros Hc. unfold chan_send in E. rewrite Hc in E. by simplify_eq.
Qed.

Lemma sl_binary c bin : sender_le c (send_target_response_body_binary_fragment_to_client send_err_dbg c bin).1.
Proof.
  split; [| | | |apply sender_inv_binary]; unfold send_target_response_body_binary_fragment_to_client;
    destruct (is_tgt_res_hdr_received c) eqn:Er, (is_tgt_res_hdr_sent c) eqn:Es; cbn [orb negb]; try done;
    pose proof (chan_le_send (v1_bdy c) (Ok bin)); destruct (chan_send _ _) as [ch ok] eqn:E; cbn; done.
Qed.

(** The reader takes the first item. *)
Lemma sl_hdr_taken c x rest :
  items (v1_hdr c) = x :: rest → sender_le c (set_hdr_chan c (MkChan rest (is_closed (v1_hdr c)))).
Proof.
  intros Hi. split; cbn; try done; [by eapply chan_le_tail|]. intros [H1 H2 H3 H4 H5].
  assert (Ho : ok_texts (MkChan rest (is_closed (v1_hdr c))) `suffix_of` ok_texts (v1_hdr c)).
  { unfold ok_texts. cbn [items]. rewrite Hi. cbn. destruct (result_ok x) as [t|]; [by exists [t]|by exists []]. }
  destruct Ho as [pre Ho]. rewrite Ho in H1, H2, H4. rewrite length_app in H1. apply list.Forall_app in H2 as [_ H2].
  split; cbn [v1_hdr set_hdr_chan v1_bdy is_tgt_res_hdr_sent is_tgt_res_hdr_received is_closed]; try done; [lia|].
  intros Hs. by apply app_nil in H4 as [_ ?].
Qed.

Lemma sl_bdy_taken c x rest :
  items (v1_bdy c) = x :: rest → sender_le c (set_bdy_chan c (MkChan rest (is_closed (v1_bdy c)))).
Proof.
  intros Hi. split; cbn; try done; [by eapply chan_le_tail|]. intros [H1 H2 H3 H4 H5].
  split; [exact H1|exact H2|exact H3|exact H4|]. intros Hs. specialize (H5 Hs).
  unfold ok_texts in *. rewrite Hi in H5. cbn in H5 |- *. by destruct (result_ok x).
Qed.

End sender.

(** ** The operations *)

Lemma v1_frame s s' :
  v1_info s' = v1_info s → cli_side_res_sender s' = cli_side_res_sender s →
  (v1_is_removed s = true → v1_is_removed s' = true) →
  (is_close_msg_received s = true → is_close_msg_received s' = true) → v1_evolves s s'.
Proof. intros Hi Hs Hr Hc. split; try done. by rewrite Hs. Qed.

Lemma v1_sender_changes s c : sender_le (cli_side_res_sender s) c → v1_evolves s (set_sender s c).
Proof. by split. Qed.

Section history.
Context {HM : Type} `{HttpLib HM}.
Context (listeners : list (ProxyListener RouterSocketV1 HM)).
Context (send_err_dbg recv_err_dbg : str) (debug_strs : list str → str) (http_err_dbg : str).
Context (local_ip : str) (ip_to_string : IpAddr → str) (version_debug : Version → str).
Context {L F R : Type} (config : CrankerRouterConfig L F R).
Implicit Types s : RouterSocketV1.

#[local] Abbreviation raise_completion := (v1_raise_completion_event listeners).
#[local] Abbreviation on_error := (v1_on_error listeners send_err_dbg).
#[local] Abbreviation on_client_req := (v1_on_client_req listeners send_err_dbg recv_err_dbg debug_strs
  http_err_dbg local_ip ip_to_string version_debug config).
#[local] Abbreviation ws := (v1_ws listeners send_err_dbg).

Ltac frame := apply v1_frame; (reflexivity || done || idtac).

Lemma v1_ev_raise now s : v1_evolves s (raise_completion now s).1.
Proof. destruct (raise_completion_frame listeners now s) as (d & n & ->). frame. Qed.

Lemma v1_ev_on_error now s e : v1_evolves s (on_error now s e).1.
Proof. destruct (on_error_frame listeners send_err_dbg now s e) as (d & n & k & -> & _). frame. Qed.

Lemma v1_ev_wss_send s m : v1_evolves s (wss_send s m).1.
Proof. unfold wss_send. destruct (chan_send _ _). frame. Qed.

Lemma v1_ev_on_text s txt : v1_evolves s (v1_on_text send_err_dbg s txt).1.
Proof.
  unfold v1_on_text. destruct (v1_can_send s); [|done].
  pose proof (sl_text send_err_dbg (cli_side_res_sender s) txt).
  destruct (send_target_response_header_text_to_client _ _ _). by apply v1_sender_changes.
Qed.

Lemma v1_ev_on_binary s bin : v1_evolves s (v1_on_binary listeners send_err_dbg s bin).1.
Proof.
  unfold v1_on_binary. destruct (v1_can_send s); [|done]. cbv zeta.
  pose proof (sl_binary send_err_dbg (cli_side_res_sender s) bin) as Hb. cbn [cli_side_res_sender set_frames].
  destruct (send_target_response_body_binary_fragment_to_client _ _ _) as [c [u|e]];
    (etransitivity; [|by apply (v1_sender_changes (set_frames s (wrap64 (binary_frame_received s + 1))))]); frame.
Qed.

Lemma v1_ev_on_ping now s b : v1_evolves s (v1_on_ping listeners send_err_dbg now s b).1.
Proof.
  unfold v1_on_ping. pose proof (v1_ev_wss_send s (Pong b)) as Hw.
  destruct (wss_send s (Pong b)) as [s1 []]; [exact Hw|]. etransitivity; [exact Hw|apply v1_ev_on_error].
Qed.

Lemma v1_ev_close_early now code s : v1_evolves s (close_early listeners send_err_dbg now code s).1.
Proof.
  unfold close_early, then_compose. cbn [fst].
  destruct (_ && _); [|done]. repeat case_match; cbn [fst]; try done;
    match goal with E : v1_on_error _ _ ?n ?s ?e = _ |- _ => pose proof (v1_ev_on_error n s e) as Ho; by rewrite E in Ho end.
Qed.

Lemma v1_ev_close_client now code r st :
  v1_evolves st.1 (close_client listeners send_err_dbg now code r st).1.
Proof.
  unfold close_client. cbv zeta. destruct st as [s o]. cbn [fst snd]. destruct (_ || _); [|done].
  destruct (code =? 1000)%Z; cbn [fst snd].
  { apply v1_sender_changes, sl_close_both. }
  unfold then_compose. cbn [fst snd]. set (ex := crex_new _). set (s1 := set_sender s _).
  pose proof (v1_ev_on_error now s1 ex) as Ho. destruct (v1_on_error _ _ now s1 ex) as [s2 x]. cbn [fst snd] in *.
  transitivity s1; [apply v1_sender_changes, sl_send_both|]. etransitivity; [exact Ho|].
  apply v1_sender_changes, sl_close_both.
Qed.

Lemma v1_ev_on_close now s f : v1_evolves s (v1_on_close listeners send_err_dbg now s f).1.
Proof.
  unfold v1_on_close. cbv zeta. set (s0 := (wss_send _ _).1).
  assert (H0 : v1_evolves s s0).
  { subst s0. etransitivity; [|apply v1_ev_wss_send]. frame. }
  destruct (match f with Some (k, r) => (k, r) | None => (4000%Z, []) end) as [code r].
  pose proof (v1_ev_close_early now code s0) as H1. set (st := close_early _ _ _ _ _) in *.
  pose proof (v1_ev_close_client now code r st) as H2. set (st2 := close_client _ _ _ _ _ _) in *.
  unfold then_compose. pose proof (v1_ev_raise now st2.1) as H3.
  destruct (v1_raise_completion_event listeners now st2.1) as [s3 x]. cbn [fst snd] in *.
  etransitivity; [exact H0|]. etransitivity; [exact H1|]. etransitivity; [exact H2|exact H3].
Qed.

Lemma v1_ev_terminate s o : v1_evolves s (v1_terminate_all_conn s o).
Proof.
  unfold v1_terminate_all_conn. apply v1_sender_changes. etransitivity; [apply sl_send_both|apply sl_close_both].
Qed.

(** ** A client request *)

Lemma v1_ev_open now s : v1_evolves s (v1_open_request now s).1.
Proof. unfold v1_open_request. destruct (v1_is_removed s); [done|]. frame. Qed.

Lemma v1_ev_send_chunk s bytes : v1_evolves s (v1_send_chunk listeners send_err_dbg s bytes).1.
Proof.
  unfold v1_send_chunk. destruct (result_bind _ _); [|done]. pose proof (v1_ev_wss_send s (Binary bytes)) as Hw.
  by destruct (wss_send s (Binary bytes)) as [s1 []].
Qed.

Definition v1_fair (env : nat → RouterSocketV1 → RouterSocketV1) : Prop := ∀ i s, v1_evolves s (env i s).

Lemma v1_ev_send_body env body i s :
  v1_fair env → v1_evolves s (v1_send_body listeners send_err_dbg env i body s).1.
Proof.
  intros He. revert i s. induction body as [|[bytes|e] body IH]; intros i s; cbn [v1_send_body]; [done| |done].
  pose proof (v1_ev_send_chunk s bytes) as Hs. destruct (v1_send_chunk _ _ s bytes) as [s1 [u|e]]; [|exact Hs].
  etransitivity; [exact Hs|]. etransitivity; [apply (He i)|apply IH].
Qed.

Lemma v1_ev_send_end s s' r : v1_send_end send_err_dbg s = Ret (s', r) → v1_evolves s s'.
Proof.
  unfold v1_send_end. destruct (request_build _) as [[t|e]|]; cbn; [|by intros [= <- <-]|done].
  pose proof (v1_ev_wss_send s (Text t)) as Hw.
  by destruct (wss_send s (Text t)) as [s1 []]; intros [= <- <-].
Qed.

Lemma v1_ev_sender_task env now s body text s' :
  v1_fair env → v1_sender_task listeners send_err_dbg env now s body text = Ret s' → v1_evolves s s'.
Proof.
  intros He. unfold v1_sender_task.
  assert (Hp : ∀ s1 r, v1_split_part_one_send_or_err listeners send_err_dbg env s body text = Ret (s1, r) →
    v1_evolves s s1).
  { intros s1 r. unfold v1_split_part_one_send_or_err. cbv zeta.
    pose proof (v1_ev_wss_send (v1_set_can_send s true) (Text text)) as Hw.
    assert (Hc : v1_evolves s (v1_set_can_send s true)) by frame.
    destruct (wss_send _ (Text text)) as [s2 []]; cbn [fst] in Hw; [|intros [= <- <-]; by etransitivity].
    assert (H2 : v1_evolves s s2) by by etransitivity.
    destruct body as [body|]; cbn [outcome_bind]; [|by intros [= <- <-]].
    pose proof (v1_ev_send_body env body 0 s2 He) as Hb.
    destruct (v1_send_body _ _ env 0 body s2) as [s3 [u|e]]; cbn [fst] in Hb;
      [|intros [= <- <-]; by etransitivity].
    destruct (v1_send_end send_err_dbg s3) as [[s4 x]|] eqn:Ee; cbn [outcome_bind]; [|done]. apply v1_ev_send_end in Ee.
    destruct x; intros [= <- <-]; (etransitivity; [exact H2|]); by etransitivity. }
  destruct (v1_split_part_one_send_or_err _ _ _ _ _ _) as [[s1 [u|e]]|]; cbn; [| |done]; intros [= <-];
    specialize (Hp _ _ eq_refl); [done|]. etransitivity; [exact Hp|apply v1_ev_on_error].
Qed.

Lemma v1_ev_recv s :
  v1_evolves s (v1_split_part_two_recv_and_res listeners recv_err_dbg debug_strs http_err_dbg s).1.
Proof.
  unfold v1_split_part_two_recv_and_res. destruct (items (v1_hdr (cli_side_res_sender s))) as [|r rest] eqn:E.
  - by destruct (is_closed _).
  - apply v1_sender_changes. by apply sl_hdr_taken with r.
Qed.

Lemma v1_ev_on_client_req env late now now' s v m u h a t b :
  v1_fair env → (∀ s, v1_evolves s (late s)) →
  v1_evolves s (on_client_req env late now now' s v m u h a t b).1.
Proof.
  intros He Hl. unfold v1_on_client_req. pose proof (v1_ev_open now s) as Ho.
  destruct (v1_open_request now s) as [s1 [x|e]]; [|exact Ho]. cbn [fst] in Ho.
  destruct (set_target_request_headers _ _ _ _ _ _ _ _ _ _) as [[cl hdr]|]; [|exact Ho].
  destruct (v1_request_text _ _ _ _ _ _) as [[text|e]|]; [|exact Ho|exact Ho].
  destruct (v1_sender_task _ _ _ _ _ _ _) as [s2|] eqn:E; [|exact Ho].
  apply v1_ev_sender_task in E; [|done]. pose proof (v1_ev_recv (late s2)) as Hr.
  destruct (v1_split_part_two_recv_and_res _ _ _ _ _) as [s3 r]. cbn [fst] in *.
  etransitivity; [exact Ho|]. etransitivity; [exact E|]. etransitivity; [apply Hl|exact Hr].
Qed.

(** ** The tasks of the websocket *)

Lemma v1_ev_dispatch now s m s' r : @dispatch_msg _ ws now s m = Ret (s', r) → v1_evolves s s'.
Proof.
  destruct m as [t|b|b|b|f]; cbn; [| | |by intros [= <- <-]|]; intros [= Hp].
  - pose proof (v1_ev_on_text s t) as Hx. by rewrite Hp in Hx.
  - pose proof (v1_ev_on_binary s b) as Hx. by rewrite Hp in Hx.
  - pose proof (v1_ev_on_ping now s b) as Hx. by rewrite Hp in Hx.
  - pose proof (v1_ev_on_close now s f) as Hx. by rewrite Hp in Hx.
Qed.

Lemma v1_ev_recv_finish now o s : v1_evolves s (@recv_finish _ ws now o s).
Proof.
  unfold recv_finish. destruct o as [e|]; cbn; destruct (v1_is_removed _); try done;
    repeat (etransitivity; [|apply v1_ev_on_error]); done.
Qed.

Lemma v1_ev_handle_err pp s e q : @handle_err _ ws pp s e = Ret q → v1_evolves s (sock q).
Proof.
  unfold handle_err. cbn -[v1_terminate_all_conn].
  destruct (close_reason _); [|done]. cbn -[v1_terminate_all_conn]. intros [= <-]. cbn -[v1_terminate_all_conn].
  etransitivity; [|apply v1_ev_terminate]. destruct (v1_is_removed s) eqn:E; cbn; rewrite ?E; frame.
Qed.

Lemma v1_ev_handle_msg now we pp s m q : @handle_msg _ ws now we pp s m = Ret q → v1_evolves s (sock q).
Proof.
  assert (Hf : ∀ s e, v1_evolves s (on_error now s e).1) by (intros; apply v1_ev_on_error).
  assert (Hn : ∀ n, v1_evolves s (inc_bytes_received_from_cli s n)) by (intros; frame).
  unfold handle_msg, len_i32.
  destruct m, we; cbn -[v1_on_error inc_bytes_received_from_cli];
    repeat (case_match; cbn -[v1_on_error inc_bytes_received_from_cli]); intros [= <-];
    cbn -[v1_on_error inc_bytes_received_from_cli];
    first [done | apply Hf | apply Hn | (etransitivity; [apply Hn|apply Hf])].
Qed.

Lemma v1_ev_pipe_step w b s e q : @pipe_step _ ws (MkPipe s w b) e = Ret q → v1_evolves s (sock q).
Proof.
  destruct e as [|now we|m|now e]; cbn -[handle_err handle_msg].
  - destruct b; [|by intros [= <-]]. destruct (items (v1_err_chan s)) as [|x r]; [by intros [= <-]|].
    intros Hq. transitivity (v1_set_err_chan s (MkChan r (is_closed (v1_err_chan s)))); [frame|].
    eapply v1_ev_handle_err, Hq.
  - destruct b; [|by intros [= <-]]. destruct (items (v1_wss s)) as [|x r]; [by intros [= <-]|].
    intros Hq. transitivity (v1_set_wss s (MkChan r (is_closed (v1_wss s)))); [frame|].
    eapply v1_ev_handle_msg, Hq.
  - intros [= <-]. frame.
  - intros [= <-]. apply v1_ev_on_error.
Qed.

(** ** Histories *)

Definition v1_read_body s : RouterSocketV1 :=
  match items (v1_bdy (cli_side_res_sender s)) with
  | _ :: rest => set_sender s (set_bdy_chan (cli_side_res_sender s)
                   (MkChan rest (is_closed (v1_bdy (cli_side_res_sender s)))))
  | [] => s
  end.

Inductive v1_history : RouterSocketV1 → RouterSocketV1 → Prop :=
| v1h_refl s : v1_history s s
| v1h_trans s1 s2 s3 : v1_history s1 s2 → v1_history s2 s3 → v1_history s1 s3
| v1h_message now m s s' r : @dispatch_msg _ ws now s m = Ret (s', r) → v1_history s s'
| v1h_message_failed now e s : v1_history s (@ws_on_error _ ws now s e)
| v1h_recv_end now o s : v1_history s (@recv_finish _ ws now o s)
| v1h_read_timeout now s : v1_history s (@read_timeout _ ws now s)
| v1h_ping_tick s : v1_history s (@ping_tick _ ws s)
| v1h_write w b s e q : @pipe_step _ ws (MkPipe s w b) e = Ret q → v1_history s (sock q)
| v1h_marked s : v1_history s (set_removed s true)
| v1h_terminate o s : v1_history s (v1_terminate_all_conn s o)
| v1h_completed now s : v1_history s (raise_completion now s).1
| v1h_request env late now now' s v m u hs a t b :
    (∀ i s, v1_history s (env i s)) → (∀ s, v1_history s (late s)) →
    v1_history s (on_client_req env late now now' s v m u hs a t b).1
| v1h_body_read s : v1_history s (v1_read_body s)
| v1h_body_ended now s : v1_history s (v1_body_stream_ended listeners send_err_dbg now s).

Lemma v1_history_evolves s s' : v1_history s s' → v1_evolves s s'.
Proof.
  induction 1 as [| | | | | | | | | | |env late now now' s v m u hs a t b _ He _ Hl| |].
  - done.
  - by etransitivity.
  - by eapply v1_ev_dispatch.
  - apply v1_ev_on_error.
  - apply v1_ev_recv_finish.
  - unfold read_timeout. cbn. etransitivity; [|apply v1_ev_on_error]. frame.
  - frame.
  - by eapply v1_ev_pipe_step.
  - frame.
  - apply v1_ev_terminate.
  - apply v1_ev_raise.
  - by apply v1_ev_on_client_req.
  - unfold v1_read_body. destruct (items _) as [|x r] eqn:E; [done|].
    apply v1_sender_changes. by apply sl_bdy_taken with x.
  - unfold v1_body_stream_ended. destruct (is_close_msg_received s); [done|apply v1_ev_on_error].
Qed.

Lemma sender_inv_new : sender_inv sender_new.
Proof. split; [apply Nat.le_0_l|constructor|discriminate|reflexivity|reflexivity]. Qed.

(** The whole life of a version 1 socket: its identity never changes and its
    response obeys the protocol. *)
Lemma v1_history_wf i now s :
  v1_history (v1_new i now) s → v1_info s = i ∧ sender_inv (cli_side_res_sender s).
Proof. intros [Hi Hs _ _]%v1_history_evolves. split; [done|]. apply Hs, sender_inv_new. Qed.

End history.
