(* ===== verification/SocketV3Traces.v ===== *)
(** * Histories of a version 3 socket

    [history s s'] is what can happen to a [RouterSocketV3]: every message of the
    connector, every step of the two tasks of the websocket, every client request
    from its start to its response, the reading of its body, and the removals,
    in any order and interleaved with the chunks of any request.  Two facts hold
    along every history: the socket stays well formed ([wf]), and a context only
    moves forward ([ctx_le]). *)

From Stdlib Require Import Sorted.
From stdpp Require Import sorting.
From S2P Require Import Prelude RustStr Exceptions Http Forwarded Config HttpUtils CrankerProtocol Frames FlowControl Farm SocketBase SocketV3 SocketV3Props Pipes.

(** ** The invariant *)

(** The [n]-th context of a socket, counted from zero, has the id [n + 1] as a
    32-bit number; the generator stands at the last one; the map only points to
    contexts of the socket, under their own id. *)
Record wf (s : RouterSocketV3) : Prop := {
  wf_ids p c : ctx_heap s !! p = Some c → request_id c = wrap32 (Z.of_nat p + 1);
  wf_gen : req_id_generator s = wrap32 (Z.of_nat (length (ctx_heap s)));
  wf_map id p : context_map s !! id = Some p → ∃ c, ctx_heap s !! p = Some c ∧ request_id c = id
}.

(** The readings of the clock, the latest first. *)
Definition readings (s : RouterSocketV3) : list Z := v3_clock s :: earlier_readings s.

(** A reading [t] at which a request that started at [start] can be completed. *)
Definition reading_since (s : RouterSocketV3) (start t : Z) : Prop :=
  ∃ later earlier, readings s = later ++ t :: earlier ∧ start ∈ t :: earlier.

(** Requests start at a reading of the clock, and a duration that was stored is
    the time from the start to a later reading. *)
Record timed (s : RouterSocketV3) : Prop := {
  timed_start p c : ctx_heap s !! p = Some c → req_start_time c ∈ readings s;
  timed_done p d : (p, d) ∈ completed s → ∃ c t, ctx_heap s !! p = Some c ∧
    reading_since s (req_start_time c) t ∧ d = wrap64 (t - req_start_time c)
}.

(** A context only moves forward. *)
Record ctx_le (c c' : RequestContext) : Prop := {
  le_id : request_id c' = request_id c;
  le_start : req_start_time c' = req_start_time c;
  le_hdr : chan_le (tgt_res_hdr c) (tgt_res_hdr c');
  le_bdy : chan_le (tgt_res_bdy c) (tgt_res_bdy c');
  le_rst : is_rst_stream_sent c = true → is_rst_stream_sent c' = true;
  le_end : is_end_stream_received_from_tgt c = true → is_end_stream_received_from_tgt c' = true;
  le_line : header_line_builder c `prefix_of` header_line_builder c'
}.

Definition heap_le (h h' : list RequestContext) : Prop :=
  ∀ p c, h !! p = Some c → ∃ c', h' !! p = Some c' ∧ ctx_le c c'.

(** What identifies the socket, and its removal. *)
Definition identity (s : RouterSocketV3) :=
  (v3_route s, v3_domain s, v3_router_socket_id s, v3_connector_id s, v3_remote_address s).

Record evolves (s s' : RouterSocketV3) : Prop := {
  ev_heap : heap_le (ctx_heap s) (ctx_heap s');
  ev_identity : identity s' = identity s;
  ev_removed : v3_is_removed s = true → v3_is_removed s' = true;
  ev_wf : wf s → wf s';
  ev_timed : wf s → timed s → timed s'
}.

#[export] Instance ctx_le_refl : Reflexive ctx_le.
Proof. by intros c. Qed.

#[export] Instance ctx_le_trans : Transitive ctx_le.
Proof.
  intros a b c [] []. split; try (etransitivity; eassumption); eauto.
Qed.

#[export] Instance heap_le_refl : Reflexive heap_le.
Proof. intros h p c Hc. eauto using ctx_le_refl. Qed.

#[export] Instance heap_le_trans : Transitive heap_le.
Proof.
  intros h1 h2 h3 H1 H2 p c Hc. destruct (H1 p c Hc) as (c' & Hc' & ?), (H2 p c' Hc') as (c'' & ? & ?).
  exists c''. split; [done|]. by etransitivity.
Qed.

#[export] Instance evolves_refl : Reflexive evolves.
Proof. by intros s. Qed.

#[export] Instance evolves_trans : Transitive evolves.
Proof. intros s1 s2 s3 [] []. split; eauto; try congruence. by etransitivity. Qed.

(** ** The contexts *)

Create HintDb v3_history.

(** A change of one field that moves forward. *)
Ltac ctx_forward :=
  intros; split; cbn; first [reflexivity | done | auto using chan_le_send, chan_le_close, prefix_app_r].

Lemma le_send_err c e : ctx_le c (send_err_to_client c e).
Proof. ctx_forward. Qed.

Lemma le_close_both c : ctx_le c (set_bdy (set_hdr c (chan_close (tgt_res_hdr c))) (chan_close (tgt_res_bdy c))).
Proof. ctx_forward. Qed.

Lemma le_close_ctx c code r : ctx_le c (close_ctx c code r).
Proof.
  unfold close_ctx, cli_fail_prior_to_tgt_res. cbv zeta.
  repeat match goal with
  | |- ctx_le ?c ?c => reflexivity
  | |- ctx_le _ (if ?b then _ else _) => destruct b
  | |- ctx_le ?c (set_bdy (set_hdr ?d _) _) => etransitivity; [|apply (le_close_both d)]
  | |- ctx_le _ (send_err_to_client _ _) => etransitivity; [|apply le_send_err]
  end.
Qed.

Lemma le_error_ctx c e : ctx_le c (error_ctx c e).
Proof. unfold error_ctx. etransitivity; [|apply le_send_err]. ctx_forward. Qed.

#[export] Hint Resolve le_send_err le_close_ctx le_error_ctx : v3_history.

(** ** The operations *)

(** A change outside the contexts and their map. *)
Lemma evolves_frame s s' :
  ctx_heap s' = ctx_heap s → context_map s' ⊆ context_map s → req_id_generator s' = req_id_generator s →
  identity s' = identity s → (v3_is_removed s = true → v3_is_removed s' = true) →
  readings s' = readings s → completed s' = completed s → evolves s s'.
Proof.
  intros Hh Hm Hg Hi Hr Ht Hc. split; [by rewrite Hh|done..| |].
  - intros [H1 H2 H3]. split; rewrite ?Hh, ?Hg; eauto. intros id p Hp. eapply H3, lookup_weaken; eauto.
  - intros _ [H1 H2]. split; unfold reading_since; rewrite ?Hh, ?Ht, ?Hc; eauto.
Qed.

Lemma timed_upd s p g :
  (∀ c, ctx_heap s !! p = Some c → ctx_le c (g c)) → timed s → timed (upd_ctx s p g).
Proof.
  intros Hg [H1 H2]. split; cbn.
  - intros q c Hc. destruct (decide (q = p)) as [->|];
      [rewrite list_lookup_alter_eq in Hc|rewrite list_lookup_alter_ne in Hc by done; by eapply H1].
    destruct (ctx_heap s !! p) as [d|] eqn:Ed; simplify_eq/=. rewrite (le_start _ _ (Hg d eq_refl)).
    by eapply H1.
  - intros q d Hd. destruct (H2 q d Hd) as (c & t & Hc & Hr). destruct (decide (q = p)) as [->|].
    + exists (g c), t. rewrite list_lookup_alter_eq, Hc, (le_start _ _ (Hg c Hc)). by split.
    + exists c, t. by rewrite list_lookup_alter_ne.
Qed.

Lemma evolves_upd_at s p g :
  (∀ c, ctx_heap s !! p = Some c → ctx_le c (g c)) → evolves s (upd_ctx s p g).
Proof.
  intros Hg. split; try done; unfold upd_ctx; cbn.
  - intros q c Hc. destruct (decide (q = p)) as [->|].
    + exists (g c). rewrite list_lookup_alter_eq, Hc. auto.
    + exists c. by rewrite list_lookup_alter_ne.
  - intros [H1 H2 H3]. split; cbn.
    + intros q c Hc. destruct (decide (q = p)) as [->|].
      * rewrite list_lookup_alter_eq in Hc. destruct (ctx_heap s !! p) as [d|] eqn:Ed; simplify_eq/=.
        rewrite (le_id _ _ (Hg d eq_refl)). by apply H1.
      * rewrite list_lookup_alter_ne in Hc by done. by apply H1.
    + by rewrite length_alter.
    + intros id q Hq. destruct (H3 id q Hq) as (c & Hc & <-). destruct (decide (q = p)) as [->|].
      * exists (g c). rewrite list_lookup_alter_eq, Hc. split; [done|]. apply (le_id _ _ (Hg c Hc)).
      * exists c. by rewrite list_lookup_alter_ne.
  - intros _. by apply timed_upd.
Qed.

Lemma evolves_upd s p g : (∀ c, ctx_le c (g c)) → evolves s (upd_ctx s p g).
Proof. intros Hg. by apply evolves_upd_at. Qed.

Section history.
Context {HM : Type} `{HttpLib HM}.
Context (listeners : list (ProxyListener RequestContext HM)).
Context (send_err_dbg recv_err_dbg : str) (utf8_err_dbg : str → str) (debug_strs : list str → str).
Context (crex_dbg : CrankerRouterException → str) (http_err_dbg : str).
Context (local_ip : str) (ip_to_string : IpAddr → str) (version_debug : Version → str).
Context {L F R : Type} (config : CrankerRouterConfig L F R).
Implicit Types (s : RouterSocketV3) (p : nat) (c : RequestContext).

#[local] Abbreviation send_data := (send_data send_err_dbg).
#[local] Abbreviation reset_stream := (reset_stream send_err_dbg).
#[local] Abbreviation on_binary := (on_binary listeners send_err_dbg utf8_err_dbg).
#[local] Abbreviation on_error := (on_error send_err_dbg).
#[local] Abbreviation on_client_req := (on_client_req listeners send_err_dbg recv_err_dbg debug_strs
  http_err_dbg local_ip ip_to_string version_debug config).
#[local] Abbreviation ws := (v3_ws listeners send_err_dbg utf8_err_dbg crex_dbg).

Ltac frame := apply evolves_frame; (reflexivity || done || idtac).

Lemma ev_send_data s m : evolves s (send_data s m).1.
Proof. unfold SocketV3.send_data, chan_send. destruct (is_closed _); frame. Qed.

Lemma ctx_of_lookup s p c : ctx_heap s !! p = Some c → ctx_of s p = c.
Proof. unfold ctx_of. by intros ->. Qed.

Lemma ev_raise s o : evolves s (raise_completion_event s o).
Proof.
  destruct o as [i|]; [|done]. cbn. destruct (context_map s !! i) as [p|] eqn:Ei; [|done].
  split; cbn; try done; [by intros []|]. intros [_ _ H3] [Ht1 Ht2]. split; [done|]. cbn.
  intros q d [Hd|[= -> ->]%list_elem_of_singleton]%elem_of_app; [by apply Ht2|].
  destruct (H3 i p Ei) as (c & Hc & _). rewrite (ctx_of_lookup _ _ _ Hc). exists c, (v3_clock s).
  split_and!; [done| |done]. exists [], (earlier_readings s). by eauto.
Qed.

Lemma ev_spawn_remove s i : evolves s (try_spawn_remove_req_ctx s i).
Proof. frame. Qed.

Lemma ev_notify_close s p code r : evolves s (notify_client_request_close s p code r).
Proof.
  unfold notify_client_request_close. etransitivity; [|apply ev_spawn_remove].
  etransitivity; [|apply ev_raise]. apply evolves_upd. auto with v3_history.
Qed.

Lemma ev_notify_error s p e : evolves s (notify_client_request_error s p e).
Proof.
  unfold notify_client_request_error. etransitivity; [|apply ev_spawn_remove].
  etransitivity; [|apply ev_raise]. apply evolves_upd. auto with v3_history.
Qed.

Lemma ev_set_error s p o : evolves s (upd_ctx s p (λ c, set_error c o)).
Proof. apply evolves_upd. ctx_forward. Qed.

(** A loop over the contexts. *)
Lemma ev_foldl {A} (f : RouterSocketV3 → A → RouterSocketV3) (l : list A) s :
  (∀ s x, evolves s (f s x)) → evolves s (foldl f s l).
Proof. intros Hf. revert s. induction l as [|x l IH]; intros s; [done|]. cbn. etransitivity; eauto. Qed.

Lemma ev_general_error s o : evolves s (try_provide_general_error s o).
Proof. destruct o; [|done]. apply ev_foldl. intros. apply ev_set_error. Qed.

Lemma ev_reset_stream s p code m : evolves s (reset_stream s p code m).
Proof.
  unfold SocketV3.reset_stream. etransitivity; [|apply ev_spawn_remove].
  destruct (ctx_heap s !! p) as [c|]; [|done]. destruct (_ && _); [|done].
  pose proof (ev_send_data s (Binary (rst_message (request_id c) code m))) as Hs.
  destruct (SocketV3.send_data _ _ _) as [s1 r]. etransitivity; [exact Hs|].
  apply evolves_upd. ctx_forward.
Qed.

(** Chains the steps of a handler backwards. *)
Ltac evolve :=
  repeat match goal with
  | |- evolves ?s ?s => reflexivity
  | |- evolves _ (if ?b then _ else _) => destruct b
  | |- evolves _ (SocketV3.send_data _ _ _).1 => etransitivity; [|apply ev_send_data]
  | |- evolves _ (notify_client_request_close _ _ _ _) => etransitivity; [|apply ev_notify_close]
  | |- evolves _ (notify_client_request_error _ _ _) => etransitivity; [|apply ev_notify_error]
  | |- evolves _ (try_provide_general_error _ _) => etransitivity; [|apply ev_general_error]
  | |- evolves _ (SocketV3.reset_stream _ _ _ _ _) => etransitivity; [|apply ev_reset_stream]
  | |- evolves _ (upd_ctx _ _ _) => etransitivity; [|apply evolves_upd; ctx_forward]
  end.

Lemma ev_handle_data s p c fl id bin : evolves s (handle_data listeners send_err_dbg s p c fl id bin).1.
Proof.
  unfold handle_data. destruct (check_if_tgt_can_send_res_first s c id); [|done]. cbv zeta.
  destruct bin as [|b bin]; [cbn [fst]; evolve|].
  destruct (is_closed (tgt_res_bdy c)); destruct (try_all _ _); cbn [fst]; evolve.
Qed.

Lemma ev_handle_header s p c fl id bin :
  evolves s (handle_header send_err_dbg utf8_err_dbg s p c fl id bin).1.
Proof.
  unfold handle_header. destruct (check_if_tgt_can_send_res_first s c id); [|done].
  cbv zeta. repeat (case_match; try (cbn [fst]; evolve)).
Qed.

Lemma ev_on_binary s bin s' : on_binary s bin = Ret s' → evolves s s'.
Proof.
  unfold SocketV3.on_binary. destruct (read_frame bin) as [[[[t fl] id] pl]|]; [|by intros [= <-]].
  destruct (context_map s !! id) as [p|]; [|by intros [= <-]].
  destruct (ctx_heap s !! p) as [c|]; [|by intros [= <-]].
  assert (Hd : ∀ s1 r, dispatch_frame listeners send_err_dbg utf8_err_dbg s p c t fl id pl = Ret (s1, r) →
    evolves s s1).
  { intros s1 r. unfold dispatch_frame, handle_window_update, handle_rst_stream.
    pose proof (ev_handle_data s p c fl id pl). pose proof (ev_handle_header s p c fl id pl).
    destruct (t =? MESSAGE_TYPE_DATA)%Z; [by intros [= Hx]; rewrite Hx in *|].
    destruct (t =? MESSAGE_TYPE_HEADER)%Z; [by intros [= Hx]; rewrite Hx in *|].
    destruct (t =? MESSAGE_TYPE_RST_STREAM)%Z.
    { destruct (get_error_code pl). intros [= <- <-]. evolve. }
    destruct (t =? MESSAGE_TYPE_WINDOW_UPDATE)%Z; [|by intros [= <- <-]].
    destruct (get_i32 pl); [|done]. intros [= <- <-]. evolve. }
  destruct (dispatch_frame _ _ _ _ _ _ _ _ _ _) as [[s1 [u|e]]|]; cbn; [| |done]; intros [= <-];
    specialize (Hd _ _ eq_refl); evolve; exact Hd.
Qed.

Lemma ev_on_error s e : evolves s (on_error s e).1.
Proof. unfold SocketV3.on_error, chan_send. destruct (is_closed _); frame. Qed.

Lemma ev_on_ping s b : evolves s (on_ping send_err_dbg crex_dbg s b).1.
Proof.
  unfold on_ping. pose proof (ev_send_data s (Pong b)) as Hs.
  destruct (SocketV3.send_data _ _ _) as [s1 [u|e]]; [exact Hs|]. etransitivity; [exact Hs|apply ev_on_error].
Qed.

Lemma ev_on_close s m : evolves s (on_close s m).
Proof.
  unfold on_close. transitivity (if v3_is_removed s then s else mark_v3_removed (spawn_farm_removal s)).
  { destruct (v3_is_removed s) eqn:E; [done|]. frame. }
  destruct m as [[code r]|]; apply ev_foldl; intros; apply ev_notify_close.
Qed.

Lemma ev_terminate s o : evolves s (terminate_all_conn s o).
Proof.
  unfold terminate_all_conn. set (crex := default _ _). cbv zeta.
  transitivity (foldl (λ s kv, notify_client_request_error s kv.2 crex) s (map_to_list (context_map s))).
  { apply ev_foldl. intros. apply ev_notify_error. }
  frame. apply map_empty_subseteq.
Qed.

Lemma ev_run_remove s : evolves s (run_spawned_remove s).
Proof. unfold run_spawned_remove. destruct (spawned_removes s); [done|]. frame. apply delete_subseteq. Qed.

(** ** A client request *)

Lemma ev_open s : evolves s (open_request s).1.
Proof.
  unfold open_request. destruct (v3_is_removed s) eqn:Er; [done|]. cbv zeta. cbn [fst].
  split; cbn -[wrap32]; try done.
  - intros p c Hc. exists c. split; [by apply lookup_app_l_Some|done].
  - intros [H1 H2 H3]. split; cbn -[wrap32].
    + intros p c [Hc|[Hp Hc]]%lookup_app_Some; [by apply H1|].
      apply list_lookup_singleton_Some in Hc as [Hp' <-]. cbn -[wrap32]. rewrite H2, wrap32_add_l. f_equal. lia.
    + rewrite length_app, H2, wrap32_add_l. cbn -[wrap32]. f_equal. lia.
    + intros id p [[<- <-]|[Hid Hp]]%lookup_insert_Some.
      * exists (ctx_new (wrap32 (req_id_generator s + 1)) (v3_clock s)). split; [|reflexivity].
        by rewrite lookup_app_r, Nat.sub_diag.
      * destruct (H3 id p Hp) as (c & Hc & Hi). exists c. split; [by apply lookup_app_l_Some|done].
  - intros _ [Ht1 Ht2]. split; cbn -[wrap32].
    + intros p c [Hc|[Hp Hc]]%lookup_app_Some; [by eapply Ht1|].
      apply list_lookup_singleton_Some in Hc as [_ <-]. by left.
    + intros p d Hd. destruct (Ht2 p d Hd) as (c & t & Hc & Hr). exists c, t.
      split; [by apply lookup_app_l_Some|done].
Qed.

Lemma ev_send_headers frames s p : evolves s (send_headers send_err_dbg s p frames).1.
Proof.
  revert s. induction frames as [|hb frames IH]; intros s; [done|]. cbn [send_headers].
  set (s1 := upd_ctx s p _). pose proof (ev_send_data s1 (Binary hb)) as Hs.
  assert (Hu : evolves s s1) by (apply evolves_upd; ctx_forward).
  destruct (SocketV3.send_data _ _ _) as [s2 [u|e]]; cbn [fst] in *; [|by etransitivity].
  etransitivity; [exact Hu|]. etransitivity; [exact Hs|]. etransitivity; [|apply IH]. evolve.
Qed.

Lemma ev_send_chunk s p id bytes : evolves s (send_chunk listeners send_err_dbg s p id bytes).1.
Proof.
  unfold send_chunk. destruct (try_all _ _); [|done]. cbv zeta. set (s1 := upd_ctx s p _).
  pose proof (ev_send_data s1 (Binary (data_messages id false (Some bytes)))) as Hs.
  assert (Hu : evolves s s1) by (apply evolves_upd; ctx_forward).
  destruct (SocketV3.send_data _ _ _) as [s2 [u|e]]; cbn [fst] in *; [|by etransitivity].
  etransitivity; [exact Hu|]. etransitivity; [exact Hs|]. evolve.
Qed.

(** What other tasks do while a request is sent moves forward as well. *)
Definition fair (env : nat → RouterSocketV3 → RouterSocketV3) : Prop := ∀ i s, evolves s (env i s).

Lemma ev_send_body env hdr p id body i s :
  fair env → evolves s (send_body listeners send_err_dbg env hdr p id i body s).1.
Proof.
  intros He. revert i s. induction body as [|[bytes|e] body IH]; intros i s; cbn [send_body]; [| |done].
  - pose proof (ev_send_data s (Binary (data_messages id true None))) as Hs.
    by destruct (SocketV3.send_data _ _ _) as [s1 [u|e]].
  - pose proof (ev_send_chunk s p id bytes) as Hs.
    destruct (send_chunk _ _ _ _ _ _) as [s1 [u|e]]; [|exact Hs]. etransitivity; [exact Hs|].
    destruct (is_wss_writable _); [etransitivity; [apply He|apply IH]|].
    set (s2 := upd_ctx s1 p _). assert (Hu : evolves s1 s2) by (apply evolves_upd; ctx_forward).
    etransitivity; [exact Hu|]. destruct (bool_decide _); [etransitivity; [apply (He i)|apply IH]|apply He].
Qed.

Lemma ev_sender_task env s hdr body id p text :
  fair env → evolves s (sender_task listeners send_err_dbg env s hdr body id p text).
Proof.
  intros He. unfold sender_task.
  assert (Hp : evolves s (split_part_one_send_or_err listeners send_err_dbg env s hdr body id p text).1).
  { unfold split_part_one_send_or_err. set (s1 := upd_ctx s p _).
    assert (Hu : evolves s s1) by (apply evolves_upd; ctx_forward). etransitivity; [exact Hu|].
    pose proof (ev_send_headers (header_messages id true (match body with None => true | Some _ => false end) text)
      s1 p) as Hh.
    destruct (send_headers _ _ _ _) as [s2 [u|e]]; [|exact Hh].
    destruct body as [body|]; [|exact Hh]. etransitivity; [exact Hh|by apply ev_send_body]. }
  destruct (split_part_one_send_or_err _ _ _ _ _ _ _ _ _) as [s1 [[u|e]|]]; try exact Hp.
  destruct (is_end_stream_received_from_tgt _); [exact Hp|]. etransitivity; [exact Hp|apply ev_notify_error].
Qed.

Lemma ev_recv s p : evolves s (split_part_two_recv_and_res listeners recv_err_dbg debug_strs http_err_dbg s p).1.
Proof.
  unfold split_part_two_recv_and_res. destruct (items (tgt_res_hdr (ctx_of s p))) as [|r rest] eqn:E.
  { by destruct (is_closed _). }
  cbn [fst]. apply evolves_upd_at. intros c Hc. apply ctx_of_lookup in Hc. rewrite Hc in E.
  split; cbn; try (done || reflexivity). by apply chan_le_tail with r.
Qed.

Lemma ev_fail_request s p e : evolves s (fail_request send_err_dbg s p e).
Proof. unfold fail_request. destruct (opt_err_kind e) as [[]|]; evolve. Qed.

Lemma ev_on_client_req env late s v m u h a t b :
  fair env → (∀ s, evolves s (late s)) → evolves s (on_client_req env late s v m u h a t b).1.
Proof.
  intros He Hl. unfold SocketV3.on_client_req. pose proof (ev_open s) as Ho.
  destruct (open_request s) as [s1 [[id p]|e]]; [|exact Ho]. cbn [fst] in Ho.
  destruct (set_target_request_headers _ _ _ _ _ _ _ _ _ _) as [[cl hdr]|]; [|exact Ho].
  destruct (before_proxy _ _ _) as [hdr'|e]; [|etransitivity; [exact Ho|apply ev_fail_request]].
  set (s2 := sender_task _ _ _ _ _ _ _ _ _).
  assert (Hs : evolves s1 s2) by by apply ev_sender_task.
  pose proof (ev_recv (late s2) p) as Hr.
  destruct (split_part_two_recv_and_res _ _ _ _ _ _) as [s3 [[res|e]|]]; cbn [fst] in *;
    (etransitivity; [exact Ho|]; etransitivity; [exact Hs|]; etransitivity; [apply Hl|]);
    [exact Hr|etransitivity; [exact Hr|apply ev_fail_request]|exact Hr].
Qed.

Lemma ev_body_dropped s id p : evolves s (client_body_dropped send_err_dbg s id p).
Proof.
  unfold client_body_dropped. destruct (is_end_stream_received_from_tgt _); [done|].
  destruct (check_if_context_exists s id); [|done]. evolve.
Qed.

(** ** The tasks of the websocket *)

Lemma ev_dispatch now s m s' r : @dispatch_msg _ ws now s m = Ret (s', r) → evolves s s'.
Proof.
  destruct m as [t|b|b|b|f]; cbn.
  - by intros [= <- <-].
  - destruct (SocketV3.on_binary _ _ _ s b) as [s1|] eqn:E; cbn; intros [= <- <-]. by apply ev_on_binary in E.
  - intros [= Hp]. pose proof (ev_on_ping s b) as Hx. by rewrite Hp in Hx.
  - by intros [= <- <-].
  - intros [= <- <-]. apply ev_on_close.
Qed.

Lemma ev_set_queue s q : evolves s (with_wss s q).
Proof. frame. Qed.

Lemma ev_recv_finish now o s : evolves s (@recv_finish _ ws now o s).
Proof.
  unfold recv_finish. destruct o as [e|]; cbn; destruct (v3_is_removed _); try done;
    repeat (etransitivity; [|apply ev_on_error]); done.
Qed.

Lemma ev_read_timeout now s : evolves s (@read_timeout _ ws now s).
Proof. unfold read_timeout. cbn. etransitivity; [apply ev_set_queue|apply ev_on_error]. Qed.

Lemma ev_handle_err pp s e q : @handle_err _ ws pp s e = Ret q → evolves s (sock q).
Proof.
  unfold handle_err. cbn -[try_provide_general_error terminate_all_conn].
  set (s1 := if v3_is_removed s then s else _).
  assert (H1 : evolves s s1) by (subst s1; destruct (v3_is_removed s); [done|apply ev_general_error]).
  destruct (close_reason _); [|done]. cbn -[terminate_all_conn]. intros [= <-]. cbn -[terminate_all_conn].
  etransitivity; [|apply ev_terminate]. etransitivity; [exact H1|].
  destruct (v3_is_removed s1); frame.
Qed.

Lemma ev_handle_msg now we pp s m q : @handle_msg _ ws now we pp s m = Ret q → evolves s (sock q).
Proof.
  assert (Hf : ∀ e, evolves s (on_error s e).1) by (intros; apply ev_on_error).
  unfold handle_msg, len_i32.
  destruct m, we; cbn -[on_error];
    repeat (case_match; cbn -[on_error]); intros [= <-]; cbn -[on_error]; done || apply Hf.
Qed.

Lemma ev_pipe_step w b s e q : @pipe_step _ ws (MkPipe s w b) e = Ret q → evolves s (sock q).
Proof.
  destruct e as [|now we|m|now e]; cbn -[handle_err handle_msg].
  - destruct b; [|by intros [= <-]]. destruct (items (err_chan s)) as [|x r]; [by intros [= <-]|].
    intros Hq. transitivity (with_err_chan s (MkChan r (is_closed (err_chan s)))); [frame|].
    eapply ev_handle_err, Hq.
  - destruct b; [|by intros [= <-]]. destruct (items (wss_send_task s)) as [|x r]; [by intros [= <-]|].
    intros Hq. etransitivity; [apply ev_set_queue|]. eapply ev_handle_msg, Hq.
  - intros [= <-]. apply ev_set_queue.
  - intros [= <-]. apply ev_on_error.
Qed.

(** ** Histories *)

(** The reader of the response body takes its next item. *)
Definition read_body s p : RouterSocketV3 :=
  upd_ctx s p (λ c, match items (tgt_res_bdy c) with
                    | _ :: rest => set_bdy c (MkChan rest (is_closed (tgt_res_bdy c)))
                    | [] => c
                    end).

(** A later reading does not change what was measured before. *)
Lemma ev_tick s t : evolves s (tick s t).
Proof.
  split; cbn; try done; [by intros []|]. intros _ [Ht1 Ht2]. split; cbn.
  - intros p c Hc. right. by eapply Ht1.
  - intros p d Hd. destruct (Ht2 p d Hd) as (c & u & Hc & (l1 & l2 & Hr & Hin) & Hv).
    exists c, u. split_and!; [done| |done]. exists (t :: l1), l2. cbn. by rewrite <- Hr.
Qed.

Inductive history : RouterSocketV3 → RouterSocketV3 → Prop :=
| h_refl s : history s s
| h_trans s1 s2 s3 : history s1 s2 → history s2 s3 → history s1 s3
| h_message now m s s' r : @dispatch_msg _ ws now s m = Ret (s', r) → history s s'
| h_message_failed now e s : history s (@ws_on_error _ ws now s e)
| h_recv_end now o s : history s (@recv_finish _ ws now o s)
| h_read_timeout now s : history s (@read_timeout _ ws now s)
| h_ping_tick s : history s (@ping_tick _ ws s)
| h_write w b s e q : @pipe_step _ ws (MkPipe s w b) e = Ret q → history s (sock q)
| h_remove s : history s (run_spawned_remove s)
| h_marked s : history s (mark_v3_removed s)
| h_terminate o s : history s (terminate_all_conn s o)
| h_request env late s v m u hs a t b :
    (∀ i s, history s (env i s)) → (∀ s, history s (late s)) →
    history s (on_client_req env late s v m u hs a t b).1
| h_body_read p s : history s (read_body s p)
| h_body_dropped id p s : history s (client_body_dropped send_err_dbg s id p)
| h_tick t s : history s (tick s t).

Lemma history_evolves s s' : history s s' → evolves s s'.
Proof.
  induction 1 as [| | | | | | | | | | |env late s v m u hs a t b _ He _ Hl| | |].
  - done.
  - by etransitivity.
  - by eapply ev_dispatch.
  - apply ev_on_error.
  - apply ev_recv_finish.
  - apply ev_read_timeout.
  - apply ev_set_queue.
  - by eapply ev_pipe_step.
  - apply ev_run_remove.
  - frame.
  - apply ev_terminate.
  - by apply ev_on_client_req.
  - apply evolves_upd. intros c. destruct (items (tgt_res_bdy c)) as [|x r] eqn:E; [done|].
    split; cbn; try (done || reflexivity). by apply chan_le_tail with x.
  - apply ev_body_dropped.
  - apply ev_tick.
Qed.

Lemma wf_new route domain comp id conn addr now : wf (v3_new route domain comp id conn addr now).
Proof. split; cbn; [done|done|]. intros i p. by rewrite lookup_empty. Qed.

(** Whatever happens to a version 3 socket, it stays well formed: the map of
    the requests in flight only points to existing contexts and under their own
    id, the ids are handed out one after the other as 32-bit numbers, and the
    route and the identity the socket was registered with never change. *)
Theorem v3_socket_well_formed route domain comp id conn addr now s :
  history (v3_new route domain comp id conn addr now) s →
  wf s ∧ identity s = (route, domain, id, conn, addr).
Proof.
  intros [_ Hi _ Hw _]%history_evolves. split; [|by rewrite Hi]. apply Hw, wf_new.
Qed.

Lemma wrap32_inj_near a b : (0 ≤ a - b < u32_mod)%Z → wrap32 a = wrap32 b → a = b.
Proof. unfold wrap32, u32_mod. intros Hab Hw. Z.div_mod_to_equations. lia. Qed.

(** C20: the ids of the requests on a socket are 32-bit numbers, and no two ids in
    flight share a context, however many requests there were.  As long as the socket
    has opened no more than 2^32 requests, no two of these have the same id, and the
    next request, if it is not beyond that number, gets an id that no request in
    flight has, so that it displaces none of them. *)
Theorem v3_request_ids_unique route domain comp id conn addr now s :
  history (v3_new route domain comp id conn addr now) s →
  Forall (λ c, in_i32 (request_id c)) (ctx_heap s) ∧
  (∀ i j p, context_map s !! i = Some p → context_map s !! j = Some p → i = j) ∧
  ((Z.of_nat (length (ctx_heap s)) ≤ u32_mod)%Z → NoDup (map request_id (ctx_heap s))) ∧
  ((Z.of_nat (length (ctx_heap s)) < u32_mod)%Z →
   ∀ s' i p, open_request s = (s', Ok (i, p)) → context_map s !! i = None ∧
     context_map s' = <[i := p]> (context_map s) ∧ ctx_heap s' !! p = Some (ctx_new i (v3_clock s))).
Proof.
  intros Hh%history_evolves. apply ev_wf in Hh; [|apply wf_new]. destruct Hh as [H1 H2 H3]. split_and!.
  - apply list.Forall_lookup. intros p c Hc. rewrite (H1 _ _ Hc). apply wrap32_range.
  - intros i j p Hi Hj. destruct (H3 i p Hi) as (c & Hc & <-), (H3 j p Hj) as (d & Hd & <-). congruence.
  - intros Hlen. apply NoDup_alt. intros p q x. rewrite !list_lookup_fmap_Some.
    intros (c & -> & Hc) (d & Hcd & Hd). rewrite (H1 _ _ Hc), (H1 _ _ Hd) in Hcd.
    apply lookup_lt_Some in Hc, Hd. destruct (decide (p ≤ q)).
    + symmetry in Hcd. apply wrap32_inj_near in Hcd; lia.
    + apply wrap32_inj_near in Hcd; lia.
  - intros Hlt s' i p. unfold open_request. destruct (v3_is_removed s); [done|].
    cbn -[wrap32]. intros [= <- <- <-]. cbn -[wrap32]. split_and!; [|done|].
    + destruct (context_map s !! _) as [q|] eqn:Eq; [|done]. exfalso.
      destruct (H3 _ _ Eq) as (c & Hc & Hi). rewrite (H1 _ _ Hc), H2, wrap32_add_l in Hi.
      apply lookup_lt_Some in Hc. symmetry in Hi. apply wrap32_inj_near in Hi; lia.
    + by rewrite lookup_app_r, Nat.sub_diag.
Qed.

Lemma timed_new route domain comp id conn addr now : timed (v3_new route domain comp id conn addr now).
Proof. split; cbn; [done|]. intros p d []%elem_of_nil. Qed.

(** The duration a completion stores is measured with the clock: as long as the
    clock does not run backwards and its readings are 64-bit numbers, every
    [duration_millis] that the listeners of a request see is the time from the
    start of the request to a reading of the clock that is not later than now;
    it is never negative, whatever happened to the socket in between. *)
Theorem v3_durations_measured route domain comp id conn addr now s p d :
  history (v3_new route domain comp id conn addr now) s →
  StronglySorted Z.ge (readings s) → Forall (λ t, 0 ≤ t < 2 ^ 63)%Z (readings s) →
  (p, d) ∈ completed s →
  ∃ c t, ctx_heap s !! p = Some c ∧ t ∈ readings s ∧ d = (t - req_start_time c)%Z ∧
    (0 ≤ d ≤ v3_clock s - req_start_time c)%Z.
Proof.
  intros Hh%history_evolves Hs Hb Hd. apply ev_timed in Hh; [|apply wf_new|apply timed_new].
  destruct (timed_done _ Hh p d Hd) as (c & t & Hc & (l1 & l2 & Hr & Hin) & ->). exists c, t.
  assert (Ht : t ∈ readings s) by (rewrite Hr; set_solver).
  rewrite list.Forall_forall in Hb.
  pose proof (Hb _ Ht). pose proof (Hb _ (timed_start _ Hh p c Hc)).
  assert (Hlt : (req_start_time c ≤ t)%Z).
  { apply elem_of_cons in Hin as [->|Hin]; [done|]. rewrite Hr in Hs.
    apply StronglySorted_app_1_r, StronglySorted_inv in Hs as [_ Hl].
    rewrite list.Forall_forall in Hl. specialize (Hl _ Hin). lia. }
  assert (Hle : (t ≤ v3_clock s)%Z).
  { unfold readings in *. apply StronglySorted_inv in Hs as [_ Hl]. rewrite list.Forall_forall in Hl.
    apply elem_of_cons in Ht as [->|Ht]; [done|]. specialize (Hl _ Ht). lia. }
  rewrite wrap64_id by (unfold i64_min, i64_max; lia). split_and!; [done|done|done|lia|lia].
Qed.

End history.

(** ** A concrete history *)

#[local] Existing Instance Alist.lib.

Module DemoHistory.

Abbreviation hist := (history DemoV3.no_listeners (lit "SendError(..)") (lit "RecvError") (λ _, []) (λ _, [])
  (λ _, []) [] (lit "10.0.0.1") demo_ip demo_version demo_config).

(** A request is sent; the connector answers with a header that ends the stream. *)
Definition request (s : RouterSocketV3) : RouterSocketV3 :=
  (on_client_req DemoV3.no_listeners (lit "SendError(..)") (lit "RecvError") (λ _, []) [] (lit "10.0.0.1")
     demo_ip demo_version demo_config (λ _ s, s) id s HTTP_11 (lit "GET") demo_uri [] demo_addr false None).1.

Definition opened : RouterSocketV3 := request DemoV3.socket.

Definition answered : RouterSocketV3 :=
  DemoV3.got (DemoV3.on_binary opened (header_message 1 true true (lit "HTTP/1.1 200 OK"))).

Lemma opened_history : hist DemoV3.socket opened.
Proof. apply h_request; intros; apply h_refl. Qed.

Lemma answered_history : hist opened answered.
Proof.
  apply (h_message _ _ _ _ _ _ _ _ _ _ _ 0 (Binary (header_message 1 true true (lit "HTTP/1.1 200 OK"))) _ _
    (Ok tt)). vm_compute. reflexivity.
Qed.

(** The clock moves on before the answer comes. *)
Definition answered_later : RouterSocketV3 :=
  DemoV3.got (DemoV3.on_binary (tick opened 25) (header_message 1 true true (lit "HTTP/1.1 200 OK"))).

Lemma answered_later_history : hist DemoV3.socket answered_later.
Proof.
  eapply h_trans; [exact opened_history|]. eapply h_trans; [apply (h_tick _ _ _ _ _ _ _ _ _ _ _ 25)|].
  apply (h_message _ _ _ _ _ _ _ _ _ _ _ 0 (Binary (header_message 1 true true (lit "HTTP/1.1 200 OK"))) _ _
    (Ok tt)). vm_compute. reflexivity.
Qed.

End DemoHistory.

Lemma v3_socket_well_formed_witness : wf DemoHistory.answered.
Proof.
  refine (proj1 (v3_socket_well_formed _ _ _ _ _ _ _ _ _ _ _ _ _ _ _ _ _ _ _ _)).
  eapply h_trans; [exact DemoHistory.opened_history|exact DemoHistory.answered_history].
Defined.

Lemma v3_request_ids_unique_witness :
  context_map DemoHistory.opened !! 1%Z = Some 0 ∧ context_map DemoHistory.opened !! 2%Z = None.
Proof.
  split; [vm_compute; reflexivity|].
  refine (proj1 (proj2 (proj2 (proj2 (v3_request_ids_unique _ _ _ _ _ _ _ _ _ _ _ _ _ _ _ _ _ _ DemoHistory.opened
    DemoHistory.opened_history))) _ (open_request DemoHistory.opened).1 2%Z 1 _)); vm_compute; congruence.
Defined.

Lemma v3_durations_measured_witness :
  ∃ c, ctx_heap DemoHistory.answered_later !! 0 = Some c ∧ req_start_time c = 0%Z ∧
    (0 ≤ 25 ≤ v3_clock DemoHistory.answered_later - req_start_time c)%Z.
Proof.
  destruct (v3_durations_measured _ _ _ _ _ _ _ _ _ _ _ _ _ _ _ _ _ _ _ 0 25%Z
    DemoHistory.answered_later_history) as (c & t & Hc & _ & _ & Hd).
  - assert (Hr : readings DemoHistory.answered_later = [25; 0]%Z) by (vm_compute; reflexivity).
    rewrite Hr. repeat constructor; discriminate.
  - assert (Hr : readings DemoHistory.answered_later = [25; 0]%Z) by (vm_compute; reflexivity).
    rewrite Hr. repeat constructor; lia.
  - assert (Hr : completed DemoHistory.answered_later = [(0, 25%Z)]) by (vm_compute; reflexivity).
    rewrite Hr. left.
  - exists c. split_and!; [exact Hc| |apply Hd|apply Hd].
    assert (Hq : req_start_time <$> (ctx_heap DemoHistory.answered_later !! 0) = Some 0%Z)
      by (vm_compute; reflexivity).
    rewrite Hc in Hq. by injection Hq.
Defined.
