(* ===== verification/Router.v ===== *)
(** * The HTTP handlers of the router (lib.rs, router_socket.rs)

    The portal for client requests, registration and de-registration of
    connectors, version negotiation, and [harvest_router_socket], which makes a
    router socket of an accepted websocket.  The farm holds sockets of both
    versions: [AnySocket] is the trait object [dyn RouterSocket].

    A handler is a function of the values axum extracts from the request (query
    parameters, headers, address), and the result of a middleware says whether the
    request goes on.  The routing tables are in [Routing], the registration as a
    whole in [Lifecycle]. *)

From S2P Require Import Prelude RustStr Exceptions Http RouteResolver Forwarded Config HttpUtils CrankerProtocol Frames FlowControl Farm SocketBase SocketV1 SocketV1Props SocketV3 SocketV3Props.

(** ** Sockets of both versions *)

Inductive AnySocket :=
| SV1 (s : RouterSocketV1)
| SV3 (s : RouterSocketV3).

#[export] Instance any_router_socket : RouterSocket AnySocket := {
  rs_route s := match s with SV1 s => rs_route s | SV3 s => rs_route s end;
  rs_id s := match s with SV1 s => rs_id s | SV3 s => rs_id s end;
  rs_domain s := match s with SV1 s => rs_domain s | SV3 s => rs_domain s end;
  rs_connector_id s := match s with SV1 s => rs_connector_id s | SV3 s => rs_connector_id s end;
  rs_addr s := match s with SV1 s => rs_addr s | SV3 s => rs_addr s end;
  rs_cranker_version s :=
    match s with SV1 s => rs_cranker_version s | SV3 s => rs_cranker_version s end;
  rs_is_removed s := match s with SV1 s => rs_is_removed s | SV3 s => rs_is_removed s end;
  rs_mark_removed s :=
    match s with SV1 s => SV1 (rs_mark_removed s) | SV3 s => SV3 (rs_mark_removed s) end;
  rs_is_active s := match s with SV1 s => rs_is_active s | SV3 s => rs_is_active s end
}.

#[export] Instance any_router_socket_laws : RouterSocketLaws AnySocket.
Proof. by split; intros []. Qed.

(** ** Version negotiation and registration *)

Definition SEC_WEBSOCKET_PROTOCOL : str := lit "sec-websocket-protocol".
Definition TRACE : str := lit "TRACE".

Record CrankerConnectorInfo := MkConnectorInfo {
  ci_connector_id : str;
  ci_route : str;
  ci_component_name : str;
  ci_domain : str;
  negotiated_cranker_version : str
}.

Section router.
Context {HM : Type} `{HttpLib HM}.
(** [{:?}] of an optional header value. *)
Context (opt_hv_dbg : option str → str) (ip_to_string : IpAddr → str).

(** The loop over the offered sub protocols. *)
Fixpoint first_supported (supported : gmap str str) (split : list str) : option str :=
  match split with
  | [] => None
  | v :: r =>
      match supported !! replace_all (lit "cranker_") [] (trim v) with
      | Some res => Some res
      | None => first_supported supported r
      end
  end.

Definition extract_cranker_version (supported : gmap str str) (headers : HM)
  : outcome (result str CrankerRouterException) :=
  let sub_protocols := hm_get SEC_WEBSOCKET_PROTOCOL headers in
  let legacy_protocol_header := hm_get CRANKER_PROTOCOL_HEADER_KEY headers in
  match sub_protocols, legacy_protocol_header with
  | None, None =>
      Ret (Err (with_err_kind (crex_new (lit
        "Version is null. Please set header Sec-WebSocket-Protocol for cranker protocol negotiation"))
        CrankerProtocolVersionNotFound_0003))
  | _, _ =>
      let! from_sub := match sub_protocols with
                       | Some sp => let! sp_str := unwrap (hv_to_str sp) in
                                    Ret (first_supported supported (split_on ","%byte sp_str))
                       | None => Ret None
                       end in
      match from_sub with
      | Some res => Ret (Ok res)
      | None =>
          let! from_legacy := match legacy_protocol_header with
                              | Some lph => let! lp := unwrap (hv_to_str lph) in Ret (supported !! lp)
                              | None => Ret None
                              end in
          match from_legacy with
          | Some res => Ret (Ok res)
          | None =>
              Ret (Err (with_err_kind (crex_new (
                lit "Cranker version not supported! sub protocols = " ++ opt_hv_dbg sub_protocols ++
                lit ", legacy protocols = " ++ opt_hv_dbg legacy_protocol_header))
                CrankerProtocolVersionNotSupported_0004))
          end
      end
  end.

Definition failed_at_ip_validation (addr : SocketAddr) (route connector_id : str) : HttpResponse :=
  Resp 403 [] (
    lit "Fail to establish websocket connection to cranker connector because of not supported ip address="
    ++ ip_to_string (addr_ip addr) ++ lit ". Route=" ++ route ++ lit ". Connector Id=" ++ connector_id).

(** What the middleware decides: an answer of its own, or the request goes on
    with the information for the register handler. *)
Inductive RegCheck :=
| RegAnswer (r : HttpResponse)
| RegProceed (info : CrankerConnectorInfo).

(** [params] are the query parameters, [uuid] the random id. *)
Definition reg_check_and_extract {L F R} (config : CrankerRouterConfig L F R) (uuid method : str)
  (headers : HM) (params : gmap str str) (addr : SocketAddr) : outcome RegCheck :=
  if str_eqb method TRACE then Ret (RegAnswer (Resp 405 [] (lit "Method not allowed.")))
  else
    let connector_id := default uuid (params !! lit "connectorInstanceID") in
    let route := default (lit "*") (hm_get_str (lit "Route") headers) in
    if negb (registration_ip_validator config (addr_ip addr))
    then Ret (RegAnswer (failed_at_ip_validation addr route connector_id))
    else
      let component_name := default (lit "unknown-" ++ concat (take 5 (chars connector_id)))
                              (params !! lit "componentName") in
      let domain := default (lit "*") (hm_get_str (lit "Domain") headers) in
      let! v := extract_cranker_version (supported_cranker_protocols config) headers in
      match v with
      | Err err => Ret (RegAnswer (Resp 400 []
                     (lit "Failed to negotiate cranker version: " ++ crex_display err)))
      | Ok ver => Ret (RegProceed (MkConnectorInfo connector_id route component_name domain ver))
      end.

(** The addresses something still points to: sockets that are alive, [Weak]
    pointers in the channels and those of spawned removals.  An allocation
    returns another one. *)
Definition used_ptrs (f : Farm AnySocket) : gset nat :=
  dom (heap f) ∪ list_to_set (queued f) ∪
  list_to_set (map (λ t, match t with BgRemove _ _ p => p end) (background f)).

(** [harvest_router_socket] with the registration in the farm; another version
    only closes the websocket. *)
Definition harvest_router_socket (f : Farm AnySocket) (now : Z) (router_socket_id : str)
  (info : CrankerConnectorInfo) (addr : SocketAddr) : Farm AnySocket :=
  let p := fresh (used_ptrs f) in
  let register s := add_router_socket_in_background (with_heap f (<[p := s]> (heap f))) p in
  if str_eqb (negotiated_cranker_version info) CRANKER_V_1_0 then
    register (SV1 (v1_new (MkV1Info (ci_route info) (ci_component_name info) router_socket_id
                             (ci_connector_id info) addr) now))
  else if str_eqb (negotiated_cranker_version info) CRANKER_V_3_0 then
    register (SV3 (v3_new (ci_route info) (ci_domain info) (ci_component_name info) router_socket_id
                     (ci_connector_id info) addr now))
  else f.

(** ** De-registration *)

(** The request goes on with its [String] extension, if there is one: without a
    connector id the code inserts the value of [push_str], which is a unit. *)
Inductive DeRegCheck :=
| DeRegAnswer (r : HttpResponse)
| DeRegProceed (string_extension : option str).

Definition de_reg_check {L F R} (config : CrankerRouterConfig L F R) (f : Farm AnySocket) (now : Z)
  (headers : HM) (params : gmap str str) (addr : SocketAddr) : Farm AnySocket * DeRegCheck :=
  let route := default (lit "*") (hm_get_str (lit "Route") headers) in
  let connector_id := params !! lit "connectorInstanceID" in
  if negb (registration_ip_validator config (addr_ip addr))
  then (f, DeRegAnswer (failed_at_ip_validation addr route (default (lit "N/A") connector_id)))
  else match connector_id with
       | None => (f, DeRegProceed None)
       | Some connector_id =>
           (de_register_router_socket_in_background f now route connector_id,
            DeRegProceed (Some connector_id))
       end.

(** [de_register_handler] needs the extension; then the websocket gets the close
    frame of [send_goodbye]. *)
Definition de_register_handler (string_extension : option str) : option Message :=
  match string_extension with
  | Some _ => Some (Close (Some (1000%Z, lit "Deregister complete")))
  | None => None
  end.

(** ** The portal *)

Definition judge_has_body_from_header_http_1 (headers : HM) : bool :=
  match hm_get_str (lit "content-length") headers ≫= (λ v, result_ok (parse_i64 v)) with
  | Some content_length => (0 <? content_length)%Z
  | None => hm_contains (lit "transfer-encoding") headers
  end.

Definition has_body (version : Version) (headers : HM) (is_end_stream : bool) : bool :=
  match version with
  | HTTP_09 | HTTP_10 | HTTP_11 => judge_has_body_from_header_http_1 headers
  | _ => negb is_end_stream
  end.

(** A [RouterSocketFilter]. *)
Record SocketFilter := MkFilter {
  sf_should_use : str → str → Uri → HM → SocketAddr → AnySocket → bool;
  sf_fallback_first : bool;
  sf_fallback_catch_all : bool
}.

Context {L : Type} (config : CrankerRouterConfig L SocketFilter (gset str → str → str)).
Context (listeners1 : list (ProxyListener RouterSocketV1 HM)).
Context (listeners3 : list (ProxyListener RequestContext HM)).
Context (send_err_dbg recv_err_dbg : str) (debug_strs : list str → str) (http_err_dbg : str).
Context (local_ip : str) (version_debug : Version → str).

Definition portal_request (method : str) (uri : Uri) (headers : HM) (addr : SocketAddr)
  : Request AnySocket :=
  let flt := router_socket_filter config in
  MkRequest (uri_path uri) (get_opt_host_from_uri_and_headers uri headers) (route_resolver config)
    (sf_should_use flt (uri_path uri) method uri headers addr) (sf_fallback_first flt)
    (sf_fallback_catch_all flt) (allow_catch_all config).

(** What other tasks do to the socket of a request while it is served, and the
    times the handlers read. *)
Record Surroundings := MkSurroundings {
  env1 : nat → RouterSocketV1 → RouterSocketV1;
  late1 : RouterSocketV1 → RouterSocketV1;
  env3 : nat → RouterSocketV3 → RouterSocketV3;
  late3 : RouterSocketV3 → RouterSocketV3;
  time1 : Z;
  time2 : Z;
  time3 : Z
}.

Definition any_on_client_req (w : Surroundings) (s : AnySocket) (http_version : Version) (method : str)
  (uri : Uri) (headers : HM) (addr : SocketAddr) (is_tls : bool) (opt_body : option (list (result str str)))
  : AnySocket * outcome (option (result (Z * HM) CrankerRouterException)) :=
  match s with
  | SV1 s =>
      let '(s, r) := v1_on_client_req listeners1 send_err_dbg recv_err_dbg debug_strs http_err_dbg
        local_ip ip_to_string version_debug config (env1 w) (late1 w) (time1 w) (time2 w) s
        http_version method uri headers addr is_tls opt_body in (SV1 s, r)
  | SV3 s =>
      let '(s, r) := on_client_req listeners3 send_err_dbg recv_err_dbg debug_strs http_err_dbg
        local_ip ip_to_string version_debug config (env3 w) (late3 w) s
        http_version method uri headers addr is_tls opt_body in (SV3 s, r)
  end.

(** [raise_completion_event(None)]; the version 3 one does nothing without a
    request id. *)
Definition any_raise_completion (now : Z) (s : AnySocket) : AnySocket :=
  match s with
  | SV1 s => SV1 (v1_raise_completion_event listeners1 now s).1
  | SV3 s => SV3 (raise_completion_event s None)
  end.

(** The answer to the client: one of the router's own, the head of the target's
    response, or none yet. *)
Inductive PortalRes :=
| PAnswer (r : HttpResponse)
| PProxied (r : Z * HM)
| PPending.

Definition answer_error (err_id : str) (e : CrankerRouterException) : outcome PortalRes :=
  let! r := into_response err_id e in Ret (PAnswer r).

(** [wakes] is what other tasks do to the farm while the request waits for a
    socket. *)
Definition visit_portal (wakes : list (Farm AnySocket → Farm AnySocket)) (w : Surroundings) (err_id : str)
  (f : Farm AnySocket) (method : str) (uri : Uri) (headers : HM) (addr : SocketAddr) (is_tls : bool)
  (http_version : Version) (body : list (result str str)) (is_end_stream : bool)
  : Farm AnySocket * outcome PortalRes :=
  if str_eqb method TRACE then (f, Ret (PAnswer (Resp 405 [] (lit "Method not supported."))))
  else
    match get_router_socket (connector_max_wait_time_millis config) wakes f
            (portal_request method uri headers addr) with
    | (f, Err e) => (f, answer_error err_id e)
    | (f, Ok p) =>
        match heap f !! p with
        | None => (f, Panic)
        | Some rs =>
            let opt_body := if has_body http_version headers is_end_stream then Some body else None in
            let '(rs, r) := any_on_client_req w rs http_version method uri headers addr is_tls opt_body in
            let put rs := with_heap f (<[p := rs]> (heap f)) in
            match r with
            | Panic => (put rs, Panic)
            | Ret None => (put rs, Ret PPending)
            | Ret (Some (Ok res)) => (put rs, Ret (PProxied res))
            | Ret (Some (Err e)) =>
                let rs := if rs_is_removed rs then rs else any_raise_completion (time3 w) rs in
                (put rs, answer_error err_id e)
            end
        end
    end.

End router.

(** ** Negotiation *)

Section negotiation.
Context {HM : Type} `{HttpLaws HM}.
Context (opt_hv_dbg : option str → str) (ip_to_string : IpAddr → str).
Implicit Types (headers : HM) (supported : gmap str str).

#[local] Abbreviation extract := (extract_cranker_version opt_hv_dbg).

(** The version an offered sub protocol names. *)
Definition offered_version (v : str) : str := replace_all (lit "cranker_") [] (trim v).

Lemma first_supported_head supported split :
  first_supported supported split = head (omap (λ v, supported !! offered_version v) split).
Proof.
  induction split as [|v r IH]; [done|]. simpl. unfold offered_version at 1.
  by destruct (supported !! _).
Qed.

(** What a connector offers: its sub protocols in order, then the legacy header. *)
Definition offers headers : list str :=
  match hm_get SEC_WEBSOCKET_PROTOCOL headers with
  | Some sp => map offered_version (split_on ","%byte sp)
  | None => []
  end ++ option_list (hm_get CRANKER_PROTOCOL_HEADER_KEY headers).

Definition printable (o : option str) : Prop := ∀ v, o = Some v → is_Some (hv_to_str v).

Lemma omap_offered supported l :
  omap (λ v, supported !! offered_version v) l = omap (supported !!.) (map offered_version l).
Proof. induction l as [|v l IH]; [done|]. unfold omap in *. simpl. by rewrite IH. Qed.

(** Version negotiation takes the first offer the router supports: the sub
    protocols in the order the connector lists them, with or without the prefix
    ["cranker_"], then the legacy header; without a supported offer it fails with
    error kind 0004, and without any offer with 0003. *)
Theorem version_negotiation supported headers :
  let sub := hm_get SEC_WEBSOCKET_PROTOCOL headers in
  let legacy := hm_get CRANKER_PROTOCOL_HEADER_KEY headers in
  printable sub → printable legacy →
  match head (omap (supported !!.) (offers headers)) with
  | Some v => extract supported headers = Ret (Ok v)
  | None => ∃ e, extract supported headers = Ret (Err e) ∧
      opt_err_kind e = Some (if decide (sub = None ∧ legacy = None)
                             then CrankerProtocolVersionNotFound_0003
                             else CrankerProtocolVersionNotSupported_0004)
  end.
Proof.
  intros sub legacy Hs Hl. unfold extract_cranker_version, offers. fold sub legacy.
  assert (Hlit : ∀ v, legacy = Some v → unwrap (hv_to_str v) = Ret v).
  { intros v Hv. destruct (Hl v Hv) as [x Hx]. by destruct (hv_to_str_Some _ _ Hx) as [-> _]; rewrite Hx. }
  destruct sub as [sp|] eqn:Es.
  - destruct (Hs sp eq_refl) as [x Hx]. destruct (hv_to_str_Some _ _ Hx) as [-> _].
    rewrite Hx. cbn [unwrap outcome_bind]. rewrite first_supported_head, omap_offered, omap_app.
    destruct (omap (supported !!.) (map offered_version (split_on ","%byte sp))) as [|v vs];
      cbn [head app]; [|done].
    destruct legacy as [lp|] eqn:El.
    + rewrite (Hlit lp eq_refl). cbn. destruct (supported !! lp); cbn; [done|]. eexists. split; [done|].
      by rewrite decide_False by naive_solver.
    + eexists. split; [done|]. by rewrite decide_False by naive_solver.
  - destruct legacy as [lp|] eqn:El.
    + cbn [outcome_bind app]. rewrite (Hlit lp eq_refl). cbn. destruct (supported !! lp); cbn; [done|].
      eexists. split; [done|]. by rewrite decide_False by naive_solver.
    + eexists. split; [done|]. by rewrite decide_True.
Qed.

Lemma extract_values supported headers v :
  extract supported headers = Ret (Ok v) → ∃ k, supported !! k = Some v.
Proof.
  assert (Hf : ∀ split, first_supported supported split = Some v → ∃ k, supported !! k = Some v).
  { induction split as [|x r IH]; [done|]. simpl. destruct (supported !! _) eqn:E; [|done].
    intros [= ->]. by eexists. }
  unfold extract_cranker_version.
  destruct (hm_get SEC_WEBSOCKET_PROTOCOL headers) as [sp|],
    (hm_get CRANKER_PROTOCOL_HEADER_KEY headers) as [lp|]; intros Hx;
    unfold outcome_bind, unwrap in Hx; repeat (step_match_in Hx; simplify_eq/=; eauto); done.
Qed.

(** A registration request makes the handler panic exactly when it passes the
    method and address checks and carries a version header that is not visible
    ASCII: the sub protocols, or the legacy header when no sub protocol is
    supported. *)
Theorem registration_panics_iff {L F R} (config : CrankerRouterConfig L F R) uuid method headers params addr :
  let sub := hm_get SEC_WEBSOCKET_PROTOCOL headers in
  reg_check_and_extract opt_hv_dbg ip_to_string config uuid method headers params addr = Panic ↔
  method ≠ TRACE ∧ registration_ip_validator config (addr_ip addr) = true ∧
  (~ printable sub ∨
   printable sub ∧ ~ printable (hm_get CRANKER_PROTOCOL_HEADER_KEY headers) ∧
   match sub with
   | Some sp => first_supported (supported_cranker_protocols config) (split_on ","%byte sp) = None
   | None => True
   end).
Proof.
  intros sub. unfold reg_check_and_extract. destruct (str_eqb method TRACE) eqn:Em.
  { apply str_eqb_true in Em. split; [done|]. by intros [? _]. }
  apply str_eqb_false in Em. destruct (registration_ip_validator config (addr_ip addr)); [|naive_solver].
  cbn [negb]. set (sup := supported_cranker_protocols config).
  transitivity (extract sup headers = Panic).
  { destruct (extract sup headers) as [[v|e]|]; naive_solver. }
  assert (Hp : ∀ v, printable (Some v) ↔ is_Some (hv_to_str v)).
  { intros v. split; [intros Hv; by apply Hv|by intros Hv ? [= <-]]. }
  assert (Hn : printable None) by done.
  unfold extract_cranker_version. fold sub. destruct sub as [sp|].
  - rewrite Hp. destruct (hv_to_str sp) as [x|] eqn:Ex; cbn [unwrap outcome_bind].
    2:{ split; [|done]. intros _. split_and!; [done..|]. left. by intros [? ?]. }
    apply hv_to_str_Some in Ex as [-> _].
    destruct (first_supported sup (split_on ","%byte sp)) as [v|]; [naive_solver|].
    destruct (hm_get CRANKER_PROTOCOL_HEADER_KEY headers) as [lp|]; [rewrite Hp|naive_solver].
    destruct (hv_to_str lp) as [y|] eqn:Ey; cbn.
    + destruct (sup !! y); [naive_solver|]. naive_solver.
    + split; [|done]. intros _. split_and!; [done..|]. right. split_and!; [by eexists| |done]. by intros [? ?].
  - destruct (hm_get CRANKER_PROTOCOL_HEADER_KEY headers) as [lp|]; [rewrite Hp|naive_solver].
    cbn [outcome_bind]. destruct (hv_to_str lp) as [y|] eqn:Ey; cbn.
    + destruct (sup !! y); naive_solver.
    + split; [|done]. intros _. split_and!; [done..|]. right. split_and!; [done| |done]. by intros [? ?].
Qed.

End negotiation.

(** ** Registration *)

Section registration.
Context {HM : Type} `{HttpLaws HM}.
Context (opt_hv_dbg : option str → str) (ip_to_string : IpAddr → str).
Implicit Types (f : Farm AnySocket) (headers : HM).

#[local] Abbreviation reg_check := (reg_check_and_extract opt_hv_dbg ip_to_string).

Lemma add_any_socket f p (s : AnySocket) :
  heap f !! p = None →
  let f' := add_router_socket_in_background (with_heap f (<[p := s]> (heap f))) p in
  heap f' = <[p := s]> (heap f) ∧ route_chan f' (rs_route s) = route_chan f (rs_route s) ++ [p] ∧
  sockets f' !! rs_route s ≫= (.!! rs_id s) = Some p ∧
  idle_count f' = wrap32 (idle_count f + 1).
Proof.
  intros Hp f'. set (f0 := with_heap f (<[p := s]> (heap f))).
  assert (Hs : heap f0 !! p = Some s) by apply lookup_insert_eq.
  destruct (add_router_socket_spec f0 p s Hs) as (n & _ & _ & _ & Hk & Hi & Hh & _).
  destruct (add_route_chan f0 p s Hs) as [Hc _]. change (add_router_socket_in_background f0 p) with f' in *.
  split_and!; [exact Hh|exact Hc| |exact Hi]. rewrite Hk, lookup_insert_eq. cbn. by rewrite lookup_insert_eq.
Qed.

(** An accepted registration gives a usable socket: the request was not a
    [TRACE] and came from an allowed address, and the websocket becomes a new
    socket of the farm with the route, connector id and address of the request and
    one of the two protocol versions, with its domain if that is version 3; it is
    the last in the channel of its route, registered under its id, not removed,
    and counted. *)
Theorem registration_adds_socket {L F R} (config : CrankerRouterConfig L F R) uuid method headers params
  addr info f now rsid :
  reg_check config uuid method headers params addr = Ret (RegProceed info) →
  supported_cranker_protocols config ⊆ SUPPORTED_CRANKER_VERSION →
  let f' := harvest_router_socket f now rsid info addr in
  method ≠ TRACE ∧ registration_ip_validator config (addr_ip addr) = true ∧
  ci_route info = default (lit "*") (hm_get_str (lit "Route") headers) ∧
  ∃ p s, heap f !! p = None ∧ heap f' = <[p := s]> (heap f) ∧
    rs_id s = rsid ∧ rs_route s = ci_route info ∧ rs_connector_id s = ci_connector_id info ∧
    rs_addr s = addr ∧ rs_is_removed s = false ∧
    rs_cranker_version s = negotiated_cranker_version info ∧
    (rs_cranker_version s = CRANKER_V_1_0 ∨
     rs_cranker_version s = CRANKER_V_3_0 ∧ rs_domain s = ci_domain info) ∧
    route_chan f' (ci_route info) = route_chan f (ci_route info) ++ [p] ∧
    sockets f' !! ci_route info ≫= (.!! rsid) = Some p ∧
    idle_count f' = wrap32 (idle_count f + 1).
Proof.
  intros Hreg Hsup f'. unfold reg_check_and_extract in Hreg.
  destruct (str_eqb method TRACE) eqn:Em; [done|]. apply str_eqb_false in Em.
  destruct (registration_ip_validator config (addr_ip addr)); [|done]. cbn [negb] in Hreg.
  destruct (extract_cranker_version _ _ _) as [[v|e]|] eqn:Ev; [|done..]. injection Hreg as <-.
  do 3 (split; [done|]). cbn [ci_route ci_connector_id ci_domain negotiated_cranker_version] in *.
  apply extract_values in Ev as [k Hk]. apply (lookup_weaken _ SUPPORTED_CRANKER_VERSION) in Hk; [|done].
  set (route := default (lit "*") _) in *. set (cid := default uuid _) in *.
  set (p := fresh (used_ptrs f)).
  assert (Hp : heap f !! p = None).
  { apply not_elem_of_dom. pose proof (is_fresh (used_ptrs f)). unfold used_ptrs in *. set_solver. }
  assert (Hv : v = CRANKER_V_1_0 ∨ v = CRANKER_V_3_0).
  { unfold SUPPORTED_CRANKER_VERSION in Hk.
    apply lookup_insert_Some in Hk as [[_ <-]|[_ Hk]]; [by right|].
    apply lookup_insert_Some in Hk as [[_ <-]|[_ Hk]]; [by left|done]. }
  unfold f', harvest_router_socket. cbn [negotiated_cranker_version ci_route ci_connector_id
    ci_component_name ci_domain]. fold p. destruct Hv as [->| ->].
  - rewrite str_eqb_refl. set (s := SV1 _). exists p, s.
    destruct (add_any_socket f p s Hp) as (Hh & Hc & Hs & Hi). split_and!; try done. by left.
  - rewrite (proj2 (str_eqb_false _ _)) by done. rewrite str_eqb_refl. set (s := SV3 _). exists p, s.
    destruct (add_any_socket f p s Hp) as (Hh & Hc & Hs & Hi). split_and!; try done. by right.
Qed.

(** De-registration on every branch: from an address that is not allowed it is
    answered with 403 and changes nothing; with a connector id the sockets of that
    connector on the route are de-registered and the connector gets the goodbye
    frame; but without a connector id nothing is de-registered and the handler
    finds no [String] extension, so the connector gets no goodbye frame. *)
Theorem deregistration_outcomes {L F R} (config : CrankerRouterConfig L F R) f now headers params addr :
  let route := default (lit "*") (hm_get_str (lit "Route") headers) in
  let '(f', r) := de_reg_check ip_to_string config f now headers params addr in
  if registration_ip_validator config (addr_ip addr) then
    ∃ ext, r = DeRegProceed ext ∧
      match params !! lit "connectorInstanceID" with
      | Some id => f' = de_register_router_socket_in_background f now route id ∧
                   de_register_handler ext = Some (Close (Some (1000%Z, lit "Deregister complete")))
      | None => f' = f ∧ de_register_handler ext = None
      end
  else f' = f ∧ ∃ resp, r = DeRegAnswer resp ∧ resp_status resp = 403%Z.
Proof.
  unfold de_reg_check. destruct (registration_ip_validator config (addr_ip addr)); cbn [negb].
  - destruct (params !! _); by eexists.
  - split; [done|]. by eexists.
Qed.

End registration.

(** ** The portal *)

Section portal.
Context {HM : Type} `{HttpLib HM} {L : Type}.
Context (ip_to_string : IpAddr → str).
Context (config : CrankerRouterConfig L (@SocketFilter HM) (gset str → str → str)).
Context (listeners1 : list (ProxyListener RouterSocketV1 HM)).
Context (listeners3 : list (ProxyListener RequestContext HM)).
Context (send_err_dbg recv_err_dbg : str) (debug_strs : list str → str) (http_err_dbg : str).
Context (local_ip : str) (version_debug : Version → str).
Implicit Types (f : Farm AnySocket) (headers : HM).

#[local] Abbreviation portal := (visit_portal ip_to_string config listeners1 listeners3 send_err_dbg
  recv_err_dbg debug_strs http_err_dbg local_ip version_debug).
#[local] Abbreviation serve := (any_on_client_req ip_to_string config listeners1 listeners3 send_err_dbg
  recv_err_dbg debug_strs http_err_dbg local_ip version_debug).
#[local] Abbreviation select wakes f req :=
  (get_router_socket (connector_max_wait_time_millis config) wakes f req).

Lemma get_router_socket_err max_wait wakes f req f' e :
  get_router_socket max_wait wakes f req = (f', Err e) →
  e = no_route_error (target_path req) ∨ e = timeout_error max_wait (target_path req).
Proof.
  unfold get_router_socket. destruct (collect_routes f req) as [f0 routes].
  destruct (route_to_socket_chan f0 !! _); [|intros [= _ <-]; by left].
  destruct (await_socket _ _ _ _ _) as [f1 [p|]]; [done|].
  destruct (try_fallback_sockets _ _ _) as [f2 [p|]]; [done|]. intros [= _ <-]. by right.
Qed.

(** A request for which no socket is found is answered with 404 or 503 and
    [connection: close], in the farm the selection left, and a [TRACE] request with
    405 in the unchanged farm: the portal has an answer whenever it has no
    socket. *)
Theorem portal_without_socket wakes w err_id f method uri headers addr tls ver body es f' e :
  select wakes f (portal_request config method uri headers addr) = (f', Err e) →
  ∃ status text,
    portal wakes w err_id f method uri headers addr tls ver body es =
      (if str_eqb method TRACE then f else f',
       Ret (PAnswer (Resp status (if str_eqb method TRACE then []
                                  else [(lit "connection", lit "close")]) text))) ∧
    status = (if str_eqb method TRACE then 405
              else if decide (e = no_route_error (uri_path uri)) then 404 else 503)%Z.
Proof.
  intros Hs. unfold visit_portal. destruct (str_eqb method TRACE); [by eexists _, _|].
  rewrite Hs. destruct (get_router_socket_err _ _ _ _ _ _ Hs) as [He|He].
  - rewrite decide_True by done. subst e. by eexists _, _.
  - rewrite decide_False by (subst e; done). subst e. by eexists _, _.
Qed.

End portal.

(** ** Witnesses *)

#[local] Existing Instance Alist.lib.
#[local] Existing Instance Alist.laws.

Module DemoRouter.

Definition any_filter : @SocketFilter Alist.headers := MkFilter (λ _ _ _ _ _ _, true) false true.

Definition config : CrankerRouterConfig unit SocketFilter (gset str → str → str) :=
  config_new any_filter resolve_default.

Definition addr : SocketAddr := MkAddr (V4 9) 80.
Definition no_dbg (o : option str) : str := [].
Definition no_ip (i : IpAddr) : str := [].

(** A connector of version 3 or 1 on the route [app]. *)
Definition headers : Alist.headers :=
  [(lit "sec-websocket-protocol", lit "cranker_9.9, cranker_3.0,cranker_1.0"); (lit "route", lit "app")].

Definition info : CrankerConnectorInfo :=
  MkConnectorInfo (lit "c-1234567") (lit "app") (lit "unknown-c-123") (lit "*") CRANKER_V_3_0.

Definition farm : Farm AnySocket := harvest_router_socket farm_new 1000 (lit "rs1") info addr.

Definition uri : Uri := MkUri (lit "/app/x") (Some (lit "/app/x")) None None None.
Definition other : Uri := MkUri (lit "/none") (Some (lit "/none")) None None None.

Definition quiet : Surroundings := MkSurroundings (λ _ s, s) id (λ _ s, s) id 1000 1001 1002.

Definition request (u : Uri) : Request AnySocket :=
  portal_request config (lit "GET") u ([] : Alist.headers) addr.

Definition selected (u : Uri) : Farm AnySocket * result nat CrankerRouterException :=
  get_router_socket (connector_max_wait_time_millis config) [] farm (request u).

End DemoRouter.

Lemma version_negotiation_witness :
  extract_cranker_version DemoRouter.no_dbg SUPPORTED_CRANKER_VERSION DemoRouter.headers =
  Ret (Ok CRANKER_V_3_0).
Proof.
  assert (Hn := version_negotiation DemoRouter.no_dbg SUPPORTED_CRANKER_VERSION DemoRouter.headers).
  assert (Hh : head (omap (SUPPORTED_CRANKER_VERSION !!.) (offers DemoRouter.headers)) = Some CRANKER_V_3_0)
    by (vm_compute; reflexivity).
  cbv zeta in Hn. rewrite Hh in Hn. apply Hn; intros v Hv; vm_compute in Hv; [|discriminate].
  injection Hv as <-. vm_compute. eexists. reflexivity.
Defined.

Lemma registration_adds_socket_witness :
  ∃ p s, heap DemoRouter.farm = <[p := s]> ∅ ∧ rs_cranker_version s = CRANKER_V_3_0 ∧
    route_chan DemoRouter.farm (lit "app") = [p].
Proof.
  destruct (registration_adds_socket DemoRouter.no_dbg DemoRouter.no_ip DemoRouter.config
    (lit "c-1234567") (lit "GET") DemoRouter.headers ∅ DemoRouter.addr DemoRouter.info farm_new 1000 (lit "rs1"))
    as (_ & _ & _ & p & s & _ & Hh & _ & _ & _ & _ & _ & Hv & _ & Hc & _).
  - vm_compute. reflexivity.
  - reflexivity.
  - exists p, s. split; [exact Hh|]. split; [exact Hv|exact Hc].
Defined.

Lemma portal_without_socket_witness :
  ∃ text, (visit_portal DemoRouter.no_ip DemoRouter.config [] [] [] [] (λ _, []) [] [] (λ _, []) []
    DemoRouter.quiet (lit "id") DemoRouter.farm (lit "GET") DemoRouter.other ([] : Alist.headers)
    DemoRouter.addr false HTTP_11 [] true).2 =
  Ret (PAnswer (Resp 404 [(lit "connection", lit "close")] text)).
Proof.
  destruct (portal_without_socket DemoRouter.no_ip DemoRouter.config [] [] [] [] (λ _, []) [] []
    (λ _, []) [] DemoRouter.quiet (lit "id") DemoRouter.farm (lit "GET") DemoRouter.other
    ([] : Alist.headers) DemoRouter.addr false HTTP_11 [] true (DemoRouter.selected DemoRouter.other).1
    (no_route_error (lit "/none"))) as (st & text & Hp & ->).
  - vm_compute. reflexivity.
  - exists text. rewrite Hp. reflexivity.
Defined.
