(* ===== verification/Waiting.v ===== *)
(** * Requests that wait for a socket

    A request for which no socket is free waits in [get_router_socket] until a
    socket comes or its time is over.  This file shows that it does not wait in
    vain: when a socket that it may use comes into the channel of its route, the
    request gets one at that moment, in particular when a connector registers. *)

From S2P Require Import Prelude RustStr Exceptions Http RouteResolver Config HttpUtils Farm SocketBase SocketV1 SocketV1Props SocketV3 SocketV3Props Router.

Section waiting.
Context {S : Type} `{RouterSocket S}.
Implicit Types (f : Farm S) (req : Request S) (p : nat) (wait : WaitAt).

(** The state of a request after the [wakes]: the socket it was given, or where
    it still waits. *)
Fixpoint await_state (wakes : list (Farm S → Farm S)) f req (c : str * nat) wait : Farm S * (nat + WaitAt) :=
  match wakes with
  | [] => (f, inr wait)
  | e :: es =>
      match resume (e f) req c wait with
      | (f, inl p) => (f, inl p)
      | (f, inr wait) => await_state es f req c wait
      end
  end.

Lemma await_socket_state wakes f req c wait :
  await_socket wakes f req c wait =
  ((await_state wakes f req c wait).1, choice (await_state wakes f req c wait).2).
Proof.
  revert f wait. induction wakes as [|e wakes IH]; intros f wait; [done|]. cbn.
  destruct (resume _ _ _ _) as [f1 [p|wait1]]; [done|]. apply IH.
Qed.

Lemma await_state_app ws1 ws2 f req c wait :
  await_state (ws1 ++ ws2) f req c wait =
  match await_state ws1 f req c wait with
  | (f1, inl p) => (f1, inl p)
  | (f1, inr wait1) => await_state ws2 f1 req c wait1
  end.
Proof.
  revert f wait. induction ws1 as [|e ws1 IH]; intros f wait; [done|]. cbn.
  destruct (resume _ _ _ _) as [f1 [p|wait1]]; [done|]. apply IH.
Qed.

(** ** One turn *)

Lemma scan_chan_finds f c p :
  p ∈ chan f c → usable f p → ∃ f' p', scan_chan f c = (f', Some p').
Proof.
  unfold scan_chan. intros Hp (s & Hs & Hr & Hd).
  destruct (fallback_scan f (dark_hosts f) (chan f c) []) as [[f1 q1] [p'|]] eqn:E; [by eexists _, _|].
  apply fallback_scan_spec in E as (_ & _ & Hn & _). specialize (Hn eq_refl p s Hp Hs Hr). congruence.
Qed.

(** The fall back looks at the channel that the request holds: the filter falls back
    to it, or it is the one that the map has for the catch-all route. *)
Definition falls_back_to f req (c : str * nat) : Prop :=
  should_fallback_to_first_path_matched req = true ∨
  (req_allow_catch_all req = true ∧ should_fallback_to_catch_all req = true ∧
   c.1 = STAR ∧ route_to_socket_chan f !! STAR = Some c.2).

Lemma try_fallback_finds f req c p :
  falls_back_to f req c → p ∈ chan f c → usable f p →
  ∃ f' p', try_fallback_sockets f req c = (f', Some p').
Proof.
  intros Hfb Hp Hu. unfold try_fallback_sockets. destruct (scan_chan_finds f c p Hp Hu) as (f' & p' & Hs).
  destruct (should_fallback_to_first_path_matched req) eqn:Ef; [rewrite Hs; by eexists _, _|].
  destruct Hfb as [Hfb|(-> & -> & Hc & Hn)]; [congruence|]. cbn [andb]. rewrite Hn, <- Hc, <- surjective_pairing, Hs.
  by eexists _, _.
Qed.

(** With the fall back to the channel, a usable socket is enough. *)
Lemma run_loop_fallback f req c precise visited p :
  falls_back_to f req c → p ∈ chan f c → usable f p →
  ∃ f' p', run_loop f req c precise visited = (f', inl p').
Proof.
  intros Hfb Hp Hu. unfold run_loop.
  destruct (filter_loop _ _ _ _ _ _) as [[f1 q1] lr] eqn:El.
  pose proof El as ([ts ->] & _ & _ & Hperm)%filter_loop_spec.
  assert (Hk : chosen_of lr = None → p ∈ q1).
  { intros Hn. rewrite Hn in Hperm. cbn in Hperm. rewrite app_nil_r in Hperm.
    assert (Hl : p ∈ filter (λ p, live f p = true) (chan f c)).
    { apply list_elem_of_filter. split; [|done]. destruct Hu as (s & Hs & Hr & _). unfold live. by rewrite Hs, Hr. }
    rewrite Hperm in Hl. by apply list_elem_of_filter in Hl as [_ ?]. }
  assert (Hscan : chosen_of lr = None → ∃ f' p', try_fallback_sockets (set_chan (spawn f ts) c q1) req c
                    = (f', Some p')).
  { intros Hn. apply (try_fallback_finds _ _ _ p); [done| |].
    - unfold chan in *. cbn. rewrite lookup_alter_eq. destruct (chans f !! c); [by apply Hk|].
      by apply elem_of_nil in Hp.
    - exact Hu. }
  destruct lr as [p'| |v|]; [by eexists _, _| | |].
  - destruct Hscan as (f' & p' & ->); [done|]. by eexists _, _.
  - apply filter_loop_blocked in El as ->. by apply elem_of_nil in Hk.
  - destruct Hscan as (f' & p' & ->); [done|]. by eexists _, _.
Qed.

(** Without it, the filter has to accept the socket; its id must be new. *)
Lemma run_loop_eligible f req c precise visited :
  NoDup (ids f (chan f c)) → Forall (λ x, x ∉ visited) (ids f (chan f c)) →
  Exists (eligible f req precise) (chan f c) →
  ∃ f' p', run_loop f req c precise visited = (f', inl p') ∧ p' ∈ chan f c.
Proof.
  intros Hnd Hv He. unfold run_loop.
  destruct (filter_loop_complete (Datatypes.S (length (chan f c))) req precise visited (chan f c) [] f)
    as [p Hp]; [lia|done..|]. rewrite app_nil_r in Hp.
  destruct (filter_loop _ _ _ _ _ _) as [[f2 q2] lr] eqn:El. cbn in Hp. subst lr.
  apply filter_loop_spec in El as (_ & Hc & _). eexists _, p. split; [done|]. by apply Hc.
Qed.

(** A request that waits can be served now. *)
Definition can_be_served f req (c : str * nat) wait : Prop :=
  (falls_back_to f req c ∧ ∃ p, p ∈ chan f c ∧ usable f p) ∨
  match wait with
  | AtNotify => NoDup (ids f (chan f c)) ∧
      Exists (eligible f req (find_precise_match f req c.1).2) (chan f c)
  | AtRecv precise visited => NoDup (ids f (chan f c)) ∧
      Forall (λ x, x ∉ visited) (ids f (chan f c)) ∧ Exists (eligible f req precise) (chan f c)
  end.

Lemma resume_serves f req c wait :
  can_be_served f req c wait → ∃ f' p, resume f req c wait = (f', inl p).
Proof.
  intros [[Hfb (p & Hp & Hu)]|Hs].
  - destruct wait as [precise visited|]; cbn; [by eapply run_loop_fallback|]. unfold main_turn.
    destruct (find_precise_match f req c.1) as [f1 b] eqn:E. apply find_precise_spawns in E as [ts ->].
    by eapply run_loop_fallback.
  - destruct wait as [precise visited|]; cbn.
    { destruct (run_loop_eligible f req c precise visited) as (f' & p & -> & _); [apply Hs..|]. by eexists _, _. }
    destruct (eligible_socket_is_found f req c) as (f' & p & -> & _); [apply Hs..|]. by eexists _, _.
Qed.

(** ** The catch-all route *)

(** C32: where the filter allows the fall back to the catch-all route, its sockets
    serve in two ranks and nobody waits: as long as one socket of the channel that
    the map has for it is usable, a request on the catch-all route is given a socket
    in its first turn, one that the filter accepts if there is one (the ids in the
    channel being distinct), and otherwise any usable one. *)
Theorem catch_all_never_waits f req n p :
  req_allow_catch_all req = true → should_fallback_to_catch_all req = true →
  route_to_socket_chan f !! STAR = Some n →
  let c := (STAR, n) in
  NoDup (ids f (chan f c)) → p ∈ chan f c → usable f p →
  let accepted := eligible f req (find_precise_match f req STAR).2 in
  ∃ f' p', main_turn f req c = (f', inl p') ∧ usable f p' ∧
    (Exists accepted (chan f c) → accepted p').
Proof.
  intros Ha Hb Hn c Hnd Hp Hu accepted.
  assert (Hm : ∃ f' p', main_turn f req c = (f', inl p')).
  { apply (resume_serves f req c AtNotify). left. split; [by right|]. by exists p. }
  destruct Hm as (f' & p' & Hm). exists f', p'. split; [exact Hm|]. split.
  - apply main_turn_moves in Hm as [_ Hu']. by apply Hu'.
  - intros He. destruct (eligible_socket_is_found f req c Hnd He) as (f2 & p2 & Hm2 & _ & Hel).
    rewrite Hm in Hm2. by injection Hm2 as _ ->.
Qed.

(** ** Waiting *)

(** Whatever happened while it waited, a request that still waits when [e] brings
    a socket it can be served with gets a socket, whatever would come later. *)
Lemma waiting_served max_wait ws1 e ws2 f req n :
  let f0 := (collect_routes f req).1 in
  let route := resolve_route req (collect_routes f req).2 (target_path req) in
  route_to_socket_chan f0 !! route = Some n →
  ∀ f1 wait,
  await_state (id :: ws1) (with_waiting f0 (wrap32 (waiting_task_count f0 + 1))) req (route, n) AtNotify
    = (f1, inr wait) →
  can_be_served (e f1) req (route, n) wait →
  ∃ f2 p, resume (e f1) req (route, n) wait = (f2, inl p) ∧
    get_router_socket max_wait (ws1 ++ e :: ws2) f req =
      (with_waiting f2 (wrap32 (waiting_task_count f2 + -1)), Ok p).
Proof.
  unfold get_router_socket. destruct (collect_routes f req) as [f0 routes]. cbn [fst snd].
  intros Hq f1 wait Ha Hs. rewrite Hq, await_socket_state.
  change (id :: ws1 ++ e :: ws2) with ((id :: ws1) ++ e :: ws2). rewrite await_state_app, Ha.
  cbn [await_state]. destruct (resume_serves _ _ _ _ Hs) as (f2 & p & Hr). exists f2, p. by rewrite Hr.
Qed.

(** A request that waits to the end gets its fall back or nothing. *)
Lemma waiting_expires max_wait ws f req n :
  let f0 := (collect_routes f req).1 in
  let route := resolve_route req (collect_routes f req).2 (target_path req) in
  route_to_socket_chan f0 !! route = Some n →
  ∀ f1 wait,
  await_state (id :: ws) (with_waiting f0 (wrap32 (waiting_task_count f0 + 1))) req (route, n) AtNotify
    = (f1, inr wait) →
  ∀ f2,
  try_fallback_sockets (with_waiting f1 (wrap32 (waiting_task_count f1 + -1))) req (route, n) = (f2, None) →
  get_router_socket max_wait ws f req = (f2, Err (timeout_error max_wait (target_path req))).
Proof.
  unfold get_router_socket. destruct (collect_routes f req) as [f0 routes]. cbn [fst snd].
  intros Hq f1 wait Ha f2 Hf. rewrite Hq, await_socket_state, Ha. cbn. by rewrite Hf.
Qed.

(** A request that is blocked on its channel has emptied it. *)
Lemma run_loop_blocked f req c precise visited f' precise' visited' :
  run_loop f req c precise visited = (f', inr (AtRecv precise' visited')) → chan f' c = [].
Proof.
  unfold run_loop. destruct (filter_loop _ _ _ _ _ _) as [[f1 q1] lr] eqn:El.
  destruct lr as [p| |v|]; [done| | |].
  - by destruct (try_fallback_sockets _ _ _) as [? []].
  - apply filter_loop_blocked in El as ->. intros [= <- _ _]. unfold chan. cbn. rewrite lookup_alter_eq.
    by destruct (chans f1 !! c).
  - by destruct (try_fallback_sockets _ _ _) as [? []].
Qed.

Lemma resume_blocked f req c wait f' precise visited :
  resume f req c wait = (f', inr (AtRecv precise visited)) → chan f' c = [].
Proof.
  destruct wait; cbn; [apply run_loop_blocked|]. unfold main_turn.
  destruct (find_precise_match f req c.1). apply run_loop_blocked.
Qed.

Lemma await_blocked wakes f req c wait f' precise visited :
  wakes ≠ [] → await_state wakes f req c wait = (f', inr (AtRecv precise visited)) → chan f' c = [].
Proof.
  revert f wait. induction wakes as [|e wakes IH]; intros f wait Hne; [done|]. cbn.
  destruct (resume _ _ _ _) as [f1 [p|wait1]] eqn:E; [done|].
  destruct wakes as [|e2 wakes]; [|by apply IH]. cbn. intros [= <- ->]. by eapply resume_blocked.
Qed.

End waiting.

(** ** A connector registers *)

(** The socket [harvest_router_socket] makes of the websocket. *)
Definition harvested (now : Z) (rsid : str) (info : CrankerConnectorInfo) (addr : SocketAddr)
  : option AnySocket :=
  if str_eqb (negotiated_cranker_version info) CRANKER_V_1_0 then
    Some (SV1 (v1_new (MkV1Info (ci_route info) (ci_component_name info) rsid (ci_connector_id info) addr) now))
  else if str_eqb (negotiated_cranker_version info) CRANKER_V_3_0 then
    Some (SV3 (v3_new (ci_route info) (ci_domain info) (ci_component_name info) rsid (ci_connector_id info) addr
                 now))
  else None.

Lemma harvested_socket now rsid info addr s :
  harvested now rsid info addr = Some s →
  rs_route s = ci_route info ∧ rs_id s = rsid ∧ rs_addr s = addr ∧ rs_is_removed s = false.
Proof. unfold harvested. destruct (str_eqb _ _); [|destruct (str_eqb _ _)]; intros [= <-]; done. Qed.

Lemma harvest_is_add f now rsid info addr s :
  harvested now rsid info addr = Some s →
  ∃ p, heap f !! p = None ∧ harvest_router_socket f now rsid info addr =
    add_router_socket_in_background (with_heap f (<[p := s]> (heap f))) p.
Proof.
  intros Hs. exists (fresh (used_ptrs f)). split.
  - apply not_elem_of_dom. pose proof (is_fresh (used_ptrs f)). unfold used_ptrs in *. set_solver.
  - unfold harvest_router_socket, harvested in *.
    destruct (str_eqb _ _); [by injection Hs as <-|]. destruct (str_eqb _ _); [by injection Hs as <-|done].
Qed.

(** It is alone at its address, and the last one in the channel that the map then has
    for its route. *)
Lemma harvest_adds f now rsid info addr s :
  harvested now rsid info addr = Some s →
  let f' := harvest_router_socket f now rsid info addr in
  ∃ p, heap f !! p = None ∧ heap f' = <[p := s]> (heap f) ∧
    route_chan f' (ci_route info) = route_chan f (ci_route info) ++ [p] ∧
    (∀ c, chan f c ⊆ chan f' c) ∧ dark_hosts f' = dark_hosts f ∧
    sockets f' = <[ci_route info := <[rsid := p]> (default ∅ (sockets f !! ci_route info))]> (sockets f) ∧
    is_Some (route_to_socket_chan f' !! ci_route info) ∧
    ∀ r n, route_to_socket_chan f !! r = Some n → route_to_socket_chan f' !! r = Some n.
Proof.
  intros Hs f'. destruct (harvested_socket _ _ _ _ _ Hs) as (Hroute & Hid & _).
  destruct (harvest_is_add f now rsid info addr s Hs) as (p & Hp & Hf).
  assert (Hps : heap (with_heap f (<[p := s]> (heap f))) !! p = Some s) by apply lookup_insert_eq.
  destruct (add_router_socket_spec _ _ _ Hps) as (n & _ & _ & _ & Hk & _ & Hh & Hd & _).
  destruct (add_route_chan _ _ _ Hps) as (Hc & Hsub & Hsome & Hkeep).
  rewrite <- Hf in *. rewrite Hroute in *. rewrite Hid in Hk. exists p. by split_and!.
Qed.

(** The request is blocked on its channel, the filter accepts the socket, whose id
    is new, and no socket of a more precise domain is preferred to it. *)
Definition takes_new_socket (req : Request AnySocket) (wait : WaitAt) (s : AnySocket) : Prop :=
  match wait with
  | AtRecv precise visited =>
      (rs_id s ∉ visited) ∧ (precise = true → rs_domain s ≠ STAR) ∧ should_use req s = true
  | AtNotify => False
  end.

Lemma new_socket_taken (f : Farm AnySocket) (req : Request AnySocket) c precise visited p s :
  heap f !! p = Some s → is_dark_mode_on s (dark_hosts f) = false → rs_is_removed s = false → chan f c = [p] →
  takes_new_socket req (AtRecv precise visited) s →
  can_be_served f req c (AtRecv precise visited) ∧
  ∃ f', resume f req c (AtRecv precise visited) = (f', inl p).
Proof.
  intros Hp Hd Hrem Hc (Hv & Hpr & Hu).
  assert (Hs : NoDup (ids f (chan f c)) ∧ Forall (λ x, x ∉ visited) (ids f (chan f c)) ∧
    Exists (eligible f req precise) (chan f c)).
  { assert (Hids : ids f (chan f c) = [rs_id s]) by (unfold ids, omap, list_omap; by rewrite Hc, Hp).
    rewrite Hids, Hc. split_and!; [apply NoDup_singleton|by repeat constructor|]. left. by exists s. }
  split; [by right|]. destruct Hs as (H1 & H2 & H3).
  destruct (run_loop_eligible f req c precise visited H1 H2 H3) as (f' & p' & Hr & Hin). exists f'.
  rewrite Hc in Hin. by apply list_elem_of_singleton in Hin as <-.
Qed.

(** A request that waits at its route is served the moment a connector registers
    on that route from an address that is not in dark mode, as long as the map still
    has the channel that the request holds: always when the filter falls back to the
    route (or the route is the catch-all one), and otherwise when the request is
    blocked on the empty channel of the route, the filter accepts the new socket, and
    the socket is of the domain of the request if others are.  What else happened to
    the router since the request came, and what would happen later, does not matter.
    In the second case the request gets the new socket itself. *)
Theorem registration_serves_waiting_request max_wait ws1 ws2 f (req : Request AnySocket) n now rsid info addr s :
  harvested now rsid info addr = Some s →
  let f0 := (collect_routes f req).1 in
  let route := resolve_route req (collect_routes f req).2 (target_path req) in
  route_to_socket_chan f0 !! route = Some n → ci_route info = route →
  ∀ f1 wait,
  await_state (id :: ws1) (with_waiting f0 (wrap32 (waiting_task_count f0 + 1))) req (route, n) AtNotify
    = (f1, inr wait) →
  route_to_socket_chan f1 !! route = Some n →
  is_dark_mode_on s (dark_hosts f1) = false →
  falls_back_to f1 req (route, n) ∨ takes_new_socket req wait s →
  ∃ f' p, get_router_socket max_wait
      (ws1 ++ (λ f, harvest_router_socket f now rsid info addr) :: ws2) f req = (f', Ok p) ∧
    (takes_new_socket req wait s → heap f' !! p = Some s).
Proof.
  intros Hh. pose proof (waiting_served max_wait ws1 (λ f, harvest_router_socket f now rsid info addr) ws2 f req n) as Hw.
  intros f0 route Hq Hroute f1 wait Ha Hn Hd Hc.
  destruct (harvested_socket _ _ _ _ _ Hh) as (_ & Hid & _ & Hrem).
  destruct (harvest_adds f1 now rsid info addr s Hh) as (p & _ & Hheap & Hchan & _ & Hdark & _ & _ & Hkeep).
  rewrite Hroute in Hchan. set (f2 := harvest_router_socket f1 now rsid info addr) in *.
  unfold route_chan in Hchan. rewrite Hn, (Hkeep _ _ Hn) in Hchan.
  assert (Hp : heap f2 !! p = Some s) by (rewrite Hheap; apply lookup_insert_eq).
  assert (Hblocked : takes_new_socket req wait s →
     can_be_served f2 req (route, n) wait ∧ ∃ f', resume f2 req (route, n) wait = (f', inl p)).
  { intros Ht. destruct wait as [precise visited|]; [|done]. apply await_blocked in Ha; [|done].
    rewrite Ha in Hchan. by apply new_socket_taken with s; [|rewrite Hdark|..]. }
  destruct (Hw Hq f1 wait Ha) as (f3 & p' & Hr & Hg).
  { destruct Hc as [Hfb|Hc]; [|by apply Hblocked]. left. split.
    - destruct Hfb as [?|(? & ? & Hs & Hm)]; [by left|right]. split_and!; try done. by apply Hkeep.
    - exists p. change (p ∈ chan f2 (route, n) ∧ usable f2 p). rewrite Hchan. split; [set_solver|].
      exists s. by rewrite Hdark. }
  eexists _, p'. split; [exact Hg|]. intros Ht. destruct (Hblocked Ht) as (_ & f4 & Hr').
  pose proof (eq_trans (eq_sym Hr) Hr') as [= <- ->]. clear Hr.
  apply resume_moves in Hr' as [Hm _]. cbn. by rewrite (mv_heap _ _ _ Hm).
Qed.

(** ** A route that was cleaned away

    The channel that a request holds can be lost to the map while the request waits:
    the route had no socket for the keep time and was cleaned.  A connector that then
    registers on the route gets another channel. *)

(** The request waits on an empty channel that the map has lost. *)
Definition stranded (f : Farm AnySocket) (c : str * nat) : Prop :=
  chans f !! c = Some [] ∧ route_to_socket_chan f !! c.1 ≠ Some c.2.

Lemma stranded_harvest f c now rsid info addr :
  stranded f c →
  let f' := harvest_router_socket f now rsid info addr in
  stranded f' c ∧ ∀ r, r ≠ ci_route info → route_to_socket_chan f' !! r = route_to_socket_chan f !! r.
Proof.
  intros [Hc Hm] f'. destruct (harvested now rsid info addr) as [s|] eqn:Hs.
  - destruct (harvested_socket _ _ _ _ _ Hs) as [Hroute _].
    destruct (harvest_is_add f now rsid info addr s Hs) as (p & _ & Hf). subst f'. rewrite Hf.
    destruct (add_router_socket_spec (with_heap f (<[p := s]> (heap f))) p s) as (n & Hr & Hn & Hch & _);
      [apply lookup_insert_eq|]. cbn [route_to_socket_chan chans with_heap] in Hr, Hn, Hch.
    assert (Hne : c ≠ (rs_route s, n)).
    { intros ->. cbn [fst snd] in Hm. destruct (route_to_socket_chan f !! rs_route s); congruence. }
    unfold stranded. rewrite Hr, Hch, lookup_insert_ne by done. rewrite <- Hroute.
    split; [split; [done|]|intros r ?; by apply lookup_insert_ne].
    destruct (decide (c.1 = rs_route s)) as [He|]; [|by rewrite lookup_insert_ne].
    rewrite He, lookup_insert_eq. intros [= ->]. apply Hne. by rewrite <- He, <- surjective_pairing.
  - assert (Hf : f' = f); [|by rewrite Hf]. revert Hs. unfold f', harvested, harvest_router_socket.
    destruct (str_eqb _ _); [done|]. by destruct (str_eqb _ _).
Qed.

Lemma set_chan_stranded f c : stranded f c → set_chan f c [] = f.
Proof.
  intros [Hc _]. unfold set_chan, with_chans. destruct f. cbn in *. f_equal.
  apply map_eq. intros i. destruct (decide (i = c)) as [->|]; [by rewrite lookup_alter_eq, Hc|].
  by rewrite lookup_alter_ne.
Qed.

(** A turn on it blocks and touches no socket. *)
Lemma stranded_resume f (req : Request AnySocket) c wait :
  stranded f c →
  ∃ f' precise visited, resume f req c wait = (f', inr (AtRecv precise visited)) ∧ stranded f' c ∧
    ∃ ts, f' = spawn f ts.
Proof.
  assert (Hloop : ∀ g precise visited, stranded g c →
    run_loop g req c precise visited = (set_chan g c [], inr (AtRecv precise visited))).
  { intros g precise visited [Hc _]. unfold run_loop, chan. by rewrite Hc. }
  intros Hs. destruct wait as [precise visited|]; cbn.
  - exists f, precise, visited. rewrite Hloop, set_chan_stranded by done. split_and!; try done. apply only_spawns_refl.
  - unfold main_turn. destruct (find_precise_match f req c.1) as [f1 b] eqn:E. apply find_precise_spawns in E as [ts ->].
    exists (spawn f ts), b, ∅. rewrite Hloop, set_chan_stranded by done. split_and!; try done. by exists ts.
Qed.

(** The fall back finds nothing in it. *)
Lemma stranded_no_fallback f (req : Request AnySocket) c :
  stranded f c →
  req_allow_catch_all req && should_fallback_to_catch_all req = false ∨ route_to_socket_chan f !! STAR = None →
  try_fallback_sockets f req c = (f, None).
Proof.
  intros Hs Hfb. unfold try_fallback_sockets.
  assert (Hscan : (if should_fallback_to_first_path_matched req then scan_chan f c else (f, None)) = (f, None)).
  { destruct (should_fallback_to_first_path_matched req); [|done]. unfold scan_chan, chan.
    rewrite (proj1 Hs). cbn. by rewrite set_chan_stranded. }
  rewrite Hscan. destruct (_ && _); [|done]. by destruct Hfb as [?| ->].
Qed.

(** A connector registers: the time, the id of its socket, what it says of itself and
    its address. *)
Definition Registration : Type := Z * str * CrankerConnectorInfo * SocketAddr.

Definition registers (r : Registration) (f : Farm AnySocket) : Farm AnySocket :=
  let '(now, rsid, info, addr) := r in harvest_router_socket f now rsid info addr.

Definition reg_route (r : Registration) : str := ci_route r.1.2.
Definition reg_socket (r : Registration) : option AnySocket :=
  let '(now, rsid, info, addr) := r in harvested now rsid info addr.

Lemma reg_socket_live r s : reg_socket r = Some s → rs_is_removed s = false.
Proof. destruct r as [[[now rsid] info] addr]. intros Hs. by destruct (harvested_socket _ _ _ _ _ Hs) as (_ & _ & _ & ?). Qed.

(** Nothing that was there is lost. *)
Definition farm_grows (f f' : Farm AnySocket) : Prop :=
  heap f ⊆ heap f' ∧ (∀ r p, p ∈ route_chan f r → p ∈ route_chan f' r) ∧ dark_hosts f' = dark_hosts f.

Lemma farm_grows_refl f : farm_grows f f.
Proof. by split_and!. Qed.

Lemma farm_grows_trans f1 f2 f3 : farm_grows f1 f2 → farm_grows f2 f3 → farm_grows f1 f3.
Proof.
  intros (Hh & Hc & Hd) (Hh' & Hc' & Hd'). split_and!; [by etrans|by auto|by rewrite Hd'].
Qed.

Lemma registers_grows f r s :
  reg_socket r = Some s →
  farm_grows f (registers r f) ∧
  ∃ p, heap (registers r f) !! p = Some s ∧ p ∈ route_chan (registers r f) (reg_route r).
Proof.
  destruct r as [[[now rsid] info] addr]. cbn. intros Hs.
  destruct (harvest_adds f now rsid info addr s Hs) as (p & Hp & Hh & Hc & Hsub & Hd & _ & _ & Hkeep). split.
  - split_and!; [rewrite Hh; by apply insert_subseteq| |done].
    intros r q. unfold route_chan. destruct (route_to_socket_chan f !! r) as [n|] eqn:E; [|by intros ?%elem_of_nil].
    rewrite (Hkeep _ _ E). apply Hsub.
  - exists p. rewrite Hh, lookup_insert_eq. unfold reg_route. cbn [fst snd]. rewrite Hc. set_solver.
Qed.

(** A stranded request waits on, however many connectors register. *)
Lemma stranded_waits (req : Request AnySocket) c (rs : list Registration) f wait :
  stranded f c →
  ∃ f' wait', await_state (registers <$> rs) f req c wait = (f', inr wait') ∧ stranded f' c ∧ farm_grows f f' ∧
    (∀ r s, r ∈ rs → reg_socket r = Some s → ∃ p, heap f' !! p = Some s ∧ p ∈ route_chan f' (reg_route r)) ∧
    (∀ x, Forall (λ r, reg_route r ≠ x) rs → route_to_socket_chan f' !! x = route_to_socket_chan f !! x).
Proof.
  revert f wait. induction rs as [|r rs IH]; intros f wait Hs.
  { exists f, wait. split_and!; try done. by intros ? ? ?%elem_of_nil. }
  cbn. assert (H1 : stranded (registers r f) c ∧
    ∀ x, x ≠ reg_route r → route_to_socket_chan (registers r f) !! x = route_to_socket_chan f !! x).
  { destruct r as [[[now rsid] info] addr]. by apply stranded_harvest. }
  assert (Hg : farm_grows f (registers r f)).
  { destruct (reg_socket r) as [s|] eqn:E; [by apply (registers_grows f r s)|].
    destruct r as [[[now rsid] info] addr]. cbn in *. revert E. unfold harvested, harvest_router_socket.
    destruct (str_eqb _ _); [done|]. by destruct (str_eqb _ _). }
  destruct H1 as [H1 Hx]. destruct (stranded_resume _ req c wait H1) as (f1 & b & v & -> & H2 & ts & ->).
  destruct (IH _ (AtRecv b v) H2) as (f' & w' & Hw & H3 & Hg' & Hall & Hmap).
  exists f', w'. split_and!; [done..| | |].
  - by eapply farm_grows_trans.
  - intros r' s [->|Hr]%elem_of_cons Hs'; [|by eapply Hall].
    destruct (registers_grows f r s Hs') as [_ (p & Hp & Hc)]. destruct Hg' as (Hh & Hcs & _).
    exists p. split; [by eapply lookup_weaken|by apply Hcs].
  - intros x [Hr Hrs]%Forall_cons_1. rewrite Hmap by done. by apply Hx.
Qed.

(** C31: a request whose channel the map has lost is stranded: while it waited, its
    route had no socket for the keep time, was cleaned away, and connectors
    registered on it anew.  However many of them come, the request gets none of
    their sockets and fails with 503 when its time is over (unless there is a
    catch-all route it may fall back to), although each of the sockets whose host is
    not in dark mode is usable and in the channel that the map has for the route. *)
Theorem cleaned_route_strands_request max_wait ws1 rs f (req : Request AnySocket) n :
  let f0 := (collect_routes f req).1 in
  let route := resolve_route req (collect_routes f req).2 (target_path req) in
  route_to_socket_chan f0 !! route = Some n →
  ∀ f1 wait,
  await_state (id :: ws1) (with_waiting f0 (wrap32 (waiting_task_count f0 + 1))) req (route, n) AtNotify
    = (f1, inr wait) →
  stranded f1 (route, n) →
  req_allow_catch_all req && should_fallback_to_catch_all req = false ∨
    (route_to_socket_chan f1 !! STAR = None ∧ route ≠ STAR) →
  Forall (λ r, reg_route r = route) rs →
  ∃ f', get_router_socket max_wait (ws1 ++ (registers <$> rs)) f req =
      (f', Err (timeout_error max_wait (target_path req))) ∧
    ∀ r s, r ∈ rs → reg_socket r = Some s → is_dark_mode_on s (dark_hosts f1) = false →
    ∃ p, heap f' !! p = Some s ∧ usable f' p ∧ p ∈ route_chan f' route.
Proof.
  intros f0 route Hn f1 wait Ha Hs Hfb Hrs.
  destruct (stranded_waits req (route, n) rs f1 wait Hs) as (f2 & w2 & Hw & Hs2 & (_ & _ & Hdark) & Hall & Hmap).
  exists (with_waiting f2 (wrap32 (waiting_task_count f2 + -1))). split.
  - eapply (waiting_expires max_wait _ f req n Hn f2 w2).
    + change (id :: ws1 ++ (registers <$> rs)) with ((id :: ws1) ++ (registers <$> rs)).
      rewrite await_state_app. fold f0 route. by rewrite Ha.
    + apply stranded_no_fallback; [exact Hs2|]. destruct Hfb as [?|[Hstar Hne]]; [by left|right]. cbn.
      rewrite Hmap; [done|]. eapply list.Forall_impl; [exact Hrs|]. intros r Hr. cbn in Hr. by rewrite Hr.
  - intros r s Hr Hrsock Hd. destruct (Hall r s Hr Hrsock) as (p & Hp & Hc).
    rewrite list.Forall_forall in Hrs. rewrite (Hrs r Hr) in Hc. exists p. split_and!; [done| |done].
    exists s. split_and!; [done|by eapply reg_socket_live|]. cbn. by rewrite Hdark.
Qed.

(** ** A concrete wait

    The only socket of the route, of version 1, was handed to another request; the
    next request waits on the empty channel until a connector registers. *)

#[local] Existing Instance Alist.lib.

Module DemoWaiting.

Definition v1_info : CrankerConnectorInfo :=
  MkConnectorInfo (lit "c-1") (lit "app") (lit "comp") (lit "*") CRANKER_V_1_0.

Definition busy : Farm AnySocket :=
  (get_router_socket 100 [] (harvest_router_socket farm_new 1 (lit "rs0") v1_info DemoRouter.addr)
     (DemoRouter.request DemoRouter.uri)).1.

Definition blocked : Farm AnySocket * (nat + WaitAt) :=
  let '(f0, routes) := collect_routes busy (DemoRouter.request DemoRouter.uri) in
  await_state [id] (with_waiting f0 (wrap32 (waiting_task_count f0 + 1))) (DemoRouter.request DemoRouter.uri)
    (lit "app", 0) AtNotify.

Definition socket : AnySocket :=
  SV3 (v3_new (lit "app") (lit "*") (lit "unknown-c-123") (lit "rs1") (lit "c-1234567") DemoRouter.addr 1000).

(** The websocket of the first socket closes, and the route is cleaned when no
    socket has come for the keep time. *)
Definition cleaned (f : Farm AnySocket) : Farm AnySocket :=
  clean_routes_in_background (remove_router_socket_in_background f 2 (lit "app") (lit "rs0") 0) 100 50.

Definition on_cleaned : Farm AnySocket * (nat + WaitAt) :=
  let '(f0, routes) := collect_routes busy (DemoRouter.request DemoRouter.uri) in
  await_state [id; cleaned] (with_waiting f0 (wrap32 (waiting_task_count f0 + 1)))
    (DemoRouter.request DemoRouter.uri) (lit "app", 0) AtNotify.

Definition newcomer : Registration := (1000%Z, lit "rs1", DemoRouter.info, DemoRouter.addr).

End DemoWaiting.

Lemma registration_serves_waiting_request_witness :
  ∃ f' p, get_router_socket 100
      [λ f, harvest_router_socket f 1000 (lit "rs1") DemoRouter.info DemoRouter.addr]
      DemoWaiting.busy (DemoRouter.request DemoRouter.uri) = (f', Ok p) ∧
    heap f' !! p = Some DemoWaiting.socket.
Proof.
  destruct (registration_serves_waiting_request 100 [] [] DemoWaiting.busy (DemoRouter.request DemoRouter.uri)
    0 1000 (lit "rs1") DemoRouter.info DemoRouter.addr DemoWaiting.socket ltac:(reflexivity)
    ltac:(vm_compute; reflexivity) ltac:(vm_compute; reflexivity)
    DemoWaiting.blocked.1 (AtRecv false ∅)) as (f' & p & Hg & Hh).
  - vm_compute. reflexivity.
  - vm_compute. reflexivity.
  - vm_compute. reflexivity.
  - right. split; [apply not_elem_of_empty|]. split; [discriminate|]. vm_compute. reflexivity.
  - exists f', p. split; [exact Hg|]. apply Hh. split; [apply not_elem_of_empty|]. split; [discriminate|].
    vm_compute. reflexivity.
Defined.

Lemma cleaned_route_strands_request_witness :
  ∃ f' p, get_router_socket 100 [DemoWaiting.cleaned; registers DemoWaiting.newcomer]
      DemoWaiting.busy (DemoRouter.request DemoRouter.uri) =
      (f', Err (timeout_error 100 (lit "/app/x"))) ∧
    heap f' !! p = Some DemoWaiting.socket ∧ usable f' p ∧ p ∈ route_chan f' (lit "app").
Proof.
  destruct (cleaned_route_strands_request 100 [DemoWaiting.cleaned] [DemoWaiting.newcomer] DemoWaiting.busy
    (DemoRouter.request DemoRouter.uri) 0 ltac:(vm_compute; reflexivity)
    DemoWaiting.on_cleaned.1 (AtRecv false ∅)) as (f' & Hg & Hall).
  - vm_compute. reflexivity.
  - split; [vm_compute; reflexivity|]. intros Hn. vm_compute in Hn. discriminate.
  - right. split; [vm_compute; reflexivity|]. intros Hn. vm_compute in Hn. discriminate.
  - constructor; [|constructor]. vm_compute. reflexivity.
  - destruct (Hall DemoWaiting.newcomer DemoWaiting.socket) as (p & Hp & Hu & Hc);
      [by left|vm_compute; reflexivity|vm_compute; reflexivity|].
    exists f', p. split; [exact Hg|]. by split_and!.
Defined.
