(* ===== verification/EndToEnd.v ===== *)
(** * From the registration of a connector to the answer of a client

    The parts put together: a connector registers ([harvest_router_socket]), a
    client sends a request to the portal ([visit_portal]), the farm hands out the
    socket ([get_router_socket]), the socket sends the request and receives the
    answer ([SocketV3]).  Once the connector is there first, and once the request
    is there first and waits. *)

From S2P Require Import Prelude RustStr Exceptions Http RouteResolver Forwarded Config HttpUtils CrankerProtocol Frames FlowControl Farm SocketBase SocketV1 SocketV3 SocketV3Props Upload Exchange Listeners Router Waiting.

Section end_to_end.
Context {HM : Type} `{HttpLib HM} {L : Type}.
Context (ip_to_string : IpAddr → str).
Context (config : CrankerRouterConfig L (@SocketFilter HM) (gset str → str → str)).
Context (listeners1 : list (ProxyListener RouterSocketV1 HM)).
Context (listeners3 : list (ProxyListener RequestContext HM)).
Context (send_err_dbg recv_err_dbg : str) (utf8_err_dbg : str → str) (debug_strs : list str → str).
Context (http_err_dbg : str) (local_ip : str) (version_debug : Version → str).
Hypothesis Hquiet : Forall quiet listeners3.
Implicit Types (f : Farm AnySocket).

#[local] Abbreviation portal := (visit_portal ip_to_string config listeners1 listeners3 send_err_dbg
  recv_err_dbg debug_strs http_err_dbg local_ip version_debug).
#[local] Abbreviation max_wait := (connector_max_wait_time_millis config).

(** The connector answers the request in frames. *)
Definition connector_answers (frames : list str) (s : RouterSocketV3) : RouterSocketV3 :=
  match on_binaries listeners3 send_err_dbg utf8_err_dbg s frames with Ret s' => s' | Panic => s end.

(** It acknowledges the body of the request chunk by chunk. *)
Definition connector_acknowledges (acks : list (list Z)) (i : nat) : RouterSocketV3 → RouterSocketV3 :=
  connector_answers (map (window_update_message 1) (default [] (acks !! i))).

(** A client request, and what the connector answers to it. *)
Record ClientExchange := MkExchange {
  x_method : str;
  x_uri : Uri;
  x_headers : HM;
  x_addr : SocketAddr;
  x_is_tls : bool;
  x_version : Version;
  x_is_end : bool;
  x_text : str;
  x_chunks : list str
}.

Definition x_request (x : ClientExchange) : Request AnySocket :=
  portal_request config (x_method x) (x_uri x) (x_headers x) (x_addr x).

(** The body that the portal passes on: none unless the request says that it has
    one. *)
Definition x_body (x : ClientExchange) (body : list str) : option (list str) :=
  if has_body (x_version x) (x_headers x) (x_is_end x) then Some body else None.

Lemma portal_body x body :
  (if has_body (x_version x) (x_headers x) (x_is_end x) then Some (map (@Ok str str) body) else None) =
  map Ok <$> x_body x body.
Proof. unfold x_body. by destruct (has_body _ _ _). Qed.

(** The request can be sent, with the headers [hdr], and its body is acknowledged
    in time; the answer is a response. *)
Record exchange_ok (x : ClientExchange) (body : list str) (acks : list (list Z)) (cl : bool) (hdr : HM)
  (res : Z * HM) : Prop := {
  xo_method : x_method x ≠ TRACE;
  xo_in_time : in_time 1 (request_header_text (x_method x) (x_uri x) hdr) (x_body x body) acks = true;
  xo_headers : set_target_request_headers local_ip ip_to_string version_debug config (x_headers x) hm_new
    (x_version x) (x_addr x) (x_uri x) (x_is_tls x) = Ret (cl, hdr);
  xo_utf8 : utf8_valid (x_text x) = true;
  xo_len : (Z.of_nat (length (x_text x)) ≤ i32_max)%Z;
  xo_chunks : Forall (λ c, c ≠ []) (x_chunks x);
  xo_response : ∃ cpr, CrankerProtocol.try_from_string (x_text x) = Ok cpr ∧
    response_build debug_strs cpr = Ok (Some res)
}.

(** What the client and the connector see when the exchange is over: the answer
    of the portal, the body, and the messages on the websocket of the socket [p],
    which was [s0] before. *)
Definition answered (x : ClientExchange) (body : list str) (hdr : HM) (res : Z * HM) (r : Farm AnySocket * outcome PortalRes)
  (p : nat) : Prop :=
  ∃ s c parts, r.2 = Ret (PProxied res) ∧ heap r.1 !! p = Some (SV3 s) ∧ ctx_heap s !! 0 = Some c ∧
    tgt_res_bdy c = MkChan (map Ok (x_chunks x)) true ∧ concat parts = x_text x ∧
    wss_send_task s = MkChan (
      request_frames 1 (request_header_text (x_method x) (x_uri x) hdr) (x_body x body) ++
      map (ack 1) (parts ++ x_chunks x)) false.

(** Only what the other tasks do counts. *)
Lemma send_body_ext env env' hdr p id i body s :
  (∀ i s, env i s = env' i s) →
  send_body (@nil (ProxyListener RequestContext HM)) send_err_dbg env hdr p id i body s =
  send_body [] send_err_dbg env' hdr p id i body s.
Proof.
  intros He. revert i s. induction body as [|[b|e] body IH]; intros i s; [done| |done]. cbn [send_body].
  destruct (send_chunk _ _ _ _ _ _) as [s1 [u|e]]; [|done]. by rewrite !He, !IH.
Qed.

Lemma on_client_req_ext env env' late late' s version method uri headers addr is_tls body :
  (∀ i s, env i s = env' i s) → (∀ s, late s = late' s) →
  on_client_req (@nil (ProxyListener RequestContext HM)) send_err_dbg recv_err_dbg debug_strs http_err_dbg local_ip
    ip_to_string version_debug config env late s version method uri headers addr is_tls body =
  on_client_req [] send_err_dbg recv_err_dbg debug_strs http_err_dbg local_ip
    ip_to_string version_debug config env' late' s version method uri headers addr is_tls body.
Proof.
  intros He Hl. unfold on_client_req. destruct (open_request s) as [s1 [[id p]|e]]; [|done].
  destruct (set_target_request_headers _ _ _ _ _ _ _ _ _ _) as [[cl hdr]|]; [|done].
  destruct (before_proxy _ _ _) as [h|e]; [|done].
  assert (Hs : ∀ t, sender_task [] send_err_dbg env s1 h body id p t = sender_task [] send_err_dbg env' s1 h body id p t).
  { intros t. unfold sender_task, split_part_one_send_or_err. destruct (send_headers _ _ _ _) as [s2 [u|e]]; [|done].
    destruct body as [b|]; [|done]. by rewrite (send_body_ext env env'). }
  by rewrite Hs, Hl.
Qed.

(** The portal with a socket that was just made. *)
Lemma fresh_socket_answers wakes w err_id f x body acks cl hdr res f2 p route domain comp rsid cid caddr now :
  exchange_ok x body acks cl hdr res →
  env3 w = connector_acknowledges acks →
  late3 w = connector_answers (response_frames 1 (x_text x) (x_chunks x)) →
  get_router_socket max_wait wakes f (x_request x) = (f2, Ok p) →
  heap f2 !! p = Some (SV3 (v3_new route domain comp rsid cid caddr now)) →
  answered x body hdr res (portal wakes w err_id f (x_method x) (x_uri x) (x_headers x) (x_addr x) (x_is_tls x)
    (x_version x) (map Ok body) (x_is_end x)) p.
Proof.
  intros [Hm Hin Hh Hu Hl Hc (cpr & Hp & Hr)] He Hw Hg Hs0. unfold visit_portal.
  rewrite (proj2 (str_eqb_false _ _) Hm). unfold x_request in Hg. rewrite Hg, Hs0, portal_body.
  cbn [any_on_client_req]. set (s0 := v3_new _ _ _ _ _ _ _) in *.
  assert (Hlate : ∀ frames s, connector_answers frames s = receive (HM := HM) send_err_dbg utf8_err_dbg frames s).
  { intros frames s. unfold connector_answers, receive. by rewrite quiet_on_binaries. }
  rewrite quiet_on_client_req by done.
  destruct (v3_exchange_completes send_err_dbg recv_err_dbg utf8_err_dbg debug_strs http_err_dbg local_ip ip_to_string
    version_debug config s0 [] (x_version x) (x_method x) (x_uri x) (x_headers x) (x_addr x) (x_is_tls x)
    cl hdr (x_body x body) acks (x_text x) (x_chunks x) cpr res)
    as (s' & c & parts & Hx & Hctx & Hbdy & Hparts & Hwss); [done..|].
  rewrite (on_client_req_ext _ (acknowledges (HM := HM) send_err_dbg utf8_err_dbg 1 acks) _
    (receive (HM := HM) send_err_dbg utf8_err_dbg (response_frames 1 (x_text x) (x_chunks x)))).
  - change 1%Z with (wrap32 (req_id_generator s0 + 1)). rewrite Hx. exists s', c, parts. cbn. rewrite lookup_insert_eq.
    by split_and!.
  - intros i s. rewrite He. apply Hlate.
  - intros s. rewrite Hw. apply Hlate.
Qed.

(** ** The selection in a farm with one socket on the route *)

Lemma any_on_domain_heap f g host ps :
  heap f = heap g → (any_on_domain f host ps).2 = (any_on_domain g host ps).2.
Proof.
  revert f g. induction ps as [|p ps IH]; intros f g Hh; [done|]. cbn [any_on_domain]. rewrite Hh.
  destruct (heap g !! p) as [s|]; [|by apply IH]. unfold should_remove_if_is_removed.
  destruct (rs_is_removed s); [by apply IH|]. destruct (str_eqb _ _); [done|by apply IH].
Qed.

Lemma find_precise_heap f g req route :
  heap f = heap g → sockets f = sockets g →
  (find_precise_match f req route).2 = (find_precise_match g req route).2.
Proof.
  intros Hh Hs. unfold find_precise_match. destruct (opt_host req); [|done].
  rewrite (any_on_domain_heap f g) by done. unfold route_ptrs. by rewrite Hs.
Qed.

Lemma only_socket_is_handed_out wait_time wakes f (req : Request AnySocket) route p s :
  resolve_route req (collect_routes f req).2 (target_path req) = route →
  route_chan f route = [p] → heap f !! p = Some s → rs_is_removed s = false →
  is_dark_mode_on s (dark_hosts f) = false → should_use req s = true →
  ((find_precise_match f req route).2 = true → rs_domain s ≠ STAR) →
  ∃ f', get_router_socket wait_time wakes f req = (f', Ok p) ∧ heap f' = heap f.
Proof.
  intros Hres Hchan Hp Hrem Hdark Huse Hdom. unfold get_router_socket.
  destruct (collect_routes f req) as [f0 routes] eqn:Ec. cbn [snd] in Hres. rewrite Hres.
  apply collect_routes_spawns in Ec as [ts ->]. cbn [route_to_socket_chan spawn].
  destruct (route_to_socket_chan f !! route) as [n|] eqn:Eq; unfold route_chan in Hchan; rewrite Eq in Hchan; [|done].
  set (f1 := with_waiting _ _).
  assert (Hf1 : chan f1 (route, n) = [p]) by exact Hchan.
  assert (Hpr : (find_precise_match f1 req route).2 = (find_precise_match f req route).2)
    by by apply find_precise_heap.
  destruct (eligible_socket_is_found f1 req (route, n)) as (f2 & p' & Hm & Hin & _).
  { rewrite Hf1. unfold ids, omap, list_omap. change (heap f1) with (heap f). rewrite Hp. apply NoDup_singleton. }
  { cbn [fst]. rewrite Hf1, Hpr. left. by exists s. }
  rewrite Hf1 in Hin. apply list_elem_of_singleton in Hin as ->.
  cbn [await_socket resume]. change (id f1) with f1. rewrite Hm. eexists. split; [done|]. cbn.
  apply main_turn_moves in Hm as [Hm _]. by rewrite (mv_heap _ _ _ Hm).
Qed.

(** ** The connector comes first *)

(** C1: a service that is registered is reachable: when a connector registers with
    protocol version 3 on a route that has no socket, from an address that is not in
    dark mode, then a client request for that route which the filter lets through
    (and which no socket of a more precise domain takes) is sent over the new
    websocket, its header text in frames and its body chunk by chunk, of whatever
    size as long as the connector acknowledges it in time; and when the connector
    answers, the portal gives the client exactly the status and headers of the
    answer, and exactly its body, chunk by chunk; the connector gets an
    acknowledgement for every header frame and every chunk of the body. *)
Theorem registered_service_answers f now rsid info caddr w err_id x body acks cl hdr res :
  negotiated_cranker_version info = CRANKER_V_3_0 → route_chan f (ci_route info) = [] →
  existsb (λ d, same_host d (addr_ip caddr)) (dark_hosts f) = false →
  let f1 := harvest_router_socket f now rsid info caddr in
  let s0 := SV3 (v3_new (ci_route info) (ci_domain info) (ci_component_name info) rsid (ci_connector_id info)
                   caddr now) in
  resolve_route (x_request x) (collect_routes f1 (x_request x)).2 (uri_path (x_uri x)) = ci_route info →
  should_use (x_request x) s0 = true →
  ((find_precise_match f1 (x_request x) (ci_route info)).2 = true → ci_domain info ≠ STAR) →
  exchange_ok x body acks cl hdr res → env3 w = connector_acknowledges acks →
  late3 w = connector_answers (response_frames 1 (x_text x) (x_chunks x)) →
  ∃ p, heap f !! p = None ∧
    answered x body hdr res (portal [] w err_id f1 (x_method x) (x_uri x) (x_headers x) (x_addr x) (x_is_tls x)
      (x_version x) (map Ok body) (x_is_end x)) p.
Proof.
  intros Hv Hchan Hdark f1 s0 Hres Huse Hdom Hx He Hw.
  assert (Hh : harvested now rsid info caddr = Some s0).
  { unfold harvested. rewrite Hv. rewrite (proj2 (str_eqb_false _ _)) by done. by rewrite str_eqb_refl. }
  destruct (harvest_adds f now rsid info caddr s0 Hh) as (p & Hp & Hheap & Hc & _ & Hd & _).
  fold f1 in Hheap, Hc, Hd. rewrite Hchan in Hc. exists p. split; [done|].
  destruct (only_socket_is_handed_out max_wait [] f1 (x_request x) (ci_route info) p s0)
    as (f2 & Hg & Hh2); try done.
  - rewrite Hheap. apply lookup_insert_eq.
  - by rewrite Hd.
  - eapply fresh_socket_answers; [done..|]. rewrite Hh2, Hheap. apply lookup_insert_eq.
Qed.

(** ** The request comes first *)

(** C6: a client whose request comes too early is not turned away: the request
    waits on the empty channel of its route, and when a connector registers there
    with protocol version 3 before its time is over, from an address that is not in
    dark mode and with a socket the filter lets through, while the map still has the
    channel the request waits on (its route was not cleaned away meanwhile), the
    client gets exactly the answer of that connector, as if the connector had been
    there first.  What else happened to the router while the request waited does not
    matter. *)
Theorem waiting_client_is_answered f now rsid info caddr w err_id x body acks cl hdr res ws1 ws2 n f1 precise visited :
  let req := x_request x in
  let f0 := (collect_routes f req).1 in
  let route := resolve_route req (collect_routes f req).2 (uri_path (x_uri x)) in
  let s0 := SV3 (v3_new (ci_route info) (ci_domain info) (ci_component_name info) rsid (ci_connector_id info)
                   caddr now) in
  negotiated_cranker_version info = CRANKER_V_3_0 → ci_route info = route →
  route_to_socket_chan f0 !! route = Some n →
  await_state (id :: ws1) (with_waiting f0 (wrap32 (waiting_task_count f0 + 1))) req (route, n) AtNotify
    = (f1, inr (AtRecv precise visited)) →
  route_to_socket_chan f1 !! route = Some n →
  existsb (λ d, same_host d (addr_ip caddr)) (dark_hosts f1) = false →
  (rsid ∉ visited) → (precise = true → ci_domain info ≠ STAR) → should_use req s0 = true →
  exchange_ok x body acks cl hdr res → env3 w = connector_acknowledges acks →
  late3 w = connector_answers (response_frames 1 (x_text x) (x_chunks x)) →
  ∃ p, answered x body hdr res
    (portal (ws1 ++ (λ f, harvest_router_socket f now rsid info caddr) :: ws2) w err_id f (x_method x) (x_uri x)
       (x_headers x) (x_addr x) (x_is_tls x) (x_version x) (map Ok body) (x_is_end x)) p.
Proof.
  intros req f0 route s0 Hv Hroute Hq Ha Hn Hdark Hvis Hpr Huse Hx He Hw.
  assert (Hh : harvested now rsid info caddr = Some s0).
  { unfold harvested. rewrite Hv. rewrite (proj2 (str_eqb_false _ _)) by done. by rewrite str_eqb_refl. }
  assert (Ht : takes_new_socket req (AtRecv precise visited) s0) by done.
  destruct (registration_serves_waiting_request max_wait ws1 ws2 f req n now rsid info caddr s0 Hh Hq Hroute f1
    (AtRecv precise visited) Ha Hn Hdark (or_intror Ht)) as (f' & p & Hg & Hs).
  exists p. eapply fresh_socket_answers; [done..|]. by apply Hs.
Qed.

End end_to_end.

(** ** Concrete runs *)

#[local] Existing Instance Alist.lib.

Module DemoEndToEnd.

Definition listeners : list (ProxyListener RequestContext Alist.headers) :=
  [DemoListener.demo_listener DemoListener.demo_new; DefaultProxyListener].

Definition headers_out (headers : Alist.headers) : bool * Alist.headers :=
  match set_target_request_headers [] DemoRouter.no_ip (λ _, []) DemoRouter.config headers hm_new
          HTTP_11 DemoRouter.addr DemoRouter.uri false with
  | Ret x => x
  | Panic => (false, [])
  end.

(** A request without a body. *)
Definition get : ClientExchange :=
  MkExchange (lit "GET") DemoRouter.uri ([] : Alist.headers) DemoRouter.addr false HTTP_11 true
    (lit "HTTP/1.1 200 OK") [lit "he"; lit "llo"].

(** A request with a body of two chunks, the first of which is beyond the high
    water mark; the connector acknowledges it together with the headers. *)
Definition post_headers : Alist.headers := [(lit "content-length", lit "70001")].

Definition post : ClientExchange :=
  MkExchange (lit "POST") DemoRouter.uri post_headers DemoRouter.addr false HTTP_11 false
    (lit "HTTP/1.1 200 OK") [lit "he"; lit "llo"].

Definition post_body : list str := [replicate (Z.to_nat 70000) "x"%byte; lit "y"].

Definition post_acks : list (list Z) :=
  [[Z.of_nat (length (request_header_text (lit "POST") DemoRouter.uri (headers_out post_headers).2)); 70000%Z]].

Definition surroundings (acks : list (list Z)) : Surroundings :=
  MkSurroundings (λ _ s, s) id (connector_acknowledges listeners [] (λ _, []) acks)
    (connector_answers listeners [] (λ _, []) (response_frames 1 (lit "HTTP/1.1 200 OK") [lit "he"; lit "llo"]))
    1000 1001 1002.

Lemma listeners_quiet : Forall quiet listeners.
Proof. constructor; [apply demo_quiet|]. constructor; [apply default_quiet|constructor]. Qed.

#[local] Abbreviation ok := (exchange_ok DemoRouter.no_ip DemoRouter.config (λ _, []) [] (λ _, [])).

Lemma get_is_ok : ok get [] [] (headers_out []).1 (headers_out []).2 (200%Z, []).
Proof.
  split.
  - discriminate.
  - vm_compute. reflexivity.
  - vm_compute. reflexivity.
  - vm_compute. reflexivity.
  - vm_compute. discriminate.
  - repeat constructor; discriminate.
  - exists (MkResponse [] 200). split; vm_compute; reflexivity.
Qed.

Lemma post_is_ok :
  ok post post_body post_acks (headers_out post_headers).1 (headers_out post_headers).2 (200%Z, []).
Proof.
  split.
  - discriminate.
  - vm_compute. reflexivity.
  - vm_compute. reflexivity.
  - vm_compute. reflexivity.
  - vm_compute. discriminate.
  - repeat constructor; discriminate.
  - exists (MkResponse [] 200). split; vm_compute; reflexivity.
Qed.

Abbreviation portal := (visit_portal DemoRouter.no_ip DemoRouter.config [] listeners [] [] (λ _, []) [] []
  (λ _, [])).

End DemoEndToEnd.

Lemma registered_service_answers_witness :
  ∃ p, answered DemoEndToEnd.post DemoEndToEnd.post_body (DemoEndToEnd.headers_out DemoEndToEnd.post_headers).2
    (200%Z, [])
    (DemoEndToEnd.portal [] (DemoEndToEnd.surroundings DemoEndToEnd.post_acks) [] DemoRouter.farm (lit "POST")
       DemoRouter.uri DemoEndToEnd.post_headers DemoRouter.addr false HTTP_11 (map Ok DemoEndToEnd.post_body) false) p.
Proof.
  destruct (registered_service_answers DemoRouter.no_ip DemoRouter.config [] DemoEndToEnd.listeners [] [] (λ _, [])
    (λ _, []) [] [] (λ _, []) DemoEndToEnd.listeners_quiet farm_new 1000 (lit "rs1") DemoRouter.info DemoRouter.addr
    (DemoEndToEnd.surroundings DemoEndToEnd.post_acks) [] DemoEndToEnd.post DemoEndToEnd.post_body
    DemoEndToEnd.post_acks (DemoEndToEnd.headers_out DemoEndToEnd.post_headers).1
    (DemoEndToEnd.headers_out DemoEndToEnd.post_headers).2 (200%Z, [])) as (p & _ & Hp).
  - reflexivity.
  - reflexivity.
  - reflexivity.
  - vm_compute. reflexivity.
  - reflexivity.
  - vm_compute. discriminate.
  - exact DemoEndToEnd.post_is_ok.
  - reflexivity.
  - reflexivity.
  - exists p. exact Hp.
Defined.

Lemma waiting_client_is_answered_witness :
  ∃ p, answered DemoEndToEnd.get [] (DemoEndToEnd.headers_out []).2 (200%Z, [])
    (DemoEndToEnd.portal [λ f, harvest_router_socket f 1000 (lit "rs1") DemoRouter.info DemoRouter.addr]
       (DemoEndToEnd.surroundings []) [] DemoWaiting.busy (lit "GET") DemoRouter.uri []
       DemoRouter.addr false HTTP_11 [] true) p.
Proof.
  destruct (waiting_client_is_answered DemoRouter.no_ip DemoRouter.config [] DemoEndToEnd.listeners [] [] (λ _, [])
    (λ _, []) [] [] (λ _, []) DemoEndToEnd.listeners_quiet DemoWaiting.busy 1000 (lit "rs1") DemoRouter.info
    DemoRouter.addr (DemoEndToEnd.surroundings []) [] DemoEndToEnd.get [] [] (DemoEndToEnd.headers_out []).1
    (DemoEndToEnd.headers_out []).2 (200%Z, []) [] [] 0 DemoWaiting.blocked.1 false ∅) as (p & Hp).
  - reflexivity.
  - vm_compute. reflexivity.
  - vm_compute. reflexivity.
  - vm_compute. reflexivity.
  - vm_compute. reflexivity.
  - vm_compute. reflexivity.
  - apply not_elem_of_empty.
  - discriminate.
  - reflexivity.
  - exact DemoEndToEnd.get_is_ok.
  - reflexivity.
  - reflexivity.
  - exists p. exact Hp.
Defined.
