(* ===== verification/EndToEndV1.v ===== *)
(** * From the registration of a version 1 connector to the answer of a client

    The counterpart of [EndToEnd] for a websocket of version 1, which serves one
    request, with or without a body, and is used up by it. *)

From S2P Require Import Prelude RustStr Exceptions Http RouteResolver Forwarded Config HttpUtils CrankerProtocol Farm SocketBase SocketV1 SocketV1Props SocketV3 Exchange Listeners ExchangeV1 Router Waiting EndToEnd.

Section end_to_end.
Context {HM : Type} `{HttpLib HM} {L : Type}.
Context (ip_to_string : IpAddr → str).
Context (config : CrankerRouterConfig L (@SocketFilter HM) (gset str → str → str)).
Context (listeners1 : list (ProxyListener RouterSocketV1 HM)).
Context (listeners3 : list (ProxyListener RequestContext HM)).
Context (send_err_dbg recv_err_dbg : str) (debug_strs : list str → str).
Context (http_err_dbg : str) (local_ip : str) (version_debug : Version → str).
Hypothesis Hquiet : Forall quiet listeners1.
Hypothesis Hneed : needs_response_chunks listeners1 = false.
Implicit Types (f : Farm AnySocket).

#[local] Abbreviation portal := (visit_portal ip_to_string config listeners1 listeners3 send_err_dbg
  recv_err_dbg debug_strs http_err_dbg local_ip version_debug).
#[local] Abbreviation max_wait := (connector_max_wait_time_millis config).

(** The request can be sent, with the headers [hdr]; the answer is a response
    with a header text that is not too long. *)
Record v1_exchange_ok (x : ClientExchange (HM := HM)) (cl : bool) (hdr : HM) (res : Z * HM) : Prop := {
  v1o_method : x_method x ≠ TRACE;
  v1o_headers : set_target_request_headers local_ip ip_to_string version_debug config (x_headers x) hm_new
    (x_version x) (x_addr x) (x_uri x) (x_is_tls x) = Ret (cl, hdr);
  v1o_len : length (x_text x) ≤ HEADER_MAX_SIZE;
  v1o_response : ∃ cpr, CrankerProtocol.try_from_string (x_text x) = Ok cpr ∧
    response_build debug_strs cpr = Ok (Some res)
}.

(** What the client and the connector see when the exchange is over. *)
Definition v1_answered (x : ClientExchange (HM := HM)) (hdr : HM) (res : Z * HM) (chunks : list str) (close_text : str)
  (r : Farm AnySocket * outcome PortalRes) (p : nat) : Prop :=
  ∃ s, r.2 = Ret (PProxied res) ∧ heap r.1 !! p = Some (SV1 s) ∧
    v1_bdy (cli_side_res_sender s) = MkChan (map Ok (x_chunks x)) true ∧
    v1_farm_removals s = 1 ∧
    v1_wss s = MkChan (request_messages
        (v1_text (x_method x) (x_uri x) hdr (match x_body x chunks with Some _ => true | None => false end))
        (x_body x chunks) ++ [Close (Some (1000%Z, close_text))]) false.

(** The portal with a socket that was just made. *)
Lemma fresh_v1_socket_answers wakes w err_id f x cl hdr res chunks close_text now f2 p info now0 :
  v1_exchange_ok x cl hdr res → env1 w = (λ _ s, s) →
  late1 w = answer listeners1 send_err_dbg now (x_text x) (x_chunks x) close_text →
  get_router_socket max_wait wakes f (x_request config x) = (f2, Ok p) →
  heap f2 !! p = Some (SV1 (v1_new info now0)) →
  v1_answered x hdr res chunks close_text
    (portal wakes w err_id f (x_method x) (x_uri x) (x_headers x) (x_addr x) (x_is_tls x) (x_version x)
       (map Ok chunks) (x_is_end x)) p.
Proof.
  intros [Hm Hh Hl (cpr & Hp & Hr)] He Hw Hg Hs0. unfold visit_portal.
  rewrite (proj2 (str_eqb_false _ _) Hm). unfold x_request in Hg. rewrite Hg, Hs0. cbn [any_on_client_req].
  rewrite He, Hw.
  rewrite portal_body.
  destruct (v1_exchange_completes listeners1 send_err_dbg recv_err_dbg debug_strs http_err_dbg local_ip ip_to_string
    version_debug config Hquiet (v1_new info now0) [] (time1 w) (time2 w) now (x_version x) (x_method x) (x_uri x)
    (x_headers x) (x_addr x) (x_is_tls x) cl hdr (x_body x chunks) (x_text x) (x_chunks x) close_text cpr res)
    as (s' & Hx & Hbd & _ & Hrem & Hwss); [done..|].
  rewrite Hx. exists s'. cbn. rewrite lookup_insert_eq. split_and!; done.
Qed.

(** C17: a service behind a version 1 connector is reachable: when the connector
    registers on a route that has no socket, from an address that is not in dark
    mode, then a client request for that route which the filter lets through is sent
    over the new websocket as its text, its body chunk by chunk and the end marker,
    and when the connector answers with a header text, body and close frame, the
    portal gives the client exactly the status and headers of the answer and exactly
    its body; the websocket is closed in return and the socket removed, once. *)
Theorem registered_v1_service_answers f now rsid info caddr w err_id x cl hdr res chunks close_text later :
  negotiated_cranker_version info = CRANKER_V_1_0 → route_chan f (ci_route info) = [] →
  existsb (λ d, same_host d (addr_ip caddr)) (dark_hosts f) = false →
  let f1 := harvest_router_socket f now rsid info caddr in
  let s0 := SV1 (v1_new (MkV1Info (ci_route info) (ci_component_name info) rsid (ci_connector_id info) caddr) now) in
  resolve_route (x_request config x) (collect_routes f1 (x_request config x)).2 (uri_path (x_uri x)) = ci_route info →
  should_use (x_request config x) s0 = true →
  (find_precise_match f1 (x_request config x) (ci_route info)).2 = false →
  v1_exchange_ok x cl hdr res → env1 w = (λ _ s, s) →
  late1 w = answer listeners1 send_err_dbg later (x_text x) (x_chunks x) close_text →
  ∃ p, heap f !! p = None ∧
    v1_answered x hdr res chunks close_text
      (portal [] w err_id f1 (x_method x) (x_uri x) (x_headers x) (x_addr x) (x_is_tls x) (x_version x)
         (map Ok chunks) (x_is_end x)) p.
Proof.
  intros Hv Hchan Hdark f1 s0 Hres Huse Hdom Hx He Hw.
  assert (Hh : harvested now rsid info caddr = Some s0) by (unfold harvested; by rewrite Hv, str_eqb_refl).
  destruct (harvest_adds f now rsid info caddr s0 Hh) as (p & Hp & Hheap & Hc & _ & Hd & _).
  fold f1 in Hheap, Hc, Hd. rewrite Hchan in Hc. exists p. split; [done|].
  destruct (only_socket_is_handed_out max_wait [] f1 (x_request config x) (ci_route info) p s0)
    as (f2 & Hg & Hh2); try done.
  - rewrite Hheap. apply lookup_insert_eq.
  - by rewrite Hd.
  - by rewrite Hdom.
  - eapply fresh_v1_socket_answers; [done..|]. rewrite Hh2, Hheap. apply lookup_insert_eq.
Qed.

End end_to_end.

(** ** A concrete run: a request with a body *)

#[local] Existing Instance Alist.lib.

Module DemoEndToEndV1.

Definition listeners : list (ProxyListener RouterSocketV1 Alist.headers) :=
  [DemoListener.demo_listener DemoListener.demo_new; DefaultProxyListener].

Definition headers : Alist.headers := [(lit "content-length", lit "8")].

Definition exchange : ClientExchange :=
  MkExchange (lit "POST") DemoRouter.uri headers DemoRouter.addr false HTTP_11 false
    (lit "HTTP/1.1 200 OK") [lit "he"; lit "llo"].

Definition headers_out : bool * Alist.headers :=
  match set_target_request_headers [] DemoRouter.no_ip (λ _, []) DemoRouter.config headers hm_new
          HTTP_11 DemoRouter.addr DemoRouter.uri false with
  | Ret x => x
  | Panic => (false, [])
  end.

Definition surroundings : Surroundings :=
  MkSurroundings (λ _ s, s) (answer listeners [] 1002 (lit "HTTP/1.1 200 OK") [lit "he"; lit "llo"] (lit "bye"))
    (λ _ s, s) id 1000 1001 1003.

Lemma v1_listeners_quiet : Forall quiet listeners.
Proof. constructor; [apply demo_quiet|]. constructor; [apply default_quiet|constructor]. Qed.

Lemma exchange_is_ok :
  v1_exchange_ok DemoRouter.no_ip DemoRouter.config (λ _, []) [] (λ _, []) exchange headers_out.1 headers_out.2
    (200%Z, []).
Proof.
  split.
  - discriminate.
  - vm_compute. reflexivity.
  - apply Nat.leb_le. vm_compute. reflexivity.
  - exists (MkResponse [] 200). split; vm_compute; reflexivity.
Qed.

End DemoEndToEndV1.

Lemma registered_v1_service_answers_witness :
  ∃ p, v1_answered DemoEndToEndV1.exchange DemoEndToEndV1.headers_out.2 (200%Z, []) [lit "question"] (lit "bye")
    (visit_portal DemoRouter.no_ip DemoRouter.config DemoEndToEndV1.listeners [] [] [] (λ _, []) [] [] (λ _, [])
       [] DemoEndToEndV1.surroundings []
       (harvest_router_socket farm_new 1 (lit "rs0") DemoWaiting.v1_info DemoRouter.addr) (lit "POST")
       DemoRouter.uri DemoEndToEndV1.headers DemoRouter.addr false HTTP_11 [Ok (lit "question")] false) p.
Proof.
  destruct (registered_v1_service_answers DemoRouter.no_ip DemoRouter.config DemoEndToEndV1.listeners [] [] []
    (λ _, []) [] [] (λ _, []) DemoEndToEndV1.v1_listeners_quiet eq_refl farm_new 1 (lit "rs0") DemoWaiting.v1_info
    DemoRouter.addr DemoEndToEndV1.surroundings [] DemoEndToEndV1.exchange DemoEndToEndV1.headers_out.1
    DemoEndToEndV1.headers_out.2 (200%Z, []) [lit "question"] (lit "bye") 1002) as (p & _ & Hp).
  - reflexivity.
  - reflexivity.
  - reflexivity.
  - vm_compute. reflexivity.
  - reflexivity.
  - vm_compute. reflexivity.
  - exact DemoEndToEndV1.exchange_is_ok.
  - reflexivity.
  - reflexivity.
  - exists p. exact Hp.
Defined.
