(* ===== verification/RouterInfo.v ===== *)
(** * The summary of the registered sockets (router_info.rs)

    [get_connector_service_list] groups the sockets of every route by their
    connector, for the health endpoint ([collect_info_by_state] of lib.rs). *)

From S2P Require Import Prelude RustStr Exceptions Http Config Farm SocketBase SocketV1 SocketV3 SocketV3Props Router.
From stdpp Require Import sorting.

(** ** Data *)

Record ConnectorConnection := MkConnection {
  cc_domain : str;
  cc_port : Z;
  cc_router_socket_id : str;
  cc_protocol : str;
  cc_inflight : Z
}.

Record ConnectorInstance := MkInstance {
  ins_ip : IpAddr;
  ins_connector_id : str;
  ins_connection_count : nat;
  ins_connections : list ConnectorConnection;
  ins_dark_mode : bool;
  ins_component_name : str
}.

Record ConnectorService := MkService {
  svc_route : str;
  svc_component_name : str;
  svc_connectors : list ConnectorInstance;
  svc_is_catch_all : bool
}.

(** ** Operations *)

Definition any_component_name (s : AnySocket) : str :=
  match s with SV1 s => v1_component_name (v1_info s) | SV3 s => v3_component_name s end.

Definition any_inflight_count (s : AnySocket) : Z :=
  match s with SV1 _ => -1 | SV3 s => inflight_count s end.

Definition connection_of (s : AnySocket) : ConnectorConnection :=
  MkConnection (rs_domain s) (addr_port (rs_addr s)) (rs_id s) (rs_cranker_version s) (any_inflight_count s).

(** The body of the loop over the sockets of a route: the instance of the
    connector is made when it is first met, and gets the connection. *)
Definition add_connection (dark : list DarkHost) (instance_map : gmap str ConnectorInstance) (s : AnySocket)
  : gmap str ConnectorInstance :=
  let connector_id := rs_connector_id s in
  let i := default (MkInstance (addr_ip (rs_addr s)) connector_id 0 [] (is_dark_mode_on s dark)
                      (any_component_name s)) (instance_map !! connector_id) in
  <[connector_id := MkInstance (ins_ip i) (ins_connector_id i) (S (ins_connection_count i))
      (ins_connections i ++ [connection_of s]) (ins_dark_mode i) (ins_component_name i)]> instance_map.

(** [str::cmp] is the order of the bytes. *)
Fixpoint str_leb (a b : str) : bool :=
  match a, b with
  | [], _ => true
  | _ :: _, [] => false
  | x :: a, y :: b => (bN x <? bN y)%N || (bool_decide (x = y) && str_leb a b)
  end.

Definition first_protocol (i : ConnectorInstance) : str :=
  match ins_connections i with c :: _ => cc_protocol c | [] => [] end.

Definition protocol_le (a b : ConnectorInstance) : Prop :=
  str_leb (first_protocol a) (first_protocol b) = true.

#[export] Instance protocol_le_dec a b : Decision (protocol_le a b).
Proof. unfold protocol_le. apply _. Defined.

(** The upgraded sockets of a list of weak references. *)
Definition upgraded (f : Farm AnySocket) (ps : list nat) : list AnySocket := omap (λ p, heap f !! p) ps.

(** [component_name] is the one of the last socket. *)
Definition service_of (f : Farm AnySocket) (dark : list DarkHost) (route : str) (ps : list nat)
  : ConnectorService :=
  let ss := upgraded f ps in
  let instance_map := foldl (add_connection dark) ∅ ss in
  MkService route
    (match rev ss with s :: _ => any_component_name s | [] => lit "[UNKNOWN]" end)
    (merge_sort protocol_le (snd <$> map_to_list instance_map))
    (str_eqb route (lit "*")).

Definition get_connector_service_list (f : Farm AnySocket) (dark : list DarkHost) : list ConnectorService :=
  (λ kv, service_of f dark kv.1 kv.2) <$> map_to_list (get_sockets f).

(** [collect_info_by_state]: the services and the dark hosts. *)
Definition collect_info_by_state (f : Farm AnySocket) : list ConnectorService * list DarkHost :=
  (get_connector_service_list f (dark_hosts f), dark_hosts f).

(** ** Lemmas *)

Lemma str_leb_refl a : str_leb a a = true.
Proof. induction a as [|x a IH]; [done|]. simpl. by rewrite bool_decide_eq_true_2, IH, orb_true_r. Qed.

Lemma str_leb_trans a b c : str_leb a b = true → str_leb b c = true → str_leb a c = true.
Proof.
  revert b c. induction a as [|x a IH]; intros [|y b] [|z c] Hab Hbc; try done. simpl in *.
  apply orb_true_iff in Hab as [Hab|[Ey Hab]%andb_true_iff], Hbc as [Hbc|[Ez Hbc]%andb_true_iff];
    rewrite ?bool_decide_eq_true in *; subst; apply orb_true_iff; rewrite ?N.ltb_lt in *.
  - left. lia.
  - by left.
  - by left.
  - right. rewrite bool_decide_eq_true_2 by done. by eapply IH.
Qed.

Lemma str_leb_total a b : str_leb a b = true ∨ str_leb b a = true.
Proof.
  revert b. induction a as [|x a IH]; intros [|y b]; simpl; auto.
  destruct (decide (x = y)) as [->|Hne].
  - rewrite bool_decide_eq_true_2 by done. destruct (IH b) as [->| ->]; rewrite orb_true_r; auto.
  - assert (bN x ≠ bN y).
    { intros E. apply Hne, bZ_inj. unfold bZ, bN in *. congruence. }
    destruct (N.lt_total (bN x) (bN y)) as [Hl|[?|Hl]]; [|done|].
    + left. apply N.ltb_lt in Hl. by rewrite Hl.
    + right. apply N.ltb_lt in Hl. by rewrite Hl.
Qed.

#[export] Instance protocol_le_trans : Transitive protocol_le.
Proof. intros a b c. unfold protocol_le. apply str_leb_trans. Qed.

#[export] Instance protocol_le_total : Total protocol_le.
Proof. intros a b. unfold protocol_le. apply str_leb_total. Qed.

(** ** The grouping *)

(** The sockets of one connector, in order. *)
Definition of_connector (id : str) (ss : list AnySocket) : list AnySocket :=
  filter (λ s, rs_connector_id s = id) ss.

(** What the summary should say about a connector with the sockets [l]. *)
Definition instance_spec (dark : list DarkHost) (id : str) (l : list AnySocket) : option ConnectorInstance :=
  match l with
  | [] => None
  | s :: _ => Some (MkInstance (addr_ip (rs_addr s)) id (length l) (connection_of <$> l)
                      (is_dark_mode_on s dark) (any_component_name s))
  end.

Lemma instance_map_spec dark ss id :
  foldl (add_connection dark) ∅ ss !! id = instance_spec dark id (of_connector id ss).
Proof.
  induction ss as [|s ss IH] using rev_ind; [done|].
  rewrite foldl_app. cbn [foldl]. unfold of_connector in *. rewrite list.filter_app, filter_cons, filter_nil.
  unfold add_connection at 1. destruct (decide (rs_connector_id s = id)) as [<-|Hne].
  - rewrite lookup_insert_eq, IH.
    destruct (filter (λ x, rs_connector_id x = rs_connector_id s) ss) as [|s0 l]; [done|]. cbn.
    rewrite length_app, fmap_app. cbn. by rewrite Nat.add_1_r.
  - by rewrite lookup_insert_ne, IH, app_nil_r.
Qed.

Definition all_connections (m : gmap str ConnectorInstance) : list ConnectorConnection :=
  concat ((λ kv, ins_connections kv.2) <$> map_to_list m).

Lemma all_connections_add dark m s :
  all_connections (add_connection dark m s) ≡ₚ all_connections m ++ [connection_of s].
Proof.
  unfold all_connections, add_connection. set (id := rs_connector_id s).
  destruct (m !! id) as [i|] eqn:Em; cbn [from_option id].
  - rewrite <- (insert_delete_id m id i Em) at 2. rewrite <- insert_delete_eq.
    rewrite !map_to_list_insert by apply lookup_delete_eq. cbn. unfold Datatypes.id. cbn.
    rewrite <- !app_assoc. f_equiv. apply Permutation_app_comm.
  - rewrite map_to_list_insert by done. cbn. by rewrite Permutation_cons_append.
Qed.

(** The summary of a route is complete and exact: its instances are exactly
    the connectors with a live socket on the route, each listed once with all its
    connections in order and their number; together the connections are the live
    sockets, each exactly once; and the instances are sorted by protocol. *)
Theorem service_summary_exact f dark route ps :
  let ss := upgraded f ps in
  let cs := svc_connectors (service_of f dark route ps) in
  (∀ i, i ∈ cs ↔ ∃ id, instance_spec dark id (of_connector id ss) = Some i) ∧
  NoDup (ins_connector_id <$> cs) ∧
  concat (ins_connections <$> cs) ≡ₚ connection_of <$> ss ∧
  Sorted protocol_le cs.
Proof.
  intros ss cs. unfold cs, service_of. cbn [svc_connectors]. fold ss.
  set (m := foldl (add_connection dark) ∅ ss).
  assert (Hm : ∀ id, m !! id = instance_spec dark id (of_connector id ss)) by apply instance_map_spec.
  split_and!.
  - intros i. rewrite merge_sort_Permutation, list_elem_of_fmap. split.
    + intros ([id j] & -> & Hin). exists id. rewrite <- Hm. by apply elem_of_map_to_list.
    + intros [id Hid]. exists (id, i). split; [done|]. apply elem_of_map_to_list. by rewrite Hm.
  - rewrite merge_sort_Permutation, <- list_fmap_compose.
    assert (Hk : (ins_connector_id ∘ snd) <$> map_to_list m = fst <$> map_to_list m).
    { apply list_fmap_ext. intros k [id j] Hk%list_elem_of_lookup_2%elem_of_map_to_list. rewrite Hm in Hk.
      cbn. unfold instance_spec in Hk. destruct (of_connector id ss); [done|]. by injection Hk as <-. }
    rewrite Hk. apply NoDup_fst_map_to_list.
  - rewrite merge_sort_Permutation, <- list_fmap_compose. change (all_connections m ≡ₚ connection_of <$> ss).
    unfold m. clear. induction ss as [|s ss IH] using rev_ind; [done|].
    rewrite foldl_app, fmap_app. cbn [foldl]. by rewrite all_connections_add, IH.
  - apply (Sorted_merge_sort protocol_le).
Qed.
