(* ===== verification/System.v ===== *)
(** * The router as a whole

    [router_history] runs everything together: registrations and
    de-registrations of connectors, client requests through the portal, the life
    of every websocket ([SocketV1Traces], [SocketV3Traces]), the spawned removals
    and the background cleaning, in any order and nested in each other (what other
    tasks do while a request waits or is served is itself a history).  Every state
    it reaches is well formed ([farm_wf]), and a client request is only ever given
    to a socket registered for the route it resolves to, or for the catch-all
    route. *)

From S2P Require Import Prelude RustStr Exceptions Http RouteResolver Forwarded Config HttpUtils CrankerProtocol Frames FlowControl Farm Cancellation SocketBase SocketV1 SocketV1Props SocketV3 SocketV3Props Pipes Router FarmTraces SocketV3Traces SocketV1Traces.

(** ** Well formed farms *)

Section farm_wf.
Context {S : Type} `{RouterSocketLaws S} (P : S → Prop).
Implicit Types (f : Farm S) (p : nat) (s : S).

(** A registered socket exists and is registered under its own route and id; a
    channel only holds sockets of the route it was made for, also when the map has
    lost it; the map holds channels that exist; every socket is well formed. *)
Record farm_wf f : Prop := {
  fw_sockets r m i p : sockets f !! r = Some m → m !! i = Some p →
    ∃ s, heap f !! p = Some s ∧ rs_route s = r ∧ rs_id s = i;
  fw_chan c p s : p ∈ chan f c → heap f !! p = Some s → rs_route s = c.1;
  fw_made r n : route_to_socket_chan f !! r = Some n → is_Some (chans f !! (r, n));
  fw_heap p s : heap f !! p = Some s → P s
}.

(** A later state of the same socket. *)
Definition follows s s' : Prop := rs_route s' = rs_route s ∧ rs_id s' = rs_id s ∧ (P s → P s').

Lemma farm_wf_new : farm_wf farm_new.
Proof.
  split; cbn.
  - intros r m i p Hr. by rewrite lookup_empty in Hr.
  - intros c p s Hp. unfold chan in Hp. cbn in Hp. rewrite lookup_empty in Hp. by apply elem_of_nil in Hp.
  - intros r n Hr. by rewrite lookup_empty in Hr.
  - intros p s Hp. by rewrite lookup_empty in Hp.
Qed.

(** The sockets keep what they are and no channel gets a socket: registrations
    may go. *)
Lemma farm_wf_shrink f f' :
  farm_wf f →
  (∀ p s', heap f' !! p = Some s' → ∃ s, heap f !! p = Some s ∧ follows s s') →
  (∀ r m' i p, sockets f' !! r = Some m' → m' !! i = Some p →
     is_Some (heap f' !! p) ∧ ∃ m, sockets f !! r = Some m ∧ m !! i = Some p) →
  (∀ c, chan f' c ⊆ chan f c) → dom (chans f') = dom (chans f) →
  (∀ r n, route_to_socket_chan f' !! r = Some n → route_to_socket_chan f !! r = Some n) → farm_wf f'.
Proof.
  intros [H1 H2 H3 H4] Hheap Hsock Hchan Hdom Hmap. split.
  - intros r m' i p Hr Hi. destruct (Hsock r m' i p Hr Hi) as [[s' Hs'] (m & Hm & Hp)].
    exists s'. split; [done|]. destruct (H1 r m i p Hm Hp) as (s & Hs & <- & <-).
    destruct (Hheap p s' Hs') as (s0 & Hs0 & Hf & ? & _). simplify_eq. done.
  - intros c p s' Hp Hs'. destruct (Hheap p s' Hs') as (s & Hs & -> & _). eapply H2; [|done]. by apply Hchan.
  - intros r n Hr. apply elem_of_dom. rewrite Hdom. by apply elem_of_dom, H3, Hmap.
  - intros p s' Hs'. destruct (Hheap p s' Hs') as (s & Hs & _ & _ & HP). eauto.
Qed.

(** The farm with the same sockets, registrations and less in its channels. *)
Lemma farm_wf_same f f' :
  farm_wf f → heap f' = heap f → sockets f' = sockets f → (∀ c, chan f' c ⊆ chan f c) →
  dom (chans f') = dom (chans f) →
  (∀ r n, route_to_socket_chan f' !! r = Some n → route_to_socket_chan f !! r = Some n) → farm_wf f'.
Proof.
  intros Hf Hh Hs Hc Hd Hm. apply (farm_wf_shrink f); rewrite ?Hh, ?Hs; try done.
  - intros p s Hp. exists s. by split_and!.
  - intros r m i p Hr Hi. destruct (fw_sockets _ Hf r m i p Hr Hi) as (s & -> & _). eauto.
Qed.

Lemma farm_wf_moves f f' o : moves f f' o → farm_wf f → farm_wf f'.
Proof.
  intros Hm Hf. apply (farm_wf_same f); [done|..].
  - apply (mv_heap _ _ _ Hm).
  - apply (mv_sockets _ _ _ Hm).
  - apply (mv_chan _ _ _ Hm).
  - apply (mv_chans _ _ _ Hm).
  - intros r n. by rewrite (mv_routes _ _ _ Hm).
Qed.

(** A change of the sockets alone. *)
Lemma farm_wf_heap f h :
  farm_wf f → (∀ p, is_Some (heap f !! p) → is_Some (h !! p)) →
  (∀ p s', h !! p = Some s' → ∃ s, heap f !! p = Some s ∧ follows s s') → farm_wf (with_heap f h).
Proof.
  intros Hf Hsome Hh. apply (farm_wf_shrink f); try done.
  intros r m i p Hr Hi. destruct (fw_sockets _ Hf r m i p Hr Hi) as (s & Hs & _). split; [|eauto].
  apply Hsome. by rewrite Hs.
Qed.

Lemma farm_wf_put f p s s' :
  farm_wf f → heap f !! p = Some s → follows s s' → farm_wf (with_heap f (<[p := s']> (heap f))).
Proof.
  intros Hf Hp Hs. apply farm_wf_heap; [done| |].
  - intros q Hq. by apply lookup_insert_is_Some'; right.
  - intros q t [[<- <-]|[Hne Hq]]%lookup_insert_Some; [by exists s|]. exists t. by split_and!.
Qed.

(** ** The operations of the farm *)

Context (P_mark : ∀ s, P s → P (rs_mark_removed s)).

Lemma farm_wf_mark f p : farm_wf f → farm_wf (mark_removed f p).
Proof.
  intros Hf. apply farm_wf_heap; [done| |].
  - intros q Hq. by apply lookup_alter_is_Some.
  - intros q s' [(-> & s & Hs & ->)|[Hne Hs]]%lookup_alter_Some.
    + exists s. split; [done|]. split_and!; [apply mark_removed_route|apply mark_removed_id|apply P_mark].
    + exists s'. by split_and!.
Qed.

Lemma farm_wf_add f p s :
  farm_wf f → heap f !! p = None → p ∉ queued f → P s →
  farm_wf (add_router_socket_in_background (with_heap f (<[p := s]> (heap f))) p).
Proof.
  intros [H1 H2 H3 H4] Hp Hq HP. set (g := with_heap f (<[p := s]> (heap f))).
  destruct (add_router_socket_spec g p s) as (n & Hm & Hn & Hc & Hs & _ & Hh & _); [apply lookup_insert_eq|].
  set (f' := add_router_socket_in_background g p) in *.
  cbn [g route_to_socket_chan chans sockets heap with_heap] in Hm, Hn, Hc, Hs, Hh.
  assert (Hnew : ∀ q t, q ≠ p → heap f !! q = Some t → heap f' !! q = Some t).
  { intros q t Hne Ht. rewrite Hh. by rewrite lookup_insert_ne. }
  split.
  - rewrite Hs. intros r m i q [[<- <-]|[Hne Hr]]%lookup_insert_Some Hi.
    + apply lookup_insert_Some in Hi as [[<- <-]|[Hne Hi]]; [exists s; by rewrite Hh, lookup_insert_eq|].
      destruct (sockets f !! rs_route s) as [m|] eqn:Em; cbn in Hi; [|by rewrite lookup_empty in Hi].
      destruct (H1 _ m i q Em Hi) as (t & Ht & ? & ?). exists t. split; [apply Hnew; [congruence|done]|done].
    + destruct (H1 r m i q Hr Hi) as (t & Ht & ? & ?). exists t. split; [apply Hnew; [congruence|done]|done].
  - intros c q t Hin Ht. rewrite Hh in Ht.
    assert (Hold : q ∈ chan f c → rs_route t = c.1).
    { intros Hqc. apply lookup_insert_Some in Ht as [[<- <-]|[_ Ht]]; [|by eapply H2].
      exfalso. apply Hq, elem_of_queued. by exists c. }
    unfold chan in Hin. rewrite Hc in Hin. destruct (decide (c = (rs_route s, n))) as [->|Hne].
    + rewrite lookup_insert_eq in Hin. apply elem_of_app in Hin as [Hin|Hin%list_elem_of_singleton]; [by apply Hold|].
      subst q. rewrite lookup_insert_eq in Ht. by simplify_eq.
    + rewrite lookup_insert_ne in Hin by done. by apply Hold.
  - intros r m. rewrite Hm, Hc. intros [[<- <-]|[Hne Hr]]%lookup_insert_Some; [by rewrite lookup_insert_eq|].
    rewrite lookup_insert_ne; [by apply H3|]. congruence.
  - rewrite Hh. intros q t [[<- <-]|[_ Ht]]%lookup_insert_Some; eauto.
Qed.

(** Fewer registrations. *)
Lemma farm_wf_with_sockets f m :
  farm_wf f →
  (∀ r x i p, m !! r = Some x → x !! i = Some p → ∃ y, sockets f !! r = Some y ∧ y !! i = Some p) →
  farm_wf (with_sockets f m).
Proof.
  intros Hf Hm. apply (farm_wf_shrink f); cbn; try done.
  - intros p s Hp. exists s. by split_and!.
  - intros r x i p Hr Hi. destruct (Hm r x i p Hr Hi) as (y & Hy & Hp). split; [|eauto].
    destruct (fw_sockets _ Hf r y i p Hy Hp) as (s & -> & _). eauto.
Qed.

Lemma farm_wf_remove f now r i p : farm_wf f → farm_wf (remove_router_socket_in_background f now r i p).
Proof.
  intros Hf. unfold remove_router_socket_in_background. cbn [sockets with_times].
  assert (Ht : ∀ t, farm_wf (with_times f t)) by (intros; by apply (farm_wf_same f)).
  destruct (sockets f !! r) as [m|] eqn:Em; [|apply Ht]. destruct (m !! i); [|apply Ht].
  apply farm_wf_mark. set (t := <[r := now]> _).
  apply (farm_wf_same (with_sockets (with_times f t) (<[r := delete i m]> (sockets f)))); [|done..]. apply farm_wf_with_sockets; [apply Ht|]. cbn.
  intros r' x j q [[<- <-]|[_ Hr]]%lookup_insert_Some Hj; [|eauto].
  apply lookup_delete_Some in Hj as [_ Hj]. eauto.
Qed.

Lemma farm_wf_close_idle ps f : farm_wf f → farm_wf (foldl close_if_idle f ps).
Proof.
  revert f. induction ps as [|p ps IH]; intros f Hf; [done|]. cbn. apply IH. unfold close_if_idle.
  destruct (heap f !! p) as [s|]; [|done]. destruct (rs_is_active s); [done|].
  by apply (farm_wf_same (mark_removed f p)); [apply farm_wf_mark|..].
Qed.

Lemma farm_wf_deregister f now r c : farm_wf f → farm_wf (de_register_router_socket_in_background f now r c).
Proof.
  intros Hf. unfold de_register_router_socket_in_background. destruct (sockets f !! r) as [m|] eqn:Em; [|done].
  apply farm_wf_close_idle. apply farm_wf_with_sockets; [by apply (farm_wf_same f)|].
  intros r' x i p [[<- <-]|[_ Hr]]%lookup_insert_Some Hi; [|eauto].
  apply map_lookup_filter_Some in Hi as [Hi _]. eauto.
Qed.

Lemma farm_wf_clean f now keep : farm_wf f → farm_wf (clean_routes_in_background f now keep).
Proof.
  intros Hf. unfold clean_routes_in_background. apply farm_wf_with_sockets.
  - apply (farm_wf_same f); try done. cbn. by intros r n [? _]%map_lookup_filter_Some.
  - intros r x i p Hr Hi. apply map_lookup_filter_Some in Hr as [Hr _]. eauto.
Qed.

Lemma farm_wf_terminate f force : farm_wf f → farm_wf (terminate_all f force).2.
Proof. intros Hf. apply farm_wf_with_sockets; [done|]. intros r x i p Hr. by rewrite lookup_empty in Hr. Qed.

Lemma farm_wf_enable_dark f d : farm_wf f → farm_wf (enable_dark_mode f d).
Proof. intros Hf. unfold enable_dark_mode. destruct (existsb _ _); [done|]. by apply (farm_wf_same f). Qed.

Lemma farm_wf_disable_dark f d : farm_wf f → farm_wf (disable_dark_mode f d).
Proof. intros Hf. unfold disable_dark_mode. destruct (existsb _ _); [|done]. by apply (farm_wf_same f). Qed.

(** The last owner of a socket that is not registered is gone. *)
Lemma farm_wf_drop f p : farm_wf f → p ∉ all_ptrs f → farm_wf (with_heap f (delete p (heap f))).
Proof.
  intros Hf Hp. apply (farm_wf_shrink f); try done.
  - cbn. intros q s [_ Hq]%lookup_delete_Some. exists s. by split_and!.
  - cbn. intros r m i q Hr Hi. split; [|eauto].
    destruct (fw_sockets _ Hf r m i q Hr Hi) as (s & Hs & _). rewrite lookup_delete_ne; [eauto|].
    intros <-. apply Hp, elem_of_all_ptrs. eauto.
Qed.

(** ** The selection of a socket *)

(** The socket for a request is in the channel of its route or of the catch-all
    route, so that it was registered for one of them. *)
Definition routed f (route : str) p : Prop :=
  ∃ s, heap f !! p = Some s ∧ (rs_route s = route ∨ rs_route s = STAR).

Lemma routed_of_chan f f' c p o :
  farm_wf f → moves f f' o → usable f p → in_reach f c p → routed f' c.1 p.
Proof.
  intros Hf Hm (s & Hs & _) Hp. exists s. rewrite (mv_heap _ _ _ Hm). split; [done|].
  destruct Hp as [Hp|Hp]; [left; by eapply fw_chan|right]. unfold route_chan in Hp.
  destruct (route_to_socket_chan f !! STAR) as [n|]; [|by apply elem_of_nil in Hp].
  exact (fw_chan _ Hf (STAR, n) p s Hp Hs).
Qed.

Lemma await_socket_wf wakes f req c w f' o :
  Forall (λ g, ∀ f, farm_wf f → farm_wf (g f)) wakes → farm_wf f →
  await_socket wakes f req c w = (f', o) →
  farm_wf f' ∧ ∀ p, o = Some p → routed f' c.1 p.
Proof.
  intros Hw. revert f w. induction Hw as [|g wakes Hg _ IH]; intros f w Hf Ha; cbn [await_socket] in Ha.
  { by simplify_eq. }
  specialize (Hg f Hf). destruct (resume (g f) req c w) as [f1 [p1|w1]] eqn:Er.
  - simplify_eq. pose proof Er as [Hm Hu]%resume_moves. apply resume_chan in Er.
    split; [by eapply farm_wf_moves|]. intros p [= <-]. eapply routed_of_chan; [exact Hg|exact Hm|by apply Hu|exact Er].
  - apply resume_moves in Er as [Hm _]. eapply IH; [|done]. by eapply farm_wf_moves.
Qed.

Lemma get_router_socket_wf max_wait wakes f req f' r :
  Forall (λ g, ∀ f, farm_wf f → farm_wf (g f)) wakes → farm_wf f →
  get_router_socket max_wait wakes f req = (f', r) →
  farm_wf f' ∧ ∀ p, r = Ok p →
    routed f' (resolve_route req (collect_routes f req).2 (target_path req)) p.
Proof.
  intros Hw Hf. unfold get_router_socket. destruct (collect_routes f req) as [f0 routes] eqn:Ec.
  apply collect_routes_spawns in Ec. apply moves_spawns in Ec. apply (farm_wf_moves f) in Ec as Hf0; [|done].
  cbn [snd]. set (route := resolve_route _ _ _). destruct (route_to_socket_chan f0 !! route) as [n|]; [|by intros [= <- <-]].
  set (f1 := with_waiting f0 _). assert (Hf1 : farm_wf f1) by by apply (farm_wf_same f0).
  destruct (await_socket _ _ _ _ _) as [f2 o] eqn:Ea.
  apply await_socket_wf in Ea as [Hf2 Ho]; [|constructor; [done|exact Hw]|done].
  set (f3 := with_waiting f2 _). assert (Hf3 : farm_wf f3) by by apply (farm_wf_same f2).
  destruct o as [p|]; [intros [= <- <-]; split; [done|]; intros q [= <-]; by apply Ho|].
  destruct (try_fallback_sockets f3 req (route, n)) as [f4 found] eqn:Et.
  pose proof Et as [Hm Hu]%try_fallback_moves. apply (farm_wf_moves f3) in Hm as Hf4; [|done].
  destruct found as [p|]; intros [= <- <-]; split; try done. intros q [= <-].
  eapply (routed_of_chan _ _ (route, n)); [exact Hf3|exact Hm|by apply Hu|by eapply try_fallback_chan].
Qed.

Lemma farm_wf_dropped n f req : farm_wf f → farm_wf (dropped_request n f req).
Proof.
  intros Hf. unfold dropped_request. destruct (collect_routes f req) as [f0 routes] eqn:Ec.
  apply collect_routes_spawns, moves_spawns, (farm_wf_moves f) in Ec as Hf0; [|done].
  destruct (route_to_socket_chan f0 !! _); [|done]. set (f1 := with_waiting f0 _).
  assert (Hf1 : farm_wf f1) by by apply (farm_wf_same f0).
  destruct (find_precise_match f1 _ _) as [f2 b] eqn:Ef.
  apply find_precise_spawns, moves_spawns, (farm_wf_moves f1) in Ef as Hf2; [|done].
  destruct (cancel_after _ _ _ _ _ _) as [f3 o] eqn:Ea. apply cancel_moves in Ea. by apply (farm_wf_moves f2) in Ea.
Qed.

End farm_wf.

(** ** Histories of the router *)

(** Every socket of the farm is in a state its own history can reach. *)
Definition any_wf (s : AnySocket) : Prop :=
  match s with SV1 s => sender_inv (cli_side_res_sender s) | SV3 s => wf s end.

Lemma any_wf_mark s : any_wf s → any_wf (rs_mark_removed s).
Proof. destruct s as [s|s]; [done|]. intros [H1 H2 H3]. by split. Qed.

Section router.
Context {HM : Type} `{HttpLib HM}.
Context (opt_hv_dbg : option str → str) (ip_to_string : IpAddr → str).
Context {L : Type} (config : CrankerRouterConfig L (SocketFilter (HM := HM)) (gset str → str → str)).
Context (listeners1 : list (ProxyListener RouterSocketV1 HM)).
Context (listeners3 : list (ProxyListener RequestContext HM)).
Context (send_err_dbg recv_err_dbg : str) (utf8_err_dbg : str → str) (debug_strs : list str → str).
Context (crex_dbg : CrankerRouterException → str) (http_err_dbg : str).
Context (local_ip : str) (version_debug : Version → str).
Implicit Types f : Farm AnySocket.

#[local] Abbreviation hist1 := (v1_history listeners1 send_err_dbg recv_err_dbg debug_strs http_err_dbg
  local_ip ip_to_string version_debug config).
#[local] Abbreviation hist3 := (history listeners3 send_err_dbg recv_err_dbg utf8_err_dbg debug_strs
  crex_dbg http_err_dbg local_ip ip_to_string version_debug config).
#[local] Abbreviation serve := (any_on_client_req ip_to_string config listeners1 listeners3 send_err_dbg
  recv_err_dbg debug_strs http_err_dbg local_ip version_debug).
#[local] Abbreviation portal := (visit_portal ip_to_string config listeners1 listeners3 send_err_dbg
  recv_err_dbg debug_strs http_err_dbg local_ip version_debug).

Inductive any_history : AnySocket → AnySocket → Prop :=
| any_v1 s s' : hist1 s s' → any_history (SV1 s) (SV1 s')
| any_v3 s s' : hist3 s s' → any_history (SV3 s) (SV3 s').

(** What other tasks do to the socket of a request is part of its history. *)
Record fair_surroundings (w : Surroundings) : Prop := {
  fs_env1 i s : hist1 s (env1 w i s);
  fs_late1 s : hist1 s (late1 w s);
  fs_env3 i s : hist3 s (env3 w i s);
  fs_late3 s : hist3 s (late3 w s)
}.

(** A spawned removal. *)
Definition run_background (f : Farm AnySocket) (now : Z) : Farm AnySocket :=
  match background f with
  | [] => f
  | BgRemove route i p :: rest =>
      remove_router_socket_in_background
        (MkFarm (heap f) (chans f) (route_to_socket_chan f) (sockets f) (route_last_removal_times f) (idle_count f)
           (waiting_task_count f) (dark_hosts f) (notified f) (close_sent f) rest) now route i p
  end.

Inductive router_history : Farm AnySocket → Farm AnySocket → Prop :=
| r_refl f : router_history f f
| r_trans f1 f2 f3 : router_history f1 f2 → router_history f2 f3 → router_history f1 f3
| r_register f uuid method headers params addr info now id :
    reg_check_and_extract opt_hv_dbg ip_to_string config uuid method headers params addr =
      Ret (RegProceed info) →
    router_history f (harvest_router_socket f now id info addr)
| r_deregister f now headers params addr :
    router_history f (de_reg_check ip_to_string config f now headers params addr).1
| r_request f wakes w err_id method uri headers addr is_tls version body is_end :
    (∀ g, g ∈ wakes → ∀ f, router_history f (g f)) → fair_surroundings w →
    router_history f (portal wakes w err_id f method uri headers addr is_tls version body is_end).1
| r_dropped f n req : router_history f (dropped_request n f req)
| r_socket f p s s' :
    heap f !! p = Some s → any_history s s' → router_history f (with_heap f (<[p := s']> (heap f)))
| r_removal f now p s :
    heap f !! p = Some s →
    router_history f (remove_router_socket_in_background f now (rs_route s) (rs_id s) p)
| r_background f now : router_history f (run_background f now)
| r_clean f now : router_history f (clean_routes_in_background f now (routes_keep_time_millis config))
| r_enable_dark f d : router_history f (enable_dark_mode f d)
| r_disable_dark f d : router_history f (disable_dark_mode f d)
| r_terminate f force : router_history f (terminate_all f force).2
| r_drop f p : p ∉ all_ptrs f → router_history f (with_heap f (delete p (heap f))).

Lemma any_history_follows s s' : any_history s s' → follows any_wf s s'.
Proof.
  intros [s1 s1' Hh|s3 s3' Hh].
  - apply v1_history_evolves in Hh as [Hi Hs _ _]. unfold follows. cbn. rewrite Hi. split_and!; try done. apply Hs.
  - apply history_evolves in Hh as [_ Hi _ Hw _]. unfold identity in Hi. injection Hi as H1 _ H2 _ _.
    unfold follows. cbn. by rewrite H1, H2.
Qed.

Lemma any_on_client_req_history w s v m u h a t b :
  fair_surroundings w → any_history s (serve w s v m u h a t b).1.
Proof.
  intros [H1 H2 H3 H4]. destruct s as [s|s]; cbn [any_on_client_req].
  - destruct (v1_on_client_req _ _ _ _ _ _ _ _ _ _ _ _ _ s v m u h a t b) as [s' r] eqn:E. cbn.
    apply any_v1. replace s' with (v1_on_client_req listeners1 send_err_dbg recv_err_dbg debug_strs http_err_dbg
      local_ip ip_to_string version_debug config (env1 w) (late1 w) (time1 w) (time2 w) s v m u h a t b).1
      by (by rewrite E). by apply v1h_request.
  - destruct (on_client_req _ _ _ _ _ _ _ _ _ _ _ s v m u h a t b) as [s' r] eqn:E. cbn.
    apply any_v3. replace s' with (on_client_req listeners3 send_err_dbg recv_err_dbg debug_strs http_err_dbg
      local_ip ip_to_string version_debug config (env3 w) (late3 w) s v m u h a t b).1 by (by rewrite E).
    by apply h_request.
Qed.

Lemma any_raise_follows now s : follows any_wf s (any_raise_completion listeners1 now s).
Proof.
  destruct s as [s|s]; cbn; [|done].
  apply any_history_follows, any_v1, v1h_completed.
Qed.

#[local] Abbreviation fwf := (farm_wf any_wf).

Lemma harvest_wf f now id info addr : fwf f → fwf (harvest_router_socket f now id info addr).
Proof.
  intros Hf. unfold harvest_router_socket. set (p := fresh (used_ptrs f)).
  assert (Hp : heap f !! p = None ∧ p ∉ queued f).
  { pose proof (is_fresh (used_ptrs f)) as Hn. fold p in Hn. unfold used_ptrs in Hn.
    split; [apply not_elem_of_dom; set_solver|set_solver]. }
  destruct Hp as [Hp Hq]. destruct (str_eqb _ _); [apply farm_wf_add; [done..|apply sender_inv_new]|].
  destruct (str_eqb _ _); [|done]. apply farm_wf_add; [done..|apply wf_new].
Qed.

Lemma portal_wf f wakes w err_id method uri headers addr is_tls version body is_end :
  Forall (λ g, ∀ f, fwf f → fwf (g f)) wakes → fair_surroundings w → fwf f →
  fwf (portal wakes w err_id f method uri headers addr is_tls version body is_end).1.
Proof.
  intros Hw Hs Hf. unfold visit_portal. destruct (str_eqb method TRACE); [done|].
  destruct (get_router_socket _ _ _ _) as [f1 r] eqn:Eg.
  apply (get_router_socket_wf any_wf) in Eg as [Hf1 _]; [|done..].
  destruct r as [p|e]; [|done]. destruct (heap f1 !! p) as [rs|] eqn:Ep; [|done].
  set (b := if has_body _ _ _ then _ else _).
  pose proof (any_on_client_req_history w rs version method uri headers addr is_tls b Hs) as Ha.
  apply any_history_follows in Ha.
  destruct (any_on_client_req _ _ _ _ _ _ _ _ _ _ w rs version method uri headers addr is_tls b) as [rs' x].
  cbn [fst] in Ha. assert (Hput : ∀ s, follows any_wf rs s → fwf (with_heap f1 (<[p := s]> (heap f1)))).
  { intros t Ht. by eapply farm_wf_put. }
  destruct x as [[[res|e]|]|]; cbn [fst]; try by apply Hput.
  apply Hput. destruct (rs_is_removed rs'); [done|].
  destruct Ha as (Hr & Hi & HP), (any_raise_follows (time3 w) rs') as (Hr' & Hi' & HP').
  split_and!; [congruence|congruence|auto].
Qed.

Lemma router_history_wf f f' : router_history f f' → fwf f → fwf f'.
Proof.
  induction 1 as [| | | |f wakes w err_id method uri headers addr is_tls version body is_end _ Hg Hw| | | | | | | | |];
    intros Hf.
  - done.
  - auto.
  - by apply harvest_wf.
  - unfold de_reg_check. repeat case_match; cbn [fst]; try done. by apply farm_wf_deregister; [apply any_wf_mark|].
  - apply portal_wf; [|done..]. apply list.Forall_forall. eauto.
  - by apply farm_wf_dropped.
  - eapply farm_wf_put; [done..|]. by apply any_history_follows.
  - by apply farm_wf_remove; [apply any_wf_mark|].
  - unfold run_background. destruct (background f) as [|[r i p] rest]; [done|].
    apply farm_wf_remove; [apply any_wf_mark|]. by apply (farm_wf_same _ f).
  - by apply farm_wf_clean.
  - by apply farm_wf_enable_dark.
  - by apply farm_wf_disable_dark.
  - by apply farm_wf_terminate.
  - by apply farm_wf_drop.
Qed.

(** C15: whatever connectors, clients and background tasks do, in any order, every
    state of the router is well formed: each registered socket exists and is
    registered under its own route and id, every channel, whether the map still has
    it or not, holds sockets of the route it was made for only, the channels that the
    map has exist, every version 3 socket maps its requests in flight to
    their own contexts, and every version 1 socket has given its client at most
    one header text and no body before it. *)
Theorem router_stays_well_formed f : router_history farm_new f → farm_wf any_wf f.
Proof. intros Hh. eapply router_history_wf; [done|apply farm_wf_new]. Qed.

(** C16: in every state the router can reach, and whatever happens while the
    request waits, the socket a client request is given was registered for the
    route to which the resolver maps the path of the request, or for the catch-all
    route: no request is sent to another service. *)
Theorem request_goes_to_its_route f wakes method uri headers addr f' p :
  router_history farm_new f → (∀ g, g ∈ wakes → ∀ f, router_history f (g f)) →
  let req := portal_request config method uri headers addr in
  get_router_socket (connector_max_wait_time_millis config) wakes f req = (f', Ok p) →
  ∃ s, heap f' !! p = Some s ∧
    (rs_route s = route_resolver config (collect_routes f req).2 (uri_path uri) ∨ rs_route s = STAR).
Proof.
  intros Hh Hg req Hs. apply (get_router_socket_wf any_wf) in Hs as [_ Hp].
  - exact (Hp p eq_refl).
  - apply list.Forall_forall. intros g Hin f0 Hf0. eapply router_history_wf; [|done]. by apply Hg.
  - eapply router_history_wf; [done|apply farm_wf_new].
Qed.

End router.

(** ** A concrete history *)

#[local] Existing Instance Alist.lib.

Module DemoSystem.

Definition no_listeners1 : list (ProxyListener RouterSocketV1 Alist.headers) := [].

Abbreviation hist := (router_history DemoRouter.no_dbg DemoRouter.no_ip DemoRouter.config no_listeners1
  DemoV3.no_listeners [] [] (λ _, []) (λ _, []) (λ _, []) [] [] (λ _, [])).

(** A connector registers, and a client request is sent to it. *)
Definition registered : Farm AnySocket := DemoRouter.farm.

Definition requested : Farm AnySocket :=
  (visit_portal DemoRouter.no_ip DemoRouter.config no_listeners1 DemoV3.no_listeners [] [] (λ _, []) [] []
     (λ _, []) [] DemoRouter.quiet (lit "e1") registered (lit "GET") DemoRouter.uri [] DemoRouter.addr false
     HTTP_11 [] true).1.

Lemma registered_history : hist farm_new registered.
Proof.
  unfold registered, DemoRouter.farm.
  apply (r_register _ _ _ _ _ _ _ _ _ _ _ _ _ farm_new (lit "u") (lit "GET") DemoRouter.headers
    {[lit "connectorInstanceID" := lit "c-1234567"]}).
  vm_compute. reflexivity.
Qed.

Lemma requested_history : hist registered requested.
Proof. apply r_request; [set_solver|]. split; intros; apply v1h_refl || apply h_refl. Qed.

End DemoSystem.

Lemma router_stays_well_formed_witness : farm_wf any_wf DemoSystem.requested.
Proof.
  eapply router_stays_well_formed. eapply r_trans;
    [exact DemoSystem.registered_history|exact DemoSystem.requested_history].
Defined.

Lemma request_goes_to_its_route_witness :
  ∃ s, heap DemoSystem.registered !! 0 = Some s ∧ (rs_route s = lit "app" ∨ rs_route s = STAR).
Proof.
  refine (request_goes_to_its_route _ _ DemoRouter.config _ _ _ _ _ _ _ _ _ _ DemoSystem.registered [] (lit "GET")
    DemoRouter.uri [] DemoRouter.addr (DemoRouter.selected DemoRouter.uri).1 0 DemoSystem.registered_history _ _).
  - intros g Hg. by apply elem_of_nil in Hg.
  - vm_compute. reflexivity.
Defined.
