(* ===== verification/Lifecycle.v ===== *)
(** * The life of a router (lib.rs, dark_mode_manager.rs)

    [CrankerRouter]: creation, the task that cleans the routes, the manager of
    dark hosts, registration from the request to the farm, the health
    endpoints, and [stop]. *)

From S2P Require Import Prelude RustStr Exceptions Http RouteResolver Config HttpUtils Farm FarmService SocketBase SocketV1 SocketV1Props SocketV3 SocketV3Props Pipes SocketV3Traces Router RouterInfo System.

(** ** The manager of dark hosts

    It holds a [Weak] reference to the farm: [None] when the farm is gone. *)

Module DarkMode.
Section dark_mode.
Context {S : Type} `{RouterSocket S}.
Implicit Types f : Farm S.

Definition enable_dark_mode (farm : option (Farm S)) (d : DarkHost) : option (Farm S) :=
  (λ f, Farm.enable_dark_mode f d) <$> farm.

Definition disable_dark_mode (farm : option (Farm S)) (d : DarkHost) : option (Farm S) :=
  (λ f, Farm.disable_dark_mode f d) <$> farm.

Definition get_dark_hosts (farm : option (Farm S)) : outcome (list DarkHost) :=
  match farm with Some f => Ret (dark_hosts f) | None => Panic end.

Definition find_host (farm : option (Farm S)) (address : IpAddr) : outcome (option DarkHost) :=
  let! hosts := get_dark_hosts farm in
  Ret (head (filter (λ i, dh_address i = address) hosts)).

(** *** What it promises: a map from addresses to dark hosts *)

Inductive DarkOp := Enable (d : DarkHost) | Disable (d : DarkHost).

Definition run_op (farm : option (Farm S)) (o : DarkOp) : option (Farm S) :=
  match o with Enable d => enable_dark_mode farm d | Disable d => disable_dark_mode farm d end.

(** Enabling keeps an entry that is already there. *)
Definition spec_op (m : IpAddr → option DarkHost) (o : DarkOp) : IpAddr → option DarkHost :=
  λ a, match o with
       | Enable d => if decide (dh_address d = a) then Some (default d (m a)) else m a
       | Disable d => if decide (dh_address d = a) then None else m a
       end.

(** The list of the farm is such a map: at most one entry for an address. *)
Definition represents (m : IpAddr → option DarkHost) (l : list DarkHost) : Prop :=
  NoDup (dh_address <$> l) ∧ ∀ a, head (filter (λ i, dh_address i = a) l) = m a.

Lemma filter_app_head (P : DarkHost → Prop) `{∀ x, Decision (P x)} (l k : list DarkHost) :
  head (filter P (l ++ k)) = match head (filter P l) with Some d => Some d | None => head (filter P k) end.
Proof. rewrite list.filter_app. by destruct (filter P l). Qed.

Lemma head_filter_None_iff (P : DarkHost → Prop) `{∀ x, Decision (P x)} (l : list DarkHost) :
  head (filter P l) = None ↔ ∀ x, x ∈ l → ¬ P x.
Proof.
  split.
  - intros Hh x Hx Px. destruct (filter P l) as [|y k] eqn:E; [|done].
    by apply (filter_nil_not_elem_of P l x) in E.
  - intros Hn. destruct (filter P l) as [|y k] eqn:E; [done|].
    assert (Hy : y ∈ filter P l) by (rewrite E; set_solver).
    apply list_elem_of_filter in Hy as [Py Hy]. by destruct (Hn y).
Qed.

Lemma head_filter_None a l : head (filter (λ i, dh_address i = a) l) = None ↔ a ∉ dh_address <$> l.
Proof. rewrite head_filter_None_iff, list_elem_of_fmap. naive_solver. Qed.

Lemma existsb_dark_host d l : existsb (dark_host_eqb d) l = bool_decide (dh_address d ∈ dh_address <$> l).
Proof.
  apply eq_true_iff_eq. rewrite existsb_exists, bool_decide_eq_true, list_elem_of_fmap.
  unfold dark_host_eqb. setoid_rewrite bool_decide_eq_true. setoid_rewrite <- list_elem_of_In. naive_solver.
Qed.

Lemma represents_enable m f d :
  represents m (dark_hosts f) → represents (spec_op m (Enable d)) (dark_hosts (Farm.enable_dark_mode f d)).
Proof.
  intros [Hnd Hm]. unfold Farm.enable_dark_mode. rewrite existsb_dark_host. case_bool_decide as Hd.
  - split; [done|]. intros a. cbn. rewrite Hm. destruct (decide (dh_address d = a)) as [<-|]; [|done].
    destruct (m (dh_address d)) eqn:E; [done|]. rewrite <- Hm in E. by apply head_filter_None in E.
  - split.
    + cbn. rewrite fmap_app. apply list.NoDup_app. split_and!; [done|set_solver|apply NoDup_singleton].
    + intros a. cbn. rewrite filter_app_head, Hm. destruct (decide (dh_address d = a)) as [<-|Hne].
      * rewrite <- Hm. apply head_filter_None in Hd as ->. by rewrite list.filter_cons_True.
      * rewrite list.filter_cons_False by done. by destruct (m a).
Qed.

Lemma represents_disable m f d :
  represents m (dark_hosts f) → represents (spec_op m (Disable d)) (dark_hosts (Farm.disable_dark_mode f d)).
Proof.
  intros [Hnd Hm]. unfold Farm.disable_dark_mode. rewrite existsb_dark_host. case_bool_decide as Hd; cbn.
  - split.
    + eapply sublist_NoDup; [exact Hnd|]. apply fmap_sublist, sublist_filter.
    + intros a. rewrite list_filter_filter. unfold spec_op. destruct (decide (dh_address d = a)) as [<-|Hne].
      * apply head_filter_None_iff. intros x Hx [E1 E]. unfold dark_host_eqb in E.
        by rewrite bool_decide_eq_true_2 in E by done.
      * rewrite <- Hm. f_equal. apply list_filter_iff. intros x. unfold dark_host_eqb.
        rewrite bool_decide_eq_false. naive_solver.
  - split; [done|]. intros a. cbn. rewrite Hm. destruct (decide (dh_address d = a)) as [<-|]; [|done].
    rewrite <- Hm. by apply head_filter_None.
Qed.

Lemma run_ops_represents m f (ops : list DarkOp) :
  represents m (dark_hosts f) →
  ∃ f', foldl run_op (Some f) ops = Some f' ∧ represents (foldl spec_op m ops) (dark_hosts f').
Proof.
  revert m f. induction ops as [|[d|d] ops IH]; intros m f Hr; [by exists f|..];
    apply IH; [by apply represents_enable|by apply represents_disable].
Qed.

(** C23: the dark mode of the farm is a map from addresses to dark hosts: after any
    sequence of enabling and disabling, the host the manager finds for an address
    is the one of the map in which enabling adds an entry unless there is one
    and disabling deletes it, and no address has two entries. *)
Theorem dark_mode_refines_map f (ops : list DarkOp) :
  dark_hosts f = [] →
  let farm := foldl run_op (Some f) ops in
  (∀ a, find_host farm a = Ret (foldl spec_op (λ _, None) ops a)) ∧
  ∃ hosts, get_dark_hosts farm = Ret hosts ∧ NoDup (dh_address <$> hosts).
Proof.
  intros Hf farm. destruct (run_ops_represents (λ _, None) f ops) as (f' & Hf' & Hnd & Hm).
  { rewrite Hf. split; [constructor|done]. }
  unfold farm. rewrite Hf'. split; [|by exists (dark_hosts f')].
  intros a. unfold find_host. cbn. by rewrite Hm.
Qed.

End dark_mode.
End DarkMode.

(** ** The task that cleans the routes *)

Section cleaning.
Context {S : Type} `{RouterSocket S}.
Implicit Types f : Farm S.

(** [Duration::from_millis(x as u64)] of a signed number of milliseconds. *)
Definition sleep_millis (x : Z) : Z := (x mod 2 ^ 64)%Z.

(** The loop that [CrankerRouter::new] spawns: one turn per
    [routes_keep_time_millis], from the time [now].  An element of [turns] is what
    other tasks do to the farm before that turn. *)
Fixpoint cleaning_loop (routes_keep_time_millis now : Z) (turns : list (Farm S → Farm S)) f : Farm S :=
  match turns with
  | [] => f
  | others :: turns =>
      let now := (now + sleep_millis routes_keep_time_millis)%Z in
      cleaning_loop routes_keep_time_millis now turns
        (clean_routes_in_background (others f) now routes_keep_time_millis)
  end.

(** Nobody registers a socket for the route or removes one from it. *)
Definition untouched (route : str) (e : Farm S → Farm S) : Prop :=
  ∀ f, sockets (e f) !! route = sockets f !! route ∧
       route_to_socket_chan (e f) !! route = route_to_socket_chan f !! route ∧
       route_chan (e f) route = route_chan f route ∧
       route_last_removal_times (e f) !! route = route_last_removal_times f !! route.

(** The map has the same channel for the route, with the same sockets in it. *)
Definition same_channel (route : str) f f' : Prop :=
  route_to_socket_chan f' !! route = route_to_socket_chan f !! route ∧ route_chan f' route = route_chan f route.

(** The route has been forgotten. *)
Definition forgotten f (route : str) : Prop :=
  sockets f !! route = None ∧ route_to_socket_chan f !! route = None.

Lemma sleep_millis_id x : (0 ≤ x < 2 ^ 63)%Z → sleep_millis x = x.
Proof. intros Hx. unfold sleep_millis. apply Z.mod_small. lia. Qed.

Lemma cleaning_forgotten keep now turns f route :
  Forall (untouched route) turns → forgotten f route → forgotten (cleaning_loop keep now turns f) route.
Proof.
  intros Ht. revert now f. induction Ht as [|e turns He _ IH]; intros now f Hf; [done|]. cbn [cleaning_loop].
  apply IH. destruct (He f) as (H1 & H2 & _), Hf as [H3 H4].
  destruct (clean_routes_exact (e f) (now + sleep_millis keep) keep route) as [_ Hk].
  destruct Hk as [E1 E2]; [intros (t & Hs & _); congruence|]. split; congruence.
Qed.

Lemma cleaning_turn keep now e f route t :
  untouched route e → sockets f !! route = Some ∅ → route_last_removal_times f !! route = Some t →
  let f' := clean_routes_in_background (e f) now keep in
  route_last_removal_times f' !! route = Some t ∧
  if decide (t < now - keep)%Z then forgotten f' route
  else sockets f' !! route = Some ∅ ∧ same_channel route f f'.
Proof.
  intros He Hs Ht f'. destruct (He f) as (H1 & H2 & Hq & H3). split; [cbn; congruence|].
  destruct (clean_routes_exact (e f) now keep route) as [Hy Hn]. unfold f'. case_decide as Hd.
  - apply Hy. exists t. split_and!; congruence.
  - destruct Hn as [E1 E2]; [intros (t' & _ & Ht' & Hlt); assert (t = t') as -> by congruence; lia|].
    split; [congruence|]. split; [congruence|]. rewrite <- Hq. unfold route_chan. by rewrite E2.
Qed.

(** C22: a route that lost its last socket at time [t] is kept for at least the
    configured time, and forgotten by the first turn of the cleaning task after
    that, so at most twice the configured time after it lost the socket (turns
    come every [keep] milliseconds: the first one after [t + keep] is not later
    than [t + 2 * keep]). *)
Theorem idle_route_kept_then_forgotten keep start turns f route t :
  (0 < keep < 2 ^ 63)%Z → (start ≤ t)%Z → Forall (untouched route) turns →
  sockets f !! route = Some ∅ → route_last_removal_times f !! route = Some t →
  let now := (start + Z.of_nat (length turns) * keep)%Z in
  let f' := cleaning_loop keep start turns f in
  if decide (now ≤ t + keep)%Z
  then sockets f' !! route = Some ∅ ∧ same_channel route f f'
  else forgotten f' route.
Proof.
  intros Hk Hst Ht Hs Hr.
  assert (Hgo : ∀ turns f start, Forall (untouched route) turns → (start ≤ t + keep)%Z →
    sockets f !! route = Some ∅ → route_last_removal_times f !! route = Some t →
    if decide (start + Z.of_nat (length turns) * keep ≤ t + keep)%Z
    then sockets (cleaning_loop keep start turns f) !! route = Some ∅ ∧
         same_channel route f (cleaning_loop keep start turns f)
    else forgotten (cleaning_loop keep start turns f) route); [|apply Hgo; [done|lia|done..]].
  clear f Hs Hr Ht Hst start turns. intros turns f start Ht. revert f start.
  induction Ht as [|e turns He Ht IH]; intros f start Hst Hs Hr.
  { cbn [length cleaning_loop]. rewrite decide_True by lia. done. }
  cbn [cleaning_loop]. rewrite sleep_millis_id by lia.
  destruct (cleaning_turn keep (start + keep) e f route t He Hs Hr) as [Hr' Hc].
  replace (start + Z.of_nat (length (e :: turns)) * keep)%Z
    with (start + keep + Z.of_nat (length turns) * keep)%Z by (cbn [length]; lia).
  destruct (decide (t < start + keep - keep)%Z) as [Hd|Hd].
  - rewrite decide_False by nia. by apply cleaning_forgotten.
  - destruct Hc as [Hs' [Hc1 Hc2]]. specialize (IH _ (start + keep)%Z ltac:(lia) Hs' Hr').
    unfold same_channel in *. rewrite Hc1, Hc2 in IH. exact IH.
Qed.

End cleaning.

(** ** Stopping *)

(** What [terminate_all_conn] leaves of a socket: no open channel and no request
    in flight. *)
Definition any_terminate_all_conn (crex : CrankerRouterException) (s : AnySocket) : AnySocket :=
  match s with
  | SV1 s => SV1 (v1_terminate_all_conn s (Some crex))
  | SV3 s => SV3 (terminate_all_conn s (Some crex))
  end.

Definition process_exiting : CrankerRouterException :=
  with_status_code (crex_new (lit "process exiting")) 500.

Definition terminate_at (f : Farm AnySocket) (p : nat) : Farm AnySocket :=
  with_heap f (alter (any_terminate_all_conn process_exiting) p (heap f)).

(** [CrankerRouter::try_stop]: [terminate_all] of the farm with the calls to the
    sockets. *)
Definition try_stop (f : Farm AnySocket) (force : bool) : Farm AnySocket :=
  (terminate_all (foldl terminate_at f (terminate_all f force).1) force).2.

Definition stop (f : Farm AnySocket) : Farm AnySocket := try_stop f true.

Section stop.
Implicit Types f : Farm AnySocket.

(** The channel with the error at its end, and closed. *)
Definition failed (ch : Chan (result str CrankerRouterException)) : Chan (result str CrankerRouterException) :=
  MkChan (items ch ++ if is_closed ch then [] else [Err process_exiting]) true.

(** The clients of the socket find an error behind what they were sent, in the
    channel of the response header and in that of the body, wherever it was open;
    no request is in flight. *)
Definition clients_told (s s' : AnySocket) : Prop :=
  match s, s' with
  | SV1 s, SV1 s' => v1_hdr (cli_side_res_sender s') = failed (v1_hdr (cli_side_res_sender s)) ∧
                     v1_bdy (cli_side_res_sender s') = failed (v1_bdy (cli_side_res_sender s))
  | SV3 s, SV3 s' => context_map s' = ∅ ∧
      ∀ id q c, context_map s !! id = Some q → ctx_heap s !! q = Some c →
        ∃ c', ctx_heap s' !! q = Some c' ∧ told_by_error c c'
  | _, _ => False
  end.

Lemma terminate_tells s : clients_told s (any_terminate_all_conn process_exiting s).
Proof.
  destruct s as [s|s]; cbn [clients_told any_terminate_all_conn].
  - destruct s as [inf rm cs br bf sw er st du ec [bs [hi hc] [bi bc] hr hs bd] ws cr fr cc].
    unfold failed. by destruct hc, bc; cbn; rewrite ?app_nil_r.
  - split; [done|]. intros i q c Hid Hc. by eapply terminate_tells_contexts.
Qed.

Lemma terminate_tells_again s s1 :
  clients_told s s1 → clients_told s (any_terminate_all_conn process_exiting s1).
Proof.
  destruct s as [s|s], s1 as [s1|s1]; try done; cbn [clients_told any_terminate_all_conn].
  - destruct s1 as [inf rm cs br bf sw er st du ec [bs [hi hc] [bi bc] hr hs bd] ws cr fr cc].
    cbn. by intros ([= -> ->] & [= -> ->]).
  - intros [Hm Hc]. split; [done|]. intros i q c Hi Hq. destruct (Hc i q c Hi Hq) as (c' & Hc' & Hx).
    exists c'. unfold terminate_all_conn. rewrite Hm, map_to_list_empty. done.
Qed.

(** What the farm sees of a socket. *)
Definition same_view (s s' : AnySocket) : Prop :=
  rs_is_removed s' = rs_is_removed s ∧ rs_addr s' = rs_addr s ∧ rs_domain s' = rs_domain s ∧
  rs_route s' = rs_route s ∧ rs_id s' = rs_id s.

Lemma foldl_error_removed (l : list (Z * nat)) e s :
  v3_is_removed (foldl (λ s kv, notify_client_request_error s kv.2 e) s l) = v3_is_removed s.
Proof.
  revert s. induction l as [|[k q] l IH]; intros s; [done|]. cbn [foldl]. rewrite IH.
  unfold notify_client_request_error, raise_completion_event. by case_match.
Qed.

Lemma terminate_same_view s : same_view s (any_terminate_all_conn process_exiting s).
Proof.
  destruct s as [s|s]; [done|]. unfold same_view. cbn -[terminate_all_conn].
  pose proof (ev_identity _ _ (ev_terminate s (Some process_exiting))) as Hi. unfold identity in Hi.
  split_and!; [apply foldl_error_removed|exact (f_equal (λ x, x.2) Hi)|exact (f_equal (λ x, x.1.1.1.2) Hi)
    |exact (f_equal (λ x, x.1.1.1.1) Hi)|exact (f_equal (λ x, x.1.1.2) Hi)].
Qed.

#[local] Abbreviation terminated n s := (Nat.iter n (any_terminate_all_conn process_exiting) s).

Lemma terminated_view n s : same_view s (terminated n s).
Proof.
  induction n as [|n IH]; [by split_and!|]. cbn [Nat.iter].
  destruct IH as (H1 & H2 & H3 & H4 & H5), (terminate_same_view (terminated n s)) as (K1 & K2 & K3 & K4 & K5).
  split_and!; etransitivity; eassumption.
Qed.

Lemma terminated_told n s : clients_told s (terminated (S n) s).
Proof. induction n as [|n IH]; [apply terminate_tells|]. by apply terminate_tells_again. Qed.

Lemma foldl_terminate_frame l f :
  let f' := foldl terminate_at f l in
  chans f' = chans f ∧ route_to_socket_chan f' = route_to_socket_chan f ∧ dark_hosts f' = dark_hosts f.
Proof. revert f. induction l as [|q l IH]; intros f; [done|]. exact (IH (terminate_at f q)). Qed.

Lemma foldl_terminate_heap l f p :
  heap (foldl terminate_at f l) !! p = (λ s, terminated (count_occ Nat.eq_dec l p) s) <$> heap f !! p.
Proof.
  revert f. induction l as [|q l IH]; intros f; cbn [foldl count_occ].
  { by destruct (heap f !! p). }
  rewrite IH. cbn [heap terminate_at with_heap]. destruct (Nat.eq_dec q p) as [->|Hne].
  - rewrite lookup_alter_eq. destruct (heap f !! p) as [s|]; [|done]. cbn [fmap option_fmap option_map].
    by rewrite Nat.iter_succ_r.
  - by rewrite lookup_alter_ne.
Qed.

(** C21: stopping the router with [force], as [stop] does, ends the requests in
    flight: the clients of every registered socket find an error behind what they
    were sent, in the channel of the header and in that of the body, wherever it was
    open, and no request stays in flight; without [force] no socket changes.  The
    registrations are emptied either way, but the channels are not, and the sockets
    stay as usable as they were: a request that comes after [stop] is still given a
    socket. *)
Theorem stop_ends_requests f force :
  let f' := try_stop f force in
  sockets f' = ∅ ∧ chans f' = chans f ∧ route_to_socket_chan f' = route_to_socket_chan f ∧
  dark_hosts f' = dark_hosts f ∧
  ∀ p s, heap f !! p = Some s →
    ∃ s', heap f' !! p = Some s' ∧ same_view s s' ∧ (force = false → s' = s) ∧
      (force = true → p ∈ all_ptrs f → clients_told s s').
Proof.
  intros f'. set (l := (terminate_all f force).1).
  destruct (foldl_terminate_frame l f) as (H1 & H2 & H3).
  split; [done|]. split; [exact H1|]. split; [exact H2|]. split; [exact H3|]. intros p s Hs.
  exists (terminated (count_occ Nat.eq_dec l p) s). split.
  { unfold f', try_stop, terminate_all. cbn [snd heap with_sockets]. fold l. by rewrite foldl_terminate_heap, Hs. }
  split; [apply terminated_view|]. split.
  - intros ->. done.
  - intros -> Hp. assert (Hc : (count_occ Nat.eq_dec l p > 0)%nat).
    { apply count_occ_In, list_elem_of_In. exact Hp. }
    destruct (count_occ Nat.eq_dec l p) as [|n]; [lia|]. apply terminated_told.
Qed.

End stop.

(** ** Registration and the health endpoints *)

Section endpoints.
Context {HM : Type} `{HttpLib HM}.
Implicit Types (f : Farm AnySocket) (route : str).
Context (opt_hv_dbg : option str → str) (ip_to_string : IpAddr → str).

(** The response to a registration: one of the middleware or of the extraction of
    the upgrade, or the switch to the websocket with the announced protocol. *)
Inductive Registration :=
| RegRejected (r : HttpResponse)
| RegUpgraded (protocol : str).

(** [register_handler]; [rejection] is the answer of the [WebSocketUpgrade]
    extractor when the request is no websocket handshake. *)
Definition register_handler (rejection : option HttpResponse) (f : Farm AnySocket) (now : Z)
  (router_socket_id : str) (info : CrankerConnectorInfo) (addr : SocketAddr)
  : Farm AnySocket * Registration :=
  match rejection with
  | Some r => (f, RegRejected r)
  | None => (harvest_router_socket f now router_socket_id info addr,
             RegUpgraded (negotiated_cranker_version info))
  end.

(** The route [/register] of [registration_axum_router]: the middleware, then the
    handler. *)
Definition register_route {L F R} (config : CrankerRouterConfig L F R) (rejection : option HttpResponse)
  (f : Farm AnySocket) (uuid router_socket_id : str) (now : Z) (method : str) (headers : HM)
  (params : gmap str str) (addr : SocketAddr) : outcome (Farm AnySocket * Registration) :=
  let! check := reg_check_and_extract opt_hv_dbg ip_to_string config uuid method headers params addr in
  Ret (match check with
       | RegAnswer r => (f, RegRejected r)
       | RegProceed info => register_handler rejection f now router_socket_id info addr
       end).

Definition health_root : HttpResponse := Resp 200 [] (lit "{" ++ ["034"%byte] ++ lit "isAvailable" ++
  ["034"%byte] ++ lit ":true}").

(** The services of [connector_info_handler], by route; their JSON is in
    [InfoJson]. *)
Definition connector_info_handler (f : Farm AnySocket) : gmap str ConnectorService :=
  foldl (λ m cs, <[svc_route cs := cs]> m) ∅ (collect_info_by_state f).1.

Lemma foldl_services (l : list (str * list nat)) f (m : gmap str ConnectorService) route :
  NoDup l.*1 →
  foldl (λ m cs, <[svc_route cs := cs]> m) m
    ((λ kv, service_of f (dark_hosts f) kv.1 kv.2) <$> l) !! route =
  match (list_to_map l : gmap str (list nat)) !! route with
  | Some ps => Some (service_of f (dark_hosts f) route ps)
  | None => m !! route
  end.
Proof.
  revert m. induction l as [|[k ps] l IH]; intros m Hnd; [by rewrite list_to_map_nil, lookup_empty|].
  cbn in Hnd. apply list.NoDup_cons in Hnd as [Hk Hnd]. rewrite fmap_cons. cbn [foldl list_to_map fst snd svc_route service_of].
  rewrite IH by done. cbn. destruct (decide (k = route)) as [->|Hne].
  - by rewrite lookup_insert_eq, not_elem_of_list_to_map_1, lookup_insert_eq.
  - by rewrite !lookup_insert_ne.
Qed.

(** The health endpoint reports every route that is registered, with the
    summary of its sockets, and no other. *)
Theorem health_reports_every_route f route :
  connector_info_handler f !! route =
  (λ ps, service_of f (dark_hosts f) route ps) <$> get_sockets f !! route.
Proof.
  unfold connector_info_handler, collect_info_by_state, get_connector_service_list. cbn [fst].
  rewrite foldl_services by apply NoDup_fst_map_to_list. rewrite list_to_map_to_list, lookup_empty.
  by destruct (get_sockets f !! route).
Qed.

(** A registration changes the farm exactly when the connector is told to switch
    to the websocket, and the protocol it is told is the one of the new socket. *)
Lemma register_route_outcome {L F R} (config : CrankerRouterConfig L F R) rejection f uuid rsid now method
  headers params addr f' r :
  register_route config rejection f uuid rsid now method headers params addr = Ret (f', r) →
  match r with
  | RegRejected _ => f' = f
  | RegUpgraded v => rejection = None ∧ ∃ info, negotiated_cranker_version info = v ∧
      f' = harvest_router_socket f now rsid info addr
  end.
Proof.
  unfold register_route. destruct (reg_check_and_extract _ _ _ _ _ _ _ _) as [[a|info]|]; cbn; [|..|done].
  - by intros [= <- <-].
  - destruct rejection as [a|]; cbn; intros [= <- <-]; [done|]. split; [done|]. by exists info.
Qed.

End endpoints.

(** ** Concrete routers *)

#[local] Existing Instance Alist.lib.

(** The router goes on serving after [stop]: the registered socket is still handed
    to a request. *)
Example stopped_router_still_serves :
  (get_router_socket 5000 [] (stop DemoRouter.farm) (DemoRouter.request DemoRouter.uri)).2 = Ok 0.
Proof. vm_compute. reflexivity. Qed.

Lemma dark_mode_refines_map_witness :
  DarkMode.find_host (foldl DarkMode.run_op (Some DemoRouter.farm)
    [DarkMode.Enable (MkDarkHost (V4 9) 1 []); DarkMode.Enable (MkDarkHost (V4 9) 2 []);
     DarkMode.Enable (MkDarkHost (V4 8) 3 []); DarkMode.Disable (MkDarkHost (V4 8) 0 [])]) (V4 9) =
  Ret (Some (MkDarkHost (V4 9) 1 [])).
Proof.
  rewrite (proj1 (DarkMode.dark_mode_refines_map DemoRouter.farm _ eq_refl)). reflexivity.
Defined.

(** The connector goes away at time 2000, the task runs every 5000 ms. *)
Definition left_route : Farm AnySocket :=
  remove_router_socket_in_background DemoRouter.farm 2000 (lit "app") (lit "rs1") 0.

Lemma idle_route_kept_then_forgotten_witness :
  sockets (cleaning_loop 5000 1000 [λ f, f] left_route) !! lit "app" = Some ∅ ∧
  forgotten (cleaning_loop 5000 1000 [λ f, f; λ f, f] left_route) (lit "app").
Proof.
  split.
  - apply (idle_route_kept_then_forgotten 5000 1000 [λ f, f] left_route (lit "app") 2000);
      [lia|lia|repeat constructor|vm_compute; reflexivity..].
  - apply (idle_route_kept_then_forgotten 5000 1000 [λ f, f; λ f, f] left_route (lit "app") 2000);
      [lia|lia|repeat constructor|vm_compute; reflexivity..].
Defined.

(** ** Building the router *)

Section build.
Context {Listener F R : Type}.
(** The two [really_need_..] methods of a listener; the bodies that the trait
    gives them panic. *)
Context (need_response_chunks need_request_chunks : Listener → outcome bool).

(** The warnings that [check_proxy_listeners] logs. *)
Fixpoint warn_needs (need : Listener → outcome bool) (warning : str) (ls : list Listener) : outcome (list str) :=
  match ls with
  | [] => Ret []
  | i :: r =>
      let! b := need i in
      let! ws := warn_needs need warning r in
      Ret (if b then warning :: ws else ws)
  end.

Definition check_proxy_listeners (proxy_listeners : list Listener) : outcome (list str) :=
  let! w1 := warn_needs need_response_chunks (lit "Detected one proxy listener really needs on_response_body_chunk_received_from_target hook. This hook is expensive.") proxy_listeners in
  let! w2 := warn_needs need_request_chunks (lit "Detected one proxy listener really needs on_request_body_chunk_sent_to_target hook. This hook is expensive.") proxy_listeners in
  Ret (w1 ++ w2).

(** The state of a router; the dark mode manager has a weak reference to the farm
    of the same state. *)
Record CrankerRouterState := MkRouterState {
  websocket_farm : Farm AnySocket;
  router_config : CrankerRouterConfig Listener F R
}.

Definition router_new (config : CrankerRouterConfig Listener F R) : CrankerRouterState :=
  MkRouterState farm_new config.

Definition build (config : CrankerRouterConfig Listener F R) : outcome CrankerRouterState :=
  let! _ := check_proxy_listeners (proxy_listeners config) in Ret (router_new config).

Lemma warn_needs_panics need warning ls : warn_needs need warning ls = Panic ↔ Exists (λ i, need i = Panic) ls.
Proof.
  induction ls as [|i ls IH]; cbn.
  { split; [done|inversion 1]. }
  rewrite List.Exists_cons, <- IH.
  destruct (need i), (warn_needs need warning ls); cbn; naive_solver.
Qed.

Lemma Exists_either {A} (P Q : A → Prop) l : Exists (λ x, P x ∨ Q x) l ↔ Exists P l ∨ Exists Q l.
Proof. rewrite !list.Exists_exists. naive_solver. Qed.

(** A listener that does not say whether it needs the chunks is found when the
    router is built: the build panics exactly when one of the two methods of some
    listener is left to the trait, and otherwise gives an empty router with the
    configuration. *)
Theorem build_outcomes config :
  let undecided := Exists (λ i, need_response_chunks i = Panic ∨ need_request_chunks i = Panic)
                     (proxy_listeners config) in
  (undecided → build config = Panic) ∧
  (~ undecided → build config = Ret (MkRouterState farm_new config)).
Proof.
  intros undecided. unfold undecided, build, check_proxy_listeners. rewrite Exists_either.
  match goal with |- context [warn_needs need_response_chunks ?w _] =>
    rewrite <- (warn_needs_panics need_response_chunks w) end.
  match goal with |- context [warn_needs need_request_chunks ?w _] =>
    rewrite <- (warn_needs_panics need_request_chunks w) end.
  destruct (warn_needs need_response_chunks _ _), (warn_needs need_request_chunks _ _); cbn; naive_solver.
Qed.

End build.

(** ** A router that stops while a response is streamed *)

Module DemoStop.

Definition farm : Farm AnySocket := with_heap DemoRouter.farm (<[0 := SV3 DemoV3.streaming]> ∅).

End DemoStop.

Lemma stop_ends_requests_witness :
  ∃ s' c', heap (stop DemoStop.farm) !! 0 = Some (SV3 s') ∧ context_map s' = ∅ ∧ ctx_heap s' !! 0 = Some c' ∧
    ∃ e errs, items (tgt_res_bdy c') = Ok (lit "hel") :: Err e :: map Err errs.
Proof.
  destruct (stop_ends_requests DemoStop.farm true) as (_ & _ & _ & _ & Hall).
  destruct (Hall 0 (SV3 DemoV3.streaming)) as (s' & Hs & _ & _ & Ht); [vm_compute; reflexivity|].
  assert (Hp : 0 ∈ all_ptrs DemoStop.farm) by (apply (bool_decide_unpack _); vm_compute; exact I).
  specialize (Ht eq_refl Hp). destruct s' as [s'|s']; [destruct Ht|]. destruct Ht as [Hm Hc].
  destruct (Hc 1%Z 0 (ctx_of DemoV3.streaming 0)) as (c' & Hc' & _ & ([|e errs] & Hi & Hn) & _);
    [vm_compute; reflexivity|vm_compute; reflexivity| |].
  - destruct Hn as [Hn _]. discriminate (Hn eq_refl).
  - exists s', c'. split; [exact Hs|]. split; [exact Hm|]. split; [exact Hc'|]. exists e, errs. exact Hi.
Defined.
