(* ===== verification/InfoJson.v ===== *)
(** * The JSON of the health and dark mode endpoints

    The values that the derived [Serialize] and [Deserialize] of the information
    types give to JSON (connector_connection.rs, connector_instance.rs,
    connector_service.rs, router_info.rs, dark_host.rs, [WaitingSocketTask] of
    websocket_farm.rs): the names and the order of the fields, the fields that
    are skipped, and what a [DarkHost] in a request body must look like.  The text
    of a JSON value is serde_json's.  A client that reads the health endpoint gets
    the whole summary back, skipped fields included. *)

From S2P Require Import Prelude RustStr Exceptions Http Config Farm SocketBase SocketV1 SocketV3 SocketV3Props Router RouterInfo Lifecycle.
From stdpp Require Import sorting.

Inductive Json :=
| JBool (b : bool)
| JInt (z : Z)
| JString (s : str)
| JArray (l : list Json)
| JObject (fields : list (str * Json)).

(** ** Serialization *)

Record WaitingSocketTask := MkTask { target : str }.

(** [get_waiting_tasks]: the tasks of every route as a vector. *)
Definition get_waiting_tasks (waiting_tasks : gmap str (list WaitingSocketTask))
  : gmap str (list WaitingSocketTask) :=
  foldl (λ res i, <[i.1 := foldl (λ k j, k ++ [j]) [] i.2]> res) ∅ (map_to_list waiting_tasks).

Record RouterInfo := MkRouterInfo {
  services : list ConnectorService;
  info_dark_hosts : list DarkHost;
  info_waiting_tasks : gmap str (list WaitingSocketTask)
}.

(** [collect_info]; nothing ever inserts into the waiting tasks of the farm, so
    the map is the empty one of [WebSocketFarm::new]. *)
Definition collect_info (f : Farm AnySocket) : RouterInfo :=
  let '(services, dark) := collect_info_by_state f in MkRouterInfo services dark (get_waiting_tasks ∅).

Definition if_ser_domain (domain : str) : bool := str_eqb domain (lit "*").
Definition if_ser_inflight (ifl : Z) : bool := (ifl <? 0)%Z.

(** A field with [skip_serializing_if]. *)
Definition unless (skip : bool) (name : string) (v : Json) : list (str * Json) :=
  if skip then [] else [(lit name, v)].

Definition connection_json (c : ConnectorConnection) : Json :=
  JObject (unless (if_ser_domain (cc_domain c)) "domain" (JString (cc_domain c)) ++
    [(lit "port", JInt (cc_port c)); (lit "socketID", JString (cc_router_socket_id c));
     (lit "protocol", JString (cc_protocol c))] ++
    unless (if_ser_inflight (cc_inflight c)) "inflight" (JInt (cc_inflight c))).

Section json.
(** [Display] of an address, which its [Serialize] writes, and [FromStr], which
    its [Deserialize] reads. *)
Context (ip_to_string : IpAddr → str) (ip_from_str : str → option IpAddr).

Definition instance_json (i : ConnectorInstance) : Json :=
  JObject [(lit "connectionCount", JInt (Z.of_nat (ins_connection_count i)));
    (lit "darkMode", JBool (ins_dark_mode i)); (lit "connectorInstanceID", JString (ins_connector_id i));
    (lit "connections", JArray (map connection_json (ins_connections i)));
    (lit "ip", JString (ip_to_string (ins_ip i))); (lit "componentName", JString (ins_component_name i))].

Definition service_json (s : ConnectorService) : Json :=
  JObject [(lit "name", JString (svc_route s)); (lit "componentName", JString (svc_component_name s));
    (lit "connectors", JArray (map instance_json (svc_connectors s)));
    (lit "isCatchAll", JBool (svc_is_catch_all s))].

Definition dark_host_json (d : DarkHost) : Json :=
  JObject [(lit "address", JString (ip_to_string (dh_address d))); (lit "dateEnabled", JInt (dh_date_enabled d));
    (lit "reason", JString (dh_reason d))].

Definition task_json (t : WaitingSocketTask) : Json := JObject [(lit "target", JString (target t))].

Definition router_info_json (i : RouterInfo) : Json :=
  JObject [(lit "services", JArray (map service_json (services i)));
    (lit "darkHosts", JArray (map dark_host_json (info_dark_hosts i)));
    (lit "waitingTasks", JObject (map (λ kv, (kv.1, JArray (map task_json kv.2)))
                                    (map_to_list (info_waiting_tasks i))))].

(** The body of [connector_info_handler]. *)
Definition connector_info_json (f : Farm AnySocket) : Json :=
  JObject [(lit "services", JObject (map (λ kv, (kv.1, service_json kv.2))
                                       (map_to_list (connector_info_handler f))))].

(** The body of [get_dark_hosts_handler]. *)
Definition dark_hosts_json {S} (f : Farm S) : Json := JArray (map dark_host_json (dark_hosts f)).

(** ** Deserialization of a [DarkHost] *)

(** The derived [Deserialize] takes the fields in any order, passes over unknown
    ones, and refuses a field that is there twice or not at all; the date must be
    an [i64]. *)
Fixpoint fields_named (name : str) (fields : list (str * Json)) : list Json :=
  match fields with
  | [] => []
  | (k, v) :: r => if str_eqb k name then v :: fields_named name r else fields_named name r
  end.

Definition only_field (name : string) (fields : list (str * Json)) : option Json :=
  match fields_named (lit name) fields with [v] => Some v | _ => None end.

Definition as_string (j : Json) : option str := match j with JString s => Some s | _ => None end.
Definition as_int (j : Json) : option Z := match j with JInt z => Some z | _ => None end.
Definition as_bool (j : Json) : option bool := match j with JBool b => Some b | _ => None end.
Definition as_array (j : Json) : option (list Json) := match j with JArray l => Some l | _ => None end.
Definition as_object (j : Json) : option (list (str * Json)) := match j with JObject l => Some l | _ => None end.

(** The field [name], read with [read]. *)
Definition get {A} (read : Json → option A) (name : string) (fields : list (str * Json)) : option A :=
  only_field name fields ≫= read.

Definition as_ip (j : Json) : option IpAddr := as_string j ≫= ip_from_str.
Definition as_list {A} (read : Json → option A) (j : Json) : option (list A) := as_array j ≫= mapM read.

Definition as_i64 (j : Json) : option Z :=
  z ← as_int j; if (i64_min <=? z)%Z && (z <=? i64_max)%Z then Some z else None.

Definition dark_host_of_json (j : Json) : option DarkHost :=
  fields ← as_object j;
  address ← get as_ip "address" fields;
  date ← get as_i64 "dateEnabled" fields;
  reason ← get as_string "reason" fields;
  Some (MkDarkHost address date reason).

(** ** A client that reads the health endpoint *)

(** A field that is not there has the value for which it is skipped. *)
Definition connection_of_json (j : Json) : option ConnectorConnection :=
  fields ← as_object j;
  port ← get as_int "port" fields;
  id ← get as_string "socketID" fields;
  protocol ← get as_string "protocol" fields;
  Some (MkConnection (default (lit "*") (get as_string "domain" fields)) port id protocol
          (default (-1)%Z (get as_int "inflight" fields))).

Definition instance_of_json (j : Json) : option ConnectorInstance :=
  fields ← as_object j;
  count ← get as_int "connectionCount" fields;
  dark ← get as_bool "darkMode" fields;
  id ← get as_string "connectorInstanceID" fields;
  connections ← get (as_list connection_of_json) "connections" fields;
  ip ← get as_ip "ip" fields;
  component ← get as_string "componentName" fields;
  Some (MkInstance ip id (Z.to_nat count) connections dark component).

Definition service_of_json (j : Json) : option ConnectorService :=
  fields ← as_object j;
  route ← get as_string "name" fields;
  component ← get as_string "componentName" fields;
  connectors ← get (as_list instance_of_json) "connectors" fields;
  catch_all ← get as_bool "isCatchAll" fields;
  Some (MkService route component connectors catch_all).

Definition services_of_json (j : Json) : option (list (str * ConnectorService)) :=
  fields ← as_object j;
  services ← get as_object "services" fields;
  mapM (λ kv, s ← service_of_json kv.2; Some (kv.1, s)) services.

(** ** Lemmas *)

(** Looks the fields of a literal object up: the names are compared one by one. *)
Ltac read_fields :=
  cbn [as_object mbind option_bind app unless]; unfold get, only_field; cbn [fields_named];
  repeat match goal with
  | |- context [str_eqb (lit ?a) (lit ?b)] =>
      let v := eval vm_compute in (str_eqb (lit a) (lit b)) in change (str_eqb (lit a) (lit b)) with v
  end;
  cbn [mbind option_bind as_object as_string as_int as_bool default from_option].

Lemma mapM_map {A B C} (g : A → B) (h : B → option C) (k : A → C) l :
  Forall (λ x, h (g x) = Some (k x)) l → mapM h (map g l) = Some (map k l).
Proof. induction 1 as [|x l Hx _ IH]; [done|]. cbn. rewrite Hx. cbn. by rewrite IH. Qed.

Lemma get_waiting_tasks_copy w : get_waiting_tasks w = w.
Proof.
  unfold get_waiting_tasks.
  assert (Hl : ∀ (l k : list WaitingSocketTask), foldl (λ k j, k ++ [j]) k l = k ++ l).
  { induction l as [|x l IH]; intros k; cbn; [by rewrite app_nil_r|]. by rewrite IH, <- app_assoc. }
  assert (Hf : ∀ (l : list (str * list WaitingSocketTask)) (m : gmap str (list WaitingSocketTask)), NoDup l.*1 →
    foldl (λ res i, <[i.1 := foldl (λ k j, k ++ [j]) [] i.2]> res) m l = list_to_map l ∪ m).
  { induction l as [|[k v] l IH]; intros m Hnd; [cbn; by rewrite (left_id_L ∅ (∪))|]. cbn in *.
    apply list.NoDup_cons in Hnd as [Hk Hnd]. rewrite IH, Hl by done. cbn.
    rewrite <- insert_union_l, insert_union_r; [done|]. by apply not_elem_of_list_to_map_1. }
  rewrite Hf by apply NoDup_fst_map_to_list. by rewrite list_to_map_to_list, (right_id_L ∅ (∪)).
Qed.

Lemma connection_json_round_trip c : (-1 ≤ cc_inflight c)%Z → connection_of_json (connection_json c) = Some c.
Proof.
  intros Hi. destruct c as [domain port id protocol inflight]. unfold connection_of_json, connection_json.
  cbn [cc_domain cc_port cc_router_socket_id cc_protocol cc_inflight] in *. unfold if_ser_domain, if_ser_inflight.
  destruct (str_eqb domain (lit "*")) eqn:Ed, (Z.ltb_spec inflight 0) as [Hn|Hn]; read_fields;
    try apply str_eqb_true in Ed as ->; do 2 f_equal; lia.
Qed.

(** [Display] and [FromStr] of an address agree. *)
Context (ip_round_trip : ∀ ip, ip_from_str (ip_to_string ip) = Some ip).

Lemma as_list_json {A} (g : A → Json) (h : Json → option A) l :
  Forall (λ x, h (g x) = Some x) l → as_list h (JArray (map g l)) = Some l.
Proof. intros Hl. cbn. rewrite (mapM_map _ _ (λ x, x)) by done. by rewrite map_id. Qed.

Definition shows_inflight (i : ConnectorInstance) : Prop :=
  Forall (λ c, -1 ≤ cc_inflight c)%Z (ins_connections i).

Lemma instance_json_round_trip i : shows_inflight i → instance_of_json (instance_json i) = Some i.
Proof.
  intros Hc. destruct i as [ip id n cs dark comp]. unfold shows_inflight in Hc. cbn in Hc.
  unfold instance_of_json, instance_json. read_fields. cbn [ins_connections]. rewrite as_list_json.
  - cbn. rewrite ip_round_trip. cbn. by rewrite Nat2Z.id.
  - eapply list.Forall_impl; [exact Hc|]. apply connection_json_round_trip.
Qed.

Lemma service_json_round_trip s :
  Forall shows_inflight (svc_connectors s) → service_of_json (service_json s) = Some s.
Proof.
  intros Hc. destruct s as [route comp cs b]. cbn in Hc. unfold service_of_json, service_json. read_fields.
  cbn [svc_connectors]. rewrite as_list_json; [done|]. eapply list.Forall_impl; [exact Hc|]. apply instance_json_round_trip.
Qed.

(** The counts of the sockets come to the summary unchanged. *)
Lemma add_connection_inflight dark m s :
  (-1 ≤ any_inflight_count s)%Z → map_Forall (λ _, shows_inflight) m →
  map_Forall (λ _, shows_inflight) (add_connection dark m s).
Proof.
  intros Hs Hm. unfold add_connection. apply map_Forall_insert_2; [|done].
  unfold shows_inflight. cbn [ins_connections]. apply list.Forall_app. split; [|by repeat constructor].
  destruct (m !! rs_connector_id s) as [i|] eqn:E; [by apply (Hm _ _ E)|constructor].
Qed.

Lemma service_of_inflight f dark route ps :
  Forall (λ s, -1 ≤ any_inflight_count s)%Z (upgraded f ps) →
  Forall shows_inflight (svc_connectors (service_of f dark route ps)).
Proof.
  intros Hs. cbn. rewrite merge_sort_Permutation. apply list.Forall_forall. intros i ([k j] & -> & Hi)%list_elem_of_fmap.
  apply elem_of_map_to_list in Hi. revert Hi.
  assert (Hm : ∀ ss m, Forall (λ s, -1 ≤ any_inflight_count s)%Z ss → map_Forall (λ _, shows_inflight) m →
    map_Forall (λ _, shows_inflight) (foldl (add_connection dark) m ss)).
  { induction ss as [|s ss IH]; intros m Hs' Hm; cbn; [done|]. apply list.Forall_cons in Hs' as [Hh Ht].
    apply IH; [done|]. by apply add_connection_inflight. }
  intros Hi. by eapply (Hm _ ∅ Hs (map_Forall_empty _)).
Qed.

(** The sockets of the farm have fewer than 2^31 requests in flight each. *)
Definition inflight_fits (f : Farm AnySocket) : Prop :=
  map_Forall (λ _ s, -1 ≤ any_inflight_count s)%Z (heap f).

(** C36: nothing of the summary is lost in the JSON of the health endpoint: a client
    that reads the body, taking the domain of a connection that has none for the
    wildcard and a missing number of requests in flight for the minus one of
    version 1, gets exactly the services of the router by route, whatever the
    connectors called themselves; as long as no socket has 2^31 requests in
    flight. *)
Theorem health_json_round_trip f :
  inflight_fits f →
  services_of_json (connector_info_json f) = Some (map_to_list (connector_info_handler f)).
Proof.
  intros Hf. unfold services_of_json, connector_info_json. read_fields.
  rewrite (mapM_map _ _ (λ kv, kv)); [by rewrite map_id|].
  apply list.Forall_forall. intros [route s] Hs%elem_of_map_to_list. cbn [fst snd].
  rewrite health_reports_every_route in Hs. apply fmap_Some in Hs as (ps & _ & ->).
  rewrite service_json_round_trip; [done|]. apply service_of_inflight. apply list.Forall_forall.
  intros s (p & _ & Hp)%list_elem_of_omap. by apply (Hf _ _ Hp).
Qed.

Lemma dark_host_json_round_trip d :
  (i64_min ≤ dh_date_enabled d ≤ i64_max)%Z → dark_host_of_json (dark_host_json d) = Some d.
Proof.
  intros Hd. destruct d as [a t r]. cbn [dh_date_enabled] in Hd. unfold dark_host_of_json, dark_host_json. read_fields.
  cbn [dh_address]. unfold as_ip. cbn [mbind option_bind as_string]. rewrite ip_round_trip.
  cbn [mbind option_bind]. unfold as_i64.
  cbn [mbind option_bind as_int dh_date_enabled dh_reason].
  destruct (Z.leb_spec i64_min t), (Z.leb_spec t i64_max); [reflexivity|lia..].
Qed.

(** The dark mode endpoints fit together: every entry of the list that the router
    answers can be sent back to the endpoint that disables dark mode, is read as
    the host it stands for, and disabling it takes exactly that address off. *)
Lemma dark_hosts_json_can_be_posted (f : Farm AnySocket) d :
  (i64_min ≤ dh_date_enabled d ≤ i64_max)%Z → d ∈ dark_hosts f →
  ∃ j d', dark_hosts_json f = JArray j ∧ dark_host_json d ∈ j ∧ dark_host_of_json (dark_host_json d) = Some d' ∧
    ∀ x, x ∈ dark_hosts (disable_dark_mode f d') ↔ x ∈ dark_hosts f ∧ dh_address x ≠ dh_address d.
Proof.
  intros Ht Hd. exists (map dark_host_json (dark_hosts f)), d. split_and!; [done| |by apply dark_host_json_round_trip|].
  - apply list_elem_of_fmap. by exists d.
  - intros x. unfold disable_dark_mode.
    assert (existsb (dark_host_eqb d) (dark_hosts f) = true) as ->.
    { apply existsb_exists. exists d. split; [by apply list_elem_of_In|]. by apply bool_decide_eq_true. }
    cbn. rewrite list_elem_of_filter. unfold dark_host_eqb. rewrite bool_decide_eq_false. naive_solver.
Qed.

End json.

(** ** A router with a socket of each version

    The two sockets of the route belong to one connector; the one of version 3 is
    for a domain.  The text of an address is stood for by its bits. *)

Module DemoJson.

Fixpoint pos_text (p : positive) : str :=
  match p with xH => [] | xO p => "0"%byte :: pos_text p | xI p => "1"%byte :: pos_text p end.

Fixpoint text_pos (s : str) : positive :=
  match s with [] => xH | b :: s => if bool_decide (b = "1"%byte) then xI (text_pos s) else xO (text_pos s) end.

Definition z_text (z : Z) : str :=
  match z with Z0 => [] | Zpos p => "+"%byte :: pos_text p | Zneg p => "-"%byte :: pos_text p end.

Definition text_z (s : str) : Z :=
  match s with [] => 0 | b :: s => if bool_decide (b = "+"%byte) then Zpos (text_pos s) else Zneg (text_pos s) end.

Definition ip_text (ip : IpAddr) : str :=
  match ip with V4 z => "4"%byte :: z_text z | V6 z => "6"%byte :: z_text z end.

Definition text_ip (s : str) : option IpAddr :=
  match s with
  | [] => None
  | b :: s => Some (if bool_decide (b = "4"%byte) then V4 (text_z s) else V6 (text_z s))
  end.

Lemma text_ip_text ip : text_ip (ip_text ip) = Some ip.
Proof.
  assert (Hp : ∀ p, text_pos (pos_text p) = p) by (induction p as [p IH|p IH|]; cbn; by rewrite ?IH).
  assert (Hz : ∀ z, text_z (z_text z) = z) by (intros []; cbn; by rewrite ?Hp).
  destruct ip as [z|z]; cbn; by rewrite Hz.
Qed.

Definition farm : Farm AnySocket :=
  harvest_router_socket
    (harvest_router_socket farm_new 1 (lit "rs1")
       (MkConnectorInfo (lit "c-1") (lit "app") (lit "comp") (lit "*") CRANKER_V_1_0) DemoRouter.addr)
    2 (lit "rs3") (MkConnectorInfo (lit "c-1") (lit "app") (lit "comp") (lit "example.org") CRANKER_V_3_0)
    DemoRouter.addr.

End DemoJson.

Lemma health_json_round_trip_witness :
  services_of_json DemoJson.text_ip (connector_info_json DemoJson.ip_text DemoJson.farm) =
  Some [(lit "app", MkService (lit "app") (lit "comp")
    [MkInstance (V4 9) (lit "c-1") 2
       [MkConnection (lit "example.org") 80 (lit "rs3") CRANKER_V_3_0 0;
        MkConnection (lit "*") 80 (lit "rs1") CRANKER_V_1_0 (-1)] false (lit "comp")] false)].
Proof.
  rewrite (health_json_round_trip DemoJson.ip_text DemoJson.text_ip DemoJson.text_ip_text DemoJson.farm).
  - vm_compute. reflexivity.
  - unfold inflight_fits. apply (bool_decide_unpack _). vm_compute. exact I.
Defined.
