(* ===== verification/ProxyInfo.v ===== *)
(** * What listeners are told, and how sockets and streams end

    The traits [RouteIdentify] and [ProxyInfo] (route_identify.rs, proxy_info.rs)
    with their implementations: a version 1 socket, the context of a request on a
    version 3 socket, and [ErrorProxyInfo] of websocket_farm.rs, which the
    listeners get when no socket was found.  Then the guard around the body of a
    response (router_socket.rs) and [Drop] of the sockets. *)

From S2P Require Import Prelude RustStr Exceptions Http Config Farm SocketBase SocketV1 SocketV3 SocketV3Props.

(** ** The traits *)

Class ProxyInfo (I : Type) := {
  pi_router_socket_id : I → str;
  pi_route : I → str;
  pi_service_address : I → SocketAddr;
  pi_domain : I → str;
  pi_is_catch_all : I → bool;
  pi_connector_id : I → str;
  pi_duration_millis : I → Z;
  pi_bytes_received : I → Z;
  pi_bytes_sent : I → Z;
  pi_response_body_frames : I → Z;
  pi_error_if_any : I → option CrankerRouterException;
  pi_socket_wait_in_millis : I → Z
}.

(** The default of [RouteIdentify::domain]. *)
Definition default_domain : str := lit "*".

#[export] Instance v1_proxy_info : ProxyInfo RouterSocketV1 := {
  pi_router_socket_id s := v1_router_socket_id (v1_info s);
  pi_route s := v1_route (v1_info s);
  pi_service_address s := v1_remote_address (v1_info s);
  pi_domain s := default_domain;
  pi_is_catch_all s := str_eqb (v1_route (v1_info s)) (lit "*");
  pi_connector_id s := v1_connector_id (v1_info s);
  pi_duration_millis s := duration_millis s;
  pi_bytes_received s := v1_bytes_received s;
  pi_bytes_sent s := bytes_sent (cli_side_res_sender s);
  pi_response_body_frames s := binary_frame_received s;
  pi_error_if_any s := v1_error s;
  pi_socket_wait_in_millis s := socket_wait_in_millis s
}.

(** A context with what its [Weak] reference to the socket upgrades to, and its
    [duration_millis], which [SocketV3] keeps with the completions. *)
Record ContextInfo := MkContextInfo {
  outer : option RouterSocketV3;
  context : RequestContext;
  context_duration : Z
}.

Definition REQ_CTX_INVALID_OUTER_RS3_MSG : str := lit "(invalid router socket v3)".

Definition of_outer {A} (i : ContextInfo) (get : RouterSocketV3 → A) (gone : A) : A :=
  match outer i with Some rs3 => get rs3 | None => gone end.

#[export] Instance context_proxy_info : ProxyInfo ContextInfo := {
  pi_router_socket_id i := of_outer i v3_router_socket_id REQ_CTX_INVALID_OUTER_RS3_MSG;
  pi_route i := of_outer i v3_route REQ_CTX_INVALID_OUTER_RS3_MSG;
  pi_service_address i := of_outer i v3_remote_address (MkAddr (V4 (2 ^ 32 - 1)) 65535);
  pi_domain i := of_outer i v3_domain REQ_CTX_INVALID_OUTER_RS3_MSG;
  pi_is_catch_all i := of_outer i (λ s, str_eqb (v3_route s) (lit "*")) false;
  pi_connector_id i := of_outer i v3_connector_id REQ_CTX_INVALID_OUTER_RS3_MSG;
  pi_duration_millis i := context_duration i;
  pi_bytes_received i := from_client_bytes (context i);
  pi_bytes_sent i := to_client_bytes (context i);
  pi_response_body_frames i := wss_on_binary_call_count (context i);
  pi_error_if_any i := ctx_error (context i);
  pi_socket_wait_in_millis i := 0%Z
}.

(** [duration_millis] of a context: zero, and then what the last completion stored. *)
Definition stored_duration (s : RouterSocketV3) (p : nat) : Z :=
  default 0%Z (list.last (filter (λ e, e.1 = p) (completed s)).*2).

(** What the listeners of a socket in use are given. *)
Definition context_info (s : RouterSocketV3) (p : nat) : ContextInfo :=
  MkContextInfo (Some s) (ctx_of s p) (stored_duration s p).

(** The listeners see the duration when the request is complete, and before that
    they see zero. *)
Lemma v3_duration_seen s p id :
  (p ∉ (completed s).*1 → pi_duration_millis (context_info s p) = 0%Z) ∧
  (context_map s !! id = Some p →
   pi_duration_millis (context_info (raise_completion_event s (Some id)) p) =
   wrap64 (v3_clock s - req_start_time (ctx_of s p))).
Proof.
  unfold pi_duration_millis, context_info, stored_duration. cbn. split.
  - intros Hp. assert (Hn : filter (λ e, e.1 = p) (completed s) = []); [|by rewrite Hn].
    induction (completed s) as [|[q d] l IH]; [done|]. cbn in Hp. rewrite filter_cons_False by set_solver.
    apply IH. set_solver.
  - intros ->. cbn. rewrite list.filter_app, filter_cons_True, filter_nil, fmap_app by done. cbn. by rewrite last_snoc.
Qed.

Record ErrorProxyInfo := MkErrorInfo {
  ep_route : str;
  ep_socket_wait_in_millis : Z
}.

(** [LOCAL_IP] is the address of the machine. *)
Definition error_proxy_info (LOCAL_IP : IpAddr) : ProxyInfo ErrorProxyInfo := {|
  pi_router_socket_id e := lit "N/A";
  pi_route e := ep_route e;
  pi_service_address e := MkAddr LOCAL_IP 0;
  pi_domain e := default_domain;
  pi_is_catch_all e := str_eqb (ep_route e) (lit "*");
  pi_connector_id e := lit "N/A";
  pi_duration_millis e := 0%Z;
  pi_bytes_received e := 0%Z;
  pi_bytes_sent e := 0%Z;
  pi_response_body_frames e := 0%Z;
  pi_error_if_any e := Some (crex_new (lit "failed to acquire connector socket in " ++
                                       display_Z (ep_socket_wait_in_millis e) ++ lit "ms"));
  pi_socket_wait_in_millis e := ep_socket_wait_in_millis e
|}.

(** ** Requests that get no socket *)

Section failure.
Context {S : Type} `{RouterSocket S}.
Implicit Types (f : Farm S) (req : Request S).

(** [get_router_socket] with the calls of [on_failure_to_acquire_proxy_socket],
    one for each of the [listeners], whose results are ignored.  The request came
    at [start] and its time is over at [now]. *)
Definition get_router_socket_or_report {Lst : Type} (listeners : list Lst) (max_wait start now : Z)
  (wakes : list (Farm S → Farm S)) f req
  : Farm S * result nat CrankerRouterException * list (Lst * ErrorProxyInfo) :=
  let '(f, current_routes) := collect_routes f req in
  let resolved_route := resolve_route req current_routes (target_path req) in
  match route_to_socket_chan f !! resolved_route with
  | None => (f, Err (no_route_error (target_path req)), [])
  | Some n =>
      let c := (resolved_route, n) in
      let f := with_waiting f (wrap32 (waiting_task_count f + 1)) in
      let '(f, r) := await_socket (id :: wakes) f req c AtNotify in
      let f := with_waiting f (wrap32 (waiting_task_count f + -1)) in
      match r with
      | Some p => (f, Ok p, [])
      | None =>
          let '(f, found) := try_fallback_sockets f req c in
          match found with
          | Some p => (f, Ok p, [])
          | None =>
              let epif := MkErrorInfo resolved_route (now - start) in
              (f, Err (timeout_error max_wait (target_path req)), map (λ i, (i, epif)) listeners)
          end
      end
  end.

(** The listeners hear of a request without a socket exactly when its time ran
    out: each of them is called once, in order, with the resolved route and the
    time waited, when the answer is 503; none is called when the request got a
    socket or its route is unknown (404).  What they return changes nothing. *)
Theorem failure_reported {Lst : Type} (listeners : list Lst) max_wait start now wakes f req :
  let '(f', r, calls) := get_router_socket_or_report listeners max_wait start now wakes f req in
  get_router_socket max_wait wakes f req = (f', r) ∧
  let route := resolve_route req (collect_routes f req).2 (target_path req) in
  calls = match r with
          | Ok _ => []
          | Err e => if decide (opt_status_code e = Some 503%Z)
                     then map (λ i, (i, MkErrorInfo route (now - start))) listeners
                     else []
          end.
Proof.
  unfold get_router_socket_or_report, get_router_socket.
  destruct (collect_routes f req) as [f1 routes]. cbn [snd].
  destruct (route_to_socket_chan f1 !! _); [|done].
  destruct (await_socket _ _ _ _ _) as [f2 [p|]]; [done|].
  destruct (try_fallback_sockets _ _ _) as [f3 [p|]]; done.
Qed.

End failure.

(** ** The body of a response

    [wrap_tgt_res_body_stream_with_guard]: a stream over the body channel that
    tells a waiting task when it ends or is dropped.  The guard is made by the
    first poll; before that, dropping the stream drops the sender of the signal,
    which wakes the task as well. *)

Inductive StreamPhase := NotPolled | Streaming | Ended.

Record GuardedBody := MkGuarded {
  gb_phase : StreamPhase;
  gb_chan : Chan (result str CrankerRouterException);
  (** how often the waiting task was woken *)
  gb_woken : nat
}.

Inductive Poll := Pending | Yield (x : result str CrankerRouterException) | EndOfStream.

Definition guarded_new (c : Chan (result str CrankerRouterException)) : GuardedBody :=
  MkGuarded NotPolled c 0.

Definition poll_next (g : GuardedBody) : GuardedBody * Poll :=
  match gb_phase g with
  | Ended => (g, EndOfStream)
  | _ =>
      match items (gb_chan g) with
      | x :: rest => (MkGuarded Streaming (MkChan rest (is_closed (gb_chan g))) (gb_woken g), Yield x)
      | [] => if is_closed (gb_chan g) then (MkGuarded Ended (gb_chan g) (gb_woken g + 1), EndOfStream)
              else (MkGuarded Streaming (gb_chan g) (gb_woken g), Pending)
      end
  end.

Definition drop_stream (g : GuardedBody) : GuardedBody :=
  match gb_phase g with
  | Ended => g
  | _ => MkGuarded Ended (gb_chan g) (gb_woken g + 1)
  end.

(** What happens to the stream: the socket sends and closes, the server polls and
    drops. *)
Inductive BodyEvent :=
| BSend (x : result str CrankerRouterException)
| BClose
| BPoll
| BDrop.

(** The stream, what it has yielded, and what the socket could send. *)
Definition body_step (st : GuardedBody * list (result str CrankerRouterException) *
                           list (result str CrankerRouterException)) (e : BodyEvent) :=
  let '(g, yielded, sent) := st in
  match e with
  | BSend x => let '(c, ok) := chan_send (gb_chan g) x in
               (MkGuarded (gb_phase g) c (gb_woken g), yielded, if ok then sent ++ [x] else sent)
  | BClose => (MkGuarded (gb_phase g) (chan_close (gb_chan g)) (gb_woken g), yielded, sent)
  | BPoll => match poll_next g with
             | (g, Yield x) => (g, yielded ++ [x], sent)
             | (g, _) => (g, yielded, sent)
             end
  | BDrop => (drop_stream g, yielded, sent)
  end.

Record body_inv (g : GuardedBody) (yielded sent : list (result str CrankerRouterException)) : Prop := {
  bi_order : sent = yielded ++ items (gb_chan g);
  bi_woken : gb_woken g = match gb_phase g with Ended => 1 | _ => 0 end
}.

Lemma body_step_inv g yielded sent e :
  body_inv g yielded sent →
  let '(g', yielded', sent') := body_step (g, yielded, sent) e in body_inv g' yielded' sent'.
Proof.
  intros [Ho Hw]. destruct e; cbn [body_step].
  - unfold chan_send. destruct (is_closed (gb_chan g)) eqn:E; split; cbn; try done.
    by rewrite Ho, app_assoc.
  - by split.
  - unfold poll_next. destruct (gb_phase g) eqn:Eph; [..|by split; rewrite ?Eph];
      (destruct (items (gb_chan g)) as [|x rest] eqn:E;
        [destruct (is_closed (gb_chan g)); split; cbn; rewrite ?E in *; rewrite ?Hw; done
        |split; cbn; [by rewrite Ho, <- app_assoc|done]]).
  - unfold drop_stream. destruct (gb_phase g) eqn:Eph; split; cbn; rewrite ?Eph, ?Hw in *; done.
Qed.

(** Whatever the socket and the server do with the body of a response, in any
    order, the server gets the chunks the socket could send in order and without a
    gap, and the task that waits for the end of the body is woken exactly once, at
    the moment the stream ends or is dropped, and never while it is in use. *)
Theorem body_stream_guarded (es : list BodyEvent) :
  let '(g, yielded, sent) := foldl body_step (guarded_new chan_new, [], []) es in
  yielded `prefix_of` sent ∧
  gb_woken g = match gb_phase g with Ended => 1 | _ => 0 end ∧
  (gb_phase (drop_stream g) = Ended ∧ gb_woken (drop_stream g) = 1).
Proof.
  assert (Hgo : ∀ es g y s, body_inv g y s →
    let '(g, y, s) := foldl body_step (g, y, s) es in body_inv g y s).
  { clear. intros es. induction es as [|e es IH]; intros g y s Hi; [done|]. cbn [foldl].
    pose proof (body_step_inv g y s e Hi) as H1. destruct (body_step _ e) as [[g' y'] s'].
    by apply IH. }
  specialize (Hgo es (guarded_new chan_new) [] []). destruct (foldl _ _ _) as [[g y] s].
  destruct Hgo as [Ho Hw]; [by split|]. split_and!; [by exists (items (gb_chan g))|done|..];
    unfold drop_stream; destruct (gb_phase g) eqn:E; cbn; rewrite ?Hw; done.
Qed.

(** ** Dropping a socket

    The two tasks are aborted as well; they are over by then, because each of
    them holds the socket. *)

Definition v1_drop (s : RouterSocketV1) : RouterSocketV1 :=
  v1_set_wss (set_sender s (close_both (cli_side_res_sender s))) (chan_close (v1_wss s)).

(** [weak_self] does not upgrade any more when [drop] runs, so [terminate_all_conn]
    is not called. *)
Definition v3_drop (s : RouterSocketV3) : RouterSocketV3 :=
  let weak_self_upgrade : option RouterSocketV3 := None in
  let s := match weak_self_upgrade with
           | Some strong => terminate_all_conn strong None
           | None => s
           end in
  with_wss s (chan_close (wss_send_task s)).

(** Nothing can be sent to the connector after the drop; the clients of a version
    1 socket read what is there and then the end, those of a version 3 socket are
    told nothing. *)
Lemma dropped_socket_is_silent s1 s3 m :
  (wss_send (v1_drop s1) m).2 = false ∧ (chan_send (wss_send_task (v3_drop s3)) m).2 = false ∧
  is_closed (v1_hdr (cli_side_res_sender (v1_drop s1))) = true ∧
  is_closed (v1_bdy (cli_side_res_sender (v1_drop s1))) = true ∧
  context_map (v3_drop s3) = context_map s3 ∧ ctx_heap (v3_drop s3) = ctx_heap s3.
Proof. done. Qed.
