(* ===== verification/Routing.v ===== *)
(** * The routing tables (lib.rs, examples/)

    Which handler a request reaches.  The tables are data; that axum serves a
    request by the route with exactly its path, or else by the catch-all route
    [/{*any}], which does not match [/], is its documented behaviour, stated as
    the laws of the class [AxumLaws]. *)

From S2P Require Import Prelude RustStr.

(** A path, or [/{*any}]. *)
Inductive Pattern := Exact (path : str) | CatchAll.

#[export] Instance Pattern_eq_dec : EqDecision Pattern.
Proof. solve_decision. Defined.

(** [any], [get] and [post] of axum; [get] takes HEAD too. *)
Inductive MethodFilter := AnyMethod | OnlyGet | OnlyPost.

Inductive Endpoint :=
| EpRegister | EpDeRegister | EpConnectors | EpHealth | EpPortal | EpDarkEnable | EpDarkDisable | EpDarkHosts.

Record Route := MkRoute { rt_pattern : Pattern; rt_methods : MethodFilter; rt_endpoint : Endpoint }.

Definition accepts (m : MethodFilter) (method : str) : bool :=
  match m with
  | AnyMethod => true
  | OnlyGet => str_eqb method (lit "GET") || str_eqb method (lit "HEAD")
  | OnlyPost => str_eqb method (lit "POST")
  end.

(** ** The tables *)

Definition register_routes : list Route := [
  MkRoute (Exact (lit "/register")) AnyMethod EpRegister;
  MkRoute (Exact (lit "/register/")) AnyMethod EpRegister;
  MkRoute (Exact (lit "/deregister")) AnyMethod EpDeRegister;
  MkRoute (Exact (lit "/deregister/")) AnyMethod EpDeRegister].

Definition health_routes : list Route := [
  MkRoute (Exact (lit "/health/connectors")) OnlyGet EpConnectors;
  MkRoute (Exact (lit "/health")) OnlyGet EpHealth].

Definition portal_routes : list Route := [
  MkRoute (Exact (lit "/")) AnyMethod EpPortal;
  MkRoute CatchAll AnyMethod EpPortal].

(** The routers of the library. *)
Definition registration_axum_router : list Route := register_routes ++ health_routes.
Definition visit_portal_axum_router : list Route := portal_routes.

(** Those of the examples. *)
Definition dark_mode_routes : list Route := [
  MkRoute (Exact (lit "/dark-mode/enable")) OnlyPost EpDarkEnable;
  MkRoute (Exact (lit "/dark-mode/disable")) OnlyPost EpDarkDisable;
  MkRoute (Exact (lit "/dark-mode/hosts")) OnlyGet EpDarkHosts].

Definition unified_router : list Route :=
  register_routes ++ [MkRoute (Exact (lit "/health/connectors")) OnlyGet EpConnectors] ++ dark_mode_routes ++
  [MkRoute (Exact (lit "/health")) OnlyGet EpHealth] ++ portal_routes.

Definition h3_app : list Route := register_routes ++ health_routes ++ portal_routes.

Definition custom_axum_wss_router : list Route := register_routes.

Definition custom_axum_visit_portal_router : list Route :=
  health_routes ++ [MkRoute CatchAll AnyMethod EpPortal].

Definition native_tls_app : list Route := portal_routes.

(** ** What axum does with a table *)

(** A request is given an endpoint, or answered with 404 or 405. *)
Class Axum := dispatch : list Route → str → str → result Endpoint Z.

Definition answer_of (r : Route) (method : str) : result Endpoint Z :=
  if accepts (rt_methods r) method then Ok (rt_endpoint r) else Err 405%Z.

Definition has_path (tbl : list Route) (path : str) : Prop := Exact path ∈ rt_pattern <$> tbl.

Class AxumLaws `{Axum} := {
  dispatch_exact tbl r method path :
    NoDup (rt_pattern <$> tbl) → r ∈ tbl → rt_pattern r = Exact path →
    dispatch tbl method path = answer_of r method;
  dispatch_catch_all tbl r method path :
    NoDup (rt_pattern <$> tbl) → r ∈ tbl → rt_pattern r = CatchAll → ~ has_path tbl path →
    is_prefix (lit "/") path = true → path ≠ lit "/" →
    dispatch tbl method path = answer_of r method;
  dispatch_none tbl method path :
    ~ has_path tbl path → CatchAll ∉ rt_pattern <$> tbl ∨ path = lit "/" →
    dispatch tbl method path = Err 404%Z
}.

(** A router with this behaviour. *)
Definition find_route (tbl : list Route) (q : Pattern) : option Route :=
  List.find (λ r, bool_decide (rt_pattern r = q)) tbl.

Definition dispatch_by_find : Axum := λ tbl method path,
  match find_route tbl (Exact path) with
  | Some r => answer_of r method
  | None =>
      match (if decide (path = lit "/") then None else find_route tbl CatchAll) with
      | Some r => answer_of r method
      | None => Err 404%Z
      end
  end.

Lemma find_route_Some tbl r :
  NoDup (rt_pattern <$> tbl) → r ∈ tbl → find_route tbl (rt_pattern r) = Some r.
Proof.
  induction tbl as [|x tbl IH]; intros Hnd Hr; [set_solver|]. rewrite fmap_cons in Hnd.
  apply list.NoDup_cons in Hnd as [Hx Hnd]. cbn. case_bool_decide as E.
  - apply elem_of_cons in Hr as [->|Hr]; [done|]. exfalso. apply Hx. rewrite E. by apply list_elem_of_fmap_2.
  - apply elem_of_cons in Hr as [->|Hr]; [done|]. by apply IH.
Qed.

Lemma find_route_None tbl q : q ∉ rt_pattern <$> tbl → find_route tbl q = None.
Proof.
  intros Hq. destruct (find_route tbl q) as [r|] eqn:E; [|done]. apply find_some in E as [Hin E].
  apply bool_decide_eq_true in E as <-. exfalso. apply Hq. apply list_elem_of_fmap_2. by apply list_elem_of_In.
Qed.

Lemma dispatch_by_find_laws : @AxumLaws dispatch_by_find.
Proof.
  split; unfold dispatch, dispatch_by_find.
  - intros tbl r method path Hnd Hr Hp. by rewrite <- Hp, find_route_Some.
  - intros tbl r method path Hnd Hr Hp Hn _ Hne. rewrite find_route_None by done.
    rewrite decide_False by done. by rewrite <- Hp, find_route_Some.
  - intros tbl method path Hn Hc. rewrite find_route_None by done. case_decide; [done|].
    destruct Hc; [by rewrite find_route_None|done].
Qed.

(** ** Which requests reach the portal *)

Section routing.
Context `{AxumLaws}.

(** The paths the unified server keeps for itself. *)
Definition management : list Route :=
  register_routes ++ [MkRoute (Exact (lit "/health/connectors")) OnlyGet EpConnectors] ++ dark_mode_routes ++
  [MkRoute (Exact (lit "/health")) OnlyGet EpHealth].

Lemma unified_nodup : NoDup (rt_pattern <$> unified_router).
Proof. apply (bool_decide_unpack _). vm_compute. exact I. Qed.

Lemma portal_dispatch method path :
  is_prefix (lit "/") path = true → dispatch visit_portal_axum_router method path = Ok EpPortal.
Proof.
  intros Hp. destruct (decide (path = lit "/")) as [->|Hne].
  - by apply (dispatch_exact _ (MkRoute (Exact (lit "/")) AnyMethod EpPortal)); [apply (bool_decide_unpack _)|set_solver|].
  - apply (dispatch_catch_all _ (MkRoute CatchAll AnyMethod EpPortal)); try done.
    + by apply (bool_decide_unpack _).
    + set_solver.
    + unfold has_path. set_solver.
Qed.

(** On the port of the unified server a request is treated as on a port of its own
    for clients unless its path is one of the nine paths of the management: only
    these are taken away from the services behind the router. *)
Theorem unified_shadows_exactly method path :
  is_prefix (lit "/") path = true →
  dispatch unified_router method path =
  match List.find (λ r, bool_decide (rt_pattern r = Exact path)) management with
  | Some r => answer_of r method
  | None => dispatch visit_portal_axum_router method path
  end.
Proof.
  intros Hp. destruct (List.find _ management) as [r|] eqn:E.
  - apply find_some in E as [Hin E]. apply bool_decide_eq_true in E.
    apply dispatch_exact; [apply unified_nodup| |done]. apply list_elem_of_In in Hin.
    change unified_router with (management ++ portal_routes). apply elem_of_app. by left.
  - rewrite portal_dispatch by done. pose proof (find_none _ _ E) as Hn.
    destruct (decide (path = lit "/")) as [->|Hne].
    + apply (dispatch_exact _ (MkRoute (Exact (lit "/")) AnyMethod EpPortal)); [apply unified_nodup| |done].
      unfold unified_router, portal_routes. set_solver.
    + apply (dispatch_catch_all _ (MkRoute CatchAll AnyMethod EpPortal)); try done; [apply unified_nodup| |].
      * unfold unified_router, portal_routes. set_solver.
      * unfold has_path. intros Hin. apply list_elem_of_fmap in Hin as (r & Hr & Hin).
        change unified_router with (management ++ portal_routes) in Hin. apply elem_of_app in Hin as [Hin|Hin].
        -- apply list_elem_of_In, Hn in Hin. by rewrite bool_decide_eq_false in Hin.
        -- unfold portal_routes in Hin. rewrite !elem_of_cons in Hin.
           destruct Hin as [->|[->|Hin]]; [by injection Hr|done|by apply not_elem_of_nil in Hin].
Qed.

(** The registration port serves nothing else. *)
Lemma registration_port_is_closed method path :
  ~ has_path registration_axum_router path → dispatch registration_axum_router method path = Err 404%Z.
Proof. intros Hn. apply dispatch_none; [done|]. left. by apply (bool_decide_unpack _). Qed.

(** The portal of harder.rs does not serve the root path. *)
Lemma harder_root_is_404 method : dispatch custom_axum_visit_portal_router method (lit "/") = Err 404%Z.
Proof. apply dispatch_none; [|by right]. unfold has_path. by apply (bool_decide_unpack _). Qed.

End routing.

Lemma unified_shadows_exactly_witness :
  @dispatch dispatch_by_find unified_router (lit "DELETE") (lit "/registry/x") = Ok EpPortal ∧
  @dispatch dispatch_by_find unified_router (lit "DELETE") (lit "/health") = Err 405%Z.
Proof.
  split.
  - rewrite (@unified_shadows_exactly _ dispatch_by_find_laws) by reflexivity. reflexivity.
  - rewrite (@unified_shadows_exactly _ dispatch_by_find_laws) by reflexivity. reflexivity.
Defined.
