(* ===== verification/Servers.v ===== *)
(** * The example servers (examples/)

    [Unified]: unified_router_server.rs, its command line, the configuration made
    of it, its ports and its dark mode endpoints.  [Redirect]: the redirection to
    HTTPS of tls_single_domain_server.rs.  [Http3]: the dispatch of h3_server.rs.
    [TestEnv]: the environment variables the other examples read. *)

From S2P Require Import Prelude RustStr Exceptions Http RouteResolver Config HttpUtils Farm SocketBase SocketV1 SocketV3 SocketV3Props Router.

(** [bool::from_str]. *)
Definition parse_bool (s : str) : option bool :=
  if str_eqb s (lit "true") then Some true
  else if str_eqb s (lit "false") then Some false else None.

Definition display_bool (b : bool) : str := if b then lit "true" else lit "false".

Lemma parse_display_bool b : parse_bool (display_bool b) = Some b.
Proof. by destruct b. Qed.

(** ** The unified server *)

Module Unified.
Section unified.
(** [LevelFilter] of the log crate with its [FromStr]. *)
Context {Level : Type} (level_from_str : str → option Level) (level_debug : Level).

(** The variables of [main] that the arguments set. *)
Record Args := MkArgs {
  single_port : option Z;
  reg_port : Z;
  visit_port : Z;
  keep_time : Z;
  max_wait_time : Z;
  via : str;
  discard_client_forwarded : bool;
  send_legacy_forwarded : bool;
  catch_all : bool;
  log_level : Level;
  use_domain_filter : bool;
  idle_read_timeout : Z;
  use_tls : bool;
  use_http2 : bool;
  proxy_host_header : bool
}.

Definition args_default : Args :=
  MkArgs None 3000 3002 5000 5000 (lit "scr-axum") false false true level_debug false 60000 false true true.

Inductive Flag :=
| FPort | FRegPort | FVisitPort | FKeep | FWait | FVia | FDiscard | FLegacy | FCatchAll | FLevel | FFilter
| FIdle | FTls | FHttp2 | FHost.

Definition flag_name (g : Flag) : str :=
  match g with
  | FPort => lit "--port"
  | FRegPort => lit "--reg-port"
  | FVisitPort => lit "--visit-port"
  | FKeep => lit "--routes-keep-time-millis"
  | FWait => lit "--connector-max-wait-time-millis"
  | FVia => lit "--via-name"
  | FDiscard => lit "--discard-client-forwarded-headers"
  | FLegacy => lit "--send-legacy-forwarded-headers"
  | FCatchAll => lit "--allow-catch-all"
  | FLevel => lit "--log-level"
  | FFilter => lit "--use-domain-filter"
  | FIdle => lit "--idle-read-timeout-ms"
  | FTls => lit "--tls"
  | FHttp2 => lit "--http2"
  | FHost => lit "--proxy-host-header"
  end.

Definition all_flags : list Flag :=
  [FPort; FRegPort; FVisitPort; FKeep; FWait; FVia; FDiscard; FLegacy; FCatchAll; FLevel; FFilter; FIdle; FTls;
   FHttp2; FHost].

Definition flag_of (s : str) : option Flag := List.find (λ g, str_eqb (flag_name g) s) all_flags.

(** The arm of a flag with its value: a value that does not parse panics, but for
    the log level, which falls back to [Debug]. *)
Definition set_flag (g : Flag) (v : str) (a : Args) : outcome Args :=
  let '(MkArgs sp rp vp kt wt vn dc lg ca ll df it tl h2 ph) := a in
  match g with
  | FPort => let! x := unwrap (result_ok (parse_u16 v)) in
             Ret (MkArgs (Some x) rp vp kt wt vn dc lg ca ll df it tl h2 ph)
  | FRegPort => let! x := unwrap (result_ok (parse_u16 v)) in
                Ret (MkArgs sp x vp kt wt vn dc lg ca ll df it tl h2 ph)
  | FVisitPort => let! x := unwrap (result_ok (parse_u16 v)) in
                  Ret (MkArgs sp rp x kt wt vn dc lg ca ll df it tl h2 ph)
  | FKeep => let! x := unwrap (result_ok (parse_i64 v)) in
             Ret (MkArgs sp rp vp x wt vn dc lg ca ll df it tl h2 ph)
  | FWait => let! x := unwrap (result_ok (parse_i64 v)) in
             Ret (MkArgs sp rp vp kt x vn dc lg ca ll df it tl h2 ph)
  | FVia => Ret (MkArgs sp rp vp kt wt v dc lg ca ll df it tl h2 ph)
  | FDiscard => let! x := unwrap (parse_bool v) in
                Ret (MkArgs sp rp vp kt wt vn x lg ca ll df it tl h2 ph)
  | FLegacy => let! x := unwrap (parse_bool v) in
               Ret (MkArgs sp rp vp kt wt vn dc x ca ll df it tl h2 ph)
  | FCatchAll => let! x := unwrap (parse_bool v) in
                 Ret (MkArgs sp rp vp kt wt vn dc lg x ll df it tl h2 ph)
  | FLevel => Ret (MkArgs sp rp vp kt wt vn dc lg ca (default level_debug (level_from_str v)) df it tl h2 ph)
  | FFilter => let! x := unwrap (parse_bool v) in
               Ret (MkArgs sp rp vp kt wt vn dc lg ca ll x it tl h2 ph)
  | FIdle => let! x := unwrap (result_ok (parse_i64 v)) in
             Ret (MkArgs sp rp vp kt wt vn dc lg ca ll df x tl h2 ph)
  | FTls => let! x := unwrap (parse_bool v) in
            Ret (MkArgs sp rp vp kt wt vn dc lg ca ll df it x h2 ph)
  | FHttp2 => let! x := unwrap (parse_bool v) in
              Ret (MkArgs sp rp vp kt wt vn dc lg ca ll df it tl x ph)
  | FHost => let! x := unwrap (parse_bool v) in
             Ret (MkArgs sp rp vp kt wt vn dc lg ca ll df it tl h2 x)
  end.

(** The loop over the arguments: [args[i + 1]] panics when the value is missing,
    an unknown argument is skipped. *)
Fixpoint parse_args (a : Args) (args : list str) : outcome Args :=
  match args with
  | [] => Ret a
  | k :: rest =>
      match flag_of k with
      | None => parse_args a rest
      | Some g =>
          match rest with
          | [] => Panic
          | v :: rest => let! a := set_flag g v a in parse_args a rest
          end
      end
  end.

(** *** A command line that gives the arguments *)

Definition print_args (level_to_str : Level → str) (a : Args) : list str :=
  match single_port a with Some p => [flag_name FPort; display_Z p] | None => [] end ++
  concat [[flag_name FRegPort; display_Z (reg_port a)]; [flag_name FVisitPort; display_Z (visit_port a)];
    [flag_name FKeep; display_Z (keep_time a)]; [flag_name FWait; display_Z (max_wait_time a)];
    [flag_name FVia; via a]; [flag_name FDiscard; display_bool (discard_client_forwarded a)];
    [flag_name FLegacy; display_bool (send_legacy_forwarded a)];
    [flag_name FCatchAll; display_bool (catch_all a)]; [flag_name FLevel; level_to_str (log_level a)];
    [flag_name FFilter; display_bool (use_domain_filter a)];
    [flag_name FIdle; display_Z (idle_read_timeout a)]; [flag_name FTls; display_bool (use_tls a)];
    [flag_name FHttp2; display_bool (use_http2 a)]; [flag_name FHost; display_bool (proxy_host_header a)]].

Definition is_u16 (z : Z) : Prop := (0 ≤ z ≤ 65535)%Z.
Definition is_i64 (z : Z) : Prop := (i64_min ≤ z ≤ i64_max)%Z.

Lemma flag_of_name g : flag_of (flag_name g) = Some g.
Proof. destruct g; vm_compute; reflexivity. Qed.

Lemma parse_args_flag a g v rest :
  parse_args a (flag_name g :: v :: rest) = (let! a := set_flag g v a in parse_args a rest).
Proof. cbn [parse_args]. by rewrite flag_of_name. Qed.

Lemma parse_display_u16 z : is_u16 z → parse_u16 (display_Z z) = Ok z.
Proof. intros [Hl Hr]. apply parse_display; lia. Qed.

Lemma parse_display_i64 z : is_i64 z → parse_i64 (display_Z z) = Ok z.
Proof. unfold is_i64, i64_min, i64_max. intros [Hl Hr]. apply parse_display; unfold i64_min, i64_max; lia. Qed.

(** Every setting of the unified server can be given on its command line:
    printing the arguments and reading them back, starting from the defaults,
    gives the same settings, for any ports of 16 bits, times of 64 bits, names and
    switches (the log crate reads a level from its own text). *)
Theorem command_line_round_trip level_to_str a :
  (∀ l, level_from_str (level_to_str l) = Some l) →
  is_u16 (reg_port a) → is_u16 (visit_port a) → (∀ p, single_port a = Some p → is_u16 p) →
  is_i64 (keep_time a) → is_i64 (max_wait_time a) → is_i64 (idle_read_timeout a) →
  parse_args args_default (print_args level_to_str a) = Ret a.
Proof.
  intros Hlv Hr Hv Hs Hk Hw Hi.
  assert (Hrest : ∀ sp, parse_args (MkArgs sp 3000 3002 5000 5000 (lit "scr-axum") false false true level_debug
      false 60000 false true true) (drop (length (print_args level_to_str a) - 28) (print_args level_to_str a)) =
    Ret (MkArgs sp (reg_port a) (visit_port a) (keep_time a) (max_wait_time a) (via a)
      (discard_client_forwarded a) (send_legacy_forwarded a) (catch_all a) (log_level a) (use_domain_filter a)
      (idle_read_timeout a) (use_tls a) (use_http2 a) (proxy_host_header a))).
  { intros sp. unfold print_args. destruct (single_port a); cbn [app concat length drop Nat.sub];
    repeat (rewrite parse_args_flag; cbn [set_flag outcome_bind];
      rewrite ?parse_display_u16, ?parse_display_i64, ?parse_display_bool, ?Hlv by done;
      cbn [result_ok unwrap outcome_bind from_option id default]); done. }
  destruct a as [[p|] rp vp kt wt vn dc lg ca ll df it tl h2 ph]; cbn [single_port] in *.
  - unfold args_default, print_args. cbn [single_port app]. rewrite parse_args_flag. cbn [set_flag].
    rewrite parse_display_u16 by auto. cbn [result_ok unwrap outcome_bind]. exact (Hrest (Some p)).
  - exact (Hrest None).
Qed.

(** *** The configuration *)

Section config.
Context {L F R : Type} (default_filter domain_filter : F) (resolver : R).

Definition config_of_args (a : Args) : outcome (CrankerRouterConfig L F R) :=
  let c := config_new default_filter resolver in
  let! c := with_routes_keep_time_millis c (keep_time a) in
  let! c := with_connector_max_wait_time_millis c (max_wait_time a) in
  let! c := with_via_name c (via a) in
  let c := with_discard_client_forwarded_headers c (discard_client_forwarded a) in
  let c := with_send_legacy_forwarded_headers c (send_legacy_forwarded a) in
  let c := should_allow_catch_all c (catch_all a) in
  let! c := with_idle_read_timeout_ms c (idle_read_timeout a) in
  let c := should_proxy_host_header c (proxy_host_header a) in
  Ret (if use_domain_filter a then with_router_socket_filter c domain_filter else c).

(** The server starts exactly with times that are not negative and a valid via
    name, and then has the settings of the command line. *)
Lemma config_of_args_outcome a :
  match config_of_args a with
  | Panic => (keep_time a < 0 ∨ max_wait_time a < 0 ∨ idle_read_timeout a < 0)%Z ∨
             check_via_name (via a) = Panic
  | Ret c => (0 ≤ keep_time a ∧ 0 ≤ max_wait_time a ∧ 0 ≤ idle_read_timeout a)%Z ∧
             routes_keep_time_millis c = keep_time a ∧ connector_max_wait_time_millis c = max_wait_time a ∧
             via_name c = via a ∧ idle_read_timeout_ms c = idle_read_timeout a ∧
             allow_catch_all c = catch_all a ∧
             router_socket_filter c = (if use_domain_filter a then domain_filter else default_filter)
  end.
Proof.
  unfold config_of_args, with_routes_keep_time_millis, with_connector_max_wait_time_millis, with_via_name,
    with_idle_read_timeout_ms, panic_if_less_than_zero.
  destruct (0 <=? keep_time a)%Z eqn:E1; cbn -[check_via_name]; [|apply Z.leb_gt in E1; auto].
  destruct (0 <=? max_wait_time a)%Z eqn:E2; cbn -[check_via_name]; [|apply Z.leb_gt in E2; auto].
  destruct (check_via_name (via a)) as [u|] eqn:Ev; cbn; [|by right].
  destruct (0 <=? idle_read_timeout a)%Z eqn:E3; cbn; [|apply Z.leb_gt in E3; auto].
  apply Z.leb_le in E1, E2, E3. destruct (use_domain_filter a); cbn; destruct (proxy_host_header a); done.
Qed.
End config.

(** *** The ports *)

Definition bind_ports (a : Args) : list Z :=
  match single_port a with
  | Some port => [port]
  | None => reg_port a :: if decide (visit_port a ≠ reg_port a) then [visit_port a] else []
  end.

Definition tls_port (port : Z) : Z := if (50000 <? port)%Z then (port - 10000)%Z else (port + 10000)%Z.

Definition listen_ports (a : Args) : list Z :=
  bind_ports a ++ if use_tls a then map tls_port (bind_ports a) else [].

Lemma NoDup_tls p : NoDup [p; tls_port p].
Proof.
  repeat constructor; [|set_solver]. rewrite list_elem_of_singleton. unfold tls_port.
  destruct (50000 <? p)%Z; lia.
Qed.

Lemma NoDup_four (p q x y : Z) :
  NoDup [p; q; x; y] ↔ p ≠ q ∧ p ≠ x ∧ p ≠ y ∧ q ≠ x ∧ q ≠ y ∧ x ≠ y.
Proof. rewrite !list.NoDup_cons, !not_elem_of_cons. pose proof (@base.NoDup_nil_2 Z). set_solver. Qed.

(** The ports of the TLS listeners are ports: the arithmetic on 16 bits never
    overflows.  No port is listened on twice, so that a listener is refused, except
    with two ports and TLS, when the ports are 10000 apart, or 20000 apart with
    50000 between them. *)
Theorem tls_ports_fit a :
  (∀ p, p ∈ bind_ports a → is_u16 p) →
  (∀ p, p ∈ listen_ports a → is_u16 p) ∧
  (NoDup (listen_ports a) ↔
   ~ (single_port a = None ∧ use_tls a = true ∧ reg_port a ≠ visit_port a ∧
      let lo := Z.min (reg_port a) (visit_port a) in
      let hi := Z.max (reg_port a) (visit_port a) in
      (hi = lo + 10000 ∨ hi = lo + 20000 ∧ lo ≤ 50000 < hi)%Z)).
Proof.
  intros Hp. unfold listen_ports in *. split.
  - intros p [Hin|Hin]%elem_of_app; [auto|]. destruct (use_tls a); [|set_solver].
    apply list_elem_of_fmap in Hin as (q & -> & Hq). apply Hp in Hq. unfold is_u16, tls_port in *.
    destruct (50000 <? q)%Z eqn:E; [apply Z.ltb_lt in E|apply Z.ltb_ge in E]; lia.
  - unfold bind_ports in *. destruct (single_port a) as [p|], (use_tls a); cbn [map app].
    + split; [naive_solver|]. intros _. apply NoDup_tls.
    + split; [naive_solver|]. intros _. repeat constructor. set_solver.
    + destruct (decide (visit_port a ≠ reg_port a)) as [Hne|He]; cbn [map app].
      * rewrite NoDup_four. unfold tls_port.
        destruct (50000 <? reg_port a)%Z eqn:E1; [apply Z.ltb_lt in E1|apply Z.ltb_ge in E1];
          destruct (50000 <? visit_port a)%Z eqn:E2; [apply Z.ltb_lt in E2|apply Z.ltb_ge in E2|
            apply Z.ltb_lt in E2|apply Z.ltb_ge in E2]; split; try lia; intros Hn;
          split_and!; try lia; intros E; apply Hn; split_and!; try done; lia.
      * split; [intros _; naive_solver|]. intros _. apply NoDup_tls.
    + destruct (decide (visit_port a ≠ reg_port a)) as [Hne|He]; cbn [map app];
        (split; [naive_solver|]; intros _; repeat constructor; set_solver).
Qed.

(** *** The dark mode endpoints *)

Definition enable_dark_mode_handler {S} `{RouterSocket S} (f : Farm S) (d : DarkHost) : Farm S * HttpResponse :=
  (enable_dark_mode f d, Resp 200 [] []).

Definition disable_dark_mode_handler {S} `{RouterSocket S} (f : Farm S) (d : DarkHost) : Farm S * HttpResponse :=
  (disable_dark_mode f d, Resp 200 [] []).

(** The body is the JSON of the list. *)
Definition get_dark_hosts_handler {S} `{RouterSocket S} (json : list DarkHost → str) (f : Farm S) : HttpResponse :=
  Resp 200 [] (json (dark_hosts f)).

End unified.
End Unified.

(** ** The redirection to HTTPS *)

Module Redirect.

Record Ports := MkPorts { http : Z; https : Z }.

(** [port + 10000] on 16 bits, with the overflow check of a debug build. *)
Definition ports_of (port : Z) : outcome Ports :=
  if (port + 10000 <=? 65535)%Z then Ret (MkPorts port (port + 10000)) else Panic.

(** [s.split_once(d)]. *)
Definition split_once (d : byte) (s : str) : option (str * str) :=
  (λ i, (take i s, drop (S i) s)) <$> find_byte d s.

Fixpoint drop_byte (b : byte) (s : str) : str :=
  match s with
  | c :: r => if decide (c = b) then drop_byte b r else s
  | [] => []
  end.

(** [s.trim_matches(b)]. *)
Definition trim_byte (b : byte) (s : str) : str := rev (drop_byte b (rev (drop_byte b s))).

Section host.
Context {HM : Type} `{HttpLib HM}.

Definition parse_forwarded (headers : HM) : option str :=
  forwarded_values ← hm_get_str (lit "forwarded") headers;
  first_value ← head (split_on ","%byte forwarded_values);
  head (omap (λ pair,
    kv ← split_once "="%byte pair;
    if eq_ignore_ascii_case (trim kv.1) (lit "host") then Some (trim_byte "034"%byte (trim kv.2)) else None)
    (split_on ";"%byte first_value)).

(** What stands behind the last [@]. *)
Definition parse_authority (auth : str) : str := List.last (split_on "@"%byte auth) [].

(** [Host::from_request_parts]; a request without a host is answered with 400. *)
Definition from_request_parts (headers : HM) (authority : option str) : result str Z :=
  match parse_forwarded headers with
  | Some host => Ok host
  | None =>
      match hm_get_str (lit "X-Forwarded-Host") headers with
      | Some host => Ok host
      | None =>
          match hm_get_str (lit "host") headers with
          | Some host => Ok host
          | None => match authority with Some a => Ok (parse_authority a) | None => Err 400%Z end
          end
      end
  end.
End host.

(** [make_https]: the authority and the path of the new URI; [is_authority] is the
    parser of the http crate. *)
Definition make_https (is_authority : str → bool) (host : str) (uri : Uri) (ports : Ports) : option (str * str) :=
  let path_and_query := default (lit "/") (uri_path_and_query uri) in
  let https_host := replace_all (display_Z (http ports)) (display_Z (https ports)) host in
  if is_authority https_host then Some (https_host, path_and_query) else None.

(** The redirection: the place, or 400. *)
Definition redirect (is_authority : str → bool) (host : str) (uri : Uri) (ports : Ports) : result str Z :=
  match make_https is_authority host uri ports with
  | Some (authority, path) => Ok (lit "https://" ++ authority ++ path)
  | None => Err 400%Z
  end.

(** The digits of the HTTP port do not occur in the name. *)
Definition free_of_port (name : str) (port : Z) : Prop :=
  ∀ i, (i < length name)%nat → is_prefix (display_Z port) (drop i (name ++ display_Z port)) = false.

Lemma display_nonempty z : display_Z z ≠ [].
Proof.
  unfold display_Z. destruct (Z.to_int z) as [u|u]; [|done].
  destruct (string_of_uint_digits u) as (b & x & r & E & _). cbn [DecimalString.NilZero.string_of_int]. by rewrite E.
Qed.

(** A client is sent to the same name and path on the HTTPS port, provided the
    digits of the HTTP port do not occur in the name. *)
Lemma redirect_to_https_port is_authority name uri ports :
  free_of_port name (http ports) → is_authority (name ++ display_Z (https ports)) = true →
  redirect is_authority (name ++ display_Z (http ports)) uri ports =
  Ok (lit "https://" ++ name ++ display_Z (https ports) ++ default (lit "/") (uri_path_and_query uri)).
Proof.
  intros Hf Ha. unfold redirect, make_https. rewrite replace_all_suffix by (done || apply display_nonempty).
  rewrite Ha. by rewrite <- app_assoc.
Qed.

(** Otherwise the name changes with the port. *)
Example redirect_changes_name :
  redirect (λ _, true) (lit "app3000.example.com:3000") (MkUri (lit "/x") (Some (lit "/x")) None None None)
    (MkPorts 3000 13000) = Ok (lit "https://app13000.example.com:13000/x").
Proof. vm_compute. reflexivity. Qed.

End Redirect.

(** ** The HTTP/3 server *)

Module Http3.
Section h3.
Context {HM : Type} `{HttpLib HM}.
Context (opt_hv_dbg : option str → str) (ip_to_string : IpAddr → str).
Context {L : Type} (config : CrankerRouterConfig L (SocketFilter (HM := HM)) (gset str → str → str)).
Context (listeners1 : list (ProxyListener RouterSocketV1 HM)).
Context (listeners3 : list (ProxyListener RequestContext HM)).
Context (send_err_dbg recv_err_dbg : str) (debug_strs : list str → str) (http_err_dbg : str).
Context (local_ip : str) (version_debug : Version → str).

#[local] Abbreviation portal := (visit_portal ip_to_string config listeners1 listeners3 send_err_dbg
  recv_err_dbg debug_strs http_err_dbg local_ip version_debug).

(** The dispatch of [handle_quic_connection]: a path that begins with [/register]
    runs the checks of a registration, without query parameters and with a dummy
    behind them; every other request goes to the portal. *)
Definition handle_request (wakes : list (Farm AnySocket → Farm AnySocket)) (w : Surroundings)
  (uuid err_id : str) (f : Farm AnySocket) (method : str) (uri : Uri) (headers : HM) (remote_addr : SocketAddr)
  (is_tls : bool) (http_version : Version) (body : list (result str str)) (is_end_stream : bool)
  : Farm AnySocket * outcome PortalRes :=
  if is_prefix (lit "/register") (uri_path uri) then
    (f, let! check := reg_check_and_extract opt_hv_dbg ip_to_string config uuid method headers ∅ remote_addr in
        Ret (match check with
             | RegAnswer r => PAnswer r
             | RegProceed _ => PAnswer (Resp 200 [] (lit "Simulated H3 registration check complete"))
             end))
  else portal wakes w err_id f method uri headers remote_addr is_tls http_version body is_end_stream.

(** No connector registers over HTTP/3, and a client request to a service whose
    name begins with [register] does not reach it. *)
Lemma register_prefix_shadows wakes w uuid err_id f method uri headers addr is_tls v body is_end :
  is_prefix (lit "/register") (uri_path uri) = true →
  let '(f', r) := handle_request wakes w uuid err_id f method uri headers addr is_tls v body is_end in
  f' = f ∧ (r = Panic ∨ ∃ a, r = Ret (PAnswer a) ∧ resp_status a ∈ [200; 400; 403; 405]%Z).
Proof.
  intros Hp. unfold handle_request. rewrite Hp. split; [done|]. unfold reg_check_and_extract.
  destruct (str_eqb method TRACE); [right; eexists; split; [done|set_solver]|].
  destruct (registration_ip_validator config (addr_ip addr)); cbn [negb];
    [|right; eexists; split; [done|set_solver]].
  destruct (extract_cranker_version _ _ _) as [[x|e]|]; cbn [outcome_bind];
    [right; eexists; split; [done|set_solver]..|by left].
Qed.

End h3.

(** The loop that sends the response body: a chunk that is an error is skipped. *)
Definition send_body_loop {E} (body : list (result str E)) : list str := omap result_ok body.

(** The client of a body that ends with an error sees the same bytes and the same
    end as that of a complete one. *)
Lemma body_error_hidden {E} (chunks : list str) (e : E) :
  send_body_loop (map Ok chunks ++ [Err e]) = send_body_loop (map (@Ok str E) chunks).
Proof. unfold send_body_loop. rewrite omap_app. cbn. apply app_nil_r. Qed.

End Http3.

(** ** The environment of the other examples *)

Module TestEnv.
Section env.
Context {Level : Type} (level_from_str : str → option Level) (level_debug : Level).
(** [IpAddr::from_str]. *)
Context (ip_from_str : str → option IpAddr).

Record Env := MkEnv {
  addr : IpAddr;
  is_nop_logger : bool;
  log_level : Level;
  reg_port : Z;
  visit_port : Z;
  redirect_https : bool
}.

(** [get_test_env]: a variable that is not set or does not parse has its default. *)
Definition get_test_env (var : str → option str) : Env :=
  MkEnv (default (V4 (127 * 2 ^ 24 + 1)) (var (lit "ACT_ADDR") ≫= ip_from_str))
    (default true (var (lit "ACT_IS_NOP_LOGGER") ≫= parse_bool))
    (default level_debug (var (lit "ACT_LOG_LEVEL") ≫= level_from_str))
    (default 3000%Z (var (lit "ACT_REG_PORT") ≫= λ s, result_ok (parse_u16 s)))
    (default 3002%Z (var (lit "ACT_VISIT_PORT") ≫= λ s, result_ok (parse_u16 s)))
    (default true (var (lit "ACT_REDIRECT_HTTPS") ≫= parse_bool)).
End env.
End TestEnv.

(** The filter of harder.rs. *)
Definition my_socket_filter {HM : Type} (component_name : AnySocket → str) : SocketFilter (HM := HM) :=
  MkFilter (λ _ _ _ _ _ s, str_eqb (component_name s) (lit "bgm-archive-kt")) false true.

(** ** Witnesses *)

Lemma command_line_round_trip_witness :
  let a := Unified.MkArgs (Level := bool) (Some 8443%Z) 3000 3002 (-5) 7 (lit "--port") true false true false
             true 60000 true false true in
  Unified.parse_args parse_bool true (Unified.args_default true) (Unified.print_args display_bool a) = Ret a.
Proof.
  cbv zeta. apply Unified.command_line_round_trip.
  - exact parse_display_bool.
  - split; vm_compute; discriminate.
  - split; vm_compute; discriminate.
  - intros p [= <-]. split; vm_compute; discriminate.
  - split; vm_compute; discriminate.
  - split; vm_compute; discriminate.
  - split; vm_compute; discriminate.
Defined.

Lemma tls_ports_fit_witness :
  ~ NoDup (Unified.listen_ports (Unified.MkArgs None 30001 50001 0 0 [] true true true tt true 0 true true true)).
Proof.
  set (a := Unified.MkArgs _ _ _ _ _ _ _ _ _ _ _ _ _ _ _).
  assert (Hp : ∀ p, p ∈ Unified.bind_ports a → Unified.is_u16 p).
  { apply list.Forall_forall. vm_compute. repeat constructor; discriminate. }
  rewrite (proj2 (Unified.tls_ports_fit a Hp)).
  intros Hn. apply Hn. split_and!; [done|done|done|]. right. split; [done|]. vm_compute. split; [discriminate|done].
Defined.
