(* ===== verification/Mains.v ===== *)
(** * What the example servers start and how they stop (examples/)

    The [main] functions of simple_v1.rs, harder.rs, tls_single_domain_server.rs
    and unified_router_server.rs: the configuration of the router, what each port
    serves, and the signal handlers.  Sockets, certificates and logging are the
    operating system's. *)

From S2P Require Import Prelude RustStr Exceptions Http RouteResolver Config HttpUtils Farm SocketBase SocketV1 SocketV1Props SocketV3 SocketV3Props Listeners Router RouterInfo Lifecycle Routing Servers.

(** ** Configurations *)

(** The two filters of router_socket_filter.rs. *)
Definition DefaultRouterSocketFilter {HM} : SocketFilter (HM := HM) :=
  MkFilter (λ _ _ _ _ _ s, default_should_use s) false true.

Definition DomainRouterSocketFilter {HM} `{HttpLib HM} : SocketFilter (HM := HM) :=
  MkFilter (λ _ _ uri headers _ s, domain_should_use (get_opt_host_from_uri_and_headers uri headers) s) true true.

Section configs.
Context {HM : Type} `{HttpLib HM}.

#[local] Abbreviation Config := (CrankerRouterConfig DemoListener.DemoProxyListener (SocketFilter (HM := HM))
  (gset str → str → str)).

(** [CrankerRouterBuilder::new()] with its default filter and resolver, the demo
    listener and five seconds for idle routes. *)
Definition demo_builder : outcome Config :=
  with_routes_keep_time_millis
    (with_proxy_listeners (config_new DefaultRouterSocketFilter resolve_default) [DemoListener.demo_new]) 5000.

Definition simple_v1_config : outcome Config := demo_builder.

Definition harder_config : outcome Config :=
  let! c := demo_builder in Ret (with_router_socket_filter c (my_socket_filter any_component_name)).

Definition tls_config : outcome Config :=
  let! c := demo_builder in Ret (with_router_socket_filter c DomainRouterSocketFilter).

(** [build()] at the end of the chain of the builder. *)
Definition example_router (config : outcome Config) : outcome (CrankerRouterState (Listener := DemoListener.DemoProxyListener)
    (F := SocketFilter (HM := HM)) (R := gset str → str → str)) :=
  let! c := config in
  build (λ l, Ret (really_need_on_response_body_chunk_received_from_target (DemoListener.demo_listener (Info := unit) (HM := HM) l)))
    (λ l, Ret (really_need_on_request_body_chunk_sent_to_target (DemoListener.demo_listener (Info := unit) (HM := HM) l))) c.

(** The three examples start: none of the checks of the builder panics, and their
    routers are empty and have the filter they ask for and a well-formed
    configuration. *)
Lemma example_configs_start :
  ∃ c1 c2 c3, example_router simple_v1_config = Ret (MkRouterState farm_new c1) ∧
    example_router harder_config = Ret (MkRouterState farm_new c2) ∧
    example_router tls_config = Ret (MkRouterState farm_new c3) ∧
    router_socket_filter c1 = DefaultRouterSocketFilter ∧
    router_socket_filter c2 = my_socket_filter any_component_name ∧
    router_socket_filter c3 = DomainRouterSocketFilter ∧
    Forall (λ c, config_wf c ∧ routes_keep_time_millis c = 5000%Z ∧
                 proxy_listeners c = [DemoListener.demo_new]) [c1; c2; c3].
Proof.
  eexists _, _, _. do 6 (split; [reflexivity|]).
  assert (Hw : ∀ (f : SocketFilter (HM := HM)) (r : gset str → str → str)
    (l : list DemoListener.DemoProxyListener) (c : Config) g,
    with_routes_keep_time_millis (with_proxy_listeners (config_new f r) l) 5000 = Ret c →
    config_wf c ∧ config_wf (with_router_socket_filter c g)).
  { intros f r l c g Hc.
    assert (config_wf c).
    { eapply build_step_wf; [by eapply bs_keep|]. eapply build_step_wf; [apply bs_listeners|]. apply config_new_wf. }
    split; [done|]. by eapply build_step_wf; [apply bs_filter|]. }
  constructor; [|constructor; [|constructor; [|constructor]]]; (split; [|done]).
  - by eapply (Hw _ _ _ _ DefaultRouterSocketFilter).
  - by eapply Hw.
  - by eapply Hw.
Qed.

End configs.

(** ** Ports *)

(** What listens on a port. *)
Inductive Serving :=
| Plain (table : list Route)
| Tls (table : list Route)
| RedirectTo (ports : Redirect.Ports).

(** ** Environment variables *)

Section plain_env.
Context {Level : Type} (level_from_str : str → option Level) (level_debug : Level).
Context (ip_from_str : str → option IpAddr).

(** [TestEnv] of simple_v1.rs and of harder.rs, without the redirection of
    tls_single_domain_server.rs. *)
Record PlainEnv := MkPlainEnv {
  addr : IpAddr;
  is_nop_logger : bool;
  log_level : Level;
  reg_port : Z;
  visit_port : Z
}.

Definition simple_v1_get_test_env (var : str → option str) : PlainEnv :=
  MkPlainEnv (default (V4 (127 * 2 ^ 24 + 1)) (var (lit "ACT_ADDR") ≫= ip_from_str))
    (default true (var (lit "ACT_IS_NOP_LOGGER") ≫= parse_bool))
    (default level_debug (var (lit "ACT_LOG_LEVEL") ≫= level_from_str))
    (default 3000%Z (var (lit "ACT_REG_PORT") ≫= λ s, result_ok (parse_u16 s)))
    (default 3002%Z (var (lit "ACT_VISIT_PORT") ≫= λ s, result_ok (parse_u16 s))).

Definition harder_get_test_env (var : str → option str) : PlainEnv :=
  let addr := default (V4 (127 * 2 ^ 24 + 1)) (var (lit "ACT_ADDR") ≫= ip_from_str) in
  let is_nop_logger := default true (var (lit "ACT_IS_NOP_LOGGER") ≫= parse_bool) in
  let log_level := default level_debug (var (lit "ACT_LOG_LEVEL") ≫= level_from_str) in
  let reg_port := default 3000%Z (var (lit "ACT_REG_PORT") ≫= λ s, result_ok (parse_u16 s)) in
  let visit_port := default 3002%Z (var (lit "ACT_VISIT_PORT") ≫= λ s, result_ok (parse_u16 s)) in
  MkPlainEnv addr is_nop_logger log_level reg_port visit_port.

(** The examples read the same variables: on the same ones the ports are the same
    16-bit numbers, and the two plain examples agree on everything. *)
Lemma examples_read_same_env var :
  let e := simple_v1_get_test_env var in
  let t := TestEnv.get_test_env level_from_str level_debug ip_from_str var in
  harder_get_test_env var = e ∧
  TestEnv.reg_port t = reg_port e ∧ TestEnv.visit_port t = visit_port e ∧ TestEnv.addr t = addr e ∧
  Unified.is_u16 (reg_port e) ∧ Unified.is_u16 (visit_port e).
Proof.
  intros e t. assert (Hp : ∀ (o : option str) d, Unified.is_u16 d →
    Unified.is_u16 (default d (o ≫= λ s, result_ok (parse_u16 s)))).
  { intros [s|] d Hd; [|done]. cbn. destruct (parse_u16 s) as [n|] eqn:E; [|done]. apply parse_int_range in E; [done|lia]. }
  split_and!; [done..|apply Hp|apply Hp]; split; lia.
Qed.
End plain_env.

Section ports.
Context {Level : Type}.
#[local] Abbreviation Env := (TestEnv.Env (Level := Level)).

Definition simple_v1_servers (env : PlainEnv (Level := Level)) : list (Z * Serving) :=
  [(reg_port env, Plain registration_axum_router); (visit_port env, Plain visit_portal_axum_router)].

Definition harder_servers (env : PlainEnv (Level := Level)) : list (Z * Serving) :=
  [(reg_port env, Plain custom_axum_wss_router); (visit_port env, Plain custom_axum_visit_portal_router)].

(** The plain ports serve the router or redirect, the ports ten thousand above
    them serve it over TLS. *)
Definition tls_servers (env : Env) : outcome (list (Z * Serving)) :=
  let! ports_reg := Redirect.ports_of (TestEnv.reg_port env) in
  let! ports_visit := Redirect.ports_of (TestEnv.visit_port env) in
  Ret ((if TestEnv.redirect_https env
        then [(Redirect.http ports_reg, RedirectTo ports_reg); (Redirect.http ports_visit, RedirectTo ports_visit)]
        else [(TestEnv.reg_port env, Plain registration_axum_router);
              (TestEnv.visit_port env, Plain visit_portal_axum_router)]) ++
       [(Redirect.https ports_reg, Tls registration_axum_router);
        (Redirect.https ports_visit, Tls visit_portal_axum_router)]).

(** The unified server. *)
Definition unified_servers (a : Unified.Args (Level := Level)) : list (Z * Serving) :=
  map (λ p, (p, Plain unified_router)) (Unified.bind_ports a) ++
  if Unified.use_tls a then map (λ p, (Unified.tls_port p, Tls unified_router)) (Unified.bind_ports a) else [].

Definition alpn_protocols (use_http2 : bool) : list str :=
  if use_http2 then [lit "h2"; lit "http/1.1"] else [lit "http/1.1"].

Lemma unified_servers_ports a : (unified_servers a).*1 = Unified.listen_ports a.
Proof.
  unfold unified_servers, Unified.listen_ports. rewrite fmap_app. f_equal.
  - rewrite <- list_fmap_compose. apply list_fmap_id.
  - destruct (Unified.use_tls a); [|done]. by rewrite <- list_fmap_compose.
Qed.

(** The TLS example starts exactly when both ports leave room for ten thousand
    more, and then its four ports are different exactly when the two given ones
    are and do not lie ten thousand apart. *)
Theorem tls_example_ports (env : Env) :
  let r := TestEnv.reg_port env in
  let v := TestEnv.visit_port env in
  if decide (r ≤ 55535 ∧ v ≤ 55535)%Z then
    ∃ servers, tls_servers env = Ret servers ∧ servers.*1 = [r; v; r + 10000; v + 10000]%Z ∧
      (NoDup servers.*1 ↔ r ≠ v ∧ (r - v ≠ 10000)%Z ∧ (v - r ≠ 10000)%Z)
  else tls_servers env = Panic.
Proof.
  cbv zeta. unfold tls_servers, Redirect.ports_of. set (r := TestEnv.reg_port env). set (v := TestEnv.visit_port env).
  destruct (Z.leb_spec (r + 10000) 65535), (Z.leb_spec (v + 10000) 65535); cbn [outcome_bind].
  2,3,4: by rewrite decide_False by lia.
  rewrite decide_True by lia. eexists. split; [done|].
  assert (Hp : ((if TestEnv.redirect_https env
        then [(r, RedirectTo (Redirect.MkPorts r (r + 10000))); (v, RedirectTo (Redirect.MkPorts v (v + 10000)))]
        else [(r, Plain registration_axum_router); (v, Plain visit_portal_axum_router)]) ++
       [((r + 10000)%Z, Tls registration_axum_router); ((v + 10000)%Z, Tls visit_portal_axum_router)]).*1 =
       [r; v; r + 10000; v + 10000]%Z) by (by destruct (TestEnv.redirect_https env)).
  cbn [Redirect.http Redirect.https]. split; [exact Hp|]. rewrite Hp.
  rewrite !list.NoDup_cons, !not_elem_of_cons. split; [lia|]. intros (H1 & H2 & H3).
  pose proof (not_elem_of_nil (A := Z)). pose proof (@NoDup_nil_2 Z). split_and!; first [lia|auto].
Qed.

End ports.

(** ** Stopping *)

(** [sig] of simple_v1.rs and of harder.rs; the argument is what waiting for
    ctrl-c returned. *)
Definition simple_v1_sig (ctrl_c : result unit str) (f : Farm AnySocket) : Farm AnySocket :=
  match ctrl_c with Ok _ => stop f | Err _ => stop f end.

Definition harder_sig (ctrl_c : result unit str) (f : Farm AnySocket) : Farm AnySocket :=
  match ctrl_c with Ok _ => try_stop f false | Err _ => try_stop f false end.

(** Each of the two servers of an example waits for the signal and stops the
    router. *)
Definition both_servers_stop (sig : result unit str → Farm AnySocket → Farm AnySocket)
  (c1 c2 : result unit str) (f : Farm AnySocket) : Farm AnySocket := sig c2 (sig c1 f).

Lemma foldl_terminate_only_heap ps f :
  let f' := foldl terminate_at f ps in
  f' = with_heap f (heap f').
Proof.
  revert f. induction ps as [|p ps IH]; intros f; cbn [foldl]; [by destruct f|]. cbv zeta in *. rewrite IH. done.
Qed.

Lemma try_stop_twice f b : try_stop (try_stop f b) b = try_stop f b.
Proof.
  unfold try_stop at 1. set (g := try_stop f b). assert (Hg : sockets g = ∅) by done.
  unfold terminate_all at 2. rewrite Hg. cbn [fst snd].
  assert (Hl : (if b then concat (map (λ m : gmap str nat, snd <$> map_to_list m)
    (snd <$> map_to_list (∅ : gmap str (gmap str nat)))) else []) = @nil nat).
  { rewrite map_to_list_empty. by destruct b. }
  rewrite Hl. cbn. destruct g as [h c r s t i w d n cl bg]. cbn in Hg. by subst s.
Qed.

(** Stopping both servers is stopping once.  [simple_v1] ends what is registered;
    [harder] only forgets the registrations: no socket, and so no request in
    flight, is touched. *)
Theorem examples_stop_once c1 c2 f :
  both_servers_stop simple_v1_sig c1 c2 f = stop f ∧
  both_servers_stop harder_sig c1 c2 f = with_sockets f ∅.
Proof.
  unfold both_servers_stop, simple_v1_sig, harder_sig.
  destruct c1, c2; (split; [apply try_stop_twice|by rewrite try_stop_twice]).
Qed.
