(* ===== verification/RepoTests.v ===== *)
(** * The tests of the repository, run on the model

    The test modules of router_socket_filter.rs, route_resolver.rs,
    cranker_protocol_response.rs, time_utils.rs and lib.rs.  The unit tests are
    evaluations.  The integration tests of lib.rs start a Java connector and a
    target server; here the registrations of that connector and its answers are
    inputs, and the rest of a test runs on the definitions of this library: the
    registration check, the farm, the portal and the sockets. *)

From S2P Require Import Prelude RustStr Clock Exceptions Http RouteResolver Forwarded Config HttpUtils CrankerProtocol Frames FlowControl Farm SocketBase SocketV1 SocketV1Props SocketV3 SocketV3Props Upload Exchange Listeners Router Waiting EndToEnd RouterInfo Lifecycle ProxyInfo Mains.

#[local] Existing Instance Alist.lib.

(** ** router_socket_filter.rs *)

Module FilterTests.

(** The mock has no state; what it answers is fixed. *)
Inductive MockRouterSocket := Mock.

#[export] Instance mock_router_socket : RouterSocket MockRouterSocket := {
  rs_route _ := lit "*";
  rs_id _ := lit "*";
  rs_domain _ := lit "nyamori.moe";
  rs_connector_id _ := lit "mock";
  rs_addr _ := MkAddr (V4 (2 ^ 32 - 1)) 65535;
  rs_cranker_version _ := CRANKER_V_1_0;
  rs_is_removed _ := false;
  rs_mark_removed s := s;
  rs_is_active _ := false
}.

(** The path, path and query, host, authority and scheme of an [https] URI. *)
Definition https_uri (host path : string) : Uri :=
  MkUri (lit path) (Some (lit path)) (Some (lit host)) (Some (lit host)) (Some (lit "https")).

Definition test_domain_router_socket_filter : list bool :=
  map (λ uri, domain_should_use (get_opt_host_from_uri_and_headers uri ([] : Alist.headers)) Mock)
    [https_uri "nyamori.moe" "/hi/there"; https_uri "github.com" "/hi/there"].

Example domain_router_socket_filter_passes : test_domain_router_socket_filter = [true; false].
Proof. reflexivity. Qed.

End FilterTests.

(** ** route_resolver.rs *)

Module ResolverTests.

Definition default_route_resolver_test : str :=
  resolve_default {[lit "route"; lit "router/v1/api"]} (lit "/route").

Definition longest_first_route_resolver_test : list (outcome str) :=
  map (λ t, match LongestFirst.resolve
                   {[lit "my-service"; lit "my-service/instance"; lit "my-service/instance/api"]} (lit t) with
            | Ret (Some r) => Ret r
            | Ret None => Ret STAR
            | Panic => Panic
            end)
    ["/my-service/hello"; "my-service/hello"; "/my-service/instance/api/test"; "/my-service/instance/test";
     "/non-exist/instance/test"; "/non-exist"]%string.

(** [vec_char_to_string]: the characters one after the other. *)
Definition vec_char_to_string (vec_char : list str) : str := concat vec_char.

Example resolver_tests_pass :
  default_route_resolver_test = lit "route" ∧
  longest_first_route_resolver_test =
    map (λ r, Ret (lit r)) ["my-service"; "my-service"; "my-service/instance/api"; "my-service/instance"; "*";
                            "*"]%string ∧
  vec_char_to_string (chars (lit "abcde")) = lit "abcde".
Proof. vm_compute. done. Qed.

End ResolverTests.

(** ** cranker_protocol_response.rs *)

Module ResponseTests.

(** The status and the number of headers of a parsed response. *)
Definition parsed (r : result CrankerProtocolResponse CrankerRouterException) : option (Z * nat) :=
  match r with
  | Ok res => Some (resp_code res, length (resp_header_lines res))
  | Err _ => None
  end.

Definition test_parse : option (Z * nat) :=
  parsed (try_from_string (lit "HTTP/1.1 200 OK" ++ [LF] ++ lit "User-Agent: curl/8.0")).

(** The lines of the literal are two line feeds apart. *)
Definition test_parse_long : option (Z * nat) :=
  parsed (try_from_string (lit "HTTP/1.1 302 TODO " ++ [LF; LF] ++ lit "content-length:10 " ++ [LF; LF] ++
    lit "content-type:text/plain " ++ [LF; LF] ++ lit "date:Fri, 05 Jan 2024 16:29:44 GMT " ++ [LF; LF] ++
    lit "location:/history")).

Example response_tests_pass : test_parse = Some (200%Z, 1) ∧ test_parse_long = Some (302%Z, 4).
Proof. vm_compute. done. Qed.

End ResponseTests.

(** ** lib.rs, time_utils.rs: checks *)

Module CheckTests.

(** The UTF-8 bytes of the two emoji. *)
Definition bank : str := ["240"; "159"; "143"; "166"]%byte.
Definition ok_hand : str := ["240"; "159"; "145"; "140"]%byte.

Definition via_name_tests : list (outcome unit) := map check_via_name [bank; lit "[]"; ok_hand].

Example via_name_tests_panic : via_name_tests = [Panic; Panic; Panic].
Proof. reflexivity. Qed.

(** [current_time_millis() < i64::MAX], at every time before the last
    millisecond. *)
Lemma test_current_time_millis t :
  (0 ≤ t < clock_end - 1000000)%Z → ∃ m, current_time_millis t = Ret m ∧ (m < i64_max)%Z.
Proof.
  intros Ht. unfold current_time_millis, duration_since_epoch. destruct (Z.leb_spec 0 t); [|lia].
  eexists. split; [done|]. pose proof (as_millis_range t ltac:(unfold clock_end in *; lia)).
  rewrite wrap64_id by (unfold i64_min; lia). unfold as_millis, clock_end, i64_max in *.
  apply Z.div_lt_upper_bound; lia.
Qed.

End CheckTests.

(** ** lib.rs: whole routers *)

Module RouterTests.

Abbreviation headers := Alist.headers.

(** [TestIpValidator]: the flag decides. *)
Definition TestIpValidator (allow : bool) (ip : IpAddr) : bool := allow.

(** [TestProxyListener]; its two flags are read off the calls it gets. *)
Definition TestProxyListener {Info} : ProxyListener Info headers := {|
  on_before_proxy_to_target _ request_headers_to_target :=
    (hm_insert (lit "x-test-request") (lit "yes") request_headers_to_target, Ok tt);
  on_before_responding_to_client _ := Ok tt;
  on_after_target_to_proxy_headers_received _ _ _ := Ok tt;
  on_after_proxy_to_target_headers_sent _ _ := Ok tt;
  on_before_request_body_chunk_sent_to_target _ _ := Ok tt;
  on_request_body_chunk_sent_to_target _ _ := Ok tt;
  on_request_body_sent_to_target _ := Ok tt;
  on_complete _ := Ok tt;
  on_response_body_chunk_received_from_target _ _ := Ok tt;
  really_need_on_response_body_chunk_received_from_target := false;
  really_need_on_request_body_chunk_sent_to_target := false
|}.

Definition TestRouteFilter : SocketFilter (HM := headers) :=
  MkFilter (λ _ _ _ _ _ s, str_eqb (any_component_name s) (lit "bgm-archive-kt")) false true.

Abbreviation Config := (CrankerRouterConfig unit (SocketFilter (HM := headers)) (gset str → str → str)).

Definition built (c : outcome Config) : Config :=
  match c with Ret c => c | Panic => config_new DefaultRouterSocketFilter resolve_default end.

Definition localhost : SocketAddr := MkAddr (V4 (127 * 2 ^ 24 + 1)) 50000.

(** A connector registers a websocket with protocol version 3; the check decides. *)
Definition registers (c : Config) (route component rsid : string) (f : Farm AnySocket)
  : Farm AnySocket * option HttpResponse :=
  match reg_check_and_extract (λ _, []) (λ _, []) c (lit rsid) (lit "GET")
          [(lit "sec-websocket-protocol", lit "cranker_3.0"); (lit "route", lit route)]
          {[lit "connectorInstanceID" := lit component; lit "componentName" := lit component]} localhost with
  | Ret (RegProceed info) => (harvest_router_socket f 0 (lit rsid) info localhost, None)
  | Ret (RegAnswer r) => (f, Some r)
  | Panic => (f, None)
  end.

Definition path_uri (path : string) : Uri := MkUri (lit path) (Some (lit path)) None None None.

Definition visits (c : Config) (listeners : list (ProxyListener RequestContext headers)) (answer : str)
  (f : Farm AnySocket) (path : string) : Farm AnySocket * outcome (PortalRes (HM := headers)) :=
  visit_portal (λ _, []) c [] listeners [] [] (λ _, []) [] [] (λ _, []) []
    (MkSurroundings (λ _ s, s) id (λ _ s, s)
       (connector_answers listeners [] (λ _, []) (response_frames 1 (lit "HTTP/1.1 200 OK") [answer])) 1 2 3)
    (lit "id") f (lit "GET") (path_uri path) ([] : headers) localhost false HTTP_11 [] true.

(** The first request of the only socket of the farm, and what the client can
    read of its body. *)
Definition only_context (f : Farm AnySocket) : option RequestContext :=
  match map_to_list (heap f) with
  | [(_, SV3 s)] => ctx_heap s !! 0
  | _ => None
  end.

Definition client_body (f : Farm AnySocket) : option (list (result str CrankerRouterException)) :=
  items ∘ tgt_res_bdy <$> only_context f.

(** The routes with a connector, as the test finds them in the router's info. *)
Definition registered_routes (f : Farm AnySocket) : list str :=
  omap (λ s, if decide (svc_connectors s = []) then None else Some (svc_route s)) (collect_info_by_state f).1.

(** *** [test_ip_validator_behavior] *)

Definition ip_config (allow : bool) : Config :=
  built (let! c := with_via_name (config_new DefaultRouterSocketFilter resolve_default) (lit "testvia") in
         Ret (with_registration_ip_validator c (TestIpValidator allow))).

Definition status_of (r : outcome (PortalRes (HM := headers))) : option Z :=
  match r with
  | Ret (PAnswer a) => Some (resp_status a)
  | Ret (PProxied a) => Some a.1
  | _ => None
  end.

(** The refused registration, the request before and the routes, request and body
    after the flag is set. *)
Definition test_ip_validator_behavior
  : option Z * option Z * list str * option Z * option (list (result str CrankerRouterException)) :=
  let '(f, refused) := registers (ip_config false) "test-ip-route" "conn" "rs1" farm_new in
  let '(f, resp) := visits (ip_config false) [] (lit "target response") f "/test-ip-route/" in
  let '(f, _) := registers (ip_config true) "test-ip-route" "conn" "rs2" f in
  let routes := registered_routes f in
  let '(f, resp2) := visits (ip_config true) [] (lit "target response") f "/test-ip-route/" in
  (resp_status <$> refused, status_of resp, routes, status_of resp2, client_body f).

(** A connector whose address is not allowed is refused, so its route is not
    found; once it is allowed the service answers. *)
Example ip_validator_test_passes :
  test_ip_validator_behavior =
  (Some 403%Z, Some 404%Z, [lit "test-ip-route"], Some 200%Z, Some [Ok (lit "target response")]).
Proof. vm_compute. reflexivity. Qed.

(** *** [test_proxy_listener_and_header_proxying] *)

Definition proxy_config : Config :=
  built (let! c := with_via_name (config_new DefaultRouterSocketFilter resolve_default) (lit "testvia") in
         with_connector_max_wait_time_millis c 100).

(** The header text that the target gets. *)
Definition text_sent (f : Farm AnySocket) : option str :=
  match map_to_list (heap f) with
  | [(_, SV3 s)] => match items (wss_send_task s) with
                    | Binary b :: _ => (λ r, r.2) <$> read_frame b
                    | _ => None
                    end
  | _ => None
  end.

(** The target echoes the header the listener added. *)
Definition target_echo (text : str) : str :=
  if decide (lit "x-test-request:yes" ∈ split_on LF text) then lit "yes" else lit "none".

(** The connector is killed: its websocket is closed and the removal that was
    spawned runs. *)
Definition killed (p : nat) (f : Farm AnySocket) : Farm AnySocket :=
  match heap f !! p with
  | Some (SV3 s) =>
      remove_router_socket_in_background (with_heap f (<[p := SV3 (on_close s None)]> (heap f))) 5
        (v3_route s) (v3_router_socket_id s) p
  | _ => f
  end.

Definition socket_ids (f : Farm AnySocket) : list nat := (map_to_list (heap f)).*1.

Definition completions (f : Farm AnySocket) : nat :=
  match map_to_list (heap f) with [(_, SV3 s)] => length (completed s) | _ => 0 end.

(** The status, what the target echoes, whether a completion was announced, and
    how many listeners hear of the request after the connector was killed. *)
Definition test_proxy_listener_and_header_proxying : option Z * option str * nat * nat :=
  let '(f, _) := registers proxy_config "test-proxy-route" "conn" "rs1" farm_new in
  let '(f, resp) := visits proxy_config [TestProxyListener] (lit "yes") f "/test-proxy-route/" in
  let text := text_sent f in
  let done := completions f in
  let f := foldr killed f (socket_ids f) in
  let '(_, _, calls) := get_router_socket_or_report [TestProxyListener (Info := RequestContext)] 100 0 100 [] f
    (portal_request proxy_config (lit "GET") (path_uri "/test-proxy-route/") ([] : headers) localhost) in
  (status_of resp, target_echo <$> text, done, length calls).

(** The header of the listener reaches the target, the completion is announced
    once, and the failure after the connector is gone is reported. *)
Example proxy_listener_test_passes :
  test_proxy_listener_and_header_proxying = (Some 200%Z, Some (lit "yes"), 1, 1).
Proof. vm_compute. reflexivity. Qed.

(** *** [test_catch_all_fallback_and_recovery] *)

Definition fallback_config : Config :=
  built (let! c := with_via_name (config_new DefaultRouterSocketFilter resolve_default) (lit "testvia") in
         with_connector_max_wait_time_millis (with_router_socket_filter c TestRouteFilter) 3000).

(** Three websockets, as the sliding window of the connector asks for. *)
Definition connect (component a b c : string) (f : Farm AnySocket) : Farm AnySocket :=
  foldl (λ f id, (registers fallback_config "*" component id f).1) f [a; b; c].

(** The component that serves a request, without any waiting. *)
Definition served_by (f : Farm AnySocket) : Farm AnySocket * option str :=
  match get_router_socket 3000 [] f
          (portal_request fallback_config (lit "GET") (path_uri "/test-path") ([] : headers) localhost) with
  | (f, Ok p) => (f, any_component_name <$> heap f !! p)
  | (f, Err _) => (f, None)
  end.

Fixpoint serve_many (n : nat) (f : Farm AnySocket) : Farm AnySocket * list (option str) :=
  match n with
  | O => (f, [])
  | S n => let '(f, r) := served_by f in let '(f, rs) := serve_many n f in (f, r :: rs)
  end.

Definition of_component (name : string) (f : Farm AnySocket) : list nat :=
  filter (λ p, match heap f !! p with
               | Some s => str_eqb (any_component_name s) (lit name)
               | None => false
               end = true) (socket_ids f).

Definition both_connected : Farm AnySocket :=
  connect "bgm-archive-kt" "p1" "p2" "p3" (connect "bgm-archive-kt-bak" "b1" "b2" "b3" farm_new).

Definition primary_killed (f : Farm AnySocket) : Farm AnySocket := foldr killed f (of_component "bgm-archive-kt" f).

Definition test_catch_all_fallback_and_recovery : list (option str) :=
  let '(f, first) := serve_many 1 both_connected in
  let '(f, fallback) := serve_many 6 (primary_killed f) in
  let '(f, recovered) := serve_many 1 (connect "bgm-archive-kt" "q1" "q2" "q3" f) in
  first ++ fallback ++ recovered.

(** The primary is preferred; when it is killed the backup serves this and five
    more requests at once; when it comes back it serves again. *)
Example catch_all_test_passes :
  test_catch_all_fallback_and_recovery =
  [Some (lit "bgm-archive-kt")] ++ replicate 6 (Some (lit "bgm-archive-kt-bak")) ++ [Some (lit "bgm-archive-kt")].
Proof. vm_compute. reflexivity. Qed.

End RouterTests.

Lemma catch_all_never_waits_witness :
  let f := RouterTests.primary_killed RouterTests.both_connected in
  let req := portal_request RouterTests.fallback_config (lit "GET") (RouterTests.path_uri "/test-path")
    ([] : Alist.headers) RouterTests.localhost in
  ∃ f' p', main_turn f req (STAR, 0) = (f', inl p') ∧ usable f p'.
Proof.
  cbv zeta. set (f := RouterTests.primary_killed _). set (req := portal_request _ _ _ _ _).
  destruct (catch_all_never_waits f req 0 0) as (f' & p' & Hm & Hu & _).
  - reflexivity.
  - reflexivity.
  - vm_compute. reflexivity.
  - apply (bool_decide_unpack _). vm_compute. exact I.
  - apply (bool_decide_unpack _). vm_compute. exact I.
  - unfold usable. destruct (heap f !! 0) as [s|] eqn:E.
    + exists s. split; [reflexivity|]. revert E. vm_compute. intros [= <-]. split; reflexivity.
    + exfalso. revert E. vm_compute. discriminate.
  - exists f', p'. split; [exact Hm|exact Hu].
Defined.
